(** * goiso9660: the layout planner and the binary encoders

    A shallow embedding of the Go package [iso9660] (name sanitiser,
    directory-record and path-table encoders, scanner, hidden-marking helper
    and layout planner), followed by the properties of the specification that
    were checked against it.

    Conventions.
    - A Go [string] and a Go [[]byte] are both sequences of bytes: [list Z]
      with every element meant to lie in [0, 256).
    - [uint32], [uint16] and [byte] values are [Z] with the wrap-around
      written out ([wrap32], [wrap16], [wrap8]).
    - A Go [int] is 64 bits wide on the supported platforms and never
      overflows on the quantities handled here; it is an unbounded [Z].
    - Slice indices ([parentIndex], [children]) are positions, hence [nat];
      a lookup outside the table is a run-time panic.
    - [log.Panicf] and an index out of range are [Panic]; a returned [error]
      is [Err]. *)

From Stdlib Require Import String Ascii.
From Stdlib Require Import ZArith List Bool Lia Sorting.Sorted Permutation.
Import ListNotations.

Local Open Scope Z_scope.
Set Warnings "-register-all".

(* ------------------------------------------------------------------ *)
(** ** Machine integers and bytes *)

Definition byte := Z.
Definition rune := Z.
Definition gostring := list byte.

Definition wrap8 (x : Z) : Z := x mod 256.
Definition wrap16 (x : Z) : Z := x mod 65536.
Definition wrap32 (x : Z) : Z := x mod 4294967296.

(** A string literal of the source, as its bytes. *)
Definition str (s : String.string) : gostring :=
  map (fun a => Z.of_N (N_of_ascii a)) (list_ascii_of_string s).

(** Go's [len] of a string or slice. *)
Definition len {A} (l : list A) : Z := Z.of_nat (length l).

Fixpoint eqbBytes (a b : gostring) : bool :=
  match a, b with
  | [], [] => true
  | x :: a', y :: b' => (x =? y) && eqbBytes a' b'
  | _, _ => false
  end.

(** [bytes.Compare] and the order of Go strings: lexicographic on bytes. *)
Fixpoint bytesCompare (a b : gostring) : comparison :=
  match a, b with
  | [], [] => Eq
  | [], _ :: _ => Lt
  | _ :: _, [] => Gt
  | x :: a', y :: b' =>
      match x ?= y with
      | Eq => bytesCompare a' b'
      | c => c
      end
  end.

Definition bytesLess (a b : gostring) : bool :=
  match bytesCompare a b with Lt => true | _ => false end.

(** [make([]byte, n)]. *)
Definition makeBytes (n : Z) : list byte := repeat 0 (Z.to_nat n).

(** [copy(dst[off:], src)]: overwrites as many bytes as fit, keeps the length. *)
Definition copyAt (off : nat) (src dst : list byte) : list byte :=
  firstn off dst
  ++ firstn (length dst - off) src
  ++ skipn (off + length src) dst.

Definition putLE16 (v : Z) : list byte := [wrap8 v; wrap8 (Z.shiftr v 8)].
Definition putBE16 (v : Z) : list byte := [wrap8 (Z.shiftr v 8); wrap8 v].
Definition putLE32 (v : Z) : list byte :=
  [wrap8 v; wrap8 (Z.shiftr v 8); wrap8 (Z.shiftr v 16); wrap8 (Z.shiftr v 24)].
Definition putBE32 (v : Z) : list byte :=
  [wrap8 (Z.shiftr v 24); wrap8 (Z.shiftr v 16); wrap8 (Z.shiftr v 8); wrap8 v].

(* ------------------------------------------------------------------ *)
(** ** Results of fallible code *)

Inductive result (A : Type) : Type :=
| Ok (a : A)
| Err
| Panic.
Arguments Ok {A} a.
Arguments Err {A}.
Arguments Panic {A}.

Definition bind {A B} (m : result A) (k : A -> result B) : result B :=
  match m with
  | Ok a => k a
  | Err => Err
  | Panic => Panic
  end.

Notation "x <- m ;; k" := (bind m (fun x => k))
  (at level 61, m at next level, right associativity).

(** [for i := range ...] over the indices [0 .. n-1], threading a state. *)
Fixpoint forRangeFrom {St} (body : nat -> St -> result St) (i n : nat) (s : St) : result St :=
  match n with
  | O => Ok s
  | S n' => s' <- body i s ;; forRangeFrom body (S i) n' s'
  end.

Definition forRange {St} (n : nat) (body : nat -> St -> result St) (s : St) : result St :=
  forRangeFrom body 0 n s.

(** Indexing a slice: out of range is a panic. *)
Definition index {A} (l : list A) (i : nat) : result A :=
  match nth_error l i with
  | Some a => Ok a
  | None => Panic
  end.

(** In-place update of the element at position [i]. *)
Fixpoint update {A} (i : nat) (f : A -> A) (l : list A) : list A :=
  match l, i with
  | [], _ => []
  | a :: t, O => f a :: t
  | a :: t, S i' => a :: update i' f t
  end.

(** [sort.Slice]: the library sorts with an unstable algorithm; the model is
    an insertion sort.  The properties below use only that the result is a
    permutation of the input that is ordered by [less]. *)
Fixpoint insertSorted {A} (less : A -> A -> bool) (x : A) (l : list A) : list A :=
  match l with
  | [] => [x]
  | y :: t => if less y x then y :: insertSorted less x t else x :: y :: t
  end.

Fixpoint sortSlice {A} (less : A -> A -> bool) (l : list A) : list A :=
  match l with
  | [] => []
  | x :: t => insertSorted less x (sortSlice less t)
  end.

(* ------------------------------------------------------------------ *)
(** ** UTF-8 and UTF-16 (packages [unicode/utf8], [unicode/utf16]) *)

Definition RuneError : rune := 65533.

(** The table [first] of [unicode/utf8]: for a lead byte, the length of the
    sequence and the accepted range of the second byte. *)
Definition leadInfo (b : byte) : option (Z * Z * Z) :=
  if b <? 194 then None
  else if b <=? 223 then Some (2, 128, 191)
  else if b =? 224 then Some (3, 160, 191)
  else if b <=? 236 then Some (3, 128, 191)
  else if b =? 237 then Some (3, 128, 159)
  else if b <=? 239 then Some (3, 128, 191)
  else if b =? 240 then Some (4, 144, 191)
  else if b <=? 243 then Some (4, 128, 191)
  else if b =? 244 then Some (4, 128, 143)
  else None.

Definition isCont (b : byte) : bool := (128 <=? b) && (b <=? 191).

(** [utf8.DecodeRuneInString]: the first rune of [s] and its width in bytes. *)
Definition decodeRune (s : gostring) : rune * nat :=
  match s with
  | [] => (RuneError, 0%nat)
  | s0 :: rest =>
      if s0 <? 128 then (s0, 1%nat)
      else
        match leadInfo s0 with
        | None => (RuneError, 1%nat)
        | Some (sz, lo, hi) =>
            if len s <? sz then (RuneError, 1%nat)
            else
              match rest with
              | [] => (RuneError, 1%nat)
              | s1 :: rest1 =>
                  if (s1 <? lo) || (hi <? s1) then (RuneError, 1%nat)
                  else if sz <=? 2 then
                    (Z.lor (Z.shiftl (Z.land s0 31) 6) (Z.land s1 63), 2%nat)
                  else
                    match rest1 with
                    | [] => (RuneError, 1%nat)
                    | s2 :: rest2 =>
                        if negb (isCont s2) then (RuneError, 1%nat)
                        else if sz <=? 3 then
                          (Z.lor (Z.lor (Z.shiftl (Z.land s0 15) 12)
                                        (Z.shiftl (Z.land s1 63) 6))
                                 (Z.land s2 63), 3%nat)
                        else
                          match rest2 with
                          | [] => (RuneError, 1%nat)
                          | s3 :: _ =>
                              if negb (isCont s3) then (RuneError, 1%nat)
                              else
                                (Z.lor (Z.lor (Z.lor (Z.shiftl (Z.land s0 7) 18)
                                                     (Z.shiftl (Z.land s1 63) 12))
                                              (Z.shiftl (Z.land s2 63) 6))
                                       (Z.land s3 63), 4%nat)
                          end
                    end
              end
        end
  end.

(** [[]rune(s)] and [for _, r := range s]: the runes of [s], every byte that
    starts no valid sequence giving [RuneError]. *)
Fixpoint runesFrom (skip : nat) (s : gostring) : list rune :=
  match s with
  | [] => []
  | _ :: t =>
      match skip with
      | S k => runesFrom k t
      | O => let '(r, size) := decodeRune s in r :: runesFrom (size - 1) t
      end
  end.

Definition runes (s : gostring) : list rune := runesFrom 0 s.

(** [utf8.AppendRune], which [strings.Builder.WriteRune] and [string(runes)]
    use. *)
Definition encodeRune (r : rune) : list byte :=
  if (0 <=? r) && (r <=? 127) then [r]
  else if (0 <=? r) && (r <=? 2047) then
    [Z.lor 192 (Z.shiftr r 6); Z.lor 128 (Z.land r 63)]
  else if ((0 <=? r) && (r <? 55296)) || ((57343 <? r) && (r <=? 65535)) then
    [Z.lor 224 (Z.shiftr r 12); Z.lor 128 (Z.land (Z.shiftr r 6) 63);
     Z.lor 128 (Z.land r 63)]
  else if (65535 <? r) && (r <=? 1114111) then
    [Z.lor 240 (Z.shiftr r 18); Z.lor 128 (Z.land (Z.shiftr r 12) 63);
     Z.lor 128 (Z.land (Z.shiftr r 6) 63); Z.lor 128 (Z.land r 63)]
  else [239; 191; 189].

(** [string(rs)] for a slice of runes. *)
Definition stringOfRunes (rs : list rune) : gostring := flat_map encodeRune rs.

(** [utf16.Encode]: one code unit per rune of the Basic Multilingual Plane,
    a surrogate pair for the others. *)
Definition utf16EncodeRune (v : rune) : list Z :=
  if ((0 <=? v) && (v <? 55296)) || ((57344 <=? v) && (v <? 65536)) then [wrap16 v]
  else if (65536 <=? v) && (v <=? 1114111) then
    let r := v - 65536 in
    [wrap16 (55296 + Z.land (Z.shiftr r 10) 1023); wrap16 (56320 + Z.land r 1023)]
  else [RuneError].

Definition utf16Encode (s : list rune) : list Z := flat_map utf16EncodeRune s.

(* ------------------------------------------------------------------ *)
(** ** The functions of package [strings] that the sanitiser calls *)

Definition isEmpty (s : gostring) : bool :=
  match s with [] => true | _ => false end.

(** [strings.LastIndex(s, c)] for a one-byte separator: -1 when absent. *)
Fixpoint lastIndexFrom (c : byte) (s : gostring) (i acc : Z) : Z :=
  match s with
  | [] => acc
  | b :: t => lastIndexFrom c t (i + 1) (if b =? c then i else acc)
  end.

Definition lastIndex (s : gostring) (c : byte) : Z := lastIndexFrom c s 0 (-1).

(** [strings.Contains(s, c)] for a one-byte substring. *)
Definition contains (s : gostring) (c : byte) : bool := existsb (Z.eqb c) s.

(** [strings.HasPrefix(s, c)] for a one-byte prefix. *)
Definition hasPrefix (s : gostring) (c : byte) : bool :=
  match s with
  | b :: _ => b =? c
  | [] => false
  end.

(** [strings.ReplaceAll(s, old, new)] for one-byte [old] and [new]. *)
Definition replaceAll (s : gostring) (old new : byte) : gostring :=
  map (fun b => if b =? old then new else b) s.

(** [strings.SplitN(s, c, 2)]: at most two parts, cut at the first [c]. *)
Fixpoint cutFirst (c : byte) (s : gostring) : option (gostring * gostring) :=
  match s with
  | [] => None
  | b :: t =>
      if b =? c then Some ([], t)
      else
        match cutFirst c t with
        | Some (l, r) => Some (b :: l, r)
        | None => None
        end
  end.

Definition splitN2 (s : gostring) (c : byte) : list gostring :=
  match cutFirst c s with
  | Some (l, r) => [l; r]
  | None => [s]
  end.

(** [strings.Map(mapping, s)]: every rune of [s] is replaced by its image,
    and dropped when the image is negative. *)
Definition stringsMap (mapping : rune -> rune) (s : gostring) : gostring :=
  flat_map (fun c => let r := mapping c in
                     if 0 <=? r then encodeRune r else [])
           (runes s).

(** The upper-case mapping restricted to ASCII: [a-z] go to [A-Z], every
    other rune to itself.  It agrees with [unicode.ToUpper] on every rune
    that is not a lower-case letter, U+FF21 and U+1F600 among them, and
    stands for the parameter [unicodeToUpper] of the planner on concrete
    inputs. *)
Definition asciiToUpper (r : rune) : rune :=
  if (97 <=? r) && (r <=? 122) then r - 32 else r.

Section Planner.

(** [unicode.ToUpper], the upper-case mapping of the Unicode tables of the Go
    library.  Nothing below depends on its values. *)
Variable unicodeToUpper : rune -> rune.

(** [strings.ToUpper]: a byte-wise pass for an ASCII string, otherwise
    [strings.Map(unicode.ToUpper, s)]. *)
Definition toUpper (s : gostring) : gostring :=
  if forallb (fun c => c <? 128) s then
    map (fun c => if (97 <=? c) && (c <=? 122) then c - 32 else c) s
  else stringsMap unicodeToUpper s.

(* ------------------------------------------------------------------ *)
(** ** Constants *)

Definition SectorSize : Z := 2048.
Definition JolietMaxFilenameChars : Z := 64.
Definition SystemAreaNumSectors : Z := 16.
Definition drFixedPartSize : Z := 33.
Definition ptRecFixedPartSize : Z := 8.

(* ------------------------------------------------------------------ *)
(** ** Sector arithmetic and the name sanitiser *)

(** [sectorsToContainBytes(byteSize int) uint32]. *)
Definition sectorsToContainBytes (byteSize : Z) : Z :=
  if byteSize =? 0 then 0
  else wrap32 (wrap32 byteSize + SectorSize - 1) / SectorSize.

(** [sectorsToContainFileBytes(fileDataSizeBytes uint32) uint32]. *)
Definition sectorsToContainFileBytes (fileDataSizeBytes : Z) : Z :=
  if fileDataSizeBytes =? 0 then 1
  else wrap32 (fileDataSizeBytes + SectorSize - 1) / SectorSize.

Definition isIsoChar (r : rune) : bool :=
  ((65 <=? r) && (r <=? 90)) || ((48 <=? r) && (r <=? 57)) || (r =? 95).

(** The closure [sanitizePartFunc] of [sanitizeISO9660Name]. *)
Definition sanitizePartFunc (part : gostring) (maxLength : Z) (allowDot : bool) : gostring :=
  let part := toUpper part in
  let sanitized :=
    flat_map (fun r =>
                if isIsoChar r then encodeRune r
                else if allowDot && (r =? 46) then encodeRune 46
                else encodeRune 95)
             (runes part) in
  if len sanitized >? maxLength then firstn (Z.to_nat maxLength) sanitized
  else sanitized.

Definition sanitizeISO9660Name (originalName : gostring) (isDirectory : bool) : gostring :=
  let nameToProcess := originalName in
  let '(base, ext) :=
    if negb isDirectory then
      let lastDot := lastIndex nameToProcess 46 in
      if negb (lastDot =? -1) && (lastDot <? len nameToProcess - 1) then
        (firstn (Z.to_nat lastDot) nameToProcess,
         skipn (Z.to_nat (lastDot + 1)) nameToProcess)
      else (nameToProcess, [])
    else (nameToProcess, []) in
  let maxBaseLen := 8 in
  let maxExtLen := 3 in
  let sanitizedBase := sanitizePartFunc base maxBaseLen (negb isDirectory) in
  if isDirectory then
    let sanitizedBase := replaceAll sanitizedBase 46 95 in
    let sanitizedBase :=
      if len sanitizedBase >? 8 then firstn 8 sanitizedBase else sanitizedBase in
    if isEmpty sanitizedBase then str "DIR" else sanitizedBase
  else
    let finalBase := sanitizedBase in
    let finalExt :=
      if negb (isEmpty ext) then sanitizePartFunc ext maxExtLen false else [] in
    let '(finalBase, finalExt) :=
      if contains finalBase 46 && isEmpty finalExt then
        match splitN2 finalBase 46 with
        | [part0; part1] =>
            let potentialBase := sanitizePartFunc part0 8 false in
            let potentialExt := sanitizePartFunc part1 3 false in
            if negb (isEmpty potentialBase) then
              (potentialBase,
               if negb (isEmpty potentialExt) then potentialExt else finalExt)
            else (finalBase, finalExt)
        | _ => (finalBase, finalExt)
        end
      else (finalBase, finalExt) in
    let finalBase := if len finalBase >? 8 then firstn 8 finalBase else finalBase in
    let finalName :=
      if negb (isEmpty finalExt) then finalBase ++ str "." ++ finalExt
      else finalBase in
    let finalName :=
      if isEmpty finalName || eqbBytes finalName (str ".") then str "FILE"
      else finalName in
    if hasPrefix finalName 46 && (len finalName >? 1)
       && negb (isEmpty finalExt) && isEmpty finalBase
    then finalExt
    else finalName.

(** [truncateJolietName]; the warning it logs is not modelled. *)
Definition truncateJolietName (originalName : gostring) : gostring :=
  if eqbBytes originalName [0] || eqbBytes originalName (str ".")
     || eqbBytes originalName (str "..")
  then originalName
  else
    let rs := runes originalName in
    if len rs >? JolietMaxFilenameChars then
      stringOfRunes (firstn (Z.to_nat JolietMaxFilenameChars) rs)
    else originalName.

(** [encodeUTF16BE]: every code unit of [utf16.Encode], high byte first. *)
Definition encodeUTF16BE (s : gostring) : list byte :=
  flat_map putBE16 (utf16Encode (runes s)).

(* ------------------------------------------------------------------ *)
(** ** Data model *)

(** [fileEntry]: one scanned file or directory. *)
Record fileEntry : Type := mkFileEntry {
  originalName : gostring;
  diskPath : gostring;
  isoPath : gostring;
  isDir : bool;
  level : Z;
  parentIndex : nat;
  children : list nat;
  iso9660Name : gostring;
  jolietName : gostring;
  iso9660Size : Z;
  jolietSize : Z;
  iso9660Sector : Z;
  jolietSector : Z;
  actualISO9660DrSize : Z;
  actualJolietDrSize : Z;
  pathTableDirNum : Z;
  isHidden : bool
}.

Definition setNames (i j : gostring) (f : fileEntry) : fileEntry :=
  mkFileEntry (originalName f) (diskPath f) (isoPath f) (isDir f) (level f)
    (parentIndex f) (children f) i j (iso9660Size f) (jolietSize f)
    (iso9660Sector f) (jolietSector f) (actualISO9660DrSize f)
    (actualJolietDrSize f) (pathTableDirNum f) (isHidden f).

Definition setDrSizes (i j : Z) (f : fileEntry) : fileEntry :=
  mkFileEntry (originalName f) (diskPath f) (isoPath f) (isDir f) (level f)
    (parentIndex f) (children f) (iso9660Name f) (jolietName f)
    (iso9660Size f) (jolietSize f) (iso9660Sector f) (jolietSector f) i j
    (pathTableDirNum f) (isHidden f).

Definition setIso9660Size (v : Z) (f : fileEntry) : fileEntry :=
  mkFileEntry (originalName f) (diskPath f) (isoPath f) (isDir f) (level f)
    (parentIndex f) (children f) (iso9660Name f) (jolietName f)
    v (jolietSize f) (iso9660Sector f) (jolietSector f)
    (actualISO9660DrSize f) (actualJolietDrSize f) (pathTableDirNum f)
    (isHidden f).

Definition setJolietSize (v : Z) (f : fileEntry) : fileEntry :=
  mkFileEntry (originalName f) (diskPath f) (isoPath f) (isDir f) (level f)
    (parentIndex f) (children f) (iso9660Name f) (jolietName f)
    (iso9660Size f) v (iso9660Sector f) (jolietSector f)
    (actualISO9660DrSize f) (actualJolietDrSize f) (pathTableDirNum f)
    (isHidden f).

Definition setIso9660Sector (v : Z) (f : fileEntry) : fileEntry :=
  mkFileEntry (originalName f) (diskPath f) (isoPath f) (isDir f) (level f)
    (parentIndex f) (children f) (iso9660Name f) (jolietName f)
    (iso9660Size f) (jolietSize f) v (jolietSector f)
    (actualISO9660DrSize f) (actualJolietDrSize f) (pathTableDirNum f)
    (isHidden f).

Definition setJolietSector (v : Z) (f : fileEntry) : fileEntry :=
  mkFileEntry (originalName f) (diskPath f) (isoPath f) (isDir f) (level f)
    (parentIndex f) (children f) (iso9660Name f) (jolietName f)
    (iso9660Size f) (jolietSize f) (iso9660Sector f) v
    (actualISO9660DrSize f) (actualJolietDrSize f) (pathTableDirNum f)
    (isHidden f).

Definition setIsHidden (v : bool) (f : fileEntry) : fileEntry :=
  mkFileEntry (originalName f) (diskPath f) (isoPath f) (isDir f) (level f)
    (parentIndex f) (children f) (iso9660Name f) (jolietName f)
    (iso9660Size f) (jolietSize f) (iso9660Sector f) (jolietSector f)
    (actualISO9660DrSize f) (actualJolietDrSize f) (pathTableDirNum f) v.

Definition appendChild (c : nat) (f : fileEntry) : fileEntry :=
  mkFileEntry (originalName f) (diskPath f) (isoPath f) (isDir f) (level f)
    (parentIndex f) (children f ++ [c]) (iso9660Name f) (jolietName f)
    (iso9660Size f) (jolietSize f) (iso9660Sector f) (jolietSector f)
    (actualISO9660DrSize f) (actualJolietDrSize f) (pathTableDirNum f)
    (isHidden f).

(** The eight path-table addresses and the four pre-generated tables. *)
Record pathTableLBAs : Type := mkPathTableLBAs {
  lbaPvdPathTableL : Z;
  lbaPvdPathTableM : Z;
  lbaSvdPathTableL : Z;
  lbaSvdPathTableM : Z;
  lbaPvdPathTableL2 : Z;
  lbaPvdPathTableM2 : Z;
  lbaSvdPathTableL2 : Z;
  lbaSvdPathTableM2 : Z
}.

Record pathTableData : Type := mkPathTableData {
  pvdPathTableLData : list byte;
  pvdPathTableMData : list byte;
  svdPathTableLData : list byte;
  svdPathTableMData : list byte
}.

(** [ISOBuilder]; the [options], which only the volume descriptors read, are
    left out. *)
Record ISOBuilder : Type := mkISOBuilder {
  sourceDir : gostring;
  outputFilename : gostring;
  fileEntries : list fileEntry;
  totalSectors : Z;
  ptLBAs : pathTableLBAs;
  ptData : pathTableData;
  pvdRootDirExtentSize : Z;
  svdRootDirExtentSize : Z
}.

Definition setFileEntries (es : list fileEntry) (b : ISOBuilder) : ISOBuilder :=
  mkISOBuilder (sourceDir b) (outputFilename b) es (totalSectors b) (ptLBAs b)
    (ptData b) (pvdRootDirExtentSize b) (svdRootDirExtentSize b).

Definition setTotalSectors (v : Z) (b : ISOBuilder) : ISOBuilder :=
  mkISOBuilder (sourceDir b) (outputFilename b) (fileEntries b) v (ptLBAs b)
    (ptData b) (pvdRootDirExtentSize b) (svdRootDirExtentSize b).

Definition setPtLBAs (v : pathTableLBAs) (b : ISOBuilder) : ISOBuilder :=
  mkISOBuilder (sourceDir b) (outputFilename b) (fileEntries b) (totalSectors b)
    v (ptData b) (pvdRootDirExtentSize b) (svdRootDirExtentSize b).

Definition setPtData (v : pathTableData) (b : ISOBuilder) : ISOBuilder :=
  mkISOBuilder (sourceDir b) (outputFilename b) (fileEntries b) (totalSectors b)
    (ptLBAs b) v (pvdRootDirExtentSize b) (svdRootDirExtentSize b).

Definition setRootDirExtentSizes (p s : Z) (b : ISOBuilder) : ISOBuilder :=
  mkISOBuilder (sourceDir b) (outputFilename b) (fileEntries b) (totalSectors b)
    (ptLBAs b) (ptData b) p s.

(** [b.fileEntries[i] = f(b.fileEntries[i])]. *)
Definition updateEntry (i : nat) (f : fileEntry -> fileEntry) (b : ISOBuilder) : ISOBuilder :=
  setFileEntries (update i f (fileEntries b)) b.

(** [directoryRecordFields]. *)
Record directoryRecordFields : Type := mkDirectoryRecordFields {
  drExtendedAttributeRecordLength : byte;
  LocationExtent : Z;
  DataLength : Z;
  RecordingTime : list byte;
  FileFlags : byte;
  FileUnitSize : byte;
  InterleaveGapSize : byte;
  drVolumeSequenceNumber : Z
}.

(** [pathTableRecordFields]. *)
Record pathTableRecordFields : Type := mkPathTableRecordFields {
  ptExtendedAttributeRecordLength : byte;
  LocationOfExtent : Z;
  ParentDirectoryNumber : Z
}.

(** The calendar fields of a [time.Time] in UTC. *)
Record goTime : Type := mkGoTime {
  tYear : Z; tMonth : Z; tDay : Z; tHour : Z; tMinute : Z; tSecond : Z
}.

(** The host: [os.Stat(path).ModTime().UTC()] ([None] when [os.Stat] fails)
    and [time.Now().UTC()]. *)
Variable statModTime : gostring -> option goTime.
Variable nowUTC : goTime.

(* ------------------------------------------------------------------ *)
(** ** Directory-record encoder *)

(** [marshalDirectoryRecord]; its [error] result is always [nil]. *)
Definition marshalDirectoryRecord (fields : directoryRecordFields) (identifier : list byte) : list byte :=
  let identifierLen := wrap8 (len identifier) in
  let recordLen := drFixedPartSize + identifierLen in
  let recordLen := if negb (recordLen mod 2 =? 0) then recordLen + 1 else recordLen in
  let buf := makeBytes recordLen in
  let buf := copyAt 0 [wrap8 recordLen] buf in
  let buf := copyAt 1 [drExtendedAttributeRecordLength fields] buf in
  let buf := copyAt 2 (putLE32 (LocationExtent fields)) buf in
  let buf := copyAt 6 (putBE32 (LocationExtent fields)) buf in
  let buf := copyAt 10 (putLE32 (DataLength fields)) buf in
  let buf := copyAt 14 (putBE32 (DataLength fields)) buf in
  let buf := copyAt 18 (firstn 7 (RecordingTime fields)) buf in
  let buf := copyAt 25 [FileFlags fields] buf in
  let buf := copyAt 26 [FileUnitSize fields] buf in
  let buf := copyAt 27 [InterleaveGapSize fields] buf in
  let buf := copyAt 28 (putLE16 (drVolumeSequenceNumber fields)) buf in
  let buf := copyAt 30 (putBE16 (drVolumeSequenceNumber fields)) buf in
  let buf := copyAt 32 [identifierLen] buf in
  copyAt 33 identifier buf.

(** [populateDirectoryRecordFields]. *)
Definition populateDirectoryRecordFields (extentLBA extentOrDataSize : Z)
    (drIDNameToEncode : gostring) (targetEntry : fileEntry) : directoryRecordFields :=
  let fileTime :=
    if negb (isEmpty (diskPath targetEntry)) then
      match statModTime (diskPath targetEntry) with
      | Some t => t
      | None => nowUTC
      end
    else nowUTC in
  let recordingTime :=
    [wrap8 (tYear fileTime - 1900); wrap8 (tMonth fileTime); wrap8 (tDay fileTime);
     wrap8 (tHour fileTime); wrap8 (tMinute fileTime); wrap8 (tSecond fileTime); 0] in
  let baseFileFlags := if isDir targetEntry then Z.lor 0 2 else 0 in
  let finalFileFlags :=
    if negb (eqbBytes drIDNameToEncode (str ".")) && negb (eqbBytes drIDNameToEncode (str ".."))
       && negb (eqbBytes drIDNameToEncode []) && negb (eqbBytes drIDNameToEncode [0])
    then (if isHidden targetEntry then Z.lor baseFileFlags 1 else baseFileFlags)
    else baseFileFlags in
  mkDirectoryRecordFields 0 extentLBA extentOrDataSize recordingTime
    finalFileFlags 0 0 1.

(** [getDRIdentifierBytes]. *)
Definition getDRIdentifierBytes (name : gostring) (isJoliet isIdentifierForRootItself : bool) : list byte :=
  if isJoliet then
    if isIdentifierForRootItself && (eqbBytes name [0] || eqbBytes name (str "."))
    then [0]
    else if eqbBytes name (str ".") then encodeUTF16BE (str ".")
    else if eqbBytes name (str "..") then encodeUTF16BE (str "..")
    else encodeUTF16BE name
  else if eqbBytes name (str ".") || (isIdentifierForRootItself && eqbBytes name [])
  then [0]
  else if eqbBytes name (str "..") then [1]
  else name.

(** [createDirectoryRecordBytes]. *)
Definition createDirectoryRecordBytes (extentLBA extentOrDataSize : Z)
    (drIDNameToEncode : gostring) (targetEntry : fileEntry) (isJoliet : bool) : list byte :=
  let drFields :=
    populateDirectoryRecordFields extentLBA extentOrDataSize drIDNameToEncode targetEntry in
  let isTargetEntryRoot := pathTableDirNum targetEntry =? 1 in
  let isNameForRootItself :=
    if isTargetEntryRoot then
      if isJoliet && (eqbBytes drIDNameToEncode [0] || eqbBytes drIDNameToEncode (str "."))
      then true
      else if negb isJoliet
              && (eqbBytes drIDNameToEncode [] || eqbBytes drIDNameToEncode (str "."))
      then true
      else false
    else false in
  let identifierBytes := getDRIdentifierBytes drIDNameToEncode isJoliet isNameForRootItself in
  marshalDirectoryRecord drFields identifierBytes.

(** [calculateDirectoryRecordSize]. *)
Definition calculateDirectoryRecordSize (identifierBytes : list byte) : Z :=
  let length := drFixedPartSize + len identifierBytes in
  if negb (length mod 2 =? 0) then length + 1 else length.

(** The comparison of [createDirectoryListing]'s [sort.Slice]: the order of
    Go strings on the names of the namespace. *)
Definition listingLess (isJoliet : bool) (x y : fileEntry) : bool :=
  if isJoliet then bytesLess (jolietName x) (jolietName y)
  else bytesLess (iso9660Name x) (iso9660Name y).

(** What the loop of [createDirectoryListing] passes on for one child:
    address, size, name and expected record length. *)
Definition childRecordArgs (isJoliet : bool) (childEntry : fileEntry) : Z * Z * gostring * Z :=
  if isDir childEntry then
    if isJoliet then
      (jolietSector childEntry, jolietSize childEntry, jolietName childEntry,
       actualJolietDrSize childEntry)
    else
      (iso9660Sector childEntry, iso9660Size childEntry, iso9660Name childEntry,
       actualISO9660DrSize childEntry)
  else
    if isJoliet then
      (iso9660Sector childEntry, iso9660Size childEntry, jolietName childEntry,
       actualJolietDrSize childEntry)
    else
      (iso9660Sector childEntry, iso9660Size childEntry, iso9660Name childEntry,
       actualISO9660DrSize childEntry).

(** The record of one child, or the panic [CriticalDRLenMismatch]. *)
Definition childRecord (isJoliet : bool) (childEntry : fileEntry) : result (list byte) :=
  let '(childLBA, childSizeOrDataLen, childRecordName, expectedChildDRLen) :=
    childRecordArgs isJoliet childEntry in
  let childDRBytes :=
    createDirectoryRecordBytes childLBA childSizeOrDataLen childRecordName childEntry isJoliet in
  if negb (len childDRBytes =? expectedChildDRLen) then Panic
  else Ok childDRBytes.

(** [for _, x := range xs { y := f(x); buffer.Write(y) }] *)
Fixpoint writeAll {A} (f : A -> result (list byte)) (xs : list A) : result (list byte) :=
  match xs with
  | [] => Ok []
  | x :: t => y <- f x ;; rest <- writeAll f t ;; Ok (y ++ rest)
  end.

(** [childrenEntries[i] = b.fileEntries[idx]] for every child index. *)
Fixpoint lookupAll (es : list fileEntry) (idxs : list nat) : result (list fileEntry) :=
  match idxs with
  | [] => Ok []
  | i :: t => e <- index es i ;; rest <- lookupAll es t ;; Ok (e :: rest)
  end.

(** The children of a directory in the order in which the listing emits
    them. *)
Definition sortedChildren (b : ISOBuilder) (currentDir : fileEntry) (isJoliet : bool) : result (list fileEntry) :=
  childrenEntries <- lookupAll (fileEntries b) (children currentDir) ;;
  Ok (sortSlice (listingLess isJoliet) childrenEntries).

(** [createDirectoryListing]. *)
Definition createDirectoryListing (b : ISOBuilder) (dirEntryIndex : nat) (isJoliet : bool) : result (list byte) :=
  currentDir <- index (fileEntries b) dirEntryIndex ;;
  let '(selfLBA, selfExtentSizeBytes) :=
    if isJoliet then (jolietSector currentDir, jolietSize currentDir)
    else (iso9660Sector currentDir, iso9660Size currentDir) in
  let dotDRBytes :=
    createDirectoryRecordBytes selfLBA selfExtentSizeBytes (str ".") currentDir isJoliet in
  let expectedDotDRLen :=
    calculateDirectoryRecordSize
      (getDRIdentifierBytes (str ".") isJoliet (pathTableDirNum currentDir =? 1)) in
  if negb (len dotDRBytes =? expectedDotDRLen) then Panic
  else
    parentDir <- index (fileEntries b) (parentIndex currentDir) ;;
    let '(parentLBA, parentExtentSizeBytes) :=
      if isJoliet then (jolietSector parentDir, jolietSize parentDir)
      else (iso9660Sector parentDir, iso9660Size parentDir) in
    let dotDotDRBytes :=
      createDirectoryRecordBytes parentLBA parentExtentSizeBytes (str "..") parentDir isJoliet in
    let expectedDotDotDRLen :=
      calculateDirectoryRecordSize (getDRIdentifierBytes (str "..") isJoliet false) in
    if negb (len dotDotDRBytes =? expectedDotDotDRLen) then Panic
    else
      childrenEntries <- sortedChildren b currentDir isJoliet ;;
      childBytes <- writeAll (childRecord isJoliet) childrenEntries ;;
      Ok (dotDRBytes ++ dotDotDRBytes ++ childBytes).

(* ------------------------------------------------------------------ *)
(** ** Path-table encoder *)

(** [marshalPathTableRecord]; its [error] result is always [nil]. *)
Definition marshalPathTableRecord (fields : pathTableRecordFields)
    (identifier : list byte) (useBigEndian : bool) : list byte :=
  let identifierLen := wrap8 (len identifier) in
  let recordFinalLen := ptRecFixedPartSize + identifierLen in
  let recordFinalLen :=
    if negb (len identifier mod 2 =? 0) then recordFinalLen + 1 else recordFinalLen in
  let record := makeBytes recordFinalLen in
  let record := copyAt 0 [identifierLen] record in
  let record := copyAt 1 [ptExtendedAttributeRecordLength fields] record in
  let record :=
    if useBigEndian then
      copyAt 6 (putBE16 (ParentDirectoryNumber fields))
        (copyAt 2 (putBE32 (LocationOfExtent fields)) record)
    else
      copyAt 6 (putLE16 (ParentDirectoryNumber fields))
        (copyAt 2 (putLE32 (LocationOfExtent fields)) record) in
  copyAt 8 identifier record.

(** The identifier of a directory in a path table. *)
Definition pathTableIdentifier (isJoliet : bool) (dir : fileEntry) : list byte :=
  if pathTableDirNum dir =? 1 then [0]
  else if isJoliet then encodeUTF16BE (jolietName dir)
  else iso9660Name dir.

(** [b.fileEntries[dir.parentIndex].pathTableDirNum] inside the comparison of
    the sort.  The scanner only stores parent indices that are in range; for
    an index out of range, where Go would panic once the sort compares such
    an entry, the number is taken as 0. *)
Definition parentDirNum (b : ISOBuilder) (dir : fileEntry) : Z :=
  match nth_error (fileEntries b) (parentIndex dir) with
  | Some p => pathTableDirNum p
  | None => 0
  end.

(** The comparison of [createPathTable]'s [sort.Slice]. *)
Definition pathTableLess (b : ISOBuilder) (isJoliet useBigEndian : bool) (dirI dirJ : fileEntry) : bool :=
  if useBigEndian then
    let nameIBytes := pathTableIdentifier isJoliet dirI in
    let nameJBytes := pathTableIdentifier isJoliet dirJ in
    if negb (Nat.eqb (parentIndex dirI) (parentIndex dirJ))
       && negb (parentDirNum b dirI =? parentDirNum b dirJ)
    then parentDirNum b dirI <? parentDirNum b dirJ
    else match bytesCompare nameIBytes nameJBytes with Lt => true | _ => false end
  else pathTableDirNum dirI <? pathTableDirNum dirJ.

(** The directories of the table, in the order of their records. *)
Definition pathTableDirs (b : ISOBuilder) (isJoliet useBigEndian : bool) : list fileEntry :=
  sortSlice (pathTableLess b isJoliet useBigEndian)
    (filter (fun fe => isDir fe && (pathTableDirNum fe >? 0)) (fileEntries b)).

(** The body of the second loop of [createPathTable]: one record. *)
Definition pathTableRecord (b : ISOBuilder) (isJoliet useBigEndian : bool) (dir : fileEntry) : result (list byte) :=
  identifierAndParent <-
    (if pathTableDirNum dir =? 1 then Ok ([0], 1)
     else
       p <- index (fileEntries b) (parentIndex dir) ;;
       Ok (if isJoliet then encodeUTF16BE (jolietName dir) else iso9660Name dir,
           pathTableDirNum p)) ;;
  let '(identifierBytes, parentNumber) := identifierAndParent in
  let ptFields :=
    mkPathTableRecordFields 0
      (if isJoliet then jolietSector dir else iso9660Sector dir) parentNumber in
  Ok (marshalPathTableRecord ptFields identifierBytes useBigEndian).

(** [createPathTable]. *)
Definition createPathTable (b : ISOBuilder) (isJoliet useBigEndian : bool) : result (list byte) :=
  writeAll (pathTableRecord b isJoliet useBigEndian) (pathTableDirs b isJoliet useBigEndian).

(** [calculatePathTableTotalBytes]. *)
Definition calculatePathTableTotalBytes (b : ISOBuilder) (isJoliet : bool) : Z :=
  fold_left
    (fun totalBytes fe =>
       if isDir fe && (pathTableDirNum fe >? 0) then
         let identifierBytes := pathTableIdentifier isJoliet fe in
         let recordFinalLen := ptRecFixedPartSize + len identifierBytes in
         let recordFinalLen :=
           if negb (len identifierBytes mod 2 =? 0) then recordFinalLen + 1
           else recordFinalLen in
         totalBytes + recordFinalLen
       else totalBytes)
    (fileEntries b) 0.

(* ------------------------------------------------------------------ *)
(** ** Layout planner *)

(** The body of the loop of [assignSanitizedNamesAndDrSizes]. *)
Definition assignSanitizedNameAndDrSize (f : fileEntry) : fileEntry :=
  let isRootEntry := pathTableDirNum f =? 1 in
  let f :=
    if isDir f then
      if isRootEntry then setNames [] [0] f
      else setNames (sanitizeISO9660Name (originalName f) true)
                    (truncateJolietName (originalName f)) f
    else setNames (sanitizeISO9660Name (originalName f) false ++ str ";1")
                  (truncateJolietName (originalName f)) f in
  setDrSizes
    (calculateDirectoryRecordSize (getDRIdentifierBytes (iso9660Name f) false isRootEntry))
    (calculateDirectoryRecordSize (getDRIdentifierBytes (jolietName f) true isRootEntry))
    f.

(** [assignSanitizedNamesAndDrSizes]; it always returns [nil]. *)
Definition assignSanitizedNamesAndDrSizes (b : ISOBuilder) : result ISOBuilder :=
  forRange (length (fileEntries b))
    (fun i b => Ok (updateEntry i assignSanitizedNameAndDrSize b)) b.

(** [totalDRBytes += childDrSize] over the children. *)
Fixpoint sumChildDrSizes (es : list fileEntry) (isJoliet : bool) (idxs : list nat) (totalDRBytes : Z) : result Z :=
  match idxs with
  | [] => Ok totalDRBytes
  | childIndex :: t =>
      child <- index es childIndex ;;
      let childDrSize :=
        if isJoliet then actualJolietDrSize child else actualISO9660DrSize child in
      sumChildDrSizes es isJoliet t (totalDRBytes + childDrSize)
  end.

(** [calculateSingleDirectoryExtentSizeBytes]. *)
Definition calculateSingleDirectoryExtentSizeBytes (b : ISOBuilder) (dirEntryIndex : nat) (isJoliet : bool) : result Z :=
  dirEntry <- index (fileEntries b) dirEntryIndex ;;
  let isDirEntryRoot := pathTableDirNum dirEntry =? 1 in
  let dotIdentBytes := getDRIdentifierBytes (str ".") isJoliet isDirEntryRoot in
  let dotDRSize := calculateDirectoryRecordSize dotIdentBytes in
  let dotDotIdentBytes := getDRIdentifierBytes (str "..") isJoliet false in
  let dotDotDRSize := calculateDirectoryRecordSize dotDotIdentBytes in
  totalDRBytes <-
    sumChildDrSizes (fileEntries b) isJoliet (children dirEntry) (dotDRSize + dotDotDRSize) ;;
  if totalDRBytes =? 0 then Panic
  else
    let numSectors := wrap32 (wrap32 totalDRBytes + SectorSize - 1) / SectorSize in
    let finalExtentSizeBytes := wrap32 (numSectors * SectorSize) in
    if finalExtentSizeBytes =? 0 then Panic
    else Ok finalExtentSizeBytes.

(** The body of the loop of [calculateAllDirectoryExtentSizes]. *)
Definition assignDirectoryExtentSizes (i : nat) (b : ISOBuilder) : result ISOBuilder :=
  f <- index (fileEntries b) i ;;
  if isDir f then
    sz <- calculateSingleDirectoryExtentSizeBytes b i false ;;
    let b := updateEntry i (setIso9660Size sz) b in
    sz <- calculateSingleDirectoryExtentSizeBytes b i true ;;
    Ok (updateEntry i (setJolietSize sz) b)
  else Ok b.

(** [calculateAllDirectoryExtentSizes]. *)
Definition calculateAllDirectoryExtentSizes (b : ISOBuilder) : result ISOBuilder :=
  b <- forRange (length (fileEntries b)) assignDirectoryExtentSizes b ;;
  root <- index (fileEntries b) 0 ;;
  Ok (setRootDirExtentSizes (iso9660Size root) (jolietSize root) b).

(** [assignPathTableSetLBAs]. *)
Definition assignPathTableSetLBAs (startLBA numSectorsL numSectorsM : Z) : Z * Z * Z :=
  let lbaL := startLBA in
  let nextLBA := wrap32 (startLBA + numSectorsL) in
  let lbaM := nextLBA in
  let nextLBA := wrap32 (nextLBA + numSectorsM) in
  (lbaL, lbaM, nextLBA).

(** [determinePathTableLBAs]. *)
Definition determinePathTableLBAs (b : ISOBuilder) (startLBA : Z) : ISOBuilder * Z :=
  let currentLBA := startLBA in
  let pvdPtLBytes := calculatePathTableTotalBytes b false in
  let svdPtLBytes := calculatePathTableTotalBytes b true in
  let numSecPvdL := sectorsToContainBytes pvdPtLBytes in
  let numSecPvdM := numSecPvdL in
  let numSecSvdL := sectorsToContainBytes svdPtLBytes in
  let numSecSvdM := numSecSvdL in
  let '(pL, pM, currentLBA) := assignPathTableSetLBAs currentLBA numSecPvdL numSecPvdM in
  let '(sL, sM, currentLBA) := assignPathTableSetLBAs currentLBA numSecSvdL numSecSvdM in
  let '(pL2, pM2, currentLBA) := assignPathTableSetLBAs currentLBA numSecPvdL numSecPvdM in
  let '(sL2, sM2, currentLBA) := assignPathTableSetLBAs currentLBA numSecSvdL numSecSvdM in
  (setPtLBAs (mkPathTableLBAs pL pM sL sM pL2 pM2 sL2 sM2) b, currentLBA).

(** The three loops of [assignContentLBAs]; the state is the builder and
    [currentLBA]. *)
Definition assignIso9660DirLBA (i : nat) (st : ISOBuilder * Z) : result (ISOBuilder * Z) :=
  let '(b, currentLBA) := st in
  f <- index (fileEntries b) i ;;
  if isDir f then
    let b := updateEntry i (setIso9660Sector currentLBA) b in
    if iso9660Size f =? 0 then Panic
    else if negb (iso9660Size f mod SectorSize =? 0) then Panic
    else
      let numSectors := iso9660Size f / SectorSize in
      Ok (b, wrap32 (currentLBA + numSectors))
  else Ok (b, currentLBA).

Definition assignFileLBA (i : nat) (st : ISOBuilder * Z) : result (ISOBuilder * Z) :=
  let '(b, currentLBA) := st in
  f <- index (fileEntries b) i ;;
  if negb (isDir f) then
    let b := updateEntry i (setIso9660Sector currentLBA) b in
    let b := updateEntry i (setJolietSector currentLBA) b in
    let numSectors := sectorsToContainFileBytes (iso9660Size f) in
    Ok (b, wrap32 (currentLBA + numSectors))
  else Ok (b, currentLBA).

Definition assignJolietDirLBA (i : nat) (st : ISOBuilder * Z) : result (ISOBuilder * Z) :=
  let '(b, currentLBA) := st in
  f <- index (fileEntries b) i ;;
  if isDir f then
    let b := updateEntry i (setJolietSector currentLBA) b in
    if jolietSize f =? 0 then Panic
    else if negb (jolietSize f mod SectorSize =? 0) then Panic
    else
      let numSectors := jolietSize f / SectorSize in
      Ok (b, wrap32 (currentLBA + numSectors))
  else Ok (b, currentLBA).

(** [assignContentLBAs]. *)
Definition assignContentLBAs (b : ISOBuilder) (startLBA : Z) : result (ISOBuilder * Z) :=
  let n := length (fileEntries b) in
  st <- forRange n assignIso9660DirLBA (b, startLBA) ;;
  st <- forRange n assignFileLBA st ;;
  forRange n assignJolietDirLBA st.

(** [pregeneratePathTables]. *)
Definition pregeneratePathTables (b : ISOBuilder) : result ISOBuilder :=
  pvdL <- createPathTable b false false ;;
  pvdM <- createPathTable b false true ;;
  svdL <- createPathTable b true false ;;
  svdM <- createPathTable b true true ;;
  let b := setPtData (mkPathTableData pvdL pvdM svdL svdM) b in
  if negb (len (pvdPathTableLData (ptData b)) =? calculatePathTableTotalBytes b false) then Err
  else if negb (len (svdPathTableLData (ptData b)) =? calculatePathTableTotalBytes b true) then Err
  else if negb (len (pvdPathTableMData (ptData b)) =? calculatePathTableTotalBytes b false) then Err
  else if negb (len (svdPathTableMData (ptData b)) =? calculatePathTableTotalBytes b true) then Err
  else Ok b.

(** [calculateLayout]. *)
Definition calculateLayout (b : ISOBuilder) : result ISOBuilder :=
  b <- assignSanitizedNamesAndDrSizes b ;;
  b <- calculateAllDirectoryExtentSizes b ;;
  let currentLBA := wrap32 (SystemAreaNumSectors + 3) in
  let '(b, currentLBA) := determinePathTableLBAs b currentLBA in
  st <- assignContentLBAs b currentLBA ;;
  let '(b, currentLBA) := st in
  let b := setTotalSectors currentLBA b in
  let b := setTotalSectors (wrap32 (totalSectors b + 1)) b in
  pregeneratePathTables b.

(* ------------------------------------------------------------------ *)
(** ** Scanner *)

(** The source tree as [os.ReadDir] and [os.DirEntry] present it: a regular
    file with its size (an [int64]), a directory with what [os.ReadDir]
    returns for it ([None] when it fails), anything else (a link, a device),
    or an entry whose [Info()] fails, whatever its kind (it vanished after
    the listing was read). *)
Inductive osNode : Type :=
| OsRegular (name : gostring) (size : Z)
| OsDirectory (name : gostring) (listing : option (list osNode))
| OsOther (name : gostring)
| OsNoInfo (name : gostring).

Definition osName (e : osNode) : gostring :=
  match e with
  | OsRegular name _ => name
  | OsDirectory name _ => name
  | OsOther name => name
  | OsNoInfo name => name
  end.

(** A path ends with the separator; of the cleaned paths only the root
    ["/"] does. *)
Definition endsWithSeparator (dir : gostring) : bool := last dir 0 =? 47.

(** A directory path followed by the separator that precedes what lies
    below it. *)
Definition withSeparator (dir : gostring) : gostring :=
  if endsWithSeparator dir then dir else dir ++ str "/".

(** [filepath.Join(dir, name)] on the arguments of the scanner: [dir] is an
    absolute path in the cleaned form in which [filepath.Abs] and
    [filepath.Join] return it, and [name] is one path element as
    [os.ReadDir] gives it (not empty, without separator, neither [.] nor
    [..]).  Cleaning leaves such a joined path as it is; a separator is
    added unless [dir] is the root. *)
Definition filepathJoin (dir name : gostring) : gostring := withSeparator dir ++ name.

(** [filepath.ToSlash(filepath.Rel(base, full))] for a cleaned [full] below
    the cleaned absolute [base]: what follows [base] and the separator.
    [filepath.Rel] returns an error only when one path is absolute and the
    other is not, or when [base] keeps a [..] element; both paths of the
    scanner are absolute and cleaned, so that branch of the scanner is never
    taken and has no counterpart here. *)
Definition filepathRel (base full : gostring) : gostring :=
  skipn (length (withSeparator base)) full.

Definition newFileEntry (name disk iso : gostring) (dir : bool) (lvl : Z)
    (parent : nat) (size : Z) (num : Z) : fileEntry :=
  mkFileEntry name disk iso dir lvl parent [] [] [] size size 0 0 0 0 num false.

(** [b.fileEntries = append(b.fileEntries, fe)] followed by the registration
    of the new index with the parent. *)
Definition appendEntry (fe : fileEntry) (parentEntryIndex : nat) (b : ISOBuilder) : ISOBuilder :=
  let b := setFileEntries (fileEntries b ++ [fe]) b in
  let newEntryIndex := (length (fileEntries b) - 1)%nat in
  updateEntry parentEntryIndex (appendChild newEntryIndex) b.

Section ScanLoop.
Variable scanOne : osNode -> ISOBuilder * Z -> result (ISOBuilder * Z).

(** [for _, osEntry := range osEntries]. *)
Fixpoint scanLoop (osEntries : list osNode) (st : ISOBuilder * Z) : result (ISOBuilder * Z) :=
  match osEntries with
  | [] => Ok st
  | osEntry :: rest => st' <- scanOne osEntry st ;; scanLoop rest st'
  end.
End ScanLoop.

(** The body of the loop of [scanDirectoryRecursive] for one entry; the state
    is the builder and [*nextPathTableNumber] (a [uint16]).  The error of
    [osEntry.Info()] comes first; the level of the parent is read, with a
    panic outside the table, before the kind of the entry is looked at. *)
Fixpoint scanEntry (currentDiskPath : gostring) (parentEntryIndex : nat)
    (sourceBaseDiskPath : gostring) (osEntry : osNode) (st : ISOBuilder * Z)
    {struct osEntry} : result (ISOBuilder * Z) :=
  let '(b, nextPathTableNumber) := st in
  let fullDiskPath := filepathJoin currentDiskPath (osName osEntry) in
  let currentIsoPath := str "/" ++ filepathRel sourceBaseDiskPath fullDiskPath in
  match osEntry with
  | OsNoInfo _ => Err
  | OsDirectory name listing =>
      parent <- index (fileEntries b) parentEntryIndex ;;
      let fe := newFileEntry name fullDiskPath currentIsoPath true (level parent + 1)
                  parentEntryIndex 0 nextPathTableNumber in
      let nextPathTableNumber := wrap16 (nextPathTableNumber + 1) in
      let newEntryIndex := length (fileEntries b) in
      let b := appendEntry fe parentEntryIndex b in
      match listing with
      | None => Err
      | Some osEntries =>
          scanLoop (scanEntry fullDiskPath newEntryIndex sourceBaseDiskPath)
            osEntries (b, nextPathTableNumber)
      end
  | OsRegular name size =>
      parent <- index (fileEntries b) parentEntryIndex ;;
      let fe := newFileEntry name fullDiskPath currentIsoPath false (level parent + 1)
                  parentEntryIndex (wrap32 size) 0 in
      Ok (appendEntry fe parentEntryIndex b, nextPathTableNumber)
  | OsOther _ =>
      parent <- index (fileEntries b) parentEntryIndex ;;
      Ok (b, nextPathTableNumber)
  end.

(** [scanDirectoryRecursive], given what [os.ReadDir(currentDiskPath)]
    returns. *)
Definition scanDirectoryRecursive (currentDiskPath : gostring) (parentEntryIndex : nat)
    (sourceBaseDiskPath : gostring) (listing : option (list osNode))
    (st : ISOBuilder * Z) : result (ISOBuilder * Z) :=
  match listing with
  | None => Err
  | Some osEntries =>
      scanLoop (scanEntry currentDiskPath parentEntryIndex sourceBaseDiskPath) osEntries st
  end.

(** [ScanSourceDirectory], given what the host returns: [abs] for
    [filepath.Abs(b.sourceDir)] ([None] when it fails) and [listing] for the
    content of the source directory. *)
Definition ScanSourceDirectory (b : ISOBuilder) (abs : option gostring)
    (listing : option (list osNode)) : result ISOBuilder :=
  let b := setFileEntries [] b in
  match abs with
  | None => Err
  | Some absPath =>
      let rootEntry :=
        mkFileEntry [0] absPath (str "/") true 0 0 [] [] [] 0 0 0 0 0 0 1 false in
      let b := setFileEntries (fileEntries b ++ [rootEntry]) b in
      st <- scanDirectoryRecursive absPath 0 absPath listing (b, 2) ;;
      Ok (fst st)
  end.

(** [NewBuilder]. *)
Definition NewBuilder (sourceDir outputFilename : gostring) : ISOBuilder :=
  mkISOBuilder sourceDir outputFilename [] 0
    (mkPathTableLBAs 0 0 0 0 0 0 0 0) (mkPathTableData [] [] [] []) 0 0.

(* ------------------------------------------------------------------ *)
(** ** Hidden-marking helper *)

(** The inner loop of [MarkFileNamesAsHidden] from index [i] on: the table
    and the flag [found]. *)
Fixpoint markMatching (name : gostring) (i : nat) (es : list fileEntry) (found : bool) : list fileEntry * bool :=
  match es with
  | [] => ([], found)
  | e :: t =>
      if Nat.eqb i 0 && eqbBytes (originalName e) [0] then
        let '(t', found') := markMatching name (S i) t found in (e :: t', found')
      else if eqbBytes (originalName e) name then
        let '(t', found') := markMatching name (S i) t true in
        (setIsHidden true e :: t', found')
      else
        let '(t', found') := markMatching name (S i) t found in (e :: t', found')
  end.

(** One round of the outer loop: the builder and the slice [error]. *)
Definition markFileName (name : gostring) (st : ISOBuilder * list gostring) : result (ISOBuilder * list gostring) :=
  let '(b, errors) := st in
  if eqbBytes name [] then Ok (b, errors ++ [str "(empty string)"])
  else if eqbBytes name (str ".") || eqbBytes name (str "..") then Ok (b, errors ++ [name])
  else
    root <- index (fileEntries b) 0 ;;
    if eqbBytes (originalName root) name then Ok (b, errors ++ [name ++ str " (root)"])
    else
      let '(es, found) := markMatching name 0 (fileEntries b) false in
      let b := setFileEntries es b in
      if negb found then Ok (b, errors ++ [name ++ str " (not found)"])
      else Ok (b, errors).

Fixpoint markFileNames (names : list gostring) (st : ISOBuilder * list gostring) : result (ISOBuilder * list gostring) :=
  match names with
  | [] => Ok st
  | name :: rest => st' <- markFileName name st ;; markFileNames rest st'
  end.

(** [MarkFileNamesAsHidden]: the builder afterwards and the names for which a
    warning was recorded (the returned [error] is non-[nil] when this list is
    not empty). *)
Definition MarkFileNamesAsHidden (b : ISOBuilder) (fileNamesToHide : list gostring) : result (ISOBuilder * list gostring) :=
  if len fileNamesToHide =? 0 then Ok (b, [])
  else markFileNames fileNamesToHide (b, []).

(* ------------------------------------------------------------------ *)
(** ** Fixed-length fields *)

(** [padString]; [make] panics on a negative length. *)
Definition padString (s : gostring) (length : Z) : result (list byte) :=
  if length <? 0 then Panic
  else
    let b := makeBytes length in
    let b := map (fun _ => 32) b in
    let bytesToCopy := len s in
    let bytesToCopy := if bytesToCopy >? length then length else bytesToCopy in
    Ok (copyAt 0 (firstn (Z.to_nat bytesToCopy) s) b).

(** [padUTF16StringBE]. *)
Definition padUTF16StringBE (s : gostring) (numCharsInField : Z) : result (list byte) :=
  let targetByteLength := numCharsInField * 2 in
  if targetByteLength <? 0 then Panic
  else
    let resultBytes := makeBytes targetByteLength in
    let encodedStringBytes := encodeUTF16BE s in
    let bytesToCopy := len encodedStringBytes in
    let bytesToCopy :=
      if bytesToCopy >? targetByteLength then targetByteLength else bytesToCopy in
    Ok (copyAt 0 (firstn (Z.to_nat bytesToCopy) encodedStringBytes) resultBytes).

(** [padUTF16StringBEToFixedBytes]: [log.Panicf] when the string part does
    not fit the field; [make] and the slice expression panic on a negative
    bound. *)
Definition padUTF16StringBEToFixedBytes (s : gostring) (maxCharsInString totalBytesInField : Z) : result (list byte) :=
  if maxCharsInString * 2 >? totalBytesInField then Panic
  else if totalBytesInField <? 0 then Panic
  else
    let resultBytes := makeBytes totalBytesInField in
    let encodedStringBytes := encodeUTF16BE s in
    let maxByteLengthForStringPart := maxCharsInString * 2 in
    encodedStringBytes <-
      (if len encodedStringBytes >? maxByteLengthForStringPart then
         if maxByteLengthForStringPart <? 0 then Panic
         else Ok (firstn (Z.to_nat maxByteLengthForStringPart) encodedStringBytes)
       else Ok encodedStringBytes) ;;
    Ok (copyAt 0 encodedStringBytes resultBytes).

(* ------------------------------------------------------------------ *)
(** ** Timestamps *)

(** The decimal digits of a non-negative integer, most significant first, as
    package [fmt] produces them: one digit per round, until the quotient is
    zero.  A number has no more decimal than binary digits, which bounds the
    rounds. *)
Fixpoint decimalDigitsFrom (rounds : nat) (u : Z) (acc : list byte) : list byte :=
  match rounds with
  | O => acc
  | S k =>
      let acc := (48 + u mod 10) :: acc in
      if u / 10 =? 0 then acc else decimalDigitsFrom k (u / 10) acc
  end.

Definition decimalDigits (u : Z) : list byte :=
  decimalDigitsFrom (S (Z.to_nat (Z.log2 u))) u [].

(** The verb [%0Nd] of [fmt.Sprintf] for the width [wid]: the digits are
    padded with zeros to the width, of which a minus sign takes one column. *)
Definition sprintfZeroPadded (wid : Z) (a : Z) : list byte :=
  let negative := a <? 0 in
  let u := Z.abs a in
  let prec := if negative then wid - 1 else wid in
  let digits := decimalDigits u in
  let digits := repeat 48 (Z.to_nat (prec - len digits)) ++ digits in
  if negative then 45 :: digits else digits.

(** A [time.Time] in UTC: its calendar fields and the nanoseconds within the
    second. *)
Record utcTime : Type := mkUtcTime {
  calendar : goTime;
  tNanosecond : Z
}.

(** [time.Time{}], the zero time: January 1 of year 1, 00:00:00 UTC. *)
Definition zeroTime : utcTime := mkUtcTime (mkGoTime 1 1 1 0 0 0) 0.

(** [t.IsZero()]. *)
Definition isZeroTime (t : utcTime) : bool :=
  let c := calendar t in
  (tYear c =? 1) && (tMonth c =? 1) && (tDay c =? 1)
  && (tHour c =? 0) && (tMinute c =? 0) && (tSecond c =? 0)
  && (tNanosecond t =? 0).

(** [formatTimestamp]. *)
Definition formatTimestamp (t : utcTime) : list byte :=
  let tsBytes := makeBytes 17 in
  if isZeroTime t then copyAt 0 (repeat 48 16) tsBytes
  else
    let c := calendar t in
    let timestampStr :=
      sprintfZeroPadded 4 (tYear c) ++ sprintfZeroPadded 2 (tMonth c)
      ++ sprintfZeroPadded 2 (tDay c) ++ sprintfZeroPadded 2 (tHour c)
      ++ sprintfZeroPadded 2 (tMinute c) ++ sprintfZeroPadded 2 (tSecond c)
      ++ str "00" in
    let tsBytes := copyAt 0 timestampStr tsBytes in
    copyAt 16 [0] tsBytes.

(* ------------------------------------------------------------------ *)
(** ** Options *)

(** [Options]; the escape sequence is an array of three bytes. *)
Record Options : Type := mkOptions {
  VolumeIdentifierISO : gostring;
  VolumeIdentifierJoliet : gostring;
  SystemIdentifier : gostring;
  PublisherIdentifierISO : gostring;
  PublisherIdentifierJoliet : gostring;
  DataPreparerIdentifierISO : gostring;
  DataPreparerIdentifierJoliet : gostring;
  ApplicationIdentifierISO : gostring;
  ApplicationIdentifierJoliet : gostring;
  JolietEscapeSequence : byte * byte * byte
}.

(** [DefaultOptions]. *)
Definition DefaultOptions : Options :=
  mkOptions (str "ISO_VOLUME") (str "JOLIET_VOLUME") (str " ")
    (str "CharlesTheGreat (j) goiso9660") [] [] []
    (str "goiso9660") (str "goiso9660 joliet") (37, 47, 69).

(** The options that [NewBuilder] stores: the defaults for a [nil] argument.
    The record [ISOBuilder] above leaves [b.options] out; the volume
    descriptors, which alone read them, take them as an argument. *)
Definition builderOptions (opts : option Options) : Options :=
  match opts with
  | Some o => o
  | None => DefaultOptions
  end.

(* ------------------------------------------------------------------ *)
(** ** Volume descriptors *)

Definition vdTypePrimary : byte := 1.
Definition vdTypeSupplementary : byte := 2.
Definition vdTypeTerminator : byte := 255.

(** [volumeDescriptorHeader]. *)
Record volumeDescriptorHeader : Type := mkVolumeDescriptorHeader {
  vdType : byte;
  StandardIdentifier : list byte;
  vdVersion : byte
}.

(** [marshalBinary]; the identifier is an array of five bytes. *)
Definition marshalBinary (h : volumeDescriptorHeader) : list byte :=
  let buf := makeBytes 7 in
  let buf := copyAt 0 [vdType h] buf in
  let buf := copyAt 1 (firstn 5 (StandardIdentifier h)) buf in
  copyAt 6 [vdVersion h] buf.

(** [copy(field[:], src)] into a field that is a zeroed array of [n] bytes. *)
Definition copyIntoArray (n : Z) (src : list byte) : list byte :=
  copyAt 0 src (makeBytes n).

(** More of the host: [time.Now().UTC()] is [nowUTC] with the nanoseconds
    [nowNanosecond]; [osReadFile] is [os.ReadFile], which gives the bytes of
    the file at a path, or [None] for an error. *)
Section Host.
Variable nowNanosecond : Z.
Variable osReadFile : gostring -> option (list byte).

(** [createPrimaryVolumeDescriptor]: the fields of
    [primaryVolumeDescriptorFields] are the local values [pvd...]; the buffer
    [fieldBuf] is their concatenation. *)
Definition createPrimaryVolumeDescriptor (b : ISOBuilder) (options : Options) : result (list byte) :=
  let header := mkVolumeDescriptorHeader vdTypePrimary (str "CD001") 1 in
  let headerBytes := marshalBinary header in
  padded <- padString (SystemIdentifier options) 32 ;;
  let pvdSystemIdentifier := copyIntoArray 32 padded in
  padded <- padString (VolumeIdentifierISO options) 32 ;;
  let pvdVolumeIdentifier := copyIntoArray 32 padded in
  let pvdVolumeSpaceSize := totalSectors b in
  let pvdVolumeSetSize := 1 in
  let pvdVolumeSequenceNumber := 1 in
  let pvdLogicalBlockSize := wrap16 SectorSize in
  let pvdPathTableSizeBytes := wrap32 (len (pvdPathTableLData (ptData b))) in
  let pvdLPathTableLocation := lbaPvdPathTableL (ptLBAs b) in
  let pvdOptionalLPathTableLocation := lbaPvdPathTableL2 (ptLBAs b) in
  let pvdMPathTableLocation := lbaPvdPathTableM (ptLBAs b) in
  let pvdOptionalMPathTableLocation := lbaPvdPathTableM2 (ptLBAs b) in
  rootEntry <- index (fileEntries b) 0 ;;
  let rootDRBytes :=
    createDirectoryRecordBytes (iso9660Sector rootEntry) (pvdRootDirExtentSize b)
      (iso9660Name rootEntry) rootEntry false in
  if negb (len rootDRBytes =? 34) then Panic
  else
    let pvdRootDirectoryRecord := copyIntoArray 34 rootDRBytes in
    padded <- padString [] 128 ;;
    let pvdVolumeSetIdentifier := copyIntoArray 128 padded in
    padded <- padString (PublisherIdentifierISO options) 128 ;;
    let pvdPublisherIdentifier := copyIntoArray 128 padded in
    padded <- padString (DataPreparerIdentifierISO options) 128 ;;
    let pvdDataPreparerIdentifier := copyIntoArray 128 padded in
    padded <- padString (ApplicationIdentifierISO options) 128 ;;
    let pvdApplicationIdentifier := copyIntoArray 128 padded in
    padded <- padString [] 37 ;;
    let pvdCopyrightFileIdentifier := copyIntoArray 37 padded in
    padded <- padString [] 37 ;;
    let pvdAbstractFileIdentifier := copyIntoArray 37 padded in
    padded <- padString [] 37 ;;
    let pvdBibliographicFileIdentifier := copyIntoArray 37 padded in
    let now := mkUtcTime nowUTC nowNanosecond in
    let pvdVolumeCreationTimestamp := copyIntoArray 17 (formatTimestamp now) in
    let pvdVolumeModificationTimestamp := copyIntoArray 17 (formatTimestamp now) in
    let pvdVolumeExpirationTimestamp := copyIntoArray 17 (formatTimestamp zeroTime) in
    let pvdVolumeEffectiveTimestamp := copyIntoArray 17 (formatTimestamp now) in
    let pvdFileStructureVersion := 1 in
    let pvdSectorBytes := makeBytes SectorSize in
    let pvdSectorBytes := copyAt 0 (firstn 7 headerBytes) pvdSectorBytes in
    let fieldBuf :=
      [0] ++ pvdSystemIdentifier ++ pvdVolumeIdentifier ++ makeBytes 8
      ++ putLE32 pvdVolumeSpaceSize ++ putBE32 pvdVolumeSpaceSize
      ++ makeBytes 32
      ++ putLE16 pvdVolumeSetSize ++ putBE16 pvdVolumeSetSize
      ++ putLE16 pvdVolumeSequenceNumber ++ putBE16 pvdVolumeSequenceNumber
      ++ putLE16 pvdLogicalBlockSize ++ putBE16 pvdLogicalBlockSize
      ++ putLE32 pvdPathTableSizeBytes ++ putBE32 pvdPathTableSizeBytes
      ++ putLE32 pvdLPathTableLocation ++ putLE32 pvdOptionalLPathTableLocation
      ++ putBE32 pvdMPathTableLocation ++ putBE32 pvdOptionalMPathTableLocation
      ++ pvdRootDirectoryRecord ++ pvdVolumeSetIdentifier ++ pvdPublisherIdentifier
      ++ pvdDataPreparerIdentifier ++ pvdApplicationIdentifier
      ++ pvdCopyrightFileIdentifier ++ pvdAbstractFileIdentifier
      ++ pvdBibliographicFileIdentifier
      ++ pvdVolumeCreationTimestamp ++ pvdVolumeModificationTimestamp
      ++ pvdVolumeExpirationTimestamp ++ pvdVolumeEffectiveTimestamp
      ++ [pvdFileStructureVersion] in
    if len fieldBuf + 7 >? len pvdSectorBytes then Panic
    else Ok (copyAt 7 fieldBuf pvdSectorBytes).

(** [createJolietVolumeDescriptor]. *)
Definition createJolietVolumeDescriptor (b : ISOBuilder) (options : Options) : result (list byte) :=
  let header := mkVolumeDescriptorHeader vdTypeSupplementary (str "CD001") 1 in
  let headerBytes := marshalBinary header in
  padded <- padString (SystemIdentifier options) 32 ;;
  let svdSystemIdentifier := copyIntoArray 32 padded in
  padded <- padUTF16StringBE (VolumeIdentifierJoliet options) 16 ;;
  let svdVolumeIdentifier := copyIntoArray 32 padded in
  let svdVolumeSpaceSize := totalSectors b in
  let '(e0, e1, e2) := JolietEscapeSequence options in
  let svdEscapeSequences := copyAt 0 [e0; e1; e2] (makeBytes 32) in
  let svdEscapeSequences := copyAt 3 (repeat 0 29) svdEscapeSequences in
  let svdVolumeSetSize := 1 in
  let svdVolumeSequenceNumber := 1 in
  let svdLogicalBlockSize := wrap16 SectorSize in
  let svdPathTableSizeBytes := wrap32 (len (svdPathTableLData (ptData b))) in
  let svdLPathTableLocation := lbaSvdPathTableL (ptLBAs b) in
  let svdOptionalLPathTableLocation := lbaSvdPathTableL2 (ptLBAs b) in
  let svdMPathTableLocation := lbaSvdPathTableM (ptLBAs b) in
  let svdOptionalMPathTableLocation := lbaSvdPathTableM2 (ptLBAs b) in
  rootEntry <- index (fileEntries b) 0 ;;
  let rootDRJolietBytes :=
    createDirectoryRecordBytes (jolietSector rootEntry) (svdRootDirExtentSize b)
      (jolietName rootEntry) rootEntry true in
  if negb (len rootDRJolietBytes =? 34) then Panic
  else
    let svdRootDirectoryRecord := copyIntoArray 34 rootDRJolietBytes in
    padded <- padUTF16StringBE [] 64 ;;
    let svdVolumeSetIdentifier := copyIntoArray 128 padded in
    padded <- padUTF16StringBE (PublisherIdentifierJoliet options) 64 ;;
    let svdPublisherIdentifier := copyIntoArray 128 padded in
    padded <- padUTF16StringBE (DataPreparerIdentifierJoliet options) 64 ;;
    let svdDataPreparerIdentifier := copyIntoArray 128 padded in
    padded <- padUTF16StringBE (ApplicationIdentifierJoliet options) 64 ;;
    let svdApplicationIdentifier := copyIntoArray 128 padded in
    padded <- padUTF16StringBEToFixedBytes [] 18 37 ;;
    let svdCopyrightFileIdentifier := copyIntoArray 37 padded in
    padded <- padUTF16StringBEToFixedBytes [] 18 37 ;;
    let svdAbstractFileIdentifier := copyIntoArray 37 padded in
    padded <- padUTF16StringBEToFixedBytes [] 18 37 ;;
    let svdBibliographicFileIdentifier := copyIntoArray 37 padded in
    let now := mkUtcTime nowUTC nowNanosecond in
    let svdVolumeCreationTimestamp := copyIntoArray 17 (formatTimestamp now) in
    let svdVolumeModificationTimestamp := copyIntoArray 17 (formatTimestamp now) in
    let svdVolumeExpirationTimestamp := copyIntoArray 17 (formatTimestamp zeroTime) in
    let svdVolumeEffectiveTimestamp := copyIntoArray 17 (formatTimestamp now) in
    let svdFileStructureVersion := 1 in
    let svdSectorBytes := makeBytes SectorSize in
    let svdSectorBytes := copyAt 0 (firstn 7 headerBytes) svdSectorBytes in
    let fieldBuf :=
      [0] ++ svdSystemIdentifier ++ svdVolumeIdentifier ++ makeBytes 8
      ++ putLE32 svdVolumeSpaceSize ++ putBE32 svdVolumeSpaceSize
      ++ svdEscapeSequences
      ++ putLE16 svdVolumeSetSize ++ putBE16 svdVolumeSetSize
      ++ putLE16 svdVolumeSequenceNumber ++ putBE16 svdVolumeSequenceNumber
      ++ putLE16 svdLogicalBlockSize ++ putBE16 svdLogicalBlockSize
      ++ putLE32 svdPathTableSizeBytes ++ putBE32 svdPathTableSizeBytes
      ++ putLE32 svdLPathTableLocation ++ putLE32 svdOptionalLPathTableLocation
      ++ putBE32 svdMPathTableLocation ++ putBE32 svdOptionalMPathTableLocation
      ++ svdRootDirectoryRecord ++ svdVolumeSetIdentifier ++ svdPublisherIdentifier
      ++ svdDataPreparerIdentifier ++ svdApplicationIdentifier
      ++ svdCopyrightFileIdentifier ++ svdAbstractFileIdentifier
      ++ svdBibliographicFileIdentifier
      ++ svdVolumeCreationTimestamp ++ svdVolumeModificationTimestamp
      ++ svdVolumeExpirationTimestamp ++ svdVolumeEffectiveTimestamp
      ++ [svdFileStructureVersion] in
    Ok (copyAt 7 fieldBuf svdSectorBytes).

(** [createVolumeDescriptorTerminator]. *)
Definition createVolumeDescriptorTerminator : list byte :=
  let termSectorBytes := makeBytes SectorSize in
  let header := mkVolumeDescriptorHeader vdTypeTerminator (str "CD001") 1 in
  let headerBytes := marshalBinary header in
  copyAt 0 (firstn 7 headerBytes) termSectorBytes.

(* ------------------------------------------------------------------ *)
(** ** Writer *)

Inductive seekWhence : Type := SeekStart | SeekCurrent | SeekEnd.

(** [io.WriteSeeker].  [wsSeek] returns the new offset, [None] for an error;
    [wsWrite] returns the number of bytes written and whether the error is
    non-[nil].  The last field is the contract of [io.Writer]: a write that
    returns no error has written everything. *)
Class WriteSeeker (W : Type) : Type := {
  wsSeek : W -> Z -> seekWhence -> option (Z * W);
  wsWrite : W -> list byte -> Z * bool * W;
  wsWrite_all : forall w p n w', wsWrite w p = (n, false, w') -> n = len p
}.

(** What [Build] asks of the host besides: [os.Create], and the methods
    [Truncate] and [Close] of [*os.File] ([fileClose] tells whether [Close]
    returns an error). *)
Class OsFile (F : Type) : Type := {
  fileWriteSeeker :: WriteSeeker F;
  osCreate : gostring -> option F;
  fileTruncate : F -> Z -> option F;
  fileClose : F -> bool
}.

Section Writer.
Context {W : Type} `{WriteSeeker W}.

(** The padding loop of [writeAtSectorAndPad].  Every round that goes on has
    written a full chunk of at least one byte, so [paddingNeeded] rounds are
    enough; [rounds] bounds them. *)
Fixpoint padWithZeros (rounds : nat) (padBuf : list byte) (paddingNeeded : Z) (w : W) : result W :=
  if paddingNeeded >? 0 then
    match rounds with
    | O => Panic
    | S rounds' =>
        let chunkToWrite := len padBuf in
        let chunkToWrite :=
          if paddingNeeded <? chunkToWrite then paddingNeeded else chunkToWrite in
        let '(n, err, w) := wsWrite w (firstn (Z.to_nat chunkToWrite) padBuf) in
        if err then Err
        else if negb (n =? chunkToWrite) then Err
        else padWithZeros rounds' padBuf (paddingNeeded - n) w
    end
  else Ok w.

(** [writeAtSectorAndPad]. *)
Definition writeAtSectorAndPad (w : W) (data : list byte) (sectorNum totalAllocatedBytesOnDisk : Z) : result W :=
  if (totalAllocatedBytesOnDisk >? 0)
     && negb (Z.rem totalAllocatedBytesOnDisk SectorSize =? 0) then Panic
  else if len data >? totalAllocatedBytesOnDisk then Err
  else if totalAllocatedBytesOnDisk <? 0 then Err
  else
    let targetOffset := sectorNum * SectorSize in
    match wsSeek w targetOffset SeekStart with
    | None => Err
    | Some (_, w) =>
        written <-
          (if len data >? 0 then
             let '(n, err, w) := wsWrite w data in
             if err then Err
             else if negb (n =? len data) then Err
             else Ok (n, w)
           else Ok (0, w)) ;;
        let '(bytesWritten, w) := written in
        let paddingNeeded := totalAllocatedBytesOnDisk - bytesWritten in
        if paddingNeeded <? 0 then Err
        else if paddingNeeded >? 0 then
          let padBuf := makeBytes SectorSize in
          padWithZeros (Z.to_nat paddingNeeded) padBuf paddingNeeded w
        else Ok w
    end.

(** [writeSystemArea]. *)
Definition writeSystemArea (w : W) : result W :=
  writeAtSectorAndPad w [] 0 (SystemAreaNumSectors * SectorSize).

(** [writeVolumeDescriptors]. *)
Definition writeVolumeDescriptors (b : ISOBuilder) (options : Options) (w : W) : result W :=
  let currentSector := wrap32 SystemAreaNumSectors in
  pvd <- createPrimaryVolumeDescriptor b options ;;
  w <- writeAtSectorAndPad w pvd currentSector SectorSize ;;
  let currentSector := wrap32 (currentSector + 1) in
  svd <- createJolietVolumeDescriptor b options ;;
  w <- writeAtSectorAndPad w svd currentSector SectorSize ;;
  let currentSector := wrap32 (currentSector + 1) in
  let term := createVolumeDescriptorTerminator in
  writeAtSectorAndPad w term currentSector SectorSize.

(** [writeAllPathTables]. *)
Definition writeAllPathTables (b : ISOBuilder) (w : W) : result W :=
  let d := ptData b in
  let a := ptLBAs b in
  let pvdPtLAllocSize :=
    wrap32 (sectorsToContainBytes (len (pvdPathTableLData d)) * SectorSize) in
  w <- writeAtSectorAndPad w (pvdPathTableLData d) (lbaPvdPathTableL a) pvdPtLAllocSize ;;
  w <- writeAtSectorAndPad w (pvdPathTableLData d) (lbaPvdPathTableL2 a) pvdPtLAllocSize ;;
  let pvdPtMAllocSize :=
    wrap32 (sectorsToContainBytes (len (pvdPathTableMData d)) * SectorSize) in
  w <- writeAtSectorAndPad w (pvdPathTableMData d) (lbaPvdPathTableM a) pvdPtMAllocSize ;;
  w <- writeAtSectorAndPad w (pvdPathTableMData d) (lbaPvdPathTableM2 a) pvdPtMAllocSize ;;
  let svdPtLAllocSize :=
    wrap32 (sectorsToContainBytes (len (svdPathTableLData d)) * SectorSize) in
  w <- writeAtSectorAndPad w (svdPathTableLData d) (lbaSvdPathTableL a) svdPtLAllocSize ;;
  w <- writeAtSectorAndPad w (svdPathTableLData d) (lbaSvdPathTableL2 a) svdPtLAllocSize ;;
  let svdPtMAllocSize :=
    wrap32 (sectorsToContainBytes (len (svdPathTableMData d)) * SectorSize) in
  w <- writeAtSectorAndPad w (svdPathTableMData d) (lbaSvdPathTableM a) svdPtMAllocSize ;;
  writeAtSectorAndPad w (svdPathTableMData d) (lbaSvdPathTableM2 a) svdPtMAllocSize.

(** The body of the loop of [writeAllDirectoryContents]. *)
Definition writeDirectoryContents (b : ISOBuilder) (i : nat) (w : W) : result W :=
  f <- index (fileEntries b) i ;;
  if isDir f then
    isoListingBytes <- createDirectoryListing b i false ;;
    if wrap32 (len isoListingBytes) >? iso9660Size f then Err
    else
      w <- writeAtSectorAndPad w isoListingBytes (iso9660Sector f) (iso9660Size f) ;;
      jolietListingBytes <- createDirectoryListing b i true ;;
      if wrap32 (len jolietListingBytes) >? jolietSize f then Err
      else writeAtSectorAndPad w jolietListingBytes (jolietSector f) (jolietSize f)
  else Ok w.

(** [writeAllDirectoryContents]. *)
Definition writeAllDirectoryContents (b : ISOBuilder) (w : W) : result W :=
  forRange (length (fileEntries b)) (writeDirectoryContents b) w.

(** The body of the loop of [writeAllFileData]. *)
Definition writeFileData (b : ISOBuilder) (i : nat) (w : W) : result W :=
  f <- index (fileEntries b) i ;;
  if negb (isDir f) then
    match osReadFile (diskPath f) with
    | None => Err
    | Some fileDataBytes =>
        if negb (wrap32 (len fileDataBytes) =? iso9660Size f) then Err
        else
          let numSectorsForFile := sectorsToContainFileBytes (iso9660Size f) in
          let allocatedBytesForFile := wrap32 (numSectorsForFile * SectorSize) in
          writeAtSectorAndPad w fileDataBytes (iso9660Sector f) allocatedBytesForFile
    end
  else Ok w.

(** [writeAllFileData]. *)
Definition writeAllFileData (b : ISOBuilder) (w : W) : result W :=
  forRange (length (fileEntries b)) (writeFileData b) w.

(** The padding loop of [finalizeImageSize]; by the contract of [io.Writer]
    every round that goes on has written a full chunk of at least one
    byte. *)
Fixpoint padImage (rounds : nat) (paddingChunk : list byte) (chunkSizeBytes paddingBytesNeeded : Z) (w : W) : result W :=
  if paddingBytesNeeded >? 0 then
    match rounds with
    | O => Panic
    | S rounds' =>
        let bytesToWriteThisChunk := chunkSizeBytes in
        let bytesToWriteThisChunk :=
          if paddingBytesNeeded <? chunkSizeBytes then paddingBytesNeeded
          else bytesToWriteThisChunk in
        let '(n, errWrite, w) :=
          wsWrite w (firstn (Z.to_nat bytesToWriteThisChunk) paddingChunk) in
        if errWrite then Err
        else padImage rounds' paddingChunk chunkSizeBytes (paddingBytesNeeded - n) w
    end
  else Ok w.

End Writer.

Section ImageFile.
Context {F : Type} `{OsFile F}.

(** [finalizeImageSize]. *)
Definition finalizeImageSize (b : ISOBuilder) (isoFile : F) : result F :=
  let expectedImageSizeBytes := totalSectors b * SectorSize in
  match wsSeek isoFile 0 SeekEnd with
  | None => Err
  | Some (currentImageSizeBytes, isoFile) =>
      if currentImageSizeBytes <? expectedImageSizeBytes then
        let paddingBytesNeeded := expectedImageSizeBytes - currentImageSizeBytes in
        if paddingBytesNeeded >? 0 then
          let chunkSizeBytes := SectorSize * 128 in
          let chunkSizeBytes :=
            if chunkSizeBytes >? paddingBytesNeeded then paddingBytesNeeded
            else chunkSizeBytes in
          let paddingChunk := makeBytes chunkSizeBytes in
          padImage (Z.to_nat paddingBytesNeeded) paddingChunk chunkSizeBytes
            paddingBytesNeeded isoFile
        else Ok isoFile
      else if currentImageSizeBytes >? expectedImageSizeBytes then
        match fileTruncate isoFile expectedImageSizeBytes with
        | None => Err
        | Some isoFile => Ok isoFile
        end
      else Ok isoFile
  end.

(** [Build], given what the host returns for the source directory: its
    absolute path ([None] when [filepath.Abs] fails) and its content.  The
    result is the builder and the image file. *)
Definition Build (b : ISOBuilder) (options : Options) (abs : option gostring)
    (listing : option (list osNode)) : result (ISOBuilder * F) :=
  b <-
    (match fileEntries b with
     | [] => ScanSourceDirectory b abs listing
     | first :: _ =>
         if negb (eqbBytes (isoPath first) (str "/"))
         then ScanSourceDirectory b abs listing
         else Ok b
     end) ;;
  b <- calculateLayout b ;;
  match osCreate (outputFilename b) with
  | None => Err
  | Some isoFile =>
      isoFile <-
        (isoFile <- writeSystemArea isoFile ;;
         isoFile <- writeVolumeDescriptors b options isoFile ;;
         isoFile <- writeAllPathTables b isoFile ;;
         isoFile <- writeAllDirectoryContents b isoFile ;;
         isoFile <- writeAllFileData b isoFile ;;
         finalizeImageSize b isoFile) ;;
      if fileClose isoFile then Err else Ok (b, isoFile)
  end.

End ImageFile.

End Host.

(* ------------------------------------------------------------------ *)
(** ** A file held in memory

    The file on which the properties of the writer are stated: its content
    and the offset of the next write.  A write beyond the end fills the gap
    with zeros, as a file of the host does; no operation fails except a seek
    before the start. *)

Record memFile : Type := mkMemFile {
  content : list byte;
  position : Z
}.

Definition memSeek (f : memFile) (offset : Z) (whence : seekWhence) : option (Z * memFile) :=
  let base :=
    match whence with
    | SeekStart => 0
    | SeekCurrent => position f
    | SeekEnd => len (content f)
    end in
  let p := base + offset in
  if p <? 0 then None else Some (p, mkMemFile (content f) p).

(** The content after [p] has been written at the offset [off]. *)
Definition writeAtOffset (off : nat) (p c : list byte) : list byte :=
  firstn off (c ++ repeat 0 (off - length c)) ++ p ++ skipn (off + length p) c.

Definition memWrite (f : memFile) (p : list byte) : Z * bool * memFile :=
  if isEmpty p then (0, false, f)
  else
    (len p, false,
     mkMemFile (writeAtOffset (Z.to_nat (position f)) p (content f)) (position f + len p)).

Definition memTruncate (f : memFile) (size : Z) : option memFile :=
  if size <? 0 then None
  else
    Some (mkMemFile
            (firstn (Z.to_nat size) (content f)
             ++ repeat 0 (Z.to_nat size - length (content f)))
            (position f)).

Lemma memWrite_all (f : memFile) (p : list byte) (n : Z) (f' : memFile) :
  memWrite f p = (n, false, f') -> n = len p.
Proof.
  unfold memWrite. destruct p as [|x p]; cbn [isEmpty]; intros E; now inversion E.
Qed.

#[local] Instance memFileWriteSeeker : WriteSeeker memFile :=
  {| wsSeek := memSeek; wsWrite := memWrite; wsWrite_all := memWrite_all |}.

(** [os.Create] gives an empty file; [Close] succeeds. *)
#[local] Instance memFileOsFile : OsFile memFile :=
  {| fileWriteSeeker := memFileWriteSeeker;
     osCreate := fun _ => Some (mkMemFile [] 0);
     fileTruncate := memTruncate;
     fileClose := fun _ => false |}.

(* ================================================================== *)
(** * Vocabulary of the properties *)

(** [liftResult h r]: [h] applied to the value of a successful run. *)
Definition liftResult {A B} (h : A -> B) (r : result A) : result B :=
  match r with
  | Ok a => Ok (h a)
  | Err => Err
  | Panic => Panic
  end.

(** [notAfter less x y]: the sort may leave [x] before [y]. *)
Definition notAfter {A} (less : A -> A -> bool) (x y : A) : Prop := less y x = false.

(** What the specification asks for: [max(1, ceil(size / 2048))]. *)
Definition sectorsForFileSpec (size : Z) : Z := Z.max 1 ((size + 2047) / 2048).

(** A source directory with one file of 4 GiB - 1 bytes followed by a file of
    one byte. *)
Definition hugeFileTree : option (list osNode) :=
  Some [OsRegular (str "big.bin") 4294967295; OsRegular (str "small.txt") 1].

(** The addresses and sizes that the planner leaves on the entries. *)
Definition plannedExtents (r : result ISOBuilder) : result (list (Z * Z * Z * Z)) :=
  b <- r ;;
  Ok (map (fun f => (iso9660Sector f, jolietSector f, iso9660Size f, jolietSize f))
          (fileEntries b)).

(** The bytes of a Level 1 identifier: [A-Z], [0-9] and [_]. *)
Definition isoNameChar (c : byte) : Prop := isIsoChar c = true \/ c = 46.

(** Sixty-four copies of U+1F600, a scalar value outside the Basic
    Multilingual Plane (UTF-8: F0 9F 98 80). *)
Definition astralName : gostring := concat (repeat [240; 159; 152; 128] 64).

(** The identifier names the entity itself. *)
Definition namesEntityItself (drIDNameToEncode : gostring) : bool :=
  negb (eqbBytes drIDNameToEncode (str ".")) && negb (eqbBytes drIDNameToEncode (str ".."))
  && negb (eqbBytes drIDNameToEncode []) && negb (eqbBytes drIDNameToEncode [0]).

(** [n] rounded up to the next even number. *)
Definition roundUpEven (n : Z) : Z := 2 * ((n + 1) / 2).

(** The identifier bytes of a child in a listing. *)
Definition childIdentifier (isJoliet : bool) (childEntry : fileEntry) : list byte :=
  getDRIdentifierBytes
    (if isJoliet then jolietName childEntry else iso9660Name childEntry) isJoliet false.

(** A source directory with two files: U+FF21 (UTF-8: EF BC A1) and U+1F600
    (UTF-8: F0 9F 98 80). *)
Definition astralSiblingsTree : option (list osNode) :=
  Some [OsRegular [240; 159; 152; 128] 1; OsRegular [239; 188; 161] 1].

(** The Joliet identifiers of the children of the root, in the order of the
    Joliet listing of the root. *)
Definition jolietListingIdentifiers (listing : option (list osNode)) : result (list (list byte)) :=
  b <- ScanSourceDirectory (NewBuilder (str "src") (str "out.iso")) (Some (str "/src")) listing ;;
  b <- calculateLayout b ;;
  root <- index (fileEntries b) 0 ;;
  l <- sortedChildren b root true ;;
  Ok (map (childIdentifier true) l).

(** One round of a loop over the table touches at most the entry at the
    loop index, in a way described by [P]. *)
Definition touches (P : fileEntry -> fileEntry -> Prop) (i : nat) (es es' : list fileEntry) : Prop :=
  exists f, nth_error es i = Some f
            /\ ((es' = es /\ P f f) \/ exists g, P f (g f) /\ es' = update i g es).

(** What a round of each loop of the planner does to the entry at its index:
    first the loop of [calculateAllDirectoryExtentSizes]. *)
Definition sizesDirectory (f f' : fileEntry) : Prop :=
  (isDir f = false /\ f' = f)
  \/ (isDir f = true /\ exists s1 s2, f' = setJolietSize s2 (setIso9660Size s1 f)).

(** The first loop of [assignContentLBAs]. *)
Definition placesIso9660Directory (f f' : fileEntry) : Prop :=
  (isDir f = false /\ f' = f)
  \/ (isDir f = true /\ exists v, f' = setIso9660Sector v f).

(** The second loop of [assignContentLBAs]. *)
Definition placesFile (f f' : fileEntry) : Prop :=
  (isDir f = true /\ f' = f)
  \/ (isDir f = false /\ exists v, f' = setJolietSector v (setIso9660Sector v f)).

(** The third loop of [assignContentLBAs]. *)
Definition placesJolietDirectory (f f' : fileEntry) : Prop :=
  (isDir f = false /\ f' = f)
  \/ (isDir f = true /\ exists v, f' = setJolietSector v f).

(** The planner keeps the kind of every entry and the size of every file. *)
Definition keepsFileSize (f f' : fileEntry) : Prop :=
  isDir f' = isDir f
  /\ (isDir f = false ->
      iso9660Size f' = iso9660Size f /\ jolietSize f' = jolietSize f).

(** An entry without its hidden flag. *)
Definition forget (f : fileEntry) : fileEntry := setIsHidden false f.

(** A builder whose entries have lost their hidden flags. *)
Definition forgetB (b : ISOBuilder) : ISOBuilder :=
  setFileEntries (map forget (fileEntries b)) b.

(** The same for the state of the loops of [assignContentLBAs]. *)
Definition forgetSt (st : ISOBuilder * Z) : ISOBuilder * Z := (forgetB (fst st), snd st).

(** What the hidden-marking helper may do to an entry: nothing but set its
    hidden flag, and only when its original name is among the names given. *)
Definition hides (names : list gostring) (f f' : fileEntry) : Prop :=
  forget f' = forget f
  /\ (isHidden f' <> isHidden f -> isHidden f' = true /\ In (originalName f) names).

(** The part of a builder that is not the entity table. *)
Definition withoutEntries (b : ISOBuilder) : ISOBuilder := setFileEntries [] b.

(** The fields that the planner computes. *)
Definition sameLayout (f f' : fileEntry) : Prop :=
  iso9660Name f' = iso9660Name f /\ jolietName f' = jolietName f
  /\ actualISO9660DrSize f' = actualISO9660DrSize f
  /\ actualJolietDrSize f' = actualJolietDrSize f
  /\ iso9660Size f' = iso9660Size f /\ jolietSize f' = jolietSize f
  /\ iso9660Sector f' = iso9660Sector f /\ jolietSector f' = jolietSector f.

(** The order that the sort leaves between two records of an M-type table:
    the parent's number first, the identifier bytes second. *)
Definition mTypeOrdered (b : ISOBuilder) (isJoliet : bool) (x y : fileEntry) : Prop :=
  parentDirNum b x < parentDirNum b y
  \/ (parentDirNum b x = parentDirNum b y
      /\ bytesLess (pathTableIdentifier isJoliet y) (pathTableIdentifier isJoliet x) = false).

(** Every name in the tree is non-empty, as the names of a directory listing
    are. *)
Fixpoint namedNode (e : osNode) : bool :=
  negb (isEmpty (osName e))
  && match e with
     | OsDirectory _ (Some l) => forallb namedNode l
     | _ => true
     end.

(** The number of directories of a tree. *)
Fixpoint countDirs (e : osNode) : Z :=
  match e with
  | OsDirectory _ (Some l) => 1 + fold_right (fun x acc => countDirs x + acc) 0 l
  | OsDirectory _ None => 1
  | _ => 0
  end.

(** The number of directories of the trees of a listing. *)
Definition countDirsIn (l : list osNode) : Z :=
  fold_right (fun x acc => countDirs x + acc) 0 l.

(** The fields of an entry that neither the scanner, once the entry is
    appended, nor the planner changes. *)
Definition core (f : fileEntry) : bool * Z * nat * gostring :=
  (isDir f, pathTableDirNum f, parentIndex f, originalName f).

(** [es'] has, at every index of [es], an entry with the same core. *)
Definition grows (es es' : list fileEntry) : Prop :=
  forall i p, nth_error es i = Some p ->
              exists p', nth_error es' i = Some p' /\ core p' = core p.

(** The number of directories of a table. *)
Definition numDirs (es : list fileEntry) : Z := Z.of_nat (length (filter isDir es)).

(** A table as the scanner builds it: the root comes first, is its own
    parent and has number 1; every other entry has a non-empty name and a
    directory of the table as its parent, and every other directory has a
    number between 2 and 65535. *)
Definition validTable (es : list fileEntry) : Prop :=
  (exists root, nth_error es 0 = Some root
                /\ isDir root = true /\ pathTableDirNum root = 1 /\ parentIndex root = 0%nat)
  /\ forall i f, nth_error es i = Some f -> (1 <= i)%nat ->
                 originalName f <> []
                 /\ (isDir f = true -> 2 <= pathTableDirNum f <= 65535)
                 /\ exists p, nth_error es (parentIndex f) = Some p /\ isDir p = true.

(** The state of the scan: a valid table, and a next number that counts the
    directories found so far. *)
Definition scanInv (st : ISOBuilder * Z) : Prop :=
  validTable (fileEntries (fst st))
  /\ snd st = wrap16 (numDirs (fileEntries (fst st)) + 1)
  /\ 1 <= numDirs (fileEntries (fst st)).

(** The entry at index [i] is a directory. *)
Definition isDirectoryAt (es : list fileEntry) (i : nat) : Prop :=
  exists p, nth_error es i = Some p /\ isDir p = true.

(** What scanning one entry of the source tree does to a valid state, as long
    as the directories fit the 16-bit numbers. *)
Definition scanEntryValid (e : osNode) : Prop :=
  forall cur parent base st st',
    namedNode e = true ->
    scanInv st ->
    isDirectoryAt (fileEntries (fst st)) parent ->
    numDirs (fileEntries (fst st)) + countDirs e <= 65535 ->
    scanEntry cur parent base e st = Ok st' ->
    scanInv st'
    /\ numDirs (fileEntries (fst st')) = numDirs (fileEntries (fst st)) + countDirs e
    /\ grows (fileEntries (fst st)) (fileEntries (fst st')).

(** An entry without its extent sizes and sector addresses. *)
Definition eraseExtents (f : fileEntry) : fileEntry :=
  setJolietSector 0 (setIso9660Sector 0 (setJolietSize 0 (setIso9660Size 0 f))).

(** A directory whose extents the planner can place: their sizes are not
    zero and whole sectors. *)
Definition sizedDirectory (f : fileEntry) : Prop :=
  isDir f = true ->
  iso9660Size f <> 0 /\ iso9660Size f mod SectorSize = 0
  /\ jolietSize f <> 0 /\ jolietSize f mod SectorSize = 0.

(** The state of a loop of [assignContentLBAs] that started from [b]: the
    table differs from that of [b] in extents only, and its directories are
    sized. *)
Definition placeable (b : ISOBuilder) (st : ISOBuilder * Z) : Prop :=
  map eraseExtents (fileEntries (fst st)) = map eraseExtents (fileEntries b)
  /\ Forall sizedDirectory (fileEntries (fst st)).

(** A table that the planner lays out without error: it is not empty; the
    children and the parent of every entry are entries of the table; no
    entry has more than a million children; and the Joliet identifier of
    every entry fits the one-byte length field of its records. *)
Definition plannable (es : list fileEntry) : Prop :=
  es <> []
  /\ Forall (fun f =>
       Forall (fun c => (c < length es)%nat) (children f)
       /\ len (children f) <= 1000000
       /\ (parentIndex f < length es)%nat
       /\ len (encodeUTF16BE (jolietName (assignSanitizedNameAndDrSize f))) <= 255) es.

(** Names for the directories of a large tree: [d] and four letters from
    [a] to [p], the digits of [k] in base 16. *)
Definition wrapDirName (k : Z) : gostring :=
  [100; 97 + (k / 4096) mod 16; 97 + (k / 256) mod 16; 97 + (k / 16) mod 16; 97 + k mod 16].

(** [n] empty directories, named from [k] on. *)
Fixpoint emptyDirs (n : nat) (k : Z) : list osNode :=
  match n with
  | O => []
  | S n' => OsDirectory (wrapDirName k) (Some []) :: emptyDirs n' (k + 1)
  end.

(** A directory that holds one empty directory. *)
Definition wrapLast : osNode :=
  OsDirectory (str "last") (Some [OsDirectory (str "inner") (Some [])]).

(** A source directory with 65535 directories, the last of which holds one
    more: 65536 directories below the source directory, while the 16-bit
    counter of the scanner, which starts at 2, tells 65534 apart. *)
Definition wrapTree : list osNode := emptyDirs (Z.to_nat 65534) 0 ++ [wrapLast].

(** The names that the large tree uses: ASCII bytes, at most 64 of them. *)
Definition wrapName (name : gostring) : Prop :=
  Forall (fun c => 0 <= c < 128) name /\ len name <= 64.

(** ** Vocabulary of the encoders and of the writer *)

(** [l[off : off+n]]. *)
Definition slice (off n : nat) (l : list byte) : list byte := firstn n (skipn off l).

(** What a reader decodes from a field: [binary.LittleEndian.Uint16] and
    [Uint32] for [leUint], [binary.BigEndian] for [beUint]. *)
Fixpoint leUint (l : list byte) : Z :=
  match l with
  | [] => 0
  | b :: t => b + 256 * leUint t
  end.

Definition beUint (l : list byte) : Z := fold_left (fun acc b => 256 * acc + b) l 0.

(** An ASCII digit, and the number that a string of digits denotes. *)
Definition isDigit (c : byte) : bool := (48 <=? c) && (c <=? 57).

Definition decimalValue (l : list byte) : Z :=
  fold_left (fun acc d => 10 * acc + (d - 48)) l 0.

(** A field of [n] bytes holding [s], cut to the field, and padded with
    spaces or with zero bytes. *)
Definition spacePadded (n : nat) (s : list byte) : list byte :=
  firstn n s ++ repeat 32 (n - length s).

Definition zeroPadded (n : nat) (s : list byte) : list byte :=
  firstn n s ++ repeat 0 (n - length s).


(** ** Vocabulary of the hidden-marking helper *)

(** A name that [MarkFileNamesAsHidden] looks up in the table: not empty,
    not a navigational name and not the original name of the root. *)
Definition hideable (rootName name : gostring) : bool :=
  negb (eqbBytes name [])
  && negb (eqbBytes name (str ".") || eqbBytes name (str ".."))
  && negb (eqbBytes rootName name).

Definition named (name : gostring) (e : fileEntry) : bool :=
  eqbBytes (originalName e) name.

(** An entry after the names have been looked up. *)
Definition hiddenBy (rootName : gostring) (names : list gostring) (e : fileEntry) : fileEntry :=
  if existsb (fun name => hideable rootName name && named name e) names
  then setIsHidden true e
  else e.

(** The item that a name adds to the summary of warnings. *)
Definition complaint (es : list fileEntry) (rootName name : gostring) : list gostring :=
  if eqbBytes name [] then [str "(empty string)"]
  else if eqbBytes name (str ".") || eqbBytes name (str "..") then [name]
  else if eqbBytes rootName name then [name ++ str " (root)"]
  else if existsb (named name) es then []
  else [name ++ str " (not found)"].

(** ** Vocabulary of the scanner *)

(** Every directory of the tree can be read and every entry gives its
    [Info()]. *)
Fixpoint readable (e : osNode) : bool :=
  match e with
  | OsDirectory _ None => false
  | OsDirectory _ (Some l) => forallb readable l
  | OsNoInfo _ => false
  | _ => true
  end.

(** The name, the kind and the size of the entities of a tree, a directory
    before what it holds; what is neither a file nor a directory is left
    out. *)
Fixpoint scanned (e : osNode) : list (gostring * bool * Z) :=
  match e with
  | OsRegular name size => [(name, false, wrap32 size)]
  | OsOther _ => []
  | OsNoInfo _ => []
  | OsDirectory name None => [(name, true, 0)]
  | OsDirectory name (Some l) => (name, true, 0) :: flat_map scanned l
  end.

Definition summary (f : fileEntry) : gostring * bool * Z :=
  (originalName f, isDir f, iso9660Size f).

(** The path-table numbers of the table: of the directories in the order of
    the table, and of the other entries. *)
Definition dirNumbers (es : list fileEntry) : list Z :=
  map pathTableDirNum (filter isDir es).

Definition fileNumbers (es : list fileEntry) : list Z :=
  map pathTableDirNum (filter (fun f => negb (isDir f)) es).

(** The numbers 1, 2, ... as the 16-bit counter of the scanner gives them. *)
Definition numbersFromOne (n : nat) : list Z :=
  map (fun k => wrap16 (Z.of_nat k + 1)) (seq 0 n).

(** The state of the scan: the directories of the table are numbered in
    their order, the counter holds the next number, and the other entries
    have the number 0. *)
Definition numberedState (st : ISOBuilder * Z) : Prop :=
  let es := fileEntries (fst st) in
  dirNumbers es = numbersFromOne (length (dirNumbers es))
  /\ snd st = wrap16 (len (dirNumbers es) + 1)
  /\ Forall (fun n => n = 0) (fileNumbers es).

(** What [scanEntry] and the loop over a listing return. *)
Definition scanOutcome (before : ISOBuilder) (ok : bool) (found : list (gostring * bool * Z))
    (r : result (ISOBuilder * Z)) : Prop :=
  match r with
  | Ok (after, _) =>
      ok = true
      /\ map summary (fileEntries after) = map summary (fileEntries before) ++ found
      /\ withoutEntries after = withoutEntries before
  | Err => ok = false
  | Panic => False
  end.

(** One element of a path, as [os.ReadDir] names the entries of a
    directory: not empty, without separator, neither [.] nor [..]. *)
Definition pathElement (name : gostring) : bool :=
  negb (isEmpty name) && forallb (fun c => negb (c =? 47)) name
  && negb (eqbBytes name (str ".")) && negb (eqbBytes name (str "..")).

(** Every entry of the tree is named by one path element. *)
Fixpoint plainNode (e : osNode) : bool :=
  pathElement (osName e)
  && match e with
     | OsDirectory _ (Some l) => forallb plainNode l
     | _ => true
     end.

(** [strings.Split(s, "/")], with the element under way in [cur]. *)
Fixpoint splitPath (s cur : gostring) : list gostring :=
  match s with
  | [] => [cur]
  | c :: t => if c =? 47 then cur :: splitPath t [] else splitPath t (cur ++ [c])
  end.

(** An absolute path in the cleaned form in which [filepath.Abs] returns it
    on a Unix host: the root, or path elements with one separator before
    each. *)
Definition cleanedAbsolute (path : gostring) : bool :=
  match path with
  | 47 :: rest => isEmpty rest || forallb pathElement (splitPath rest [])
  | _ => false
  end.

(** The table as a tree: the root comes first; every other entry has a
    directory before it as its parent, lies one level below it, has the
    path of the parent joined with its own name as its path on disk, the
    path of the parent followed by [/] and its own name as its path in the
    image (the path of the root, which is [/], counting as empty), and is
    listed among the children of the parent; its path on disk is the source
    directory, a separator, and its path in the image without the leading
    [/], and does not end with a separator.  The children of an entry are
    listed in increasing order, come after it and name it as their parent,
    and only directories have children. *)
Definition childOf (absPath : gostring) (es : list fileEntry) (i : nat) (f : fileEntry) : Prop :=
  (parentIndex f < i)%nat
  /\ diskPath f = withSeparator absPath ++ skipn 1 (isoPath f)
  /\ endsWithSeparator (diskPath f) = false
  /\ exists p, nth_error es (parentIndex f) = Some p
       /\ isDir p = true
       /\ level f = level p + 1
       /\ diskPath f = filepathJoin (diskPath p) (originalName f)
       /\ isoPath f
          = (if Nat.eqb (parentIndex f) 0 then [] else isoPath p)
            ++ str "/" ++ originalName f
       /\ In i (children p).

Definition listsChildren (es : list fileEntry) (i : nat) (f : fileEntry) : Prop :=
  StronglySorted lt (children f)
  /\ (isDir f = false -> children f = [])
  /\ Forall (fun c => (i < c)%nat
                      /\ exists g, nth_error es c = Some g /\ parentIndex g = i)
       (children f).

Definition sourceTree (absPath : gostring) (es : list fileEntry) : Prop :=
  (exists root, nth_error es 0 = Some root
      /\ originalName root = [0] /\ diskPath root = absPath /\ isoPath root = str "/"
      /\ isDir root = true /\ level root = 0 /\ parentIndex root = 0%nat)
  /\ forall i f, nth_error es i = Some f ->
       listsChildren es i f
       /\ (exists r, isoPath f = 47 :: r)
       /\ ((0 < i)%nat -> childOf absPath es i f).

(** The fields of an entry that the scanner does not touch once the entry is
    in the table; a table that has grown by entries and by children. *)
Definition fixedPart (f : fileEntry) : gostring * gostring * gostring * bool * Z * nat :=
  (originalName f, diskPath f, isoPath f, isDir f, level f, parentIndex f).

Definition extends (es es' : list fileEntry) : Prop :=
  forall i g, nth_error es i = Some g ->
    exists g', nth_error es' i = Some g'
               /\ fixedPart g' = fixedPart g
               /\ incl (children g) (children g').

Definition directoryAt (es : list fileEntry) (i : nat) (path : gostring) : Prop :=
  exists p, nth_error es i = Some p /\ isDir p = true /\ diskPath p = path.

(** What scanning one entity, named by path elements, does to the tree. *)
Definition scanKeepsTree (absPath : gostring) (e : osNode) : Prop :=
  forall cur parent st st',
    plainNode e = true ->
    scanEntry cur parent absPath e st = Ok st' ->
    sourceTree absPath (fileEntries (fst st)) ->
    directoryAt (fileEntries (fst st)) parent cur ->
    sourceTree absPath (fileEntries (fst st'))
    /\ extends (fileEntries (fst st)) (fileEntries (fst st')).

(** ** Vocabulary of [Build] *)

(** The test by which [Build] takes the table as scanned already: it is not
    empty and its first entry has the path [/] in the image. *)
Definition holdsScan (b : ISOBuilder) : bool :=
  match fileEntries b with
  | [] => false
  | first :: _ => eqbBytes (isoPath first) (str "/")
  end.

(** ** Vocabulary of the planner *)

(** Extents laid one after the other from [start]: the address of each, and
    the address after the last; the additions are those of [uint32]. *)
Fixpoint placed (start : Z) (sizes : list Z) : list Z :=
  match sizes with
  | [] => []
  | n :: t => start :: placed (wrap32 (start + n)) t
  end.

Definition placedEnd (start : Z) (sizes : list Z) : Z :=
  fold_left (fun lba n => wrap32 (lba + n)) sizes start.

(** A loop of [assignContentLBAs] as a pass over the table: the entries
    selected by [sel] receive the current address through [set], which then
    advances by their [size]. *)
Fixpoint placeEntries (sel : fileEntry -> bool) (size : fileEntry -> Z)
    (set : Z -> fileEntry -> fileEntry) (es : list fileEntry) (lba : Z) : list fileEntry * Z :=
  match es with
  | [] => ([], lba)
  | f :: t =>
      if sel f then
        let '(t', e) := placeEntries sel size set t (wrap32 (lba + size f)) in
        (set lba f :: t', e)
      else
        let '(t', e) := placeEntries sel size set t lba in
        (f :: t', e)
  end.

Definition isFile (f : fileEntry) : bool := negb (isDir f).

(** The sectors that the extents of the table take. *)
Definition isoDirSectors (es : list fileEntry) : list Z :=
  map (fun f => iso9660Size f / SectorSize) (filter isDir es).

Definition jolietDirSectors (es : list fileEntry) : list Z :=
  map (fun f => jolietSize f / SectorSize) (filter isDir es).

Definition fileSectors (es : list fileEntry) : list Z :=
  map (fun f => sectorsToContainFileBytes (iso9660Size f)) (filter isFile es).

(** The sectors of the eight path tables, in the order in which they are
    placed. *)
Definition pathTableSectors (b : ISOBuilder) : list Z :=
  let p := sectorsToContainBytes (len (pvdPathTableLData (ptData b))) in
  let s := sectorsToContainBytes (len (svdPathTableLData (ptData b))) in
  [p; p; s; s; p; p; s; s].

(** The length of the record of an entry in the listing of its parent, as
    the planner computed it. *)
Definition drSize (isJoliet : bool) (f : fileEntry) : Z :=
  if isJoliet then actualJolietDrSize f else actualISO9660DrSize f.

(** The extent size of a directory in a namespace. *)
Definition extentSize (isJoliet : bool) (f : fileEntry) : Z :=
  if isJoliet then jolietSize f else iso9660Size f.

(** The fields that the size of a listing depends on. *)
Definition listingKey (f : fileEntry) : bool * Z * list nat * Z * Z :=
  (isDir f, pathTableDirNum f, children f, actualISO9660DrSize f, actualJolietDrSize f).

(** The length of the record of a directory in a path table: eight bytes,
    the identifier, and a padding byte after an identifier of odd length. *)
Definition pathTableRecordLen (isJoliet : bool) (dir : fileEntry) : Z :=
  let n := len (pathTableIdentifier isJoliet dir) in
  ptRecFixedPartSize + n + (if Z.even n then 0 else 1).

(** The first [k] bytes of the file are [head]. *)
Definition headKept (k : nat) (head : list byte) (f : memFile) : Prop :=
  (k <= length (content f))%nat /\ firstn k (content f) = head.
(* ================================================================== *)
(** * Properties *)

(** ** Lists, loops and the sort *)

Lemma len_nonneg {A} (l : list A) : 0 <= len l.
Proof. unfold len. lia. Qed.

Lemma len_app {A} (l1 l2 : list A) : len (l1 ++ l2) = len l1 + len l2.
Proof. unfold len. rewrite length_app. lia. Qed.

Lemma len_makeBytes (n : Z) : 0 <= n -> len (makeBytes n) = n.
Proof. intros H. unfold len, makeBytes. rewrite repeat_length. lia. Qed.

Lemma length_copyAt (off : nat) (src dst : list byte) :
  length (copyAt off src dst) = length dst.
Proof.
  unfold copyAt. rewrite !length_app, !length_firstn, length_skipn. lia.
Qed.

Lemma len_copyAt (off : nat) (src dst : list byte) :
  len (copyAt off src dst) = len dst.
Proof. unfold len. now rewrite length_copyAt. Qed.

Lemma nth_error_copyAt_before (off : nat) (src dst : list byte) (i : nat) :
  (i < off)%nat -> nth_error (copyAt off src dst) i = nth_error dst i.
Proof.
  intros Hi. unfold copyAt.
  destruct (Nat.lt_ge_cases i (length dst)) as [Hl | Hl].
  - rewrite nth_error_app1 by (rewrite length_firstn; lia).
    now rewrite nth_error_firstn, (proj2 (Nat.ltb_lt _ _) Hi).
  - rewrite (proj2 (nth_error_None dst i) Hl).
    apply nth_error_None.
    rewrite !length_app, !length_firstn, length_skipn. lia.
Qed.

Lemma nth_error_copyAt_here (off : nat) (v : byte) (dst : list byte) :
  (off < length dst)%nat -> nth_error (copyAt off [v] dst) off = Some v.
Proof.
  intros Hl. unfold copyAt.
  rewrite nth_error_app2 by (rewrite length_firstn; lia).
  rewrite length_firstn, Nat.min_l by lia. rewrite Nat.sub_diag.
  destruct (length dst - off)%nat eqn:E; [lia | reflexivity].
Qed.

Lemma firstn_copyAt_before (n off : nat) (src dst : list byte) :
  (n <= off)%nat -> firstn n (copyAt off src dst) = firstn n dst.
Proof.
  intros Hn. apply nth_error_ext. intros i.
  rewrite !nth_error_firstn. destruct (i <? n)%nat eqn:E; [|reflexivity].
  apply Nat.ltb_lt in E. apply nth_error_copyAt_before. lia.
Qed.

Lemma copyAt_app (off : nat) (src p t : list byte) :
  (off + length src <= length p)%nat ->
  copyAt off src (p ++ t) = copyAt off src p ++ t.
Proof.
  intros H. unfold copyAt.
  rewrite firstn_app, skipn_app, length_app.
  replace (off - length p)%nat with 0%nat by lia.
  replace (off + length src - length p)%nat with 0%nat by lia.
  simpl. rewrite app_nil_r, <- !app_assoc.
  rewrite (firstn_all2 (n := (length p + length t - off)%nat)) by lia.
  rewrite (firstn_all2 (n := (length p - off)%nat)) by lia.
  reflexivity.
Qed.

Lemma length_update {A} (i : nat) (f : A -> A) (l : list A) :
  length (update i f l) = length l.
Proof.
  revert i. induction l as [|a t IH]; intros [|i]; simpl; auto.
Qed.

Lemma nth_error_update_same {A} (i : nat) (f : A -> A) (l : list A) :
  nth_error (update i f l) i = option_map f (nth_error l i).
Proof.
  revert i. induction l as [|a t IH]; intros [|i]; simpl; auto.
Qed.

Lemma nth_error_update_other {A} (i j : nat) (f : A -> A) (l : list A) :
  i <> j -> nth_error (update i f l) j = nth_error l j.
Proof.
  revert i j. induction l as [|a t IH]; intros [|i] [|j] H; simpl; auto.
  congruence.
Qed.

Lemma update_out_of_range {A} (i : nat) (f : A -> A) (l : list A) :
  (length l <= i)%nat -> update i f l = l.
Proof.
  revert i. induction l as [|a t IH]; intros [|i] H; simpl in *; auto; try lia.
  f_equal. apply IH. lia.
Qed.

Lemma map_update {A B} (h : A -> B) (f : A -> A) (g : B -> B) (i : nat) (l : list A) :
  (forall a, h (f a) = g (h a)) ->
  map h (update i f l) = update i g (map h l).
Proof.
  intros Hc. revert i. induction l as [|a t IH]; intros [|i]; simpl; auto.
  - now rewrite Hc.
  - now rewrite IH.
Qed.

Lemma index_Ok {A} (l : list A) (i : nat) (a : A) :
  index l i = Ok a <-> nth_error l i = Some a.
Proof.
  unfold index. destruct (nth_error l i); split; intros H; congruence.
Qed.

Lemma index_in_range {A} (l : list A) (i : nat) :
  (i < length l)%nat -> exists a, index l i = Ok a /\ nth_error l i = Some a.
Proof.
  intros H. unfold index. destruct (nth_error l i) eqn:E.
  - eauto.
  - apply nth_error_None in E. lia.
Qed.

Lemma index_map {A B} (h : A -> B) (l : list A) (i : nat) :
  index (map h l) i = match index l i with Ok a => Ok (h a) | Err => Err | Panic => Panic end.
Proof.
  unfold index. rewrite nth_error_map. now destruct (nth_error l i).
Qed.

(** A loop invariant for [forRange]. *)
Lemma forRangeFrom_invariant {St} (Inv : nat -> St -> Prop)
    (body : nat -> St -> result St) (n i : nat) (s s' : St) :
  Inv i s ->
  (forall k t t', (i <= k < i + n)%nat -> Inv k t -> body k t = Ok t' -> Inv (S k) t') ->
  forRangeFrom body i n s = Ok s' ->
  Inv (i + n)%nat s'.
Proof.
  revert i s. induction n as [|n IH]; intros i s H0 Hstep Hrun; simpl in Hrun.
  - injection Hrun as <-. now rewrite Nat.add_0_r.
  - destruct (body i s) as [t| |] eqn:E; simpl in Hrun; try discriminate.
    rewrite <- Nat.add_succ_comm. apply (IH (S i) t); auto.
    + apply (Hstep i s t); auto. lia.
    + intros k u u' Hk. apply Hstep. lia.
Qed.

Lemma forRange_invariant {St} (Inv : nat -> St -> Prop)
    (body : nat -> St -> result St) (n : nat) (s s' : St) :
  Inv 0%nat s ->
  (forall k t t', (k < n)%nat -> Inv k t -> body k t = Ok t' -> Inv (S k) t') ->
  forRange n body s = Ok s' ->
  Inv n s'.
Proof.
  intros H0 Hstep Hrun.
  apply (forRangeFrom_invariant Inv body n 0 s s'); auto.
  intros k t t' Hk. apply Hstep. lia.
Qed.

(** Two loops that simulate each other step by step. *)
Lemma forRangeFrom_commute {St Tt} (h : St -> Tt)
    (body : nat -> St -> result St) (body' : nat -> Tt -> result Tt)
    (n i : nat) (s : St) :
  (forall k t, body' k (h t) = liftResult h (body k t)) ->
  forRangeFrom body' i n (h s) = liftResult h (forRangeFrom body i n s).
Proof.
  intros Hc. revert i s. induction n as [|n IH]; intros i s; simpl; auto.
  rewrite Hc. destruct (body i s); simpl; auto.
Qed.

(** The sort returns a permutation of its input, ordered whenever the
    comparison is a strict weak order. *)
Lemma insertSorted_perm {A} (less : A -> A -> bool) (x : A) (l : list A) :
  Permutation (x :: l) (insertSorted less x l).
Proof.
  induction l as [|y t IH]; simpl; auto.
  destruct (less y x); auto.
  eapply perm_trans; [apply perm_swap | now apply perm_skip].
Qed.

Lemma sortSlice_perm {A} (less : A -> A -> bool) (l : list A) :
  Permutation l (sortSlice less l).
Proof.
  induction l as [|x t IH]; simpl; auto.
  eapply perm_trans; [apply perm_skip, IH | apply insertSorted_perm].
Qed.

Section SortOrdered.
Context {A : Type} (less : A -> A -> bool).
Hypothesis less_asym : forall x y, less x y = true -> less y x = false.
Hypothesis notAfter_trans :
  forall x y z, notAfter less x y -> notAfter less y z -> notAfter less x z.

Lemma insertSorted_ordered (x : A) (l : list A) :
  StronglySorted (notAfter less) l -> StronglySorted (notAfter less) (insertSorted less x l).
Proof.
  induction 1 as [|y t Hs IH Hall]; simpl.
  - constructor; constructor.
  - destruct (less y x) eqn:E.
    + constructor; auto.
      apply (Permutation_Forall (insertSorted_perm less x t)).
      constructor; auto. now apply less_asym.
    + constructor; [constructor; auto|].
      constructor; auto.
      eapply Forall_impl; [|exact Hall]. intros z Hz.
      now apply (notAfter_trans x y z).
Qed.

Lemma sortSlice_ordered (l : list A) : StronglySorted (notAfter less) (sortSlice less l).
Proof.
  induction l as [|x t IH]; simpl.
  - constructor.
  - now apply insertSorted_ordered.
Qed.
End SortOrdered.

Lemma sortSlice_map {A B} (h : A -> B) (less : A -> A -> bool) (less' : B -> B -> bool) (l : list A) :
  (forall x y, less' (h x) (h y) = less x y) ->
  sortSlice less' (map h l) = map h (sortSlice less l).
Proof.
  intros Hc. induction l as [|x t IH]; simpl; auto.
  rewrite IH. generalize (sortSlice less t) as s.
  induction s as [|y s IHs]; simpl; auto.
  rewrite Hc. destruct (less y x); simpl; auto. now rewrite IHs.
Qed.

(** ** Sector arithmetic *)

Lemma sectorsToContainFileBytes_small (size : Z) :
  0 <= size <= 4294965248 ->
  sectorsToContainFileBytes size = sectorsForFileSpec size.
Proof.
  intros H. unfold sectorsToContainFileBytes, sectorsForFileSpec, wrap32, SectorSize.
  destruct (size =? 0) eqn:E.
  - apply Z.eqb_eq in E. subst. reflexivity.
  - apply Z.eqb_neq in E. rewrite Z.mod_small by lia.
    assert (1 <= (size + 2048 - 1) / 2048).
    { apply Z.div_le_lower_bound; lia. }
    replace (size + 2047) with (size + 2048 - 1) by lia. lia.
Qed.

Lemma sectorsToContainFileBytes_empty : sectorsToContainFileBytes 0 = 1.
Proof. reflexivity. Qed.

(** C8 (evaluation at the failing input): for a file of 4294967295 bytes,
    which the 32-bit length field allows, the sum [size + 2047] wraps around
    and [sectorsToContainFileBytes] returns 0 sectors where
    [max(1, ceil(size / 2048))] is 2097152; the planner then gives the next
    file the same address.  An empty file gets one sector. *)
Theorem sectorsToContainFileBytes_wraps_near_4GiB :
  sectorsToContainFileBytes 4294967295 = 0
  /\ sectorsForFileSpec 4294967295 = 2097152
  /\ sectorsToContainFileBytes 0 = 1
  /\ plannedExtents
       (b <- ScanSourceDirectory (NewBuilder (str "src") (str "out.iso")) (Some (str "/src"))
               hugeFileTree ;;
        calculateLayout b)
     = Ok [(27, 29, 2048, 2048);
           (28, 28, 4294967295, 4294967295);
           (28, 28, 1, 1)].
Proof.
  repeat (split; [vm_compute; reflexivity|]). vm_compute. reflexivity.
Qed.

(** ** Scanner *)

(** C10: the scanner keeps a file's size in a [uint32]: there is a size of at
    least 2^32 bytes for which the scan of a directory holding one regular
    file of that size succeeds and records the size modulo 2^32 in both
    extent sizes, which is not the size of the file. *)
Theorem scanner_reduces_file_size_modulo_2_32 :
  exists size : Z,
    4294967296 <= size
    /\ forall (b : ISOBuilder) (absPath name : gostring),
        exists (b' : ISOBuilder) (root f : fileEntry),
          ScanSourceDirectory b (Some absPath) (Some [OsRegular name size]) = Ok b'
          /\ fileEntries b' = [root; f]
          /\ originalName f = name
          /\ isDir f = false
          /\ iso9660Size f = size mod 4294967296
          /\ jolietSize f = size mod 4294967296
          /\ iso9660Size f <> size.
Proof.
  exists 4294967301. split; [lia|].
  intros b absPath name.
  eexists. eexists. eexists.
  split; [reflexivity|].
  split; [reflexivity|].
  repeat split. vm_compute. discriminate.
Qed.

(** ** Name sanitiser *)

Lemma Forall_firstn_keep {A} (P : A -> Prop) (n : nat) (l : list A) :
  Forall P l -> Forall P (firstn n l).
Proof.
  intros H. revert n. induction H; intros [|n]; simpl; auto.
Qed.

Lemma len_firstn_le {A} (n : Z) (l : list A) :
  0 <= n -> len (firstn (Z.to_nat n) l) <= n.
Proof.
  intros H. unfold len. rewrite length_firstn. lia.
Qed.

Lemma encodeRune_isIsoChar (r : rune) : isIsoChar r = true -> encodeRune r = [r].
Proof.
  unfold isIsoChar, encodeRune. intros H.
  destruct ((0 <=? r) && (r <=? 127)) eqn:E; [reflexivity|].
  exfalso.
  apply andb_false_iff in E.
  rewrite !orb_true_iff, !andb_true_iff, !Z.leb_le, Z.eqb_eq in H.
  rewrite !Z.leb_gt in E. lia.
Qed.

Lemma sanitizePartFunc_chars (part : gostring) (maxLength : Z) (allowDot : bool) :
  Forall (fun c => isIsoChar c = true \/ (allowDot = true /\ c = 46))
         (sanitizePartFunc part maxLength allowDot).
Proof.
  unfold sanitizePartFunc.
  set (body := fun r : rune => if isIsoChar r then _ else _).
  assert (H : Forall (fun c => isIsoChar c = true \/ (allowDot = true /\ c = 46))
                     (flat_map body (runes (toUpper part)))).
  { induction (runes (toUpper part)) as [|r t IH]; simpl; [constructor|].
    apply Forall_app. split; [|exact IH].
    unfold body. destruct (isIsoChar r) eqn:E.
    - rewrite encodeRune_isIsoChar by exact E. constructor; auto.
    - destruct (allowDot && (r =? 46)) eqn:E2.
      + apply andb_true_iff in E2. destruct E2 as [-> _].
        constructor; auto.
      + constructor; auto. }
  destruct (_ >? _); [now apply Forall_firstn_keep | exact H].
Qed.

Lemma sanitizePartFunc_isoNameChar (part : gostring) (maxLength : Z) (allowDot : bool) :
  Forall isoNameChar (sanitizePartFunc part maxLength allowDot).
Proof.
  eapply Forall_impl; [|apply sanitizePartFunc_chars].
  intros c [H | [_ H]]; [now left | now right].
Qed.

Lemma sanitizePartFunc_noDot (part : gostring) (maxLength : Z) :
  Forall (fun c => isIsoChar c = true) (sanitizePartFunc part maxLength false).
Proof.
  eapply Forall_impl; [|apply sanitizePartFunc_chars].
  intros c [H | [H _]]; [exact H | discriminate].
Qed.

Lemma sanitizePartFunc_len (part : gostring) (maxLength : Z) (allowDot : bool) :
  0 <= maxLength -> len (sanitizePartFunc part maxLength allowDot) <= maxLength.
Proof.
  intros H. unfold sanitizePartFunc.
  match goal with |- context [if ?c then _ else _] => destruct c eqn:E end.
  - now apply len_firstn_le.
  - rewrite Z.gtb_ltb in E. apply Z.ltb_ge in E. exact E.
Qed.

Lemma isEmpty_false_len {A : Type} (s : gostring) : isEmpty s = false -> 1 <= len s.
Proof. destruct s; simpl; [discriminate|]. unfold len. simpl. lia. Qed.

Lemma isEmpty_true_nil (s : gostring) : isEmpty s = true -> s = [].
Proof. destruct s; simpl; [reflexivity | discriminate]. Qed.

Lemma truncate8_len (s : gostring) :
  len (if len s >? 8 then firstn 8 s else s) <= 8.
Proof.
  destruct (len s >? 8) eqn:E.
  - apply (len_firstn_le 8). lia.
  - rewrite Z.gtb_ltb in E. now apply Z.ltb_ge in E.
Qed.

Lemma truncate8_chars (P : byte -> Prop) (s : gostring) :
  Forall P s -> Forall P (if len s >? 8 then firstn 8 s else s).
Proof.
  intros H. destruct (len s >? 8); [now apply Forall_firstn_keep | exact H].
Qed.

(** A directory identifier: 1 to 8 bytes of [A-Z0-9_]. *)
Lemma sanitizeISO9660Name_directory (name : gostring) :
  let r := sanitizeISO9660Name name true in
  Forall (fun c => isIsoChar c = true) r /\ 1 <= len r <= 8.
Proof.
  unfold sanitizeISO9660Name. simpl negb. cbv iota beta.
  set (s := replaceAll (sanitizePartFunc name 8 false) 46 95).
  assert (Hs : Forall (fun c => isIsoChar c = true) s).
  { unfold s, replaceAll. apply Forall_map.
    eapply Forall_impl; [|apply sanitizePartFunc_noDot].
    intros c Hc. simpl. destruct (c =? 46); [reflexivity | exact Hc]. }
  match goal with
  | |- context [if _ then str "DIR" else ?t] => set (t8 := t)
  end.
  destruct (isEmpty t8) eqn:E.
  - split; [repeat constructor | vm_compute; split; discriminate].
  - split; [now apply truncate8_chars|].
    split; [now apply (isEmpty_false_len (A := nat)) | apply truncate8_len].
Qed.

(** A file identifier before the version suffix: 1 to 12 bytes of
    [A-Z0-9_.]. *)
Lemma sanitizeISO9660Name_file (name : gostring) :
  let r := sanitizeISO9660Name name false in
  Forall isoNameChar r /\ 1 <= len r <= 12.
Proof.
  unfold sanitizeISO9660Name. simpl negb.
  match goal with
  | |- context [let '(base, ext) := ?p in _] => destruct p as [base ext]
  end.
  cbv iota beta.
  set (sb := sanitizePartFunc base 8 true).
  set (fe := if negb (isEmpty ext) then sanitizePartFunc ext 3 false else []).
  assert (Hsb : Forall isoNameChar sb) by apply sanitizePartFunc_isoNameChar.
  assert (Hfe : Forall isoNameChar fe /\ len fe <= 3).
  { unfold fe. destruct (negb (isEmpty ext)).
    - split; [apply sanitizePartFunc_isoNameChar | apply sanitizePartFunc_len; lia].
    - split; [constructor | vm_compute; discriminate]. }
  match goal with
  | |- context [let '(finalBase, finalExt) := ?p in _] =>
      assert (Hp : Forall isoNameChar (fst p) /\ Forall isoNameChar (snd p) /\ len (snd p) <= 3);
      [| destruct p as [fb fx]]
  end.
  { destruct (contains sb 46 && isEmpty fe); [|simpl; tauto].
    destruct (splitN2 sb 46) as [|p0 [|p1 [|]]]; try (simpl; tauto).
    destruct (negb (isEmpty (sanitizePartFunc p0 8 false))); [|simpl; tauto].
    simpl. split; [apply sanitizePartFunc_isoNameChar|].
    destruct (negb (isEmpty (sanitizePartFunc p1 3 false))).
    - split; [apply sanitizePartFunc_isoNameChar | apply sanitizePartFunc_len; lia].
    - tauto. }
  simpl in Hp. destruct Hp as (Hfb & Hfx & Hlx).
  cbv iota beta.
  set (fb8 := if len fb >? 8 then firstn 8 fb else fb).
  assert (Hfb8 : Forall isoNameChar fb8 /\ len fb8 <= 8).
  { split; [now apply truncate8_chars | apply truncate8_len]. }
  destruct Hfb8 as [Hc8 Hl8].
  set (fn := if negb (isEmpty fx) then fb8 ++ str "." ++ fx else fb8).
  assert (Hfn : Forall isoNameChar fn /\ len fn <= 12).
  { unfold fn. destruct (negb (isEmpty fx)).
    - split.
      + apply Forall_app. split; [exact Hc8|].
        apply Forall_app. split; [|exact Hfx].
        constructor; [now right | constructor].
      + rewrite !len_app. change (len (str ".")) with 1. lia.
    - split; [exact Hc8 | lia]. }
  destruct Hfn as [Hcn Hln].
  set (fn' := if isEmpty fn || eqbBytes fn (str ".") then str "FILE" else fn).
  assert (Hfn' : Forall isoNameChar fn' /\ 1 <= len fn' <= 12).
  { unfold fn'. destruct (isEmpty fn) eqn:E; simpl.
    - split; [repeat constructor; now left | vm_compute; split; discriminate].
    - destruct (eqbBytes fn (str ".")).
      + split; [repeat constructor; now left | vm_compute; split; discriminate].
      + split; [exact Hcn|]. split; [now apply (isEmpty_false_len (A := nat)) | exact Hln]. }
  destruct (hasPrefix fn' 46 && (len fn' >? 1) && negb (isEmpty fx) && isEmpty fb8) eqn:E.
  - apply andb_true_iff in E. destruct E as [E _].
    apply andb_true_iff in E. destruct E as [_ E].
    apply negb_true_iff in E.
    split; [exact Hfx|].
    split; [now apply (isEmpty_false_len (A := nat)) | lia].
  - exact Hfn'.
Qed.

(** C1 (evaluation at the failing input): the file name [a.b.c] is split at
    its last dot into the base [a.b] and the extension [c]; the dot of the
    base is kept, and the second split that would remove it only runs when
    the extension is empty.  The identifier is [A.B.C], with two dots, and
    the planner stores [A.B.C;1]. *)
Theorem sanitizeISO9660Name_keeps_two_dots :
  sanitizeISO9660Name (str "a.b.c") false = str "A.B.C"
  /\ count_occ Z.eq_dec (sanitizeISO9660Name (str "a.b.c") false) 46 = 2%nat
  /\ iso9660Name
       (assignSanitizedNameAndDrSize
          (newFileEntry (str "a.b.c") (str "/src/a.b.c") (str "/a.b.c") false 1 0 5 0))
     = str "A.B.C;1".
Proof.
  repeat (split; [vm_compute; reflexivity|]). vm_compute. reflexivity.
Qed.

(** ** Joliet names *)

Lemma truncateJolietName_short (name : gostring) :
  len (runes name) <= JolietMaxFilenameChars -> truncateJolietName name = name.
Proof.
  intros H. unfold truncateJolietName.
  destruct (_ || _); [reflexivity|].
  destruct (len (runes name) >? JolietMaxFilenameChars) eqn:E; [|reflexivity].
  rewrite Z.gtb_ltb in E. apply Z.ltb_lt in E. lia.
Qed.

(** C2 (evaluation at the failing input): [truncateJolietName] counts runes,
    not UTF-16 code units.  A name of 64 runes outside the Basic Multilingual
    Plane is returned unchanged, and its encoding has 128 code units, 256
    bytes instead of at most 128. *)
Theorem truncateJolietName_counts_runes :
  len (runes astralName) = 64
  /\ truncateJolietName astralName = astralName
  /\ len (utf16Encode (runes (truncateJolietName astralName))) = 128
  /\ len (encodeUTF16BE (truncateJolietName astralName)) = 256.
Proof.
  repeat (split; [vm_compute; reflexivity|]). vm_compute. reflexivity.
Qed.

(** ** Directory records *)

Lemma wrap8_range (x : Z) : 0 <= wrap8 x < 256.
Proof. unfold wrap8. apply Z.mod_pos_bound. lia. Qed.

Lemma wrap8_small (x : Z) : 0 <= x <= 255 -> wrap8 x = x.
Proof. intros H. unfold wrap8. apply Z.mod_small. lia. Qed.

(** The length of a marshalled record, whatever the identifier. *)
Lemma marshalDirectoryRecord_len (fields : directoryRecordFields) (identifier : list byte) :
  len (marshalDirectoryRecord fields identifier)
  = let l := drFixedPartSize + wrap8 (len identifier) in
    if negb (l mod 2 =? 0) then l + 1 else l.
Proof.
  unfold marshalDirectoryRecord. cbv zeta.
  rewrite !len_copyAt. apply len_makeBytes.
  pose proof (wrap8_range (len identifier)). unfold drFixedPartSize.
  destruct (negb _); lia.
Qed.

Lemma marshalDirectoryRecord_len_fits (fields : directoryRecordFields) (identifier : list byte) :
  len identifier <= 255 ->
  len (marshalDirectoryRecord fields identifier) = calculateDirectoryRecordSize identifier.
Proof.
  intros H. rewrite marshalDirectoryRecord_len. unfold calculateDirectoryRecordSize.
  pose proof (len_nonneg identifier). now rewrite wrap8_small by lia.
Qed.

Lemma calculateDirectoryRecordSize_bounds (identifier : list byte) :
  33 + len identifier <= calculateDirectoryRecordSize identifier <= 34 + len identifier
  /\ calculateDirectoryRecordSize identifier mod 2 = 0.
Proof.
  unfold calculateDirectoryRecordSize, drFixedPartSize.
  destruct ((33 + len identifier) mod 2 =? 0) eqn:E; cbn [negb].
  - apply Z.eqb_eq in E. lia.
  - apply Z.eqb_neq in E. split; [lia|].
    pose proof (Z.mod_pos_bound (33 + len identifier) 2 ltac:(lia)).
    rewrite Z.add_mod by lia.
    replace ((33 + len identifier) mod 2) with 1 by lia. reflexivity.
Qed.

Lemma marshalDirectoryRecord_first_byte (fields : directoryRecordFields) (identifier : list byte) :
  len identifier <= 221 ->
  nth_error (marshalDirectoryRecord fields identifier) 0
  = Some (calculateDirectoryRecordSize identifier).
Proof.
  intros H. pose proof (len_nonneg identifier) as Hn.
  pose proof (calculateDirectoryRecordSize_bounds identifier) as [Hb Hm].
  assert (Hc : calculateDirectoryRecordSize identifier <= 254).
  { destruct (Z.eq_dec (len identifier) 221) as [E|E]; [|lia].
    unfold calculateDirectoryRecordSize, drFixedPartSize. rewrite E. vm_compute. discriminate. }
  unfold marshalDirectoryRecord. cbv zeta.
  rewrite !nth_error_copyAt_before by lia.
  rewrite (wrap8_small (len identifier)) by lia.
  fold (calculateDirectoryRecordSize identifier).
  rewrite nth_error_copyAt_here.
  - now rewrite wrap8_small by lia.
  - unfold makeBytes. rewrite repeat_length. lia.
Qed.

Lemma marshalDirectoryRecord_flags (fields : directoryRecordFields) (identifier : list byte) :
  nth_error (marshalDirectoryRecord fields identifier) 25 = Some (FileFlags fields).
Proof.
  unfold marshalDirectoryRecord. cbv zeta.
  rewrite !nth_error_copyAt_before by lia.
  apply nth_error_copyAt_here.
  rewrite !length_copyAt. unfold makeBytes. rewrite repeat_length.
  pose proof (wrap8_range (len identifier)). unfold drFixedPartSize.
  destruct (negb _); lia.
Qed.

(** C6: the file-flags byte (offset 25) of every marshalled directory record
    has bit 1 set exactly for a directory and bit 0 set exactly for a hidden
    entity whose identifier is none of [.], [..], the empty string and the
    root sentinel; no other bit is set.  The records [.] and [..] never
    carry the hidden bit, whatever the flags of the directory they
    describe. *)
Theorem fileFlags_directory_and_hidden_bits :
  forall (extentLBA extentOrDataSize : Z) (drIDNameToEncode : gostring)
         (targetEntry : fileEntry) (isJoliet : bool),
    (exists flags : byte,
        nth_error (createDirectoryRecordBytes extentLBA extentOrDataSize
                     drIDNameToEncode targetEntry isJoliet) 25 = Some flags
        /\ Z.testbit flags 1 = isDir targetEntry
        /\ Z.testbit flags 0 = isHidden targetEntry && namesEntityItself drIDNameToEncode
        /\ (forall n, 2 <= n -> Z.testbit flags n = false))
    /\ (exists flags : byte,
           nth_error (createDirectoryRecordBytes extentLBA extentOrDataSize
                        (str ".") targetEntry isJoliet) 25 = Some flags
           /\ Z.testbit flags 0 = false)
    /\ (exists flags : byte,
           nth_error (createDirectoryRecordBytes extentLBA extentOrDataSize
                        (str "..") targetEntry isJoliet) 25 = Some flags
           /\ Z.testbit flags 0 = false).
Proof.
  intros lba size name target isJoliet.
  assert (Hgen : forall nm,
             exists flags : byte,
               nth_error (createDirectoryRecordBytes lba size nm target isJoliet) 25 = Some flags
               /\ Z.testbit flags 1 = isDir target
               /\ Z.testbit flags 0 = isHidden target && namesEntityItself nm
               /\ (forall n, 2 <= n -> Z.testbit flags n = false)).
  { intros nm. unfold createDirectoryRecordBytes. cbv zeta.
    rewrite marshalDirectoryRecord_flags.
    eexists. split; [reflexivity|].
    unfold populateDirectoryRecordFields, namesEntityItself. cbv zeta. simpl FileFlags.
    destruct (isDir target), (isHidden target),
      (negb (eqbBytes nm (str ".")) && negb (eqbBytes nm (str ".."))
       && negb (eqbBytes nm []) && negb (eqbBytes nm [0]));
      (split; [reflexivity | split; [reflexivity|]]);
      intros n Hn; simpl;
      try (apply Z.bits_0);
      destruct n as [|p|p]; try lia;
      destruct p as [p|p|]; try reflexivity; try lia;
      destruct p; reflexivity. }
  split; [apply Hgen|].
  split.
  - destruct (Hgen (str ".")) as (flags & H1 & _ & H0 & _).
    exists flags. split; [exact H1|]. rewrite H0. apply andb_false_r.
  - destruct (Hgen (str "..")) as (flags & H1 & _ & H0 & _).
    exists flags. split; [exact H1|]. rewrite H0. apply andb_false_r.
Qed.

Lemma eqbBytes_eq (a b : gostring) : eqbBytes a b = true <-> a = b.
Proof.
  revert b. induction a as [|x a IH]; intros [|y b]; simpl; split; intros H;
    try reflexivity; try discriminate.
  - apply andb_true_iff in H. destruct H as [H1 H2].
    apply Z.eqb_eq in H1. apply IH in H2. now subst.
  - injection H as -> ->. rewrite Z.eqb_refl. simpl. now apply IH.
Qed.

Lemma calculateDirectoryRecordSize_roundUpEven (identifier : list byte) :
  calculateDirectoryRecordSize identifier = roundUpEven (33 + len identifier).
Proof.
  unfold calculateDirectoryRecordSize, roundUpEven, drFixedPartSize.
  pose proof (Z.div_mod (33 + len identifier) 2 ltac:(lia)) as Hd.
  pose proof (Z.mod_pos_bound (33 + len identifier) 2 ltac:(lia)) as Hm.
  destruct ((33 + len identifier) mod 2 =? 0) eqn:E; cbn [negb].
  - apply Z.eqb_eq in E.
    assert ((33 + len identifier + 1) / 2 = (33 + len identifier) / 2).
    { symmetry. apply Z.div_unique with (r := 1); lia. }
    lia.
  - apply Z.eqb_neq in E.
    assert ((33 + len identifier + 1) / 2 = (33 + len identifier) / 2 + 1).
    { symmetry. apply Z.div_unique with (r := 0); lia. }
    lia.
Qed.

(** The flag that [createDirectoryRecordBytes] derives for the root selects
    the same identifier as the one used when the record was sized. *)
Lemma getDRIdentifierBytes_root_flag (name : gostring) (isJoliet isRoot : bool) :
  getDRIdentifierBytes name isJoliet
    (if isRoot then
       if isJoliet && (eqbBytes name [0] || eqbBytes name (str ".")) then true
       else if negb isJoliet && (eqbBytes name [] || eqbBytes name (str ".")) then true
       else false
     else false)
  = getDRIdentifierBytes name isJoliet isRoot.
Proof.
  unfold getDRIdentifierBytes.
  destruct isJoliet, isRoot, (eqbBytes name [0]), (eqbBytes name (str ".")),
    (eqbBytes name []); reflexivity.
Qed.

Lemma createDirectoryRecordBytes_len (extentLBA extentOrDataSize : Z) (name : gostring)
    (targetEntry : fileEntry) (isJoliet : bool) :
  len (getDRIdentifierBytes name isJoliet (pathTableDirNum targetEntry =? 1)) <= 255 ->
  len (createDirectoryRecordBytes extentLBA extentOrDataSize name targetEntry isJoliet)
  = calculateDirectoryRecordSize
      (getDRIdentifierBytes name isJoliet (pathTableDirNum targetEntry =? 1)).
Proof.
  intros H. unfold createDirectoryRecordBytes. cbv zeta.
  rewrite getDRIdentifierBytes_root_flag.
  now apply marshalDirectoryRecord_len_fits.
Qed.

Lemma assign_keeps (f : fileEntry) :
  pathTableDirNum (assignSanitizedNameAndDrSize f) = pathTableDirNum f
  /\ isDir (assignSanitizedNameAndDrSize f) = isDir f
  /\ originalName (assignSanitizedNameAndDrSize f) = originalName f
  /\ isHidden (assignSanitizedNameAndDrSize f) = isHidden f
  /\ parentIndex (assignSanitizedNameAndDrSize f) = parentIndex f
  /\ children (assignSanitizedNameAndDrSize f) = children f
  /\ iso9660Size (assignSanitizedNameAndDrSize f) = iso9660Size f
  /\ jolietSize (assignSanitizedNameAndDrSize f) = jolietSize f
  /\ iso9660Sector (assignSanitizedNameAndDrSize f) = iso9660Sector f
  /\ jolietSector (assignSanitizedNameAndDrSize f) = jolietSector f.
Proof.
  unfold assignSanitizedNameAndDrSize.
  destruct (isDir f) eqn:Ed, (pathTableDirNum f =? 1); cbn; rewrite ?Ed; repeat split.
Qed.

Lemma assign_names (f : fileEntry) :
  iso9660Name (assignSanitizedNameAndDrSize f)
  = (if isDir f then
       if pathTableDirNum f =? 1 then []
       else sanitizeISO9660Name (originalName f) true
     else sanitizeISO9660Name (originalName f) false ++ str ";1")
  /\ jolietName (assignSanitizedNameAndDrSize f)
     = (if isDir f && (pathTableDirNum f =? 1) then [0]
        else truncateJolietName (originalName f)).
Proof.
  unfold assignSanitizedNameAndDrSize.
  destruct (isDir f), (pathTableDirNum f =? 1); cbn; split; reflexivity.
Qed.

Lemma assign_drSizes (f : fileEntry) :
  actualISO9660DrSize (assignSanitizedNameAndDrSize f)
  = calculateDirectoryRecordSize
      (getDRIdentifierBytes (iso9660Name (assignSanitizedNameAndDrSize f)) false
         (pathTableDirNum f =? 1))
  /\ actualJolietDrSize (assignSanitizedNameAndDrSize f)
     = calculateDirectoryRecordSize
         (getDRIdentifierBytes (jolietName (assignSanitizedNameAndDrSize f)) true
            (pathTableDirNum f =? 1)).
Proof.
  unfold assignSanitizedNameAndDrSize.
  destruct (isDir f), (pathTableDirNum f =? 1); cbn; split; reflexivity.
Qed.

(** A primary identifier is at most 14 bytes long. *)
Lemma assign_iso9660Name_len (f : fileEntry) :
  len (iso9660Name (assignSanitizedNameAndDrSize f)) <= 14.
Proof.
  rewrite (proj1 (assign_names f)).
  destruct (isDir f).
  - destruct (pathTableDirNum f =? 1).
    + vm_compute. discriminate.
    + pose proof (sanitizeISO9660Name_directory (originalName f)) as [_ H].
      cbv zeta in H. lia.
  - pose proof (sanitizeISO9660Name_file (originalName f)) as [_ H].
    cbv zeta in H. rewrite len_app. change (len (str ";1")) with 2. lia.
Qed.

Lemma getDRIdentifierBytes_primary_len (name : gostring) (isRoot : bool) :
  len (getDRIdentifierBytes name false isRoot) <= Z.max 1 (len name).
Proof.
  unfold getDRIdentifierBytes.
  destruct (_ || _); [change (len [0]) with 1; lia|].
  destruct (eqbBytes name (str "..")); [change (len [1]) with 1; lia | lia].
Qed.

Lemma getDRIdentifierBytes_joliet_len (name : gostring) (isRoot : bool) :
  len (getDRIdentifierBytes name true isRoot) <= Z.max 1 (len (encodeUTF16BE name)).
Proof.
  unfold getDRIdentifierBytes.
  destruct (_ && _); [change (len [0]) with 1; lia|].
  destruct (eqbBytes name (str ".")) eqn:E1.
  { apply eqbBytes_eq in E1. subst. lia. }
  destruct (eqbBytes name (str "..")) eqn:E2.
  { apply eqbBytes_eq in E2. subst. lia. }
  lia.
Qed.

(** The record of an entity in the primary listing of its parent has the
    length computed by the planner. *)
Lemma childRecord_primary_len (f : fileEntry) :
  exists r, childRecord false (assignSanitizedNameAndDrSize f) = Ok r
            /\ len r = actualISO9660DrSize (assignSanitizedNameAndDrSize f).
Proof.
  set (g := assignSanitizedNameAndDrSize f).
  pose proof (assign_keeps f) as (Hnum & _).
  pose proof (assign_drSizes f) as [Hsz _]. fold g in Hsz, Hnum.
  assert (Hlen : forall lba sz,
             len (createDirectoryRecordBytes lba sz (iso9660Name g) g false)
             = actualISO9660DrSize g).
  { intros lba sz. rewrite createDirectoryRecordBytes_len; rewrite Hnum.
    - now rewrite Hsz.
    - pose proof (getDRIdentifierBytes_primary_len (iso9660Name g) (pathTableDirNum f =? 1)).
      pose proof (assign_iso9660Name_len f). fold g in H0. lia. }
  unfold childRecord, childRecordArgs.
  destruct (isDir g); rewrite Hlen, Z.eqb_refl; cbn [negb]; eexists; split;
    try reflexivity; apply Hlen.
Qed.

(** The same for the Joliet listing, for an identifier that fits the one-byte
    length field. *)
Lemma childRecord_joliet_len (f : fileEntry) :
  len (encodeUTF16BE (jolietName (assignSanitizedNameAndDrSize f))) <= 255 ->
  exists r, childRecord true (assignSanitizedNameAndDrSize f) = Ok r
            /\ len r = actualJolietDrSize (assignSanitizedNameAndDrSize f).
Proof.
  set (g := assignSanitizedNameAndDrSize f). intros Hfit.
  pose proof (assign_keeps f) as (Hnum & _).
  pose proof (assign_drSizes f) as [_ Hsz]. fold g in Hsz, Hnum.
  assert (Hlen : forall lba sz,
             len (createDirectoryRecordBytes lba sz (jolietName g) g true)
             = actualJolietDrSize g).
  { intros lba sz. rewrite createDirectoryRecordBytes_len; rewrite Hnum.
    - now rewrite Hsz.
    - pose proof (getDRIdentifierBytes_joliet_len (jolietName g) (pathTableDirNum f =? 1)).
      lia. }
  unfold childRecord, childRecordArgs.
  destruct (isDir g); rewrite Hlen, Z.eqb_refl; cbn [negb]; eexists; split;
    try reflexivity; apply Hlen.
Qed.

(** C4 (amended): for an identifier of at most 221 bytes the marshalled
    record has length [33 + len(identifier)] rounded up to the next even
    number, and its first byte is that length.  For every entity the record
    emitted in the primary listing of its parent has exactly the length
    [actualISO9660DrSize] computed by the planner; the record emitted in the
    Joliet listing has the length [actualJolietDrSize] when the UCS-2BE
    encoding of the Joliet name fits the one-byte length field. *)
Theorem directoryRecord_length_matches_dr_size
    (fields : directoryRecordFields) (identifier : list byte) (f : fileEntry) :
  (len identifier <= 221 ->
   len (marshalDirectoryRecord fields identifier) = roundUpEven (33 + len identifier)
   /\ nth_error (marshalDirectoryRecord fields identifier) 0
      = Some (roundUpEven (33 + len identifier)))
  /\ (exists r, childRecord false (assignSanitizedNameAndDrSize f) = Ok r
                /\ len r = actualISO9660DrSize (assignSanitizedNameAndDrSize f))
  /\ (len (encodeUTF16BE (jolietName (assignSanitizedNameAndDrSize f))) <= 255 ->
      exists r, childRecord true (assignSanitizedNameAndDrSize f) = Ok r
                /\ len r = actualJolietDrSize (assignSanitizedNameAndDrSize f)).
Proof.
  split; [|split].
  - intros Hid. rewrite <- calculateDirectoryRecordSize_roundUpEven.
    split; [apply marshalDirectoryRecord_len_fits; lia|].
    now apply marshalDirectoryRecord_first_byte.
  - apply childRecord_primary_len.
  - apply childRecord_joliet_len.
Qed.

(** ** Directory listings *)

Lemma bytesLess_asym (a b : gostring) : bytesLess a b = true -> bytesLess b a = false.
Proof.
  unfold bytesLess. revert b.
  induction a as [|x a IH]; intros [|y b]; simpl; try discriminate; try reflexivity.
  rewrite (Z.compare_antisym x y).
  destruct (x ?= y); simpl; try discriminate; try reflexivity.
  apply IH.
Qed.

Lemma bytesLess_notAfter_trans (a b c : gostring) :
  bytesLess b a = false -> bytesLess c b = false -> bytesLess c a = false.
Proof.
  unfold bytesLess. revert b c.
  induction a as [|x a IH]; intros [|y b] [|z c]; simpl; try discriminate; try reflexivity.
  destruct (Z.compare_spec y x), (Z.compare_spec z y), (Z.compare_spec z x);
    subst; try lia; try discriminate; try reflexivity.
  apply IH.
Qed.

(** The order in which a listing leaves its children: no later child is
    below an earlier one in the order of Go strings on the name of the
    namespace. *)
Lemma sortedChildren_ordered (b : ISOBuilder) (currentDir : fileEntry) (isJoliet : bool)
    (l : list fileEntry) :
  sortedChildren b currentDir isJoliet = Ok l ->
  StronglySorted (fun x y => listingLess isJoliet y x = false) l.
Proof.
  unfold sortedChildren. destruct (lookupAll _ _) as [es| |]; simpl; try discriminate.
  intros H. injection H as <-.
  apply (sortSlice_ordered (listingLess isJoliet)).
  - intros x y. unfold listingLess. destruct isJoliet; apply bytesLess_asym.
  - intros x y z. unfold notAfter, listingLess.
    destruct isJoliet; apply bytesLess_notAfter_trans.
Qed.

(** ** Tables under the scanner and the planner *)

Lemma update_app_length {A} (g : A -> A) (pre : list A) (x : A) (post : list A) :
  update (length pre) g (pre ++ x :: post) = pre ++ g x :: post.
Proof. induction pre as [|a pre IH]; simpl; [reflexivity | now rewrite IH]. Qed.

Lemma update_update {A} (i : nat) (g1 g2 : A -> A) (l : list A) :
  update i g2 (update i g1 l) = update i (fun a => g2 (g1 a)) l.
Proof.
  revert i. induction l as [|a t IH]; intros [|i]; simpl; auto. now rewrite IH.
Qed.

Lemma Forall_update {A} (Q : A -> Prop) (i : nat) (g : A -> A) (l : list A) :
  Forall Q l ->
  (forall a, nth_error l i = Some a -> Q a -> Q (g a)) ->
  Forall Q (update i g l).
Proof.
  intros H. revert i. induction H as [|a t Ha Ht IH]; intros [|i] Hg; simpl.
  - constructor.
  - constructor.
  - constructor; [apply Hg; auto | exact Ht].
  - constructor; [exact Ha | apply IH; exact Hg].
Qed.

Lemma Forall2_refl {A} (R : A -> A -> Prop) (l : list A) :
  (forall a, R a a) -> Forall2 R l l.
Proof. intros H. induction l; constructor; auto. Qed.

Lemma Forall2_update {A} (R : A -> A -> Prop) (i : nat) (g : A -> A) (l : list A) :
  (forall a, R a a) ->
  (forall a, nth_error l i = Some a -> R a (g a)) ->
  Forall2 R l (update i g l).
Proof.
  intros Hrefl. revert i. induction l as [|a t IH]; intros [|i] Hg; simpl.
  - constructor.
  - constructor.
  - constructor; [apply Hg; reflexivity | now apply Forall2_refl].
  - constructor; [apply Hrefl | apply IH; exact Hg].
Qed.

Lemma Forall2_trans {A} (R : A -> A -> Prop) (l1 l2 l3 : list A) :
  (forall a b c, R a b -> R b c -> R a c) ->
  Forall2 R l1 l2 -> Forall2 R l2 l3 -> Forall2 R l1 l3.
Proof.
  intros Ht H12. revert l3. induction H12; intros l3 H23; inversion H23; subst;
    constructor; eauto.
Qed.

Lemma touches_length P i es es' : touches P i es es' -> length es' = length es.
Proof.
  intros (f & _ & [[-> _] | (g & _ & ->)]); [reflexivity | apply length_update].
Qed.

Lemma touches_Forall P (Q : fileEntry -> Prop) i es es' :
  (forall f f', P f f' -> Q f -> Q f') ->
  touches P i es es' -> Forall Q es -> Forall Q es'.
Proof.
  intros HP (f & Hf & [[-> _] | (g & Hg & ->)]) HQ; [exact HQ|].
  apply Forall_update; [exact HQ|].
  intros a Ha Hqa. rewrite Hf in Ha. injection Ha as <-. now apply (HP f).
Qed.

Lemma touches_Forall2 P (R : fileEntry -> fileEntry -> Prop) i es es' :
  (forall a, R a a) ->
  (forall f f', P f f' -> R f f') ->
  touches P i es es' -> Forall2 R es es'.
Proof.
  intros Hrefl HP (f & Hf & [[-> _] | (g & Hg & ->)]); [now apply Forall2_refl|].
  apply Forall2_update; [exact Hrefl|].
  intros a Ha. rewrite Hf in Ha. injection Ha as <-. now apply HP.
Qed.

(** A loop whose rounds touch the table as described by [P]. *)
Section TouchingLoop.
Context {St : Type} (ent : St -> list fileEntry) (body : nat -> St -> result St)
        (P : fileEntry -> fileEntry -> Prop).
Hypothesis body_touches :
  forall i st st', body i st = Ok st' -> touches P i (ent st) (ent st').

Lemma loop_length n st st' :
  forRange n body st = Ok st' -> length (ent st') = length (ent st).
Proof.
  intros H.
  apply (forRange_invariant (fun _ t => length (ent t) = length (ent st)) body n st st');
    auto.
  intros k t t' _ Ht Hb. rewrite <- Ht. eapply touches_length, body_touches, Hb.
Qed.

Lemma loop_Forall (Q : fileEntry -> Prop) n st st' :
  (forall f f', P f f' -> Q f -> Q f') ->
  forRange n body st = Ok st' -> Forall Q (ent st) -> Forall Q (ent st').
Proof.
  intros HP H H0.
  apply (forRange_invariant (fun _ t => Forall Q (ent t)) body n st st'); auto.
  intros k t t' _ Ht Hb. eapply touches_Forall; eauto.
Qed.

Lemma loop_Forall2 (R : fileEntry -> fileEntry -> Prop) n st st' :
  (forall a, R a a) -> (forall a b c, R a b -> R b c -> R a c) ->
  (forall f f', P f f' -> R f f') ->
  forRange n body st = Ok st' -> Forall2 R (ent st) (ent st').
Proof.
  intros Hrefl Htrans HP H.
  apply (forRange_invariant (fun _ t => Forall2 R (ent st) (ent t)) body n st st'); auto.
  - now apply Forall2_refl.
  - intros k t t' _ Ht Hb. eapply Forall2_trans; [exact Htrans | exact Ht|].
    eapply touches_Forall2; eauto.
Qed.

(** After the loop every entry has been visited: what a round establishes
    for the entry at its index, and later rounds keep, holds everywhere. *)
Lemma loop_all (Q : fileEntry -> Prop) st st' :
  (forall f f', P f f' -> Q f') ->
  forRange (length (ent st)) body st = Ok st' -> Forall Q (ent st').
Proof.
  intros HP H.
  assert (Hinv : forall j f, (j < length (ent st))%nat ->
                             nth_error (ent st') j = Some f -> Q f).
  { apply (forRange_invariant
             (fun k t => length (ent t) = length (ent st)
                         /\ forall j f, (j < k)%nat -> nth_error (ent t) j = Some f -> Q f)
             body (length (ent st)) st st'); auto.
    - split; [reflexivity | intros j f Hj; lia].
    - intros k t t' Hk [Hlen Ht] Hb.
      pose proof (body_touches k t t' Hb) as Htch.
      split; [rewrite <- Hlen; eapply touches_length; eauto|].
      destruct Htch as (f0 & Hf0 & [[-> Hp] | (g & Hg & ->)]); intros j f Hj Hnth.
      + destruct (Nat.eq_dec j k) as [->|Hne].
        * rewrite Hf0 in Hnth. injection Hnth as <-. eapply HP; eauto.
        * apply (Ht j f); [lia | exact Hnth].
      + destruct (Nat.eq_dec j k) as [->|Hne].
        * rewrite nth_error_update_same, Hf0 in Hnth. simpl in Hnth.
          injection Hnth as <-. eapply HP; eauto.
        * rewrite nth_error_update_other in Hnth by auto.
          apply (Ht j f); [lia | exact Hnth]. }
  apply Forall_forall. intros f Hin.
  apply In_nth_error in Hin. destruct Hin as [j Hj].
  apply (Hinv j f); [|exact Hj].
  rewrite <- (loop_length _ _ _ H). apply nth_error_Some. congruence.
Qed.
End TouchingLoop.

(** *** The stages of the planner, entry by entry *)

Lemma forRangeFrom_updateEntry_map (g : fileEntry -> fileEntry) (post pre : list fileEntry)
    (b : ISOBuilder) :
  fileEntries b = pre ++ post ->
  forRangeFrom (fun i b => Ok (updateEntry i g b)) (length pre) (length post) b
  = Ok (setFileEntries (pre ++ map g post) b).
Proof.
  revert pre b. induction post as [|x post IH]; intros pre b Hb; simpl.
  - rewrite <- Hb. destruct b; reflexivity.
  - specialize (IH (pre ++ [g x]) (updateEntry (length pre) g b)).
    rewrite length_app, Nat.add_1_r in IH. rewrite IH.
    + rewrite <- app_assoc. reflexivity.
    + unfold updateEntry. simpl. rewrite Hb, update_app_length, <- app_assoc. reflexivity.
Qed.

Lemma assignSanitizedNamesAndDrSizes_map (b : ISOBuilder) :
  assignSanitizedNamesAndDrSizes b
  = Ok (setFileEntries (map assignSanitizedNameAndDrSize (fileEntries b)) b).
Proof.
  unfold assignSanitizedNamesAndDrSizes, forRange.
  apply (forRangeFrom_updateEntry_map assignSanitizedNameAndDrSize (fileEntries b) [] b).
  reflexivity.
Qed.

Lemma assignDirectoryExtentSizes_touches i b b' :
  assignDirectoryExtentSizes i b = Ok b' ->
  touches sizesDirectory i (fileEntries b) (fileEntries b').
Proof.
  unfold assignDirectoryExtentSizes, index.
  destruct (nth_error (fileEntries b) i) as [f|] eqn:Ef; simpl; [|discriminate].
  intros H. exists f. split; [exact Ef|].
  destruct (isDir f) eqn:Ed.
  - destruct (calculateSingleDirectoryExtentSizeBytes b i false) as [s1| |];
      simpl in H; try discriminate.
    destruct (calculateSingleDirectoryExtentSizeBytes _ i true) as [s2| |];
      simpl in H; try discriminate.
    injection H as <-. right.
    exists (fun f => setJolietSize s2 (setIso9660Size s1 f)).
    split; [right; eauto|].
    unfold updateEntry. simpl. apply update_update.
  - injection H as <-. left. split; [reflexivity | left; auto].
Qed.

Lemma assignIso9660DirLBA_touches i st st' :
  assignIso9660DirLBA i st = Ok st' ->
  touches placesIso9660Directory i (fileEntries (fst st)) (fileEntries (fst st')).
Proof.
  destruct st as [b lba]. unfold assignIso9660DirLBA, index. simpl fst.
  destruct (nth_error (fileEntries b) i) as [f|] eqn:Ef; simpl; [|discriminate].
  intros H. exists f. split; [exact Ef|].
  destruct (isDir f) eqn:Ed.
  - destruct (iso9660Size f =? 0); [discriminate|].
    destruct (negb _); [discriminate|].
    injection H as <-. right. exists (setIso9660Sector lba).
    split; [right; eauto | reflexivity].
  - injection H as <-. left. split; [reflexivity | left; auto].
Qed.

Lemma assignFileLBA_touches i st st' :
  assignFileLBA i st = Ok st' ->
  touches placesFile i (fileEntries (fst st)) (fileEntries (fst st')).
Proof.
  destruct st as [b lba]. unfold assignFileLBA, index. simpl fst.
  destruct (nth_error (fileEntries b) i) as [f|] eqn:Ef; simpl; [|discriminate].
  intros H. exists f. split; [exact Ef|].
  destruct (isDir f) eqn:Ed; simpl in H.
  - injection H as <-. left. split; [reflexivity | left; auto].
  - injection H as <-. right.
    exists (fun f => setJolietSector lba (setIso9660Sector lba f)).
    split; [right; eauto|].
    simpl. apply update_update.
Qed.

Lemma assignJolietDirLBA_touches i st st' :
  assignJolietDirLBA i st = Ok st' ->
  touches placesJolietDirectory i (fileEntries (fst st)) (fileEntries (fst st')).
Proof.
  destruct st as [b lba]. unfold assignJolietDirLBA, index. simpl fst.
  destruct (nth_error (fileEntries b) i) as [f|] eqn:Ef; simpl; [|discriminate].
  intros H. exists f. split; [exact Ef|].
  destruct (isDir f) eqn:Ed.
  - destruct (jolietSize f =? 0); [discriminate|].
    destruct (negb _); [discriminate|].
    injection H as <-. right. exists (setJolietSector lba).
    split; [right; eauto | reflexivity].
  - injection H as <-. left. split; [reflexivity | left; auto].
Qed.


Lemma determinePathTableLBAs_entries (b : ISOBuilder) (startLBA : Z) :
  fileEntries (fst (determinePathTableLBAs b startLBA)) = fileEntries b.
Proof. reflexivity. Qed.

Lemma pregeneratePathTables_entries (b r : ISOBuilder) :
  pregeneratePathTables b = Ok r ->
  fileEntries r = fileEntries b /\ totalSectors r = totalSectors b /\ ptLBAs r = ptLBAs b.
Proof.
  unfold pregeneratePathTables.
  destruct (createPathTable b false false); simpl; try discriminate.
  destruct (createPathTable b false true); simpl; try discriminate.
  destruct (createPathTable b true false); simpl; try discriminate.
  destruct (createPathTable b true true); simpl; try discriminate.
  repeat (match goal with |- context [if ?c then Err else _] => destruct c end;
          try discriminate).
  intros H. injection H as <-. repeat split.
Qed.

(** The stages of [calculateLayout] made explicit. *)
Lemma calculateLayout_stages (b r : ISOBuilder) :
  calculateLayout b = Ok r ->
  exists b2 b3 lba3 st3 st4 st5,
    forRange (length (fileEntries b)) assignDirectoryExtentSizes
      (setFileEntries (map assignSanitizedNameAndDrSize (fileEntries b)) b) = Ok b2
    /\ fileEntries b3 = fileEntries b2
    /\ forRange (length (fileEntries b3)) assignIso9660DirLBA (b3, lba3) = Ok st3
    /\ forRange (length (fileEntries b3)) assignFileLBA st3 = Ok st4
    /\ forRange (length (fileEntries b3)) assignJolietDirLBA st4 = Ok st5
    /\ fileEntries r = fileEntries (fst st5)
    /\ totalSectors r = wrap32 (snd st5 + 1).
Proof.
  unfold calculateLayout. rewrite assignSanitizedNamesAndDrSizes_map. cbn [bind].
  unfold calculateAllDirectoryExtentSizes.
  replace (length (fileEntries (setFileEntries
             (map assignSanitizedNameAndDrSize (fileEntries b)) b)))
    with (length (fileEntries b)) by (cbn [fileEntries setFileEntries]; now rewrite length_map).
  destruct (forRange _ assignDirectoryExtentSizes _) as [b2| |] eqn:E2; cbn [bind];
    try discriminate.
  destruct (index (fileEntries b2) 0) as [root| |]; cbn [bind]; try discriminate.
  set (b2' := setRootDirExtentSizes _ _ b2).
  cbv zeta.
  destruct (determinePathTableLBAs b2' (wrap32 (SystemAreaNumSectors + 3)))
    as [b3 lba3] eqn:E3.
  assert (Hb3 : fileEntries b3 = fileEntries b2).
  { change b3 with (fst (b3, lba3)). rewrite <- E3. reflexivity. }
  unfold assignContentLBAs. cbv zeta.
  destruct (forRange _ assignIso9660DirLBA _) as [st3| |] eqn:E4; cbn [bind];
    try discriminate.
  destruct (forRange _ assignFileLBA _) as [st4| |] eqn:E5; cbn [bind]; try discriminate.
  destruct (forRange _ assignJolietDirLBA _) as [[b5 lba5]| |] eqn:E6; cbn [bind];
    try discriminate.
  intros H. apply pregeneratePathTables_entries in H. destruct H as (He & Ht & _).
  exists b2, b3, lba3, st3, st4, (b5, lba5).
  repeat split; auto.
Qed.

(** Every stage after the first only touches extents: sizes of directories
    and sector addresses. *)
Lemma calculateLayout_Forall2 (R : fileEntry -> fileEntry -> Prop) (b r : ISOBuilder) :
  (forall a, R a a) -> (forall a b c, R a b -> R b c -> R a c) ->
  (forall f f', sizesDirectory f f' -> R f f') ->
  (forall f f', placesIso9660Directory f f' -> R f f') ->
  (forall f f', placesFile f f' -> R f f') ->
  (forall f f', placesJolietDirectory f f' -> R f f') ->
  calculateLayout b = Ok r ->
  Forall2 R (map assignSanitizedNameAndDrSize (fileEntries b)) (fileEntries r).
Proof.
  intros Hrefl Htrans H2 H3 H4 H5 H.
  destruct (calculateLayout_stages b r H)
    as (b2 & b3 & lba3 & st3 & st4 & st5 & E2 & Hb3 & E3 & E4 & E5 & Hr & _).
  rewrite Hr.
  eapply Forall2_trans; [exact Htrans | |].
  { apply (loop_Forall2 fileEntries assignDirectoryExtentSizes sizesDirectory
             assignDirectoryExtentSizes_touches R _ _ _ Hrefl Htrans H2 E2). }
  rewrite <- Hb3. change (fileEntries b3) with (fileEntries (fst (b3, lba3))).
  eapply Forall2_trans; [exact Htrans | |].
  { apply (loop_Forall2 (fun st => fileEntries (fst st)) assignIso9660DirLBA
             placesIso9660Directory assignIso9660DirLBA_touches R _ _ _ Hrefl Htrans H3 E3). }
  eapply Forall2_trans; [exact Htrans | |].
  { apply (loop_Forall2 (fun st => fileEntries (fst st)) assignFileLBA
             placesFile assignFileLBA_touches R _ _ _ Hrefl Htrans H4 E4). }
  apply (loop_Forall2 (fun st => fileEntries (fst st)) assignJolietDirLBA
           placesJolietDirectory assignJolietDirLBA_touches R _ _ _ Hrefl Htrans H5 E5).
Qed.

(** After the planner every file has one address for both namespaces. *)
Lemma calculateLayout_files_placed (b r : ISOBuilder) :
  calculateLayout b = Ok r ->
  Forall (fun f => isDir f = false -> iso9660Sector f = jolietSector f) (fileEntries r).
Proof.
  intros H.
  destruct (calculateLayout_stages b r H)
    as (b2 & b3 & lba3 & st3 & st4 & st5 & E2 & Hb3 & E3 & E4 & E5 & Hr & _).
  rewrite Hr.
  pose proof (loop_length (fun st => fileEntries (fst st)) assignIso9660DirLBA
                placesIso9660Directory assignIso9660DirLBA_touches _ _ _ E3) as Hlen.
  simpl in Hlen. rewrite <- Hlen in E4.
  eapply (loop_Forall (fun st => fileEntries (fst st)) assignJolietDirLBA
            placesJolietDirectory assignJolietDirLBA_touches); [ | exact E5 | ].
  - intros f f' [[Hd ->] | [Hd [v ->]]] Hq; [exact Hq|].
    simpl. rewrite Hd. discriminate.
  - eapply (loop_all (fun st => fileEntries (fst st)) assignFileLBA
              placesFile assignFileLBA_touches); [ | exact E4].
    intros f f' [[Hd ->] | [Hd [v ->]]].
    + rewrite Hd. discriminate.
    + reflexivity.
Qed.

(** *** The scanner *)

Section osNodeInduction.
Variable P : osNode -> Prop.
Hypothesis Pregular : forall name size, P (OsRegular name size).
Hypothesis Pother : forall name, P (OsOther name).
Hypothesis Punreadable : forall name, P (OsDirectory name None).
Hypothesis Pdirectory :
  forall name osEntries, Forall P osEntries -> P (OsDirectory name (Some osEntries)).
Hypothesis Pnoinfo : forall name, P (OsNoInfo name).

Fixpoint osNode_nested_ind (e : osNode) : P e :=
  match e with
  | OsRegular name size => Pregular name size
  | OsOther name => Pother name
  | OsNoInfo name => Pnoinfo name
  | OsDirectory name None => Punreadable name
  | OsDirectory name (Some l) =>
      Pdirectory name l
        ((fix all (l : list osNode) : Forall P l :=
            match l with
            | [] => Forall_nil P
            | x :: t => Forall_cons x (osNode_nested_ind x) (all t)
            end) l)
  end.
End osNodeInduction.

Lemma scanLoop_preserves (Inv : ISOBuilder * Z -> Prop)
    (scanOne : osNode -> ISOBuilder * Z -> result (ISOBuilder * Z)) (l : list osNode) :
  Forall (fun e => forall st st', scanOne e st = Ok st' -> Inv st -> Inv st') l ->
  forall st st', scanLoop scanOne l st = Ok st' -> Inv st -> Inv st'.
Proof.
  induction 1 as [|e t He Ht IH]; intros st st' H H0; simpl in H.
  - now injection H as <-.
  - destruct (scanOne e st) as [st1| |] eqn:E; simpl in H; try discriminate.
    eapply IH; eauto.
Qed.

Lemma appendEntry_entries (fe : fileEntry) (parent : nat) (b : ISOBuilder) :
  fileEntries (appendEntry fe parent b)
  = update parent (appendChild (length (fileEntries b))) (fileEntries b ++ [fe]).
Proof.
  unfold appendEntry, updateEntry. cbn [fileEntries setFileEntries].
  rewrite length_app. simpl length. now rewrite Nat.add_sub.
Qed.

(** A property of single entries that the scanner establishes for the
    entries it appends and that the registration of a child keeps. *)
Lemma scanEntry_Forall (Q : fileEntry -> Prop) :
  (forall f c, Q f -> Q (appendChild c f)) ->
  (forall name disk iso dir lvl parent size num,
      Q (newFileEntry name disk iso dir lvl parent size num)) ->
  forall e cur parent base st st',
    scanEntry cur parent base e st = Ok st' ->
    Forall Q (fileEntries (fst st)) -> Forall Q (fileEntries (fst st')).
Proof.
  intros Hchild Hnew.
  assert (Happ : forall fe parent b,
             Q fe -> Forall Q (fileEntries b) -> Forall Q (fileEntries (appendEntry fe parent b))).
  { intros fe parent b Hfe Hb. rewrite appendEntry_entries.
    apply Forall_update.
    - apply Forall_app. split; [exact Hb | constructor; [exact Hfe | constructor]].
    - intros a _ Ha. now apply Hchild. }
  induction e using osNode_nested_ind; intros cur parent base [b next] st' Hscan Hq;
    cbn [scanEntry] in Hscan;
    destruct (index (fileEntries b) parent) as [p| |]; cbn [bind] in Hscan;
    try discriminate.
  - injection Hscan as <-. apply Happ; [apply Hnew | exact Hq].
  - injection Hscan as <-. exact Hq.
  - eapply (scanLoop_preserves (fun st => Forall Q (fileEntries (fst st)))); [|exact Hscan|].
    + eapply Forall_impl; [|exact H]. intros e He st st1 H1 H2. eapply He; eauto.
    + apply Happ; [apply Hnew | exact Hq].
Qed.

Lemma ScanSourceDirectory_Forall (Q : fileEntry -> Prop) (b b' : ISOBuilder)
    (absPath : gostring) (listing : option (list osNode)) :
  (forall f c, Q f -> Q (appendChild c f)) ->
  (forall name disk iso dir lvl parent size num,
      Q (newFileEntry name disk iso dir lvl parent size num)) ->
  Q (mkFileEntry [0] absPath (str "/") true 0 0 [] [] [] 0 0 0 0 0 0 1 false) ->
  ScanSourceDirectory b (Some absPath) listing = Ok b' ->
  Forall Q (fileEntries b').
Proof.
  intros Hchild Hnew Hroot. unfold ScanSourceDirectory, scanDirectoryRecursive.
  destruct listing as [l|]; cbn [bind]; [|discriminate].
  destruct (scanLoop _ l _) as [st| |] eqn:E; cbn [bind]; try discriminate.
  intros H. injection H as <-.
  eapply (scanLoop_preserves (fun st => Forall Q (fileEntries (fst st)))) with (2 := E).
  - apply Forall_forall. intros e _ st0 st1. apply scanEntry_Forall; auto.
  - cbn. constructor; [exact Hroot | constructor].
Qed.

(** *** Files share their extent *)

(** Bytes 2 to 17 of a record: the address and the data length, each in both
    byte orders. *)
Lemma marshalDirectoryRecord_extent (fields : directoryRecordFields) (identifier : list byte) :
  firstn 16 (skipn 2 (marshalDirectoryRecord fields identifier))
  = putLE32 (LocationExtent fields) ++ putBE32 (LocationExtent fields)
    ++ putLE32 (DataLength fields) ++ putBE32 (DataLength fields).
Proof.
  rewrite firstn_skipn_comm. change (2 + 16)%nat with 18%nat.
  unfold marshalDirectoryRecord. cbv zeta.
  rewrite !firstn_copyAt_before by lia.
  match goal with |- context [makeBytes ?n] => set (recordLen := n) end.
  assert (Hn : exists k, Z.to_nat recordLen = (18 + k)%nat).
  { exists (Z.to_nat recordLen - 18)%nat.
    pose proof (wrap8_range (len identifier)). unfold recordLen, drFixedPartSize.
    destruct (negb _); lia. }
  destruct Hn as [k Hk]. unfold makeBytes. rewrite Hk, repeat_app.
  rewrite !copyAt_app by (rewrite ?length_copyAt; simpl; lia).
  rewrite firstn_app.
  replace (18 - length _)%nat with 0%nat by (rewrite !length_copyAt; reflexivity).
  rewrite firstn_O, app_nil_r.
  reflexivity.
Qed.

Lemma createDirectoryRecordBytes_extent (extentLBA extentOrDataSize : Z) (name : gostring)
    (targetEntry : fileEntry) (isJoliet : bool) :
  firstn 16 (skipn 2 (createDirectoryRecordBytes extentLBA extentOrDataSize name
                        targetEntry isJoliet))
  = putLE32 extentLBA ++ putBE32 extentLBA
    ++ putLE32 extentOrDataSize ++ putBE32 extentOrDataSize.
Proof.
  unfold createDirectoryRecordBytes. cbv zeta. now rewrite marshalDirectoryRecord_extent.
Qed.

Lemma Forall2_In_right {A} (R : A -> A -> Prop) (l l' : list A) (y : A) :
  Forall2 R l l' -> In y l' -> exists x, In x l /\ R x y.
Proof.
  induction 1 as [|a b' t t' Hab Ht IH]; intros Hin; [contradiction|].
  destruct Hin as [<- | Hin].
  - exists a. split; [now left | exact Hab].
  - destruct (IH Hin) as (x & Hx & Hr). exists x. split; [now right | exact Hr].
Qed.

Lemma calculateLayout_keepsFileSize (b r : ISOBuilder) :
  calculateLayout b = Ok r ->
  Forall2 keepsFileSize (map assignSanitizedNameAndDrSize (fileEntries b)) (fileEntries r).
Proof.
  apply calculateLayout_Forall2; unfold keepsFileSize.
  - auto.
  - intros a b0 c [H1 H2] [H3 H4]. split; [congruence|].
    intros Hd. destruct (H2 Hd) as [E1 E2].
    assert (Hd' : isDir b0 = false) by congruence.
    destruct (H4 Hd') as [E3 E4]. split; congruence.
  - intros f f' [[Hd ->] | [Hd (s1 & s2 & ->)]]; [auto|].
    split; [reflexivity | rewrite Hd; discriminate].
  - intros f f' [[Hd ->] | [Hd (v & ->)]]; [auto|].
    split; [reflexivity | auto].
  - intros f f' [[Hd ->] | [Hd (v & ->)]]; [auto|].
    split; [reflexivity | auto].
  - intros f f' [[Hd ->] | [Hd (v & ->)]]; [auto|].
    split; [reflexivity | auto].
Qed.

(** C3: after the scanner and the planner have run, every entry that is not
    a directory has the same address and the same extent size in both
    namespaces, and the record that a listing emits for it carries, in
    either namespace, that address and that size in its bytes 2 to 17. *)
Theorem file_extent_shared_by_both_namespaces
    (b0 b1 b2 : ISOBuilder) (absPath : gostring) (listing : option (list osNode))
    (f : fileEntry) :
  ScanSourceDirectory b0 (Some absPath) listing = Ok b1 ->
  calculateLayout b1 = Ok b2 ->
  In f (fileEntries b2) ->
  isDir f = false ->
  iso9660Sector f = jolietSector f
  /\ iso9660Size f = jolietSize f
  /\ forall isJoliet : bool,
      fst (fst (childRecordArgs isJoliet f)) = (iso9660Sector f, iso9660Size f)
      /\ forall r, childRecord isJoliet f = Ok r ->
                   firstn 16 (skipn 2 r)
                   = putLE32 (iso9660Sector f) ++ putBE32 (iso9660Sector f)
                     ++ putLE32 (iso9660Size f) ++ putBE32 (iso9660Size f).
Proof.
  intros Hscan Hlayout Hin Hfile.
  split; [|split].
  - pose proof (calculateLayout_files_placed b1 b2 Hlayout) as Hp.
    rewrite Forall_forall in Hp. now apply Hp.
  - assert (Hs : Forall (fun f => iso9660Size f = jolietSize f \/ isDir f = true)
                        (fileEntries b1)).
    { apply (ScanSourceDirectory_Forall _ b0 b1 absPath listing); [| | |exact Hscan].
      - intros g c [H | H]; [now left | now right].
      - intros. now left.
      - now left. }
    destruct (Forall2_In_right _ _ _ f (calculateLayout_keepsFileSize b1 b2 Hlayout) Hin)
      as (g & Hg & Hd & Hkeep).
    apply in_map_iff in Hg. destruct Hg as (g0 & <- & Hg0).
    rewrite Hfile in Hd. symmetry in Hd.
    destruct (Hkeep Hd) as [-> ->].
    pose proof (assign_keeps g0) as (_ & Hd0 & _ & _ & _ & _ & Hi & Hj & _).
    rewrite Hi, Hj. rewrite Forall_forall in Hs.
    destruct (Hs g0 Hg0) as [H | H]; [exact H | congruence].
  - intros isJoliet.
    assert (Hargs : fst (fst (childRecordArgs isJoliet f)) = (iso9660Sector f, iso9660Size f)).
    { unfold childRecordArgs. rewrite Hfile. now destruct isJoliet. }
    split; [exact Hargs|].
    intros r. unfold childRecord.
    destruct (childRecordArgs isJoliet f) as [[[lba sz] name] expected].
    simpl in Hargs. injection Hargs as -> ->.
    destruct (negb _); [discriminate|].
    intros H. injection H as <-. apply createDirectoryRecordBytes_extent.
Qed.

(** *** Hidden flags and the planner *)

Lemma assign_forget (f : fileEntry) :
  assignSanitizedNameAndDrSize (forget f) = forget (assignSanitizedNameAndDrSize f).
Proof.
  unfold assignSanitizedNameAndDrSize, forget. cbn [isDir pathTableDirNum setIsHidden originalName].
  destruct (isDir f), (pathTableDirNum f =? 1); reflexivity.
Qed.

Lemma updateEntry_forget (i : nat) (g : fileEntry -> fileEntry) (b : ISOBuilder) :
  (forall f, g (forget f) = forget (g f)) ->
  updateEntry i g (forgetB b) = forgetB (updateEntry i g b).
Proof.
  intros Hg. unfold updateEntry, forgetB. cbn [fileEntries setFileEntries].
  rewrite (map_update forget g g) by (intros; symmetry; apply Hg).
  reflexivity.
Qed.

Lemma sumChildDrSizes_forget (es : list fileEntry) (isJoliet : bool) (idxs : list nat) (t : Z) :
  sumChildDrSizes (map forget es) isJoliet idxs t = sumChildDrSizes es isJoliet idxs t.
Proof.
  revert t. induction idxs as [|c idxs IH]; intros t; simpl; [reflexivity|].
  rewrite index_map. destruct (index es c) as [child| |]; simpl; try reflexivity.
  apply IH.
Qed.

Lemma calculateSingleDirectoryExtentSizeBytes_forget (b : ISOBuilder) (i : nat) (isJoliet : bool) :
  calculateSingleDirectoryExtentSizeBytes (forgetB b) i isJoliet
  = calculateSingleDirectoryExtentSizeBytes b i isJoliet.
Proof.
  unfold calculateSingleDirectoryExtentSizeBytes, forgetB. cbn [fileEntries setFileEntries].
  rewrite index_map. destruct (index (fileEntries b) i) as [d| |]; cbn [bind]; try reflexivity.
  cbn [forget setIsHidden pathTableDirNum children].
  now rewrite sumChildDrSizes_forget.
Qed.

Lemma assignDirectoryExtentSizes_forget (i : nat) (b : ISOBuilder) :
  assignDirectoryExtentSizes i (forgetB b)
  = liftResult forgetB (assignDirectoryExtentSizes i b).
Proof.
  unfold assignDirectoryExtentSizes.
  replace (fileEntries (forgetB b)) with (map forget (fileEntries b)) by reflexivity.
  rewrite index_map. destruct (index (fileEntries b) i) as [f| |]; cbn [bind liftResult];
    try reflexivity.
  replace (isDir (forget f)) with (isDir f) by reflexivity.
  destruct (isDir f); [|reflexivity].
  rewrite calculateSingleDirectoryExtentSizeBytes_forget.
  destruct (calculateSingleDirectoryExtentSizeBytes b i false) as [s1| |];
    cbn [bind liftResult]; try reflexivity.
  cbv zeta. rewrite updateEntry_forget by reflexivity.
  rewrite calculateSingleDirectoryExtentSizeBytes_forget.
  destruct (calculateSingleDirectoryExtentSizeBytes _ i true) as [s2| |];
    cbn [bind liftResult]; try reflexivity.
  now rewrite updateEntry_forget by reflexivity.
Qed.

Lemma length_entries_forgetB (b : ISOBuilder) :
  length (fileEntries (forgetB b)) = length (fileEntries b).
Proof. unfold forgetB. cbn [fileEntries setFileEntries]. apply length_map. Qed.

Lemma assignSanitizedNamesAndDrSizes_forget (b : ISOBuilder) :
  assignSanitizedNamesAndDrSizes (forgetB b)
  = liftResult forgetB (assignSanitizedNamesAndDrSizes b).
Proof.
  rewrite !assignSanitizedNamesAndDrSizes_map. cbn [liftResult]. f_equal.
  unfold forgetB. cbn [fileEntries setFileEntries].
  rewrite !map_map.
  rewrite (map_ext _ _ (fun f => assign_forget f)).
  reflexivity.
Qed.

Lemma calculateAllDirectoryExtentSizes_forget (b : ISOBuilder) :
  calculateAllDirectoryExtentSizes (forgetB b)
  = liftResult forgetB (calculateAllDirectoryExtentSizes b).
Proof.
  unfold calculateAllDirectoryExtentSizes, forRange.
  rewrite length_entries_forgetB.
  rewrite (forRangeFrom_commute forgetB assignDirectoryExtentSizes assignDirectoryExtentSizes)
    by apply assignDirectoryExtentSizes_forget.
  destruct (forRangeFrom assignDirectoryExtentSizes 0 _ b) as [b2| |];
    cbn [bind liftResult]; try reflexivity.
  replace (fileEntries (forgetB b2)) with (map forget (fileEntries b2)) by reflexivity.
  rewrite index_map. destruct (index (fileEntries b2) 0) as [root| |];
    cbn [bind liftResult]; reflexivity.
Qed.

Lemma pathTableIdentifier_forget (isJoliet : bool) (f : fileEntry) :
  pathTableIdentifier isJoliet (forget f) = pathTableIdentifier isJoliet f.
Proof. reflexivity. Qed.

Lemma calculatePathTableTotalBytes_forget (b : ISOBuilder) (isJoliet : bool) :
  calculatePathTableTotalBytes (forgetB b) isJoliet = calculatePathTableTotalBytes b isJoliet.
Proof.
  unfold calculatePathTableTotalBytes, forgetB. cbn [fileEntries setFileEntries].
  match goal with |- fold_left ?f _ _ = _ => set (body := f) end.
  assert (H : forall es acc, fold_left body (map forget es) acc = fold_left body es acc).
  { induction es as [|f es IH]; intros acc; [reflexivity|].
    cbn [map fold_left]. rewrite IH. reflexivity. }
  apply H.
Qed.

Lemma determinePathTableLBAs_forget (b : ISOBuilder) (startLBA : Z) :
  determinePathTableLBAs (forgetB b) startLBA = forgetSt (determinePathTableLBAs b startLBA).
Proof.
  unfold determinePathTableLBAs. rewrite !calculatePathTableTotalBytes_forget. reflexivity.
Qed.

Lemma assignIso9660DirLBA_forget (i : nat) (st : ISOBuilder * Z) :
  assignIso9660DirLBA i (forgetSt st) = liftResult forgetSt (assignIso9660DirLBA i st).
Proof.
  destruct st as [b lba]. unfold assignIso9660DirLBA, forgetSt. cbn [fst snd].
  replace (fileEntries (forgetB b)) with (map forget (fileEntries b)) by reflexivity.
  rewrite index_map. destruct (index (fileEntries b) i) as [f| |]; cbn [bind liftResult];
    try reflexivity.
  replace (isDir (forget f)) with (isDir f) by reflexivity.
  replace (iso9660Size (forget f)) with (iso9660Size f) by reflexivity.
  destruct (isDir f); [|reflexivity].
  destruct (iso9660Size f =? 0); [reflexivity|].
  destruct (negb _); [reflexivity|].
  cbn [liftResult fst snd]. now rewrite updateEntry_forget by reflexivity.
Qed.

Lemma assignFileLBA_forget (i : nat) (st : ISOBuilder * Z) :
  assignFileLBA i (forgetSt st) = liftResult forgetSt (assignFileLBA i st).
Proof.
  destruct st as [b lba]. unfold assignFileLBA, forgetSt. cbn [fst snd].
  replace (fileEntries (forgetB b)) with (map forget (fileEntries b)) by reflexivity.
  rewrite index_map. destruct (index (fileEntries b) i) as [f| |]; cbn [bind liftResult];
    try reflexivity.
  replace (isDir (forget f)) with (isDir f) by reflexivity.
  replace (iso9660Size (forget f)) with (iso9660Size f) by reflexivity.
  destruct (isDir f); [reflexivity|].
  cbn [negb liftResult fst snd]. cbv zeta.
  now rewrite !updateEntry_forget by reflexivity.
Qed.

Lemma assignJolietDirLBA_forget (i : nat) (st : ISOBuilder * Z) :
  assignJolietDirLBA i (forgetSt st) = liftResult forgetSt (assignJolietDirLBA i st).
Proof.
  destruct st as [b lba]. unfold assignJolietDirLBA, forgetSt. cbn [fst snd].
  replace (fileEntries (forgetB b)) with (map forget (fileEntries b)) by reflexivity.
  rewrite index_map. destruct (index (fileEntries b) i) as [f| |]; cbn [bind liftResult];
    try reflexivity.
  replace (isDir (forget f)) with (isDir f) by reflexivity.
  replace (jolietSize (forget f)) with (jolietSize f) by reflexivity.
  destruct (isDir f); [|reflexivity].
  destruct (jolietSize f =? 0); [reflexivity|].
  destruct (negb _); [reflexivity|].
  cbn [liftResult fst snd]. now rewrite updateEntry_forget by reflexivity.
Qed.

Lemma assignContentLBAs_forget (b : ISOBuilder) (startLBA : Z) :
  assignContentLBAs (forgetB b) startLBA
  = liftResult forgetSt (assignContentLBAs b startLBA).
Proof.
  unfold assignContentLBAs, forRange. cbv zeta. rewrite length_entries_forgetB.
  change (forgetB b, startLBA) with (forgetSt (b, startLBA)).
  rewrite (forRangeFrom_commute forgetSt assignIso9660DirLBA assignIso9660DirLBA)
    by apply assignIso9660DirLBA_forget.
  destruct (forRangeFrom assignIso9660DirLBA 0 _ _) as [st3| |]; cbn [bind liftResult];
    try reflexivity.
  rewrite (forRangeFrom_commute forgetSt assignFileLBA assignFileLBA)
    by apply assignFileLBA_forget.
  destruct (forRangeFrom assignFileLBA 0 _ _) as [st4| |]; cbn [bind liftResult];
    try reflexivity.
  apply (forRangeFrom_commute forgetSt assignJolietDirLBA assignJolietDirLBA).
  apply assignJolietDirLBA_forget.
Qed.

Lemma filter_map_commute {A B} (h : A -> B) (p : A -> bool) (q : B -> bool) (l : list A) :
  (forall a, q (h a) = p a) -> filter q (map h l) = map h (filter p l).
Proof.
  intros H. induction l as [|a t IH]; simpl; [reflexivity|].
  rewrite H. destruct (p a); simpl; now rewrite IH.
Qed.

Lemma parentDirNum_forget (b : ISOBuilder) (d : fileEntry) :
  parentDirNum (forgetB b) (forget d) = parentDirNum b d.
Proof.
  unfold parentDirNum, forgetB. cbn [fileEntries setFileEntries forget setIsHidden parentIndex].
  rewrite nth_error_map. now destruct (nth_error (fileEntries b) (parentIndex d)).
Qed.

Lemma pathTableDirs_forget (b : ISOBuilder) (isJoliet useBigEndian : bool) :
  pathTableDirs (forgetB b) isJoliet useBigEndian
  = map forget (pathTableDirs b isJoliet useBigEndian).
Proof.
  unfold pathTableDirs.
  replace (fileEntries (forgetB b)) with (map forget (fileEntries b)) by reflexivity.
  rewrite (filter_map_commute forget (fun fe => isDir fe && (pathTableDirNum fe >? 0)))
    by reflexivity.
  apply sortSlice_map. intros x y. unfold pathTableLess.
  rewrite !parentDirNum_forget. reflexivity.
Qed.

Lemma pathTableRecord_forget (b : ISOBuilder) (isJoliet useBigEndian : bool) (d : fileEntry) :
  pathTableRecord (forgetB b) isJoliet useBigEndian (forget d)
  = pathTableRecord b isJoliet useBigEndian d.
Proof.
  unfold pathTableRecord.
  replace (fileEntries (forgetB b)) with (map forget (fileEntries b)) by reflexivity.
  replace (pathTableDirNum (forget d)) with (pathTableDirNum d) by reflexivity.
  replace (parentIndex (forget d)) with (parentIndex d) by reflexivity.
  rewrite index_map.
  destruct (pathTableDirNum d =? 1); [reflexivity|].
  destruct (index (fileEntries b) (parentIndex d)); reflexivity.
Qed.

Lemma createPathTable_forget (b : ISOBuilder) (isJoliet useBigEndian : bool) :
  createPathTable (forgetB b) isJoliet useBigEndian = createPathTable b isJoliet useBigEndian.
Proof.
  unfold createPathTable. rewrite pathTableDirs_forget.
  induction (pathTableDirs b isJoliet useBigEndian) as [|d l IH]; [reflexivity|].
  cbn [map writeAll]. now rewrite pathTableRecord_forget, IH.
Qed.

Lemma pregeneratePathTables_forget (b : ISOBuilder) :
  pregeneratePathTables (forgetB b) = liftResult forgetB (pregeneratePathTables b).
Proof.
  unfold pregeneratePathTables. rewrite !createPathTable_forget.
  destruct (createPathTable b false false) as [pvdL| |]; cbn [bind liftResult]; try reflexivity.
  destruct (createPathTable b false true) as [pvdM| |]; cbn [bind liftResult]; try reflexivity.
  destruct (createPathTable b true false) as [svdL| |]; cbn [bind liftResult]; try reflexivity.
  destruct (createPathTable b true true) as [svdM| |]; cbn [bind liftResult]; try reflexivity.
  cbv zeta.
  replace (setPtData (mkPathTableData pvdL pvdM svdL svdM) (forgetB b))
    with (forgetB (setPtData (mkPathTableData pvdL pvdM svdL svdM) b)) by reflexivity.
  rewrite !calculatePathTableTotalBytes_forget.
  cbn [ptData forgetB setFileEntries setPtData
       pvdPathTableLData pvdPathTableMData svdPathTableLData svdPathTableMData].
  repeat (match goal with |- context [if ?c then Err else _] => destruct c end;
          try reflexivity).
Qed.

(** The planner commutes with the removal of the hidden flags: they enter
    none of its computations. *)
Lemma calculateLayout_forget (b : ISOBuilder) :
  calculateLayout (forgetB b) = liftResult forgetB (calculateLayout b).
Proof.
  unfold calculateLayout.
  rewrite assignSanitizedNamesAndDrSizes_forget.
  destruct (assignSanitizedNamesAndDrSizes b) as [b1| |]; cbn [bind liftResult];
    try reflexivity.
  rewrite calculateAllDirectoryExtentSizes_forget.
  destruct (calculateAllDirectoryExtentSizes b1) as [b2| |]; cbn [bind liftResult];
    try reflexivity.
  cbv zeta. rewrite determinePathTableLBAs_forget.
  destruct (determinePathTableLBAs b2 _) as [b3 lba3]. unfold forgetSt at 1. cbn [fst snd].
  rewrite assignContentLBAs_forget.
  destruct (assignContentLBAs b3 lba3) as [[b4 lba4]| |]; cbn [bind liftResult];
    try reflexivity.
  unfold forgetSt. cbn [fst snd].
  apply (pregeneratePathTables_forget
           (setTotalSectors (wrap32 (totalSectors (setTotalSectors lba4 b4) + 1))
              (setTotalSectors lba4 b4))).
Qed.

Lemma hides_refl names f : hides names f f.
Proof. split; [reflexivity | intros H; now elim H]. Qed.

Lemma forget_originalName (f f' : fileEntry) :
  forget f' = forget f -> originalName f' = originalName f.
Proof. intros H. apply (f_equal originalName) in H. exact H. Qed.

Lemma hides_trans names f1 f2 f3 :
  hides names f1 f2 -> hides names f2 f3 -> hides names f1 f3.
Proof.
  intros [E12 H12] [E23 H23]. split; [congruence|].
  intros Hne.
  destruct (bool_dec (isHidden f3) (isHidden f2)) as [E | N].
  - rewrite E in *. apply H12. exact Hne.
  - destruct (H23 N) as [Ht Hin]. split; [exact Ht|].
    now rewrite <- (forget_originalName _ _ E12).
Qed.

Lemma hides_weaken name names f f' :
  In name names -> hides [name] f f' -> hides names f f'.
Proof.
  intros Hin [E H]. split; [exact E|].
  intros Hne. destruct (H Hne) as [Ht [<- | []]]. auto.
Qed.

Lemma markMatching_hides (name : gostring) (es : list fileEntry) (i : nat) (found : bool) :
  Forall2 (hides [name]) es (fst (markMatching name i es found)).
Proof.
  revert i found. induction es as [|e t IH]; intros i found; simpl; [constructor|].
  destruct (Nat.eqb i 0 && eqbBytes (originalName e) [0]).
  - specialize (IH (S i) found). destruct (markMatching name (S i) t found) as [t' f'].
    simpl in *. constructor; [apply hides_refl | exact IH].
  - destruct (eqbBytes (originalName e) name) eqn:E.
    + specialize (IH (S i) true). destruct (markMatching name (S i) t true) as [t' f'].
      simpl in *. constructor; [|exact IH].
      apply eqbBytes_eq in E. split; [reflexivity|].
      intros _. split; [reflexivity | now left].
    + specialize (IH (S i) found). destruct (markMatching name (S i) t found) as [t' f'].
      simpl in *. constructor; [apply hides_refl | exact IH].
Qed.

Lemma markFileName_hides (name : gostring) (names : list gostring)
    (st st' : ISOBuilder * list gostring) :
  In name names ->
  markFileName name st = Ok st' ->
  Forall2 (hides names) (fileEntries (fst st)) (fileEntries (fst st'))
  /\ withoutEntries (fst st') = withoutEntries (fst st).
Proof.
  intros Hin. destruct st as [b errors]. unfold markFileName. cbn [fst].
  assert (Hsame : Forall2 (hides names) (fileEntries b) (fileEntries b)
                  /\ withoutEntries b = withoutEntries b).
  { split; [apply Forall2_refl, hides_refl | reflexivity]. }
  destruct (eqbBytes name []).
  { intros H. injection H as <-. exact Hsame. }
  destruct (_ || _).
  { intros H. injection H as <-. exact Hsame. }
  destruct (index (fileEntries b) 0) as [root| |]; cbn [bind]; try discriminate.
  destruct (eqbBytes (originalName root) name).
  { intros H. injection H as <-. exact Hsame. }
  pose proof (markMatching_hides name (fileEntries b) 0 false) as Hm.
  destruct (markMatching name 0 (fileEntries b) false) as [es found]. simpl in Hm.
  assert (Hes : Forall2 (hides names) (fileEntries b) es).
  { eapply Forall2_impl; [|exact Hm]. intros a c. now apply hides_weaken. }
  destruct (negb found); intros H; injection H as <-; cbn [fst];
    (split; [exact Hes | reflexivity]).
Qed.

Lemma markFileNames_hides (todo names : list gostring) (st st' : ISOBuilder * list gostring) :
  incl todo names ->
  markFileNames todo st = Ok st' ->
  Forall2 (hides names) (fileEntries (fst st)) (fileEntries (fst st'))
  /\ withoutEntries (fst st') = withoutEntries (fst st).
Proof.
  revert st. induction todo as [|name rest IH]; intros st Hincl H; simpl in H.
  - injection H as <-. split; [apply Forall2_refl, hides_refl | reflexivity].
  - destruct (markFileName name st) as [st1| |] eqn:E; cbn [bind] in H; try discriminate.
    destruct (markFileName_hides name names st st1 (Hincl name (or_introl eq_refl)) E)
      as [H1 H2].
    destruct (IH st1 (fun x Hx => Hincl x (or_intror Hx)) H) as [H3 H4].
    split; [|congruence].
    eapply Forall2_trans; [apply hides_trans | exact H1 | exact H3].
Qed.

Lemma Forall2_hides_forget names es es' :
  Forall2 (hides names) es es' -> map forget es' = map forget es.
Proof. induction 1 as [|f f' t t' [E _] Ht IH]; simpl; congruence. Qed.

Lemma map_eq_Forall2 {A B} (h : A -> B) (l l' : list A) :
  map h l' = map h l -> Forall2 (fun a a' => h a' = h a) l l'.
Proof.
  revert l'. induction l as [|a t IH]; intros [|a' t'] H; simpl in H; try discriminate.
  - constructor.
  - injection H as H1 H2. constructor; auto.
Qed.

Lemma forget_sameLayout (f f' : fileEntry) : forget f' = forget f -> sameLayout f f'.
Proof.
  intros H. unfold sameLayout.
  pose proof (f_equal iso9660Name H). pose proof (f_equal jolietName H).
  pose proof (f_equal actualISO9660DrSize H). pose proof (f_equal actualJolietDrSize H).
  pose proof (f_equal iso9660Size H). pose proof (f_equal jolietSize H).
  pose proof (f_equal iso9660Sector H). pose proof (f_equal jolietSector H).
  repeat split; assumption.
Qed.

(** C9: the hidden-marking helper changes nothing but hidden flags, and only
    of entries whose original name is among the names given; the planner run
    on the marked table ends as it does on the unmarked one and, when it
    succeeds, yields the same names, record sizes, extent sizes, addresses,
    path-table addresses, path-table bytes, root extent sizes and total
    sector count. *)
Theorem hidden_marking_leaves_layout_unchanged
    (b b' : ISOBuilder) (names errors : list gostring) :
  MarkFileNamesAsHidden b names = Ok (b', errors) ->
  Forall2 (hides names) (fileEntries b) (fileEntries b')
  /\ withoutEntries b' = withoutEntries b
  /\ liftResult forgetB (calculateLayout b') = liftResult forgetB (calculateLayout b)
  /\ forall r r',
      calculateLayout b = Ok r -> calculateLayout b' = Ok r' ->
      Forall2 sameLayout (fileEntries r) (fileEntries r')
      /\ totalSectors r' = totalSectors r
      /\ ptLBAs r' = ptLBAs r
      /\ ptData r' = ptData r
      /\ pvdRootDirExtentSize r' = pvdRootDirExtentSize r
      /\ svdRootDirExtentSize r' = svdRootDirExtentSize r.
Proof.
  intros Hmark.
  assert (Hframe : Forall2 (hides names) (fileEntries b) (fileEntries b')
                   /\ withoutEntries b' = withoutEntries b).
  { unfold MarkFileNamesAsHidden in Hmark.
    destruct (len names =? 0).
    - injection Hmark as <- _. split; [apply Forall2_refl, hides_refl | reflexivity].
    - apply (markFileNames_hides names names (b, []) (b', errors)); auto.
      apply incl_refl. }
  destruct Hframe as [Hh Hw].
  assert (Hfb : forgetB b' = forgetB b).
  { unfold forgetB. rewrite (Forall2_hides_forget _ _ _ Hh).
    unfold withoutEntries in Hw.
    apply (f_equal (setFileEntries (map forget (fileEntries b)))) in Hw. exact Hw. }
  assert (Hl : liftResult forgetB (calculateLayout b')
               = liftResult forgetB (calculateLayout b)).
  { now rewrite <- !calculateLayout_forget, Hfb. }
  split; [exact Hh|]. split; [exact Hw|]. split; [exact Hl|].
  intros r r' Hr Hr'. rewrite Hr, Hr' in Hl. cbn [liftResult] in Hl.
  injection Hl as _ _ He Ht Hp Hd Hpv Hsv.
  repeat split; auto.
  eapply Forall2_impl; [|exact (map_eq_Forall2 forget _ _ He)].
  intros f f'. apply forget_sameLayout.
Qed.

(** ** Path tables *)

Lemma parentDirNum_same_index (b : ISOBuilder) (x y : fileEntry) :
  parentIndex x = parentIndex y -> parentDirNum b x = parentDirNum b y.
Proof. unfold parentDirNum. now intros ->. Qed.

(** The comparison of the M-type sort is the lexicographic order on the
    parent's number and the identifier. *)
Lemma pathTableLess_mType (b : ISOBuilder) (isJoliet : bool) (x y : fileEntry) :
  pathTableLess b isJoliet true x y
  = if parentDirNum b x =? parentDirNum b y
    then bytesLess (pathTableIdentifier isJoliet x) (pathTableIdentifier isJoliet y)
    else parentDirNum b x <? parentDirNum b y.
Proof.
  unfold pathTableLess, bytesLess.
  destruct (Nat.eqb (parentIndex x) (parentIndex y)) eqn:E; cbn [negb andb].
  - apply Nat.eqb_eq in E. rewrite (parentDirNum_same_index b x y E), Z.eqb_refl.
    reflexivity.
  - destruct (parentDirNum b x =? parentDirNum b y); reflexivity.
Qed.

Lemma pathTableLess_mType_false (b : ISOBuilder) (isJoliet : bool) (x y : fileEntry) :
  pathTableLess b isJoliet true y x = false <-> mTypeOrdered b isJoliet x y.
Proof.
  rewrite pathTableLess_mType. unfold mTypeOrdered.
  destruct (parentDirNum b y =? parentDirNum b x) eqn:E.
  - apply Z.eqb_eq in E. split.
    + intros H. right. split; [congruence | exact H].
    + intros [H | [_ H]]; [lia | exact H].
  - apply Z.eqb_neq in E. rewrite Z.ltb_ge. split.
    + intros H. left. lia.
    + intros [H | [H _]]; [lia | congruence].
Qed.

Lemma pathTableLess_asym (b : ISOBuilder) (isJoliet useBigEndian : bool) (x y : fileEntry) :
  pathTableLess b isJoliet useBigEndian x y = true ->
  pathTableLess b isJoliet useBigEndian y x = false.
Proof.
  destruct useBigEndian.
  - rewrite !pathTableLess_mType.
    destruct (parentDirNum b x =? parentDirNum b y) eqn:E.
    + apply Z.eqb_eq in E. rewrite E, Z.eqb_refl. apply bytesLess_asym.
    + rewrite Z.eqb_sym, E. rewrite Z.ltb_lt, Z.ltb_ge. lia.
  - unfold pathTableLess. rewrite Z.ltb_lt, Z.ltb_ge. lia.
Qed.

Lemma pathTableLess_notAfter_trans (b : ISOBuilder) (isJoliet useBigEndian : bool)
    (x y z : fileEntry) :
  pathTableLess b isJoliet useBigEndian y x = false ->
  pathTableLess b isJoliet useBigEndian z y = false ->
  pathTableLess b isJoliet useBigEndian z x = false.
Proof.
  destruct useBigEndian.
  - rewrite !pathTableLess_mType_false. unfold mTypeOrdered.
    intros [H1 | [H1 B1]] [H2 | [H2 B2]]; try (left; lia).
    right. split; [lia|]. eapply bytesLess_notAfter_trans; eauto.
  - unfold pathTableLess. rewrite !Z.ltb_ge. lia.
Qed.

Lemma StronglySorted_weaken {A} (R R' : A -> A -> Prop) (l : list A) :
  (forall x y, R x y -> R' x y) -> StronglySorted R l -> StronglySorted R' l.
Proof.
  intros H. induction 1 as [|a t Ht IH Ha]; constructor; auto.
  eapply Forall_impl; [|exact Ha]. intros y. apply H.
Qed.

(** The records of a path table follow the order of the sort, for every
    table: by number in an L-type table, by parent number and identifier in
    an M-type table. *)
Lemma pathTableDirs_ordered (b : ISOBuilder) (isJoliet : bool) :
  StronglySorted (fun x y => pathTableDirNum x <= pathTableDirNum y)
                 (pathTableDirs b isJoliet false)
  /\ StronglySorted (mTypeOrdered b isJoliet) (pathTableDirs b isJoliet true).
Proof.
  split.
  - apply (StronglySorted_weaken (notAfter (pathTableLess b isJoliet false))).
    + intros x y. unfold notAfter, pathTableLess. rewrite Z.ltb_ge. lia.
    + apply sortSlice_ordered.
      * apply pathTableLess_asym.
      * apply pathTableLess_notAfter_trans.
  - apply (StronglySorted_weaken (notAfter (pathTableLess b isJoliet true))).
    + intros x y. unfold notAfter. apply pathTableLess_mType_false.
    + apply sortSlice_ordered.
      * apply pathTableLess_asym.
      * apply pathTableLess_notAfter_trans.
Qed.

(** *** What the scanner guarantees about the table *)

Lemma countDirs_nonneg (e : osNode) : 0 <= countDirs e.
Proof.
  induction e using osNode_nested_ind; cbn [countDirs]; try lia.
  induction H as [|x t Hx Ht IH]; cbn [fold_right] in *; lia.
Qed.

Lemma countDirsIn_nonneg (l : list osNode) : 0 <= countDirsIn l.
Proof.
  unfold countDirsIn. induction l as [|x t IH]; cbn [fold_right]; [lia|].
  pose proof (countDirs_nonneg x). lia.
Qed.

Lemma grows_refl es : grows es es.
Proof. intros i p H. eauto. Qed.

Lemma grows_trans es1 es2 es3 : grows es1 es2 -> grows es2 es3 -> grows es1 es3.
Proof.
  intros H12 H23 i p H. destruct (H12 i p H) as (p2 & H2 & E2).
  destruct (H23 i p2 H2) as (p3 & H3 & E3). exists p3. split; [exact H3 | congruence].
Qed.

Lemma nth_error_update_core (g : fileEntry -> fileEntry) (i j : nat) (l : list fileEntry)
    (p : fileEntry) :
  (forall a, core (g a) = core a) ->
  nth_error l j = Some p ->
  exists p', nth_error (update i g l) j = Some p' /\ core p' = core p.
Proof.
  intros Hg Hj. destruct (Nat.eq_dec i j) as [->|Hne].
  - rewrite nth_error_update_same, Hj. simpl. eauto.
  - rewrite nth_error_update_other by exact Hne. eauto.
Qed.

Lemma numDirs_update (g : fileEntry -> fileEntry) (i : nat) (l : list fileEntry) :
  (forall a, isDir (g a) = isDir a) -> numDirs (update i g l) = numDirs l.
Proof.
  intros Hg. unfold numDirs. f_equal. revert i.
  induction l as [|a t IH]; intros [|i]; simpl; auto.
  - rewrite Hg. destruct (isDir a); reflexivity.
  - destruct (isDir a); simpl; now rewrite IH.
Qed.

Lemma numDirs_app (l1 l2 : list fileEntry) : numDirs (l1 ++ l2) = numDirs l1 + numDirs l2.
Proof. unfold numDirs. rewrite filter_app, length_app. lia. Qed.

(** The table after [appendEntry]. *)
Lemma appendEntry_grows (fe : fileEntry) (parent : nat) (b : ISOBuilder) :
  let es := fileEntries b in
  let es' := fileEntries (appendEntry fe parent b) in
  grows es es'
  /\ (exists fe', nth_error es' (length es) = Some fe' /\ core fe' = core fe)
  /\ length es' = S (length es)
  /\ numDirs es' = numDirs es + (if isDir fe then 1 else 0).
Proof.
  cbv zeta. rewrite appendEntry_entries.
  assert (Hc : forall a, core (appendChild (length (fileEntries b)) a) = core a)
    by reflexivity.
  repeat split.
  - intros i p Hp. apply nth_error_update_core; [exact Hc|].
    rewrite nth_error_app1; [exact Hp|]. apply nth_error_Some. congruence.
  - apply nth_error_update_core; [exact Hc|].
    rewrite nth_error_app2, Nat.sub_diag by lia. reflexivity.
  - rewrite length_update, length_app. simpl. lia.
  - rewrite numDirs_update by reflexivity. rewrite numDirs_app.
    unfold numDirs at 2. simpl. destruct (isDir fe); reflexivity.
Qed.

(** A valid table stays valid when it grows by one valid entry. *)
Lemma validTable_extend (es es' : list fileEntry) (fe : fileEntry) :
  validTable es ->
  grows es es' ->
  (exists fe', nth_error es' (length es) = Some fe' /\ core fe' = core fe) ->
  length es' = S (length es) ->
  originalName fe <> [] ->
  (isDir fe = true -> 2 <= pathTableDirNum fe <= 65535) ->
  (exists p, nth_error es (parentIndex fe) = Some p /\ isDir p = true) ->
  validTable es'.
Proof.
  intros [(root & Hr & Hrd & Hrn & Hrp) Hall] Hg (fe' & Hfe' & Hcore) Hlen Hname Hnum Hpar.
  assert (Hparent : forall q, (exists p, nth_error es (parentIndex q) = Some p /\ isDir p = true) ->
                              forall q', core q' = core q ->
                              exists p, nth_error es' (parentIndex q') = Some p /\ isDir p = true).
  { intros q (p & Hp & Hd) q' Hq'. destruct (Hg _ _ Hp) as (p' & Hp' & Ec).
    exists p'. unfold core in *. injection Hq' as _ _ -> _. injection Ec as -> _ _ _.
    split; assumption. }
  split.
  - destruct (Hg _ _ Hr) as (root' & Hr' & Ec). exists root'.
    unfold core in Ec. injection Ec as -> -> -> _. auto.
  - intros i f Hf Hi.
    assert (Hlt : (i < length es')%nat) by (apply nth_error_Some; congruence).
    destruct (Nat.eq_dec i (length es)) as [->|Hne].
    + rewrite Hfe' in Hf. injection Hf as <-.
      pose proof Hcore as Hc. unfold core in Hc. injection Hc as E1 E2 E3 E4.
      rewrite E1, E2, E4. split; [exact Hname|]. split; [exact Hnum|].
      now apply (Hparent fe).
    + assert (Hlt' : (i < length es)%nat) by lia.
      apply nth_error_Some in Hlt'.
      destruct (nth_error es i) as [f0|] eqn:Ef0; [|congruence].
      destruct (Hall i f0 Ef0 Hi) as (Hn0 & Hd0 & Hp0).
      destruct (Hg _ _ Ef0) as (f0' & Hf0' & Ec). rewrite Hf in Hf0'. injection Hf0' as <-.
      pose proof Ec as Hc. unfold core in Hc. injection Hc as E1 E2 E3 E4.
      rewrite E1, E2, E4. split; [exact Hn0|]. split; [exact Hd0|].
      now apply (Hparent f0).
Qed.

Lemma isDirectoryAt_grows es es' i : grows es es' -> isDirectoryAt es i -> isDirectoryAt es' i.
Proof.
  intros Hg (p & Hp & Hd). destruct (Hg _ _ Hp) as (p' & Hp' & Ec).
  exists p'. split; [exact Hp'|]. unfold core in Ec. now injection Ec as -> _ _ _.
Qed.

Lemma scanLoop_valid (l : list osNode) :
  Forall scanEntryValid l ->
  forall cur parent base st st',
    forallb namedNode l = true ->
    scanInv st ->
    isDirectoryAt (fileEntries (fst st)) parent ->
    numDirs (fileEntries (fst st)) + countDirsIn l <= 65535 ->
    scanLoop (scanEntry cur parent base) l st = Ok st' ->
    scanInv st'
    /\ numDirs (fileEntries (fst st')) = numDirs (fileEntries (fst st)) + countDirsIn l
    /\ grows (fileEntries (fst st)) (fileEntries (fst st')).
Proof.
  induction 1 as [|e t He Ht IH]; intros cur parent base st st' Hnamed Hinv Hpar Hfit Hscan.
  - cbn [scanLoop] in Hscan. injection Hscan as <-.
    split; [exact Hinv|]. split; [cbn; lia | apply grows_refl].
  - cbn [scanLoop] in Hscan. cbn [forallb] in Hnamed.
    apply andb_true_iff in Hnamed. destruct Hnamed as [Hn1 Hn2].
    unfold countDirsIn in *. cbn [fold_right] in *.
    pose proof (countDirsIn_nonneg t) as Hnn. unfold countDirsIn in Hnn.
    pose proof (countDirs_nonneg e) as Hne.
    destruct (scanEntry cur parent base e st) as [st1| |] eqn:E; cbn [bind] in Hscan;
      try discriminate.
    destruct (He cur parent base st st1 Hn1 Hinv Hpar ltac:(lia) E) as (Hinv1 & Hnum1 & Hg1).
    destruct (IH cur parent base st1 st' Hn2 Hinv1 (isDirectoryAt_grows _ _ _ Hg1 Hpar)
                ltac:(lia) Hscan) as (Hinv2 & Hnum2 & Hg2).
    split; [exact Hinv2|]. split; [lia | eapply grows_trans; eauto].
Qed.

Lemma wrap16_small (x : Z) : 0 <= x <= 65535 -> wrap16 x = x.
Proof. intros H. unfold wrap16. apply Z.mod_small. lia. Qed.

Lemma scanEntry_valid (e : osNode) : scanEntryValid e.
Proof.
  induction e using osNode_nested_ind; unfold scanEntryValid;
    intros cur parent base [b next] st' Hnamed (Hvalid & Hnext & Hone) Hpar Hfit Hscan;
    cbn [fst snd] in *; cbn [scanEntry] in Hscan;
    destruct (index (fileEntries b) parent) as [p| |]; cbn [bind] in Hscan;
    try discriminate.
  - (* a regular file *)
    injection Hscan as <-. cbn [fst snd countDirs].
    set (fe := newFileEntry _ _ _ false _ _ _ _).
    destruct (appendEntry_grows fe parent b) as (Hg & Hfe & Hlen & Hnum).
    cbn [namedNode osName] in Hnamed. rewrite andb_true_r in Hnamed.
    apply negb_true_iff in Hnamed.
    assert (Hv : validTable (fileEntries (appendEntry fe parent b))).
    { eapply (validTable_extend _ _ fe); eauto.
      - intros E. cbn in E. subst name. discriminate.
      - discriminate. }
    cbn [isDir fe newFileEntry] in Hnum.
    split; [|split; [lia | exact Hg]].
    split; [exact Hv|]. cbn [fst snd]. split; [|lia].
    rewrite Hnum, Z.add_0_r. exact Hnext.
  - (* neither a file nor a directory *)
    injection Hscan as <-. cbn [fst snd countDirs].
    split; [|split; [lia | apply grows_refl]].
    split; [exact Hvalid|]. cbn [fst snd]. split; [exact Hnext | exact Hone].
  - (* a directory *)
    cbn [namedNode osName] in Hnamed. apply andb_true_iff in Hnamed.
    destruct Hnamed as [Hname Hnamed]. apply negb_true_iff in Hname.
    cbn [countDirs] in Hfit. fold (countDirsIn osEntries) in Hfit.
    pose proof (countDirsIn_nonneg osEntries) as Hnn.
    set (fe := newFileEntry _ _ _ true _ _ _ _) in Hscan.
    destruct (appendEntry_grows fe parent b) as (Hg & Hfe & Hlen & Hnum).
    cbn [isDir fe newFileEntry] in Hnum.
    assert (Hnx : next = numDirs (fileEntries b) + 1).
    { rewrite Hnext. apply wrap16_small. lia. }
    assert (Hv : validTable (fileEntries (appendEntry fe parent b))).
    { eapply (validTable_extend _ _ fe); eauto.
      - intros E. cbn in E. subst name. discriminate.
      - intros _. cbn. lia. }
    assert (Hinv1 : scanInv (appendEntry fe parent b, wrap16 (next + 1))).
    { split; [exact Hv|]. cbn [fst snd]. split; [|lia].
      rewrite Hnum, Hnx. reflexivity. }
    assert (Hpar1 : isDirectoryAt (fileEntries (appendEntry fe parent b))
                                  (length (fileEntries b))).
    { destruct Hfe as (fe' & Hfe' & Ec). exists fe'. split; [exact Hfe'|].
      unfold core in Ec. now injection Ec as -> _ _ _. }
    destruct (scanLoop_valid osEntries H _ _ _ _ _ Hnamed Hinv1 Hpar1
                ltac:(cbn [fst]; lia) Hscan) as (Hinv2 & Hnum2 & Hg2).
    cbn [fst] in Hnum2, Hg2.
    split; [exact Hinv2|]. cbn [countDirs]. fold (countDirsIn osEntries).
    split; [lia | eapply grows_trans; eauto].
Qed.

(** The table that [ScanSourceDirectory] returns for a tree with non-empty
    names and at most 65534 directories below the source directory. *)
Lemma ScanSourceDirectory_valid (b b' : ISOBuilder) (absPath : gostring) (l : list osNode) :
  forallb namedNode l = true ->
  countDirsIn l <= 65534 ->
  ScanSourceDirectory b (Some absPath) (Some l) = Ok b' ->
  validTable (fileEntries b').
Proof.
  intros Hnamed Hfit. unfold ScanSourceDirectory, scanDirectoryRecursive.
  destruct (scanLoop _ l _) as [st| |] eqn:E; cbn [bind]; try discriminate.
  intros H. injection H as <-.
  refine (proj1 (proj1 (scanLoop_valid l _ _ _ _ _ _ Hnamed _ _ _ E))).
  - apply Forall_forall. intros e _. apply scanEntry_valid.
  - unfold scanInv. cbn [fst snd fileEntries setFileEntries app].
    split; [|split; [reflexivity | unfold numDirs; cbn [filter isDir length]; lia]].
    split.
    + eexists. split; [reflexivity|]. cbn [isDir pathTableDirNum parentIndex]. auto.
    + intros i f Hf Hi. destruct i as [|[|i]]; [lia | discriminate | discriminate].
  - cbn [fst fileEntries setFileEntries app]. eexists. split; reflexivity.
  - cbn [fst fileEntries setFileEntries app]. unfold numDirs. cbn [filter isDir length]. lia.
Qed.

(** *** The root comes first *)

Lemma runes_nonempty (s : gostring) : s <> [] -> runes s <> [].
Proof.
  destruct s as [|c s]; [contradiction|]. intros _. unfold runes. cbn [runesFrom].
  destruct (decodeRune (c :: s)). discriminate.
Qed.

Lemma encodeRune_nonempty (r : rune) : encodeRune r <> [].
Proof.
  unfold encodeRune.
  repeat match goal with |- context [if ?c then _ else _] => destruct c end; discriminate.
Qed.

Lemma truncateJolietName_nonempty (s : gostring) : s <> [] -> truncateJolietName s <> [].
Proof.
  intros Hs. unfold truncateJolietName.
  destruct (_ || _); [exact Hs|].
  destruct (len (runes s) >? JolietMaxFilenameChars) eqn:E; [|exact Hs].
  pose proof (runes_nonempty s Hs) as Hr.
  destruct (runes s) as [|r rs]; [contradiction|].
  change (Z.to_nat JolietMaxFilenameChars) with 64%nat. cbn [firstn stringOfRunes flat_map].
  pose proof (encodeRune_nonempty r). destruct (encodeRune r); [contradiction | discriminate].
Qed.

Lemma encodeUTF16BE_shape (s : gostring) :
  s <> [] -> exists b0 b1 t, encodeUTF16BE s = b0 :: b1 :: t /\ 0 <= b0.
Proof.
  intros Hs. unfold encodeUTF16BE, utf16Encode.
  pose proof (runes_nonempty s Hs) as Hr.
  destruct (runes s) as [|r rs]; [contradiction|].
  cbn [flat_map].
  assert (Hu : exists u us, utf16EncodeRune r = u :: us).
  { unfold utf16EncodeRune.
    repeat match goal with |- context [if ?c then _ else _] => destruct c end; eauto. }
  destruct Hu as (u & us & ->). cbn [app flat_map putBE16].
  eexists. eexists. eexists. split; [reflexivity|].
  apply wrap8_range.
Qed.

Lemma bytesLess_zero_pair (b0 b1 : byte) (t : list byte) :
  0 <= b0 -> bytesLess [0] (b0 :: b1 :: t) = true.
Proof.
  intros H. unfold bytesLess. cbn [bytesCompare].
  destruct (Z.compare_spec 0 b0); try reflexivity. lia.
Qed.

Lemma bytesLess_zero_isoChar (c : byte) (t : list byte) :
  isIsoChar c = true -> bytesLess [0] (c :: t) = true.
Proof.
  intros H. unfold bytesLess. cbn [bytesCompare].
  unfold isIsoChar in H.
  rewrite !orb_true_iff, !andb_true_iff, !Z.leb_le, Z.eqb_eq in H.
  destruct (Z.compare_spec 0 c); try reflexivity; lia.
Qed.

(** The identifier of a directory other than the root sorts after the
    identifier [00] of the root. *)
Lemma pathTableIdentifier_after_root (isJoliet : bool) (f : fileEntry) :
  isDir f = true -> pathTableDirNum f <> 1 -> originalName f <> [] ->
  bytesLess [0] (pathTableIdentifier isJoliet (assignSanitizedNameAndDrSize f)) = true.
Proof.
  intros Hd Hn Hname. unfold pathTableIdentifier.
  pose proof (assign_keeps f) as (-> & _).
  pose proof (assign_names f) as [-> ->].
  rewrite Hd. apply Z.eqb_neq in Hn. rewrite Hn. cbn [andb].
  destruct isJoliet.
  - destruct (encodeUTF16BE_shape _ (truncateJolietName_nonempty _ Hname))
      as (b0 & b1 & t & -> & Hb0).
    now apply bytesLess_zero_pair.
  - pose proof (sanitizeISO9660Name_directory (originalName f)) as [Hc Hl].
    cbv zeta in Hc, Hl.
    destruct (sanitizeISO9660Name (originalName f) true) as [|c t].
    + unfold len in Hl. simpl in Hl. lia.
    + inversion Hc; subst. now apply bytesLess_zero_isoChar.
Qed.

Lemma sortSlice_head {A} (less : A -> A -> bool) (x : A) (t : list A) :
  (forall y, In y t -> less y x = false) ->
  sortSlice less (x :: t) = x :: sortSlice less t.
Proof.
  intros H. cbn [sortSlice].
  assert (Hs : forall y, In y (sortSlice less t) -> less y x = false).
  { intros y Hy. apply H. eapply Permutation_in; [|exact Hy].
    apply Permutation_sym, sortSlice_perm. }
  destruct (sortSlice less t) as [|y s]; [reflexivity|].
  cbn [insertSorted]. now rewrite (Hs y (or_introl eq_refl)).
Qed.

(** The planner keeps the core of every entry and gives it the names of
    [assignSanitizedNameAndDrSize]. *)
Lemma calculateLayout_eraseExtents (b r : ISOBuilder) :
  calculateLayout b = Ok r ->
  Forall2 (fun f f' => eraseExtents f' = eraseExtents f)
          (map assignSanitizedNameAndDrSize (fileEntries b)) (fileEntries r).
Proof.
  apply calculateLayout_Forall2.
  - reflexivity.
  - intros a b0 c H1 H2. congruence.
  - intros f f' [[_ ->] | [_ (s1 & s2 & ->)]]; reflexivity.
  - intros f f' [[_ ->] | [_ (v & ->)]]; reflexivity.
  - intros f f' [[_ ->] | [_ (v & ->)]]; reflexivity.
  - intros f f' [[_ ->] | [_ (v & ->)]]; reflexivity.
Qed.

Lemma Forall2_nth_error {A B} (R : A -> B -> Prop) (l : list A) (l' : list B) :
  Forall2 R l l' ->
  forall i, match nth_error l i, nth_error l' i with
            | Some a, Some a' => R a a'
            | None, None => True
            | _, _ => False
            end.
Proof.
  induction 1 as [|a a' t t' Ha Ht IH]; intros [|i]; simpl; auto. apply IH.
Qed.

(** An entry of the planned table, seen from the scanned table. *)
Lemma calculateLayout_nth (b r : ISOBuilder) (i : nat) (f' : fileEntry) :
  calculateLayout b = Ok r ->
  nth_error (fileEntries r) i = Some f' ->
  exists f, nth_error (fileEntries b) i = Some f
            /\ core f' = core f
            /\ forall isJoliet,
                pathTableIdentifier isJoliet f'
                = pathTableIdentifier isJoliet (assignSanitizedNameAndDrSize f).
Proof.
  intros Hl Hf'.
  pose proof (Forall2_nth_error _ _ _ (calculateLayout_eraseExtents b r Hl) i) as H.
  rewrite Hf', nth_error_map in H.
  destruct (nth_error (fileEntries b) i) as [f|]; simpl in H; [|contradiction].
  exists f. split; [reflexivity|].
  pose proof (assign_keeps f) as (Hn & Hd & Ho & _ & Hp & _).
  set (g := assignSanitizedNameAndDrSize f) in *.
  pose proof (f_equal isDir H : isDir f' = isDir g) as E1.
  pose proof (f_equal pathTableDirNum H : pathTableDirNum f' = pathTableDirNum g) as E2.
  pose proof (f_equal parentIndex H : parentIndex f' = parentIndex g) as E3.
  pose proof (f_equal originalName H : originalName f' = originalName g) as E4.
  pose proof (f_equal iso9660Name H : iso9660Name f' = iso9660Name g) as E5.
  pose proof (f_equal jolietName H : jolietName f' = jolietName g) as E6.
  split.
  - unfold core. rewrite E1, E2, E3, E4, Hn, Hd, Ho, Hp. reflexivity.
  - intros isJoliet. unfold pathTableIdentifier. now rewrite E2, E5, E6.
Qed.

Lemma calculateLayout_nth_forward (b r : ISOBuilder) (i : nat) (f : fileEntry) :
  calculateLayout b = Ok r ->
  nth_error (fileEntries b) i = Some f ->
  exists f', nth_error (fileEntries r) i = Some f' /\ core f' = core f.
Proof.
  intros Hl Hf.
  pose proof (Forall2_nth_error _ _ _ (calculateLayout_eraseExtents b r Hl) i) as H.
  rewrite nth_error_map, Hf in H. simpl in H.
  destruct (nth_error (fileEntries r) i) as [f'|] eqn:Ef'; [|contradiction].
  exists f'. split; [reflexivity|].
  destruct (calculateLayout_nth b r i f' Hl Ef') as (f0 & Hf0 & Hc & _).
  congruence.
Qed.

(** In the planned table of a valid scan both path tables of a namespace
    start with the root. *)
Lemma pathTableDirs_root_first (b r : ISOBuilder) (isJoliet useBigEndian : bool) :
  validTable (fileEntries b) ->
  calculateLayout b = Ok r ->
  exists root rest,
    nth_error (fileEntries r) 0 = Some root
    /\ isDir root = true /\ pathTableDirNum root = 1
    /\ pathTableDirs r isJoliet useBigEndian = root :: rest.
Proof.
  intros [(root0 & Hr0 & Hrd & Hrn & Hrp) Hall] Hl.
  destruct (calculateLayout_nth_forward b r 0 root0 Hl Hr0) as (root & Hroot & Hc).
  unfold core in Hc. injection Hc as Hd Hn Hp _.
  rewrite Hrd in Hd. rewrite Hrn in Hn. rewrite Hrp in Hp.
  destruct (fileEntries r) as [|x rest] eqn:Er; [discriminate|].
  cbn [nth_error] in Hroot. injection Hroot as ->.
  exists root. eexists. split; [reflexivity|]. split; [exact Hd|]. split; [exact Hn|].
  unfold pathTableDirs. rewrite Er. cbn [filter]. rewrite Hd, Hn. cbn [andb Z.gtb Z.compare].
  apply sortSlice_head.
  intros y Hy. apply filter_In in Hy. destruct Hy as [Hin Hpy].
  apply andb_true_iff in Hpy. destruct Hpy as [Hyd _].
  apply In_nth_error in Hin. destruct Hin as [i Hi].
  assert (Hy : nth_error (fileEntries r) (S i) = Some y) by (rewrite Er; exact Hi).
  destruct (calculateLayout_nth b r (S i) y Hl Hy) as (f & Hf & Hcf & Hid).
  destruct (Hall (S i) f Hf ltac:(lia)) as (Hname & Hnum & (p & Hpp & Hpd)).
  unfold core in Hcf. injection Hcf as Ed En Ep _.
  rewrite Hyd in Ed. symmetry in Ed. specialize (Hnum Ed).
  destruct useBigEndian.
  - apply pathTableLess_asym. rewrite pathTableLess_mType.
    assert (Hpr : parentDirNum r root = 1).
    { unfold parentDirNum. rewrite Hp, Er. cbn [nth_error]. exact Hn. }
    assert (Hpy : 1 <= parentDirNum r y).
    { unfold parentDirNum. rewrite Ep.
      destruct (calculateLayout_nth_forward b r _ p Hl Hpp) as (p' & Hp' & Hcp).
      rewrite Hp'. unfold core in Hcp. injection Hcp as Epd Epn _ _.
      rewrite Epn. destruct (parentIndex f) as [|k] eqn:Ek.
      - rewrite Hr0 in Hpp. injection Hpp as <-. lia.
      - destruct (Hall (S k) p Hpp ltac:(lia)) as (_ & Hpn & _).
        specialize (Hpn Hpd). lia. }
    rewrite Hpr. destruct (1 =? parentDirNum r y) eqn:E.
    + rewrite (Hid isJoliet).
      replace (pathTableIdentifier isJoliet root) with [0]
        by (unfold pathTableIdentifier; now rewrite Hn).
      apply pathTableIdentifier_after_root; auto. lia.
    + apply Z.eqb_neq in E. apply Z.ltb_lt. lia.
  - unfold pathTableLess. apply Z.ltb_ge. lia.
Qed.

(** C7 (amended): the records of a path table are those of [pathTableDirs]
    in that order.  For every table, the M-type table orders any two records
    by the parent's number first and byte-wise by the identifier second, and
    the L-type table is ordered by the directories' own numbers.  For the
    table of a scan (non-empty names, at most 65534 directories below the
    source directory, so that the 16-bit path-table numbers are distinct)
    after the planner has run, both tables start with the record of the
    root. *)
Theorem pathTable_record_order (b2 : ISOBuilder) (isJoliet : bool) :
  (forall useBigEndian,
      createPathTable b2 isJoliet useBigEndian
      = writeAll (pathTableRecord b2 isJoliet useBigEndian)
                 (pathTableDirs b2 isJoliet useBigEndian))
  /\ StronglySorted (mTypeOrdered b2 isJoliet) (pathTableDirs b2 isJoliet true)
  /\ StronglySorted (fun x y => pathTableDirNum x <= pathTableDirNum y)
                    (pathTableDirs b2 isJoliet false)
  /\ forall (b0 b1 : ISOBuilder) (absPath : gostring) (osEntries : list osNode),
       forallb namedNode osEntries = true ->
       countDirsIn osEntries <= 65534 ->
       ScanSourceDirectory b0 (Some absPath) (Some osEntries) = Ok b1 ->
       calculateLayout b1 = Ok b2 ->
       exists root restM restL,
         nth_error (fileEntries b2) 0 = Some root
         /\ pathTableDirNum root = 1
         /\ pathTableDirs b2 isJoliet true = root :: restM
         /\ pathTableDirs b2 isJoliet false = root :: restL.
Proof.
  destruct (pathTableDirs_ordered b2 isJoliet) as [HL HM].
  split; [reflexivity|]. split; [exact HM|]. split; [exact HL|].
  intros b0 b1 absPath osEntries Hnamed Hfit Hscan Hlayout.
  pose proof (ScanSourceDirectory_valid b0 b1 absPath osEntries Hnamed Hfit Hscan) as Hvalid.
  destruct (pathTableDirs_root_first b1 b2 isJoliet true Hvalid Hlayout)
    as (root & restM & Hroot & _ & Hnum & HdM).
  destruct (pathTableDirs_root_first b1 b2 isJoliet false Hvalid Hlayout)
    as (root' & restL & Hroot' & _ & _ & HdL).
  rewrite Hroot in Hroot'. injection Hroot' as <-.
  exists root, restM, restL. auto.
Qed.

(** ** Names in ASCII *)

(** For names made of ASCII bytes the order of Go strings and the byte-wise
    order of the UCS-2BE identifiers agree, so that the Joliet listing of a
    directory with such names is sorted by its identifiers. *)
Lemma runes_ascii (s : gostring) :
  Forall (fun c => 0 <= c < 128) s -> runes s = s.
Proof.
  unfold runes. induction 1 as [|c t Hc Ht IH]; [reflexivity|].
  cbn [runesFrom decodeRune].
  destruct (c <? 128) eqn:E; [|apply Z.ltb_ge in E; lia].
  cbn [Nat.sub]. now rewrite IH.
Qed.

Lemma encodeUTF16BE_ascii (s : gostring) :
  Forall (fun c => 0 <= c < 128) s ->
  encodeUTF16BE s = flat_map (fun c => [0; c]) s.
Proof.
  intros H. unfold encodeUTF16BE, utf16Encode. rewrite (runes_ascii s H).
  induction H as [|c t Hc Ht IH]; [reflexivity|].
  cbn [flat_map]. rewrite <- IH.
  assert (Hu : utf16EncodeRune c = [c]).
  { unfold utf16EncodeRune.
    destruct ((0 <=? c) && (c <? 55296)) eqn:E.
    - cbn [orb]. unfold wrap16. now rewrite Z.mod_small by lia.
    - apply andb_false_iff in E. rewrite Z.leb_gt, Z.ltb_ge in E. lia. }
  rewrite Hu. cbn [flat_map app putBE16].
  assert (Hs : Z.shiftr c 8 = 0).
  { rewrite Z.shiftr_div_pow2 by lia. apply Z.div_small. change (2 ^ 8) with 256. lia. }
  rewrite Hs. unfold wrap8. rewrite (Z.mod_small c) by lia. reflexivity.
Qed.

Lemma bytesCompare_widened (a b : gostring) :
  bytesCompare (flat_map (fun c => [0; c]) a) (flat_map (fun c => [0; c]) b)
  = bytesCompare a b.
Proof.
  revert b. induction a as [|x a IH]; intros [|y b]; try reflexivity.
  cbn [flat_map app bytesCompare]. rewrite Z.compare_refl.
  destruct (x ?= y); try reflexivity. apply IH.
Qed.

Lemma jolietListing_ascii_ordered (b : ISOBuilder) (currentDir : fileEntry)
    (l : list fileEntry) :
  sortedChildren b currentDir true = Ok l ->
  Forall (fun f => Forall (fun c => 0 <= c < 128) (jolietName f)) l ->
  StronglySorted
    (fun x y => bytesLess (encodeUTF16BE (jolietName y)) (encodeUTF16BE (jolietName x)) = false)
    l.
Proof.
  intros Hs Hascii. pose proof (sortedChildren_ordered b currentDir true l Hs) as Hsorted.
  clear Hs.
  induction Hsorted as [|x t Ht IH Hx]; [constructor|].
  inversion Hascii as [|x' t' Hax Hat]; subst.
  constructor; [now apply IH|].
  rewrite Forall_forall in Hx, Hat. apply Forall_forall. intros y Hy.
  specialize (Hx y Hy). unfold listingLess in Hx. unfold bytesLess in *.
  rewrite (encodeUTF16BE_ascii _ Hax), (encodeUTF16BE_ascii _ (Hat y Hy)).
  now rewrite bytesCompare_widened.
Qed.

(** A name of at most 64 scalar values of the Basic Multilingual Plane is
    kept, and its identifier has at most 128 bytes. *)
Lemma truncateJolietName_bmp_short (name : gostring) :
  len (runes name) <= JolietMaxFilenameChars ->
  Forall (fun r => r < 65536) (runes name) ->
  truncateJolietName name = name /\ len (encodeUTF16BE name) <= 128.
Proof.
  intros Hlen Hbmp. split; [now apply truncateJolietName_short|].
  unfold encodeUTF16BE, utf16Encode, JolietMaxFilenameChars in *.
  assert (H : len (flat_map putBE16 (flat_map utf16EncodeRune (runes name)))
              = 2 * len (runes name)).
  { clear Hlen. induction Hbmp as [|r t Hr Ht IH]; [reflexivity|].
    assert (Hu : exists u, utf16EncodeRune r = [u]).
    { unfold utf16EncodeRune.
      destruct (_ || _); [eauto|].
      destruct ((65536 <=? r) && (r <=? 1114111)) eqn:E; [|eauto].
      apply andb_true_iff in E. rewrite Z.leb_le in E. lia. }
    destruct Hu as [u Hu]. cbn [flat_map]. rewrite Hu. cbn [flat_map app putBE16].
    unfold len in *. cbn [length]. lia. }
  lia.
Qed.
(* ================================================================== *)
(** * Further properties of the encoders, the planner and the writer *)

(** ** Buffers *)

Lemma Ok_inj {A} (a a' : A) : Ok a = Ok a' -> a = a'.
Proof. congruence. Qed.

Lemma gtb_false (x y : Z) : x <= y -> (x >? y) = false.
Proof. intros H. rewrite Z.gtb_ltb. apply Z.ltb_ge. lia. Qed.

Lemma gtb_true (x y : Z) : y < x -> (x >? y) = true.
Proof. intros H. apply Z.gtb_lt. lia. Qed.

Lemma ltb_false (x y : Z) : y <= x -> (x <? y) = false.
Proof. intros H. apply Z.ltb_ge. lia. Qed.

Lemma ltb_true (x y : Z) : x < y -> (x <? y) = true.
Proof. intros H. apply Z.ltb_lt. lia. Qed.

Lemma copyAt_append (p src d : list byte) :
  (length src <= length d)%nat ->
  copyAt (length p) src (p ++ d) = p ++ src ++ skipn (length src) d.
Proof.
  intros H. unfold copyAt.
  rewrite firstn_app, Nat.sub_diag, firstn_O, app_nil_r, firstn_all.
  rewrite length_app.
  replace (length p + length d - length p)%nat with (length d) by lia.
  rewrite (firstn_all2 (n := length d)) by exact H.
  rewrite skipn_app, skipn_all2 by lia.
  replace (length p + length src - length p)%nat with (length src) by lia.
  reflexivity.
Qed.

Lemma copyAt_prefix (src d : list byte) :
  (length src <= length d)%nat -> copyAt 0 src d = src ++ skipn (length src) d.
Proof. intros H. exact (copyAt_append [] src d H). Qed.

Lemma skipn_repeat {A} (x : A) (k n : nat) : skipn k (repeat x n) = repeat x (n - k).
Proof.
  revert n. induction k as [|k IH]; intros n.
  - now rewrite Nat.sub_0_r.
  - destruct n as [|n]; [reflexivity|]. simpl. apply IH.
Qed.

Lemma firstn_repeat {A} (x : A) (k n : nat) : firstn k (repeat x n) = repeat x (Nat.min k n).
Proof.
  revert n. induction k as [|k IH]; intros n; [reflexivity|].
  destruct n as [|n]; [reflexivity|]. simpl. now rewrite IH.
Qed.

Lemma copyIntoArray_exact (n : Z) (src : list byte) :
  len src = n -> copyIntoArray n src = src.
Proof.
  intros Hn. unfold copyIntoArray. rewrite copyAt_prefix.
  - rewrite skipn_all2; [apply app_nil_r|].
    unfold makeBytes. rewrite repeat_length. unfold len in Hn. lia.
  - unfold makeBytes. rewrite repeat_length. unfold len in Hn. lia.
Qed.

(** ** Sector arithmetic, for sizes that do not wrap *)

(** X1: for a byte count of at most 4294965248 (the largest that the 32-bit
    sum does not wrap), [sectorsToContainBytes] is the least number of
    sectors that hold the bytes: none for an empty table, and otherwise the
    allocation covers the bytes and wastes less than one sector. *)
Theorem sectorsToContainBytes_least_cover (byteSize : Z) :
  0 <= byteSize <= 4294965248 ->
  let n := sectorsToContainBytes byteSize in
  byteSize <= n * SectorSize < byteSize + SectorSize
  /\ 0 <= n <= 2097151
  /\ wrap32 (n * SectorSize) = n * SectorSize.
Proof.
  intros H. unfold sectorsToContainBytes, wrap32, SectorSize. cbv zeta.
  destruct (byteSize =? 0) eqn:E.
  - apply Z.eqb_eq in E. subst. repeat split; lia.
  - apply Z.eqb_neq in E.
    rewrite (Z.mod_small byteSize) by lia.
    rewrite (Z.mod_small (byteSize + 2048 - 1)) by lia.
    pose proof (Z.div_mod (byteSize + 2048 - 1) 2048 ltac:(lia)) as Hd.
    pose proof (Z.mod_pos_bound (byteSize + 2048 - 1) 2048 ltac:(lia)) as Hm.
    set (q := (byteSize + 2048 - 1) / 2048) in *.
    assert (Hq : 0 <= q <= 2097151) by lia.
    repeat split; try lia.
    apply Z.mod_small. lia.
Qed.

(** X2: for a file of at most 4294965248 bytes [sectorsToContainFileBytes]
    is [max(1, ceil(size / 2048))]: an empty file takes one sector, and the
    allocation of any other file covers its data and wastes less than one
    sector. *)
Theorem sectorsToContainFileBytes_least_cover (size : Z) :
  0 <= size <= 4294965248 ->
  let n := sectorsToContainFileBytes size in
  n = sectorsForFileSpec size
  /\ 1 <= n <= 2097151
  /\ size <= n * SectorSize
  /\ (0 < size -> n * SectorSize < size + SectorSize).
Proof.
  intros H. cbv zeta. split; [now apply sectorsToContainFileBytes_small|].
  unfold sectorsToContainFileBytes, wrap32, SectorSize.
  destruct (size =? 0) eqn:E.
  - apply Z.eqb_eq in E. subst. repeat split; lia.
  - apply Z.eqb_neq in E.
    rewrite (Z.mod_small (size + 2048 - 1)) by lia.
    pose proof (Z.div_mod (size + 2048 - 1) 2048 ltac:(lia)) as Hd.
    pose proof (Z.mod_pos_bound (size + 2048 - 1) 2048 ltac:(lia)) as Hm.
    set (q := (size + 2048 - 1) / 2048) in *.
    repeat split; lia.
Qed.

(** ** Fixed-length fields *)

Lemma firstn_min_len {A} (n : Z) (s : list A) :
  0 <= n ->
  firstn (Z.to_nat (if len s >? n then n else len s)) s = firstn (Z.to_nat n) s.
Proof.
  intros Hn. destruct (len s >? n) eqn:E; [reflexivity|].
  rewrite Z.gtb_ltb in E. apply Z.ltb_ge in E. unfold len in *.
  rewrite Nat2Z.id, firstn_all. symmetry. apply firstn_all2. lia.
Qed.

Lemma padString_closed (s : gostring) (length : Z) :
  padString s length
  = if length <? 0 then Panic
    else Ok (firstn (Z.to_nat length) s
             ++ repeat 32 (Z.to_nat length - List.length s)).
Proof.
  unfold padString. destruct (length <? 0) eqn:E; [reflexivity|].
  apply Z.ltb_ge in E. f_equal.
  rewrite (firstn_min_len length s E).
  unfold makeBytes. rewrite map_repeat.
  rewrite copyAt_prefix by (rewrite length_firstn, repeat_length; lia).
  rewrite skipn_repeat, length_firstn. f_equal. f_equal. lia.
Qed.

(** X3: [padString] panics on a negative length and otherwise returns
    exactly [length] bytes: the string, cut to the length when it is longer,
    followed by spaces. *)
Theorem padString_spec (s : gostring) (length : Z) :
  padString s length
  = if length <? 0 then Panic
    else Ok (firstn (Z.to_nat length) s
             ++ repeat 32 (Z.to_nat length - List.length s)).
Proof. exact (padString_closed s length). Qed.

Lemma padString_len (s : gostring) (n : Z) (r : list byte) :
  padString s n = Ok r -> len r = n.
Proof.
  rewrite padString_closed. destruct (n <? 0) eqn:E; [discriminate|].
  apply Z.ltb_ge in E. intros H. apply Ok_inj in H. subst r.
  unfold len. rewrite length_app, length_firstn, repeat_length. lia.
Qed.

Lemma padUTF16StringBE_closed (s : gostring) (numCharsInField : Z) :
  padUTF16StringBE s numCharsInField
  = if numCharsInField <? 0 then Panic
    else Ok (firstn (Z.to_nat (2 * numCharsInField)) (encodeUTF16BE s)
             ++ repeat 0 (Z.to_nat (2 * numCharsInField)
                          - List.length (encodeUTF16BE s))).
Proof.
  unfold padUTF16StringBE. cbv zeta.
  replace (numCharsInField * 2) with (2 * numCharsInField) by lia.
  destruct (numCharsInField <? 0) eqn:E.
  - apply Z.ltb_lt in E.
    destruct (2 * numCharsInField <? 0) eqn:E2; [reflexivity|].
    apply Z.ltb_ge in E2. lia.
  - apply Z.ltb_ge in E.
    destruct (2 * numCharsInField <? 0) eqn:E2; [apply Z.ltb_lt in E2; lia|].
    f_equal. rewrite (firstn_min_len (2 * numCharsInField) _ ltac:(lia)).
    unfold makeBytes.
    rewrite copyAt_prefix by (rewrite length_firstn, repeat_length; lia).
    rewrite skipn_repeat, length_firstn. f_equal. f_equal. lia.
Qed.

(** X4: [padUTF16StringBE] panics on a negative number of characters and
    otherwise returns exactly two bytes per character of the field: the
    UCS-2BE encoding of the string, cut to the field when it is longer,
    followed by zero bytes. *)
Theorem padUTF16StringBE_spec (s : gostring) (numCharsInField : Z) :
  padUTF16StringBE s numCharsInField
  = if numCharsInField <? 0 then Panic
    else Ok (firstn (Z.to_nat (2 * numCharsInField)) (encodeUTF16BE s)
             ++ repeat 0 (Z.to_nat (2 * numCharsInField)
                          - List.length (encodeUTF16BE s))).
Proof. exact (padUTF16StringBE_closed s numCharsInField). Qed.

Lemma padUTF16StringBE_len (s : gostring) (n : Z) (r : list byte) :
  padUTF16StringBE s n = Ok r -> len r = 2 * n.
Proof.
  rewrite padUTF16StringBE_closed. destruct (n <? 0) eqn:E; [discriminate|].
  apply Z.ltb_ge in E. intros H. apply Ok_inj in H. subst r.
  unfold len. rewrite length_app, length_firstn, repeat_length. lia.
Qed.

(** X5: [padUTF16StringBEToFixedBytes] panics when the string part does not
    fit the field or a bound is negative; otherwise it returns exactly
    [totalBytesInField] bytes: the UCS-2BE encoding of the string, cut to
    [maxCharsInString] characters, followed by zero bytes. *)
Theorem padUTF16StringBEToFixedBytes_spec (s : gostring) (maxCharsInString totalBytesInField : Z) :
  padUTF16StringBEToFixedBytes s maxCharsInString totalBytesInField
  = if (2 * maxCharsInString >? totalBytesInField) || (maxCharsInString <? 0)
    then Panic
    else
      let stringPart := firstn (Z.to_nat (2 * maxCharsInString)) (encodeUTF16BE s) in
      Ok (stringPart
          ++ repeat 0 (Z.to_nat totalBytesInField - List.length stringPart)).
Proof.
  unfold padUTF16StringBEToFixedBytes. cbv zeta.
  replace (maxCharsInString * 2) with (2 * maxCharsInString) by lia.
  pose proof (len_nonneg (encodeUTF16BE s)) as Hl.
  destruct (2 * maxCharsInString >? totalBytesInField) eqn:E1; [reflexivity|].
  rewrite Z.gtb_ltb in E1. apply Z.ltb_ge in E1. cbn [orb].
  destruct (maxCharsInString <? 0) eqn:E2.
  - apply Z.ltb_lt in E2.
    destruct (totalBytesInField <? 0); [reflexivity|].
    destruct (len (encodeUTF16BE s) >? 2 * maxCharsInString) eqn:E3.
    + destruct (2 * maxCharsInString <? 0) eqn:E4; [reflexivity|].
      apply Z.ltb_ge in E4. lia.
    + rewrite Z.gtb_ltb in E3. apply Z.ltb_ge in E3. lia.
  - apply Z.ltb_ge in E2.
    destruct (totalBytesInField <? 0) eqn:E5; [apply Z.ltb_lt in E5; lia|].
    apply Z.ltb_ge in E5.
    assert (Hcut : (if len (encodeUTF16BE s) >? 2 * maxCharsInString
                    then if 2 * maxCharsInString <? 0 then Panic
                         else Ok (firstn (Z.to_nat (2 * maxCharsInString)) (encodeUTF16BE s))
                    else Ok (encodeUTF16BE s))
                   = Ok (firstn (Z.to_nat (2 * maxCharsInString)) (encodeUTF16BE s))).
    { destruct (len (encodeUTF16BE s) >? 2 * maxCharsInString) eqn:E3.
      - destruct (2 * maxCharsInString <? 0) eqn:E4; [apply Z.ltb_lt in E4; lia|].
        reflexivity.
      - rewrite Z.gtb_ltb in E3. apply Z.ltb_ge in E3. f_equal.
        symmetry. apply firstn_all2. unfold len in E3. lia. }
    rewrite Hcut. cbn [bind]. f_equal.
    unfold makeBytes.
    rewrite copyAt_prefix by (rewrite length_firstn, repeat_length; lia).
    now rewrite skipn_repeat.
Qed.

(** ** Timestamps *)

Lemma forall_below (P : Z -> bool) (k : Z) :
  forallb (fun i => P (Z.of_nat i)) (seq 0 (Z.to_nat k)) = true ->
  forall n, 0 <= n < k -> P n = true.
Proof.
  intros H n Hn. rewrite forallb_forall in H.
  specialize (H (Z.to_nat n)). rewrite Z2Nat.id in H by lia.
  apply H. apply in_seq. lia.
Qed.

Lemma sprintfZeroPadded_two (n : Z) :
  0 <= n <= 99 -> sprintfZeroPadded 2 n = [48 + n / 10; 48 + n mod 10].
Proof.
  intros H. apply eqbBytes_eq.
  apply (forall_below
           (fun n => eqbBytes (sprintfZeroPadded 2 n) [48 + n / 10; 48 + n mod 10]) 100);
    [vm_compute; reflexivity | lia].
Qed.

(** The same for two levels, which keeps the enumerated numbers small. *)
Lemma forall_below_hundreds (P : Z -> bool) :
  forallb (fun a => forallb (fun b => P (100 * Z.of_nat a + Z.of_nat b)) (seq 0 100))
          (seq 0 100) = true ->
  forall n, 0 <= n <= 9999 -> P n = true.
Proof.
  intros H n Hn. rewrite forallb_forall in H.
  pose proof (Z.div_mod n 100 ltac:(lia)) as Hd.
  pose proof (Z.mod_pos_bound n 100 ltac:(lia)) as Hm.
  specialize (H (Z.to_nat (n / 100))).
  rewrite forallb_forall in H.
  specialize (H ltac:(apply in_seq; lia) (Z.to_nat (n mod 100)) ltac:(apply in_seq; lia)).
  rewrite !Z2Nat.id in H by lia. now rewrite <- Hd in H.
Qed.

Lemma sprintfZeroPadded_four (n : Z) :
  0 <= n <= 9999 ->
  sprintfZeroPadded 4 n
  = [48 + n / 1000; 48 + (n / 100) mod 10; 48 + (n / 10) mod 10; 48 + n mod 10].
Proof.
  intros H. apply eqbBytes_eq.
  apply (forall_below_hundreds
           (fun n => eqbBytes (sprintfZeroPadded 4 n)
                       [48 + n / 1000; 48 + (n / 100) mod 10; 48 + (n / 10) mod 10;
                        48 + n mod 10]));
    [vm_compute; reflexivity | lia].
Qed.

Lemma length_formatTimestamp (t : utcTime) : @length Z (formatTimestamp t) = 17%nat.
Proof.
  unfold formatTimestamp. cbv zeta. destruct (isZeroTime t); now rewrite !length_copyAt.
Qed.

(** X6: a timestamp always has 17 bytes, the last of which (the offset from
    GMT) is zero; the zero time gives sixteen digits [0]. *)
Theorem formatTimestamp_length (t : utcTime) :
  len (formatTimestamp t) = 17
  /\ nth_error (formatTimestamp t) 16 = Some 0
  /\ (isZeroTime t = true -> formatTimestamp t = repeat 48 16 ++ [0]).
Proof.
  split; [unfold len; now rewrite length_formatTimestamp|].
  unfold formatTimestamp. cbv zeta.
  destruct (isZeroTime t).
  - repeat split.
  - split; [|discriminate].
    apply nth_error_copyAt_here. rewrite length_copyAt. simpl. lia.
Qed.

(** X7: for a time other than the zero time whose year has at most four
    digits and whose other fields have at most two, the first sixteen bytes
    of the timestamp are ASCII digits: read as decimal numbers, bytes 0-3
    give the year, 4-5 the month, 6-7 the day, 8-9 the hour, 10-11 the
    minute and 12-13 the second; the hundredths (bytes 14-15) are [00]. *)
Theorem formatTimestamp_digits (t : utcTime) :
  isZeroTime t = false ->
  0 <= tYear (calendar t) <= 9999 ->
  0 <= tMonth (calendar t) <= 99 ->
  0 <= tDay (calendar t) <= 99 ->
  0 <= tHour (calendar t) <= 99 ->
  0 <= tMinute (calendar t) <= 99 ->
  0 <= tSecond (calendar t) <= 99 ->
  let ts := formatTimestamp t in
  forallb isDigit (firstn 16 ts) = true
  /\ decimalValue (slice 0 4 ts) = tYear (calendar t)
  /\ decimalValue (slice 4 2 ts) = tMonth (calendar t)
  /\ decimalValue (slice 6 2 ts) = tDay (calendar t)
  /\ decimalValue (slice 8 2 ts) = tHour (calendar t)
  /\ decimalValue (slice 10 2 ts) = tMinute (calendar t)
  /\ decimalValue (slice 12 2 ts) = tSecond (calendar t)
  /\ skipn 14 ts = [48; 48; 0].
Proof.
  intros Hz Hy Hmo Hd Hh Hmi Hs. unfold formatTimestamp. cbv zeta. rewrite Hz.
  rewrite sprintfZeroPadded_four by exact Hy.
  rewrite !sprintfZeroPadded_two by assumption.
  destruct (calendar t) as [Y M D h m s]. cbn [tYear tMonth tDay tHour tMinute tSecond] in *.
  assert (Hdig : forall x, 0 <= x <= 9 -> isDigit (48 + x) = true).
  { intros x Hx. unfold isDigit. apply andb_true_iff. split; apply Z.leb_le; lia. }
  assert (H2 : forall x, 0 <= x <= 99 -> 0 <= x / 10 <= 9 /\ 0 <= x mod 10 <= 9
                                       /\ 10 * (x / 10) + x mod 10 = x).
  { intros x Hx. pose proof (Z.div_mod x 10 ltac:(lia)).
    pose proof (Z.mod_pos_bound x 10 ltac:(lia)). lia. }
  assert (H4 : 0 <= Y / 1000 <= 9 /\ 0 <= (Y / 100) mod 10 <= 9 /\ 0 <= (Y / 10) mod 10 <= 9
               /\ 0 <= Y mod 10 <= 9
               /\ 10 * (10 * (10 * (Y / 1000) + (Y / 100) mod 10) + (Y / 10) mod 10)
                  + Y mod 10 = Y).
  { pose proof (Z.div_mod Y 10 ltac:(lia)). pose proof (Z.mod_pos_bound Y 10 ltac:(lia)).
    pose proof (Z.div_mod (Y / 10) 10 ltac:(lia)).
    pose proof (Z.mod_pos_bound (Y / 10) 10 ltac:(lia)).
    pose proof (Z.div_mod (Y / 100) 10 ltac:(lia)).
    pose proof (Z.mod_pos_bound (Y / 100) 10 ltac:(lia)).
    assert (E1 : Y / 100 = Y / 10 / 10) by (rewrite Z.div_div by lia; reflexivity).
    assert (E2 : Y / 1000 = Y / 100 / 10) by (rewrite Z.div_div by lia; reflexivity).
    rewrite E2 in *. rewrite E1 in *. lia. }
  destruct (H2 M Hmo) as (? & ? & EM). destruct (H2 D Hd) as (? & ? & ED).
  destruct (H2 h Hh) as (? & ? & Eh). destruct (H2 m Hmi) as (? & ? & Em).
  destruct (H2 s Hs) as (? & ? & Es). destruct H4 as (? & ? & ? & ? & EY).
  set (y3 := Y / 1000) in *. set (y2 := (Y / 100) mod 10) in *.
  set (y1 := (Y / 10) mod 10) in *. set (y0 := Y mod 10) in *.
  set (mo1 := M / 10) in *. set (mo0 := M mod 10) in *.
  set (d1 := D / 10) in *. set (d0 := D mod 10) in *.
  set (h1 := h / 10) in *. set (h0 := h mod 10) in *.
  set (m1 := m / 10) in *. set (m0 := m mod 10) in *.
  set (s1 := s / 10) in *. set (s0 := s mod 10) in *.
  clearbody y3 y2 y1 y0 mo1 mo0 d1 d0 h1 h0 m1 m0 s1 s0.
  change (copyAt 16 [0]
            (copyAt 0
               ([48 + y3; 48 + y2; 48 + y1; 48 + y0] ++ [48 + mo1; 48 + mo0]
                ++ [48 + d1; 48 + d0] ++ [48 + h1; 48 + h0] ++ [48 + m1; 48 + m0]
                ++ [48 + s1; 48 + s0] ++ str "00") (makeBytes 17)))
    with [48 + y3; 48 + y2; 48 + y1; 48 + y0; 48 + mo1; 48 + mo0; 48 + d1; 48 + d0;
          48 + h1; 48 + h0; 48 + m1; 48 + m0; 48 + s1; 48 + s0; 48; 48; 0].
  unfold slice, decimalValue. cbn [firstn skipn fold_left forallb].
  rewrite !Hdig by assumption.
  repeat split; try reflexivity; lia.
Qed.

(** ** Both-endian fields *)

Lemma leUint_putLE16 (v : Z) : leUint (putLE16 v) = wrap16 v.
Proof.
  unfold putLE16, leUint, wrap8, wrap16. rewrite Z.shiftr_div_pow2 by lia.
  change (2 ^ 8) with 256.
  pose proof (Z.div_mod v 256 ltac:(lia)). pose proof (Z.mod_pos_bound v 256 ltac:(lia)).
  pose proof (Z.div_mod (v / 256) 256 ltac:(lia)).
  pose proof (Z.mod_pos_bound (v / 256) 256 ltac:(lia)).
  apply (Z.mod_unique_pos _ _ (v / 256 / 256)); lia.
Qed.

Lemma beUint_putBE16 (v : Z) : beUint (putBE16 v) = wrap16 v.
Proof.
  rewrite <- leUint_putLE16. unfold putBE16, putLE16, beUint, leUint.
  cbn [fold_left]. lia.
Qed.

Lemma leUint_putLE32 (v : Z) : leUint (putLE32 v) = wrap32 v.
Proof.
  unfold putLE32, leUint, wrap8, wrap32. rewrite !Z.shiftr_div_pow2 by lia.
  change (2 ^ 8) with 256. change (2 ^ 16) with (256 * 256).
  change (2 ^ 24) with (256 * 256 * 256).
  rewrite <- !Z.div_div by lia.
  pose proof (Z.div_mod v 256 ltac:(lia)). pose proof (Z.mod_pos_bound v 256 ltac:(lia)).
  pose proof (Z.div_mod (v / 256) 256 ltac:(lia)).
  pose proof (Z.mod_pos_bound (v / 256) 256 ltac:(lia)).
  pose proof (Z.div_mod (v / 256 / 256) 256 ltac:(lia)).
  pose proof (Z.mod_pos_bound (v / 256 / 256) 256 ltac:(lia)).
  pose proof (Z.div_mod (v / 256 / 256 / 256) 256 ltac:(lia)).
  pose proof (Z.mod_pos_bound (v / 256 / 256 / 256) 256 ltac:(lia)).
  apply (Z.mod_unique_pos _ _ (v / 256 / 256 / 256 / 256)); lia.
Qed.

Lemma beUint_putBE32 (v : Z) : beUint (putBE32 v) = wrap32 v.
Proof.
  rewrite <- leUint_putLE32. unfold putBE32, putLE32, beUint, leUint.
  cbn [fold_left]. lia.
Qed.

(** ** The layout of a directory record *)

Lemma copyAt_at (off : nat) (p src d : list byte) :
  off = length p -> (length src <= length d)%nat ->
  copyAt off src (p ++ d) = (p ++ src) ++ skipn (length src) d.
Proof.
  intros -> H. rewrite copyAt_append by exact H. now rewrite app_assoc.
Qed.

Ltac copy_steps :=
  repeat (rewrite copyAt_at
            by (rewrite ?length_app, ?repeat_length; cbn [length putLE32 putBE32 putLE16 putBE16 Nat.add];
                lia);
          rewrite skipn_repeat).

(** A marshalled record is the concatenation of its fields. *)
Lemma marshalDirectoryRecord_shape (fields : directoryRecordFields) (identifier : list byte) :
  len identifier <= 255 ->
  length (RecordingTime fields) = 7%nat ->
  marshalDirectoryRecord fields identifier
  = [wrap8 (calculateDirectoryRecordSize identifier); drExtendedAttributeRecordLength fields]
    ++ putLE32 (LocationExtent fields) ++ putBE32 (LocationExtent fields)
    ++ putLE32 (DataLength fields) ++ putBE32 (DataLength fields)
    ++ RecordingTime fields
    ++ [FileFlags fields; FileUnitSize fields; InterleaveGapSize fields]
    ++ putLE16 (drVolumeSequenceNumber fields) ++ putBE16 (drVolumeSequenceNumber fields)
    ++ [len identifier] ++ identifier
    ++ repeat 0 (Z.to_nat (calculateDirectoryRecordSize identifier) - 33 - length identifier).
Proof.
  intros Hid Ht. pose proof (len_nonneg identifier) as Hn.
  pose proof (calculateDirectoryRecordSize_bounds identifier) as [Hb _].
  unfold marshalDirectoryRecord. cbv zeta.
  rewrite (wrap8_small (len identifier)) by lia.
  fold (calculateDirectoryRecordSize identifier).
  set (N := calculateDirectoryRecordSize identifier) in *.
  rewrite (@firstn_all2 _ 7 (RecordingTime fields)) by lia.
  unfold makeBytes. unfold len in Hb, Hn, Hid.
  rewrite (copyAt_prefix [wrap8 N]) by (rewrite repeat_length; simpl; lia).
  rewrite skipn_repeat.
  copy_steps.
  rewrite <- !app_assoc. cbn [app]. rewrite Ht.
  cbn [length putLE32 putBE32 putLE16 putBE16].
  match goal with
  | |- context [repeat 0 ?n] =>
      replace n with (Z.to_nat N - 33 - length identifier)%nat by lia
  end.
  reflexivity.
Qed.

Lemma calculateDirectoryRecordSize_padding (identifier : list byte) :
  (Z.to_nat (calculateDirectoryRecordSize identifier) - 33 - length identifier)%nat
  = if Z.even (len identifier) then 1%nat else 0%nat.
Proof.
  unfold calculateDirectoryRecordSize, drFixedPartSize.
  pose proof (len_nonneg identifier) as Hn.
  rewrite Zeven_mod.
  pose proof (Z.mod_pos_bound (len identifier) 2 ltac:(lia)) as Hm.
  pose proof (Z.div_mod (len identifier) 2 ltac:(lia)) as Hd.
  pose proof (Z.mod_pos_bound (33 + len identifier) 2 ltac:(lia)) as Hm'.
  pose proof (Z.div_mod (33 + len identifier) 2 ltac:(lia)) as Hd'.
  unfold len in *.
  destruct (Z.of_nat (length identifier) mod 2 =? 0) eqn:E.
  - apply Z.eqb_eq in E.
    destruct ((33 + Z.of_nat (length identifier)) mod 2 =? 0) eqn:E'; cbn [negb].
    + apply Z.eqb_eq in E'. lia.
    + lia.
  - apply Z.eqb_neq in E.
    destruct ((33 + Z.of_nat (length identifier)) mod 2 =? 0) eqn:E'; cbn [negb].
    + lia.
    + apply Z.eqb_neq in E'. lia.
Qed.

(** X8: a reader recovers every field of a marshalled directory record whose
    identifier has at most 221 bytes: the record length from byte 0, the
    extent address and the data length from their little-endian and from
    their big-endian copies (bytes 2-17), the recording time (18-24), the
    flags (25), the volume sequence number in both byte orders (28-31), the
    identifier length (32) and the identifier itself (from 33); a record
    with an identifier of even length ends with one zero byte of padding. *)
Theorem marshalDirectoryRecord_decodes (fields : directoryRecordFields) (identifier : list byte) :
  len identifier <= 221 ->
  length (RecordingTime fields) = 7%nat ->
  let r := marshalDirectoryRecord fields identifier in
  nth_error r 0 = Some (len r)
  /\ nth_error r 1 = Some (drExtendedAttributeRecordLength fields)
  /\ leUint (slice 2 4 r) = wrap32 (LocationExtent fields)
  /\ beUint (slice 6 4 r) = wrap32 (LocationExtent fields)
  /\ leUint (slice 10 4 r) = wrap32 (DataLength fields)
  /\ beUint (slice 14 4 r) = wrap32 (DataLength fields)
  /\ slice 18 7 r = RecordingTime fields
  /\ slice 25 3 r = [FileFlags fields; FileUnitSize fields; InterleaveGapSize fields]
  /\ leUint (slice 28 2 r) = wrap16 (drVolumeSequenceNumber fields)
  /\ beUint (slice 30 2 r) = wrap16 (drVolumeSequenceNumber fields)
  /\ nth_error r 32 = Some (len identifier)
  /\ slice 33 (length identifier) r = identifier
  /\ skipn (33 + length identifier) r = (if Z.even (len identifier) then [0] else []).
Proof.
  intros Hid Ht. cbv zeta.
  split.
  { rewrite marshalDirectoryRecord_first_byte by exact Hid.
    now rewrite marshalDirectoryRecord_len_fits by lia. }
  rewrite (marshalDirectoryRecord_shape fields identifier ltac:(lia) Ht).
  rewrite calculateDirectoryRecordSize_padding.
  destruct (RecordingTime fields) as [|t0 [|t1 [|t2 [|t3 [|t4 [|t5 [|t6 [|]]]]]]]];
    try discriminate.
  unfold slice. cbn [app skipn firstn nth_error putLE32 putBE32 putLE16 putBE16].
  split; [reflexivity|].
  split; [exact (leUint_putLE32 (LocationExtent fields))|].
  split; [exact (beUint_putBE32 (LocationExtent fields))|].
  split; [exact (leUint_putLE32 (DataLength fields))|].
  split; [exact (beUint_putBE32 (DataLength fields))|].
  split; [reflexivity|]. split; [reflexivity|].
  split; [exact (leUint_putLE16 (drVolumeSequenceNumber fields))|].
  split; [exact (beUint_putBE16 (drVolumeSequenceNumber fields))|].
  split; [reflexivity|].
  split.
  - rewrite firstn_app, firstn_all, Nat.sub_diag, firstn_O. apply app_nil_r.
  - cbn [Nat.add skipn].
    rewrite skipn_app, skipn_all, Nat.sub_diag. cbn [skipn app].
    now destruct (Z.even (len identifier)).
Qed.

(** ** The layout of a path-table record *)

Lemma marshalPathTableRecord_shape (fields : pathTableRecordFields)
    (identifier : list byte) (useBigEndian : bool) :
  len identifier <= 255 ->
  marshalPathTableRecord fields identifier useBigEndian
  = [len identifier; ptExtendedAttributeRecordLength fields]
    ++ (if useBigEndian then putBE32 (LocationOfExtent fields)
        else putLE32 (LocationOfExtent fields))
    ++ (if useBigEndian then putBE16 (ParentDirectoryNumber fields)
        else putLE16 (ParentDirectoryNumber fields))
    ++ identifier
    ++ (if Z.even (len identifier) then [] else [0]).
Proof.
  intros Hid. pose proof (len_nonneg identifier) as Hn.
  unfold marshalPathTableRecord. cbv zeta.
  rewrite (wrap8_small (len identifier)) by lia.
  set (N := if negb (len identifier mod 2 =? 0)
            then ptRecFixedPartSize + len identifier + 1
            else ptRecFixedPartSize + len identifier).
  assert (HN : Z.to_nat N
               = (8 + length identifier + if Z.even (len identifier) then 0 else 1)%nat).
  { unfold N, ptRecFixedPartSize. rewrite Zeven_mod.
    unfold len in *. destruct (_ =? 0); cbn [negb]; lia. }
  unfold makeBytes. rewrite HN. unfold len in Hn, Hid.
  rewrite (copyAt_prefix [len identifier]) by (rewrite repeat_length; simpl; lia).
  rewrite skipn_repeat.
  destruct useBigEndian; copy_steps; rewrite <- !app_assoc; cbn [app];
    cbn [length putLE32 putBE32 putLE16 putBE16];
    match goal with
    | |- context [repeat 0 ?n] =>
        replace n with (if Z.even (len identifier) then 0 else 1)%nat by lia
    end;
    now destruct (Z.even (len identifier)).
Qed.

(** X9: a reader recovers every field of a path-table record whose
    identifier has at most 255 bytes: the identifier length from byte 0, the
    extent address (bytes 2-5) and the parent's number (6-7) in the byte
    order of the table, little-endian for the L-type and big-endian for the
    M-type, and the identifier from byte 8; the record has 8 bytes more than
    the identifier, and one zero byte of padding when the identifier has an
    odd length. *)
Theorem marshalPathTableRecord_decodes (fields : pathTableRecordFields)
    (identifier : list byte) (useBigEndian : bool) :
  len identifier <= 255 ->
  let r := marshalPathTableRecord fields identifier useBigEndian in
  let decode := if useBigEndian then beUint else leUint in
  len r = 8 + len identifier + len identifier mod 2
  /\ nth_error r 0 = Some (len identifier)
  /\ nth_error r 1 = Some (ptExtendedAttributeRecordLength fields)
  /\ decode (slice 2 4 r) = wrap32 (LocationOfExtent fields)
  /\ decode (slice 6 2 r) = wrap16 (ParentDirectoryNumber fields)
  /\ slice 8 (length identifier) r = identifier
  /\ skipn (8 + length identifier) r = (if Z.even (len identifier) then [] else [0]).
Proof.
  intros Hid. cbv zeta.
  rewrite (marshalPathTableRecord_shape fields identifier useBigEndian Hid).
  split.
  { rewrite Zeven_mod.
    pose proof (Z.mod_pos_bound (len identifier) 2 ltac:(lia)) as Hm.
    unfold len in *. rewrite !length_app.
    destruct useBigEndian; cbn [length putLE32 putBE32 putLE16 putBE16];
      destruct (_ =? 0) eqn:E;
      (apply Z.eqb_eq in E || apply Z.eqb_neq in E); cbn [length]; lia. }
  unfold slice.
  destruct useBigEndian;
    cbn [app skipn firstn nth_error putLE32 putBE32 putLE16 putBE16].
  - split; [reflexivity|]. split; [reflexivity|].
    split; [exact (beUint_putBE32 (LocationOfExtent fields))|].
    split; [exact (beUint_putBE16 (ParentDirectoryNumber fields))|].
    split.
    + rewrite firstn_app, firstn_all, Nat.sub_diag, firstn_O. apply app_nil_r.
    + cbn [Nat.add skipn]. rewrite skipn_app, skipn_all, Nat.sub_diag. reflexivity.
  - split; [reflexivity|]. split; [reflexivity|].
    split; [exact (leUint_putLE32 (LocationOfExtent fields))|].
    split; [exact (leUint_putLE16 (ParentDirectoryNumber fields))|].
    split.
    + rewrite firstn_app, firstn_all, Nat.sub_diag, firstn_O. apply app_nil_r.
    + cbn [Nat.add skipn]. rewrite skipn_app, skipn_all, Nat.sub_diag. reflexivity.
Qed.

(** ** Volume descriptors *)

Lemma padString_ok (s : gostring) (n : nat) :
  padString s (Z.of_nat n) = Ok (spacePadded n s).
Proof.
  rewrite padString_closed.
  destruct (Z.of_nat n <? 0) eqn:E; [apply Z.ltb_lt in E; lia|].
  now rewrite Nat2Z.id.
Qed.

Lemma padUTF16StringBE_ok (s : gostring) (n : nat) :
  padUTF16StringBE s (Z.of_nat n) = Ok (zeroPadded (2 * n) (encodeUTF16BE s)).
Proof.
  rewrite padUTF16StringBE_closed.
  destruct (Z.of_nat n <? 0) eqn:E; [apply Z.ltb_lt in E; lia|].
  replace (Z.to_nat (2 * Z.of_nat n)) with (2 * n)%nat by lia. reflexivity.
Qed.

Lemma length_spacePadded (n : nat) (s : list Z) : @length Z (spacePadded n s) = n.
Proof. unfold spacePadded. rewrite length_app, length_firstn, repeat_length. lia. Qed.

Lemma length_zeroPadded (n : nat) (s : list Z) : @length Z (zeroPadded n s) = n.
Proof. unfold zeroPadded. rewrite length_app, length_firstn, repeat_length. lia. Qed.

Lemma length_putLE32 (v : Z) : @length Z (putLE32 v) = 4%nat.
Proof. reflexivity. Qed.

Lemma length_putBE32 (v : Z) : @length Z (putBE32 v) = 4%nat.
Proof. reflexivity. Qed.

Lemma length_putLE16 (v : Z) : @length Z (putLE16 v) = 2%nat.
Proof. reflexivity. Qed.

Lemma length_putBE16 (v : Z) : @length Z (putBE16 v) = 2%nat.
Proof. reflexivity. Qed.

Lemma padString_some (s : gostring) (n : Z) :
  0 <= n -> padString s n = Ok (spacePadded (Z.to_nat n) s).
Proof.
  intros H. rewrite <- (Z2Nat.id n H) at 1. apply padString_ok.
Qed.

Lemma padUTF16StringBE_some (s : gostring) (n : Z) :
  0 <= n -> padUTF16StringBE s n = Ok (zeroPadded (2 * Z.to_nat n) (encodeUTF16BE s)).
Proof.
  intros H. rewrite <- (Z2Nat.id n H) at 1. apply padUTF16StringBE_ok.
Qed.

(** The field at a position of a concatenation of fields. *)
Lemma slice_concat (chunks : list (list byte)) (i off n : nat) (c : list byte) :
  nth_error chunks i = Some c ->
  off = length (concat (firstn i chunks)) -> n = length c ->
  slice off n (concat chunks) = c.
Proof.
  intros Hc -> ->.
  destruct (nth_error_split chunks i Hc) as (l1 & l2 & -> & <-).
  rewrite firstn_app, firstn_all, Nat.sub_diag, firstn_O, app_nil_r.
  rewrite concat_app. cbn [concat]. unfold slice.
  rewrite skipn_app, skipn_all, Nat.sub_diag. cbn [skipn app].
  rewrite firstn_app, firstn_all, Nat.sub_diag, firstn_O. apply app_nil_r.
Qed.

Lemma skipn_concat (chunks : list (list byte)) (i off : nat) :
  off = length (concat (firstn i chunks)) ->
  skipn off (concat chunks) = concat (skipn i chunks).
Proof.
  intros ->. rewrite <- (firstn_skipn i chunks) at 2. rewrite concat_app.
  rewrite skipn_app, skipn_all, Nat.sub_diag. reflexivity.
Qed.

Lemma marshalBinary_CD001 (t : byte) :
  firstn 7 (marshalBinary (mkVolumeDescriptorHeader t (str "CD001") 1))
  = [t; 67; 68; 48; 48; 49; 1].
Proof. reflexivity. Qed.

Lemma len_to_length {A} (l : list A) (n : Z) : len l = n -> length l = Z.to_nat n.
Proof. unfold len. lia. Qed.

Lemma createDirectoryRecordBytes_root_len (extentLBA extentOrDataSize : Z)
    (name : gostring) (root : fileEntry) (isJoliet : bool) :
  pathTableDirNum root = 1 ->
  name = (if isJoliet then [0] else []) ->
  length (createDirectoryRecordBytes extentLBA extentOrDataSize name root isJoliet) = 34%nat.
Proof.
  intros Hn ->.
  apply (len_to_length _ 34).
  rewrite createDirectoryRecordBytes_len; rewrite Hn; destruct isJoliet;
    vm_compute; (reflexivity || discriminate).
Qed.

Ltac chunk_length :=
  cbn [firstn concat nth_error]; unfold byte, gostring;
  repeat match goal with
         | H : @length byte _ = _ |- _ => unfold byte in H
         end;
  rewrite ?length_app, ?length_spacePadded, ?length_zeroPadded, ?length_putLE32,
    ?length_putBE32, ?length_putLE16, ?length_putBE16, ?length_formatTimestamp,
    ?repeat_length;
  repeat match goal with
         | H : length ?c = _ |- context [length ?c] => rewrite H
         end;
  reflexivity.

(** The primary volume descriptor as the concatenation of its fields. *)
Lemma createPrimaryVolumeDescriptor_fields (nowNanosecond : Z) (b : ISOBuilder)
    (options : Options) (root : fileEntry) :
  nth_error (fileEntries b) 0 = Some root ->
  pathTableDirNum root = 1 ->
  iso9660Name root = [] ->
  createPrimaryVolumeDescriptor nowNanosecond b options
  = Ok (concat
          [[1; 67; 68; 48; 48; 49; 1]; [0];
           spacePadded 32 (SystemIdentifier options);
           spacePadded 32 (VolumeIdentifierISO options);
           repeat 0 8;
           putLE32 (totalSectors b); putBE32 (totalSectors b);
           repeat 0 32;
           putLE16 1; putBE16 1; putLE16 1; putBE16 1;
           putLE16 (wrap16 SectorSize); putBE16 (wrap16 SectorSize);
           putLE32 (wrap32 (len (pvdPathTableLData (ptData b))));
           putBE32 (wrap32 (len (pvdPathTableLData (ptData b))));
           putLE32 (lbaPvdPathTableL (ptLBAs b)); putLE32 (lbaPvdPathTableL2 (ptLBAs b));
           putBE32 (lbaPvdPathTableM (ptLBAs b)); putBE32 (lbaPvdPathTableM2 (ptLBAs b));
           createDirectoryRecordBytes (iso9660Sector root) (pvdRootDirExtentSize b) []
             root false;
           spacePadded 128 [];
           spacePadded 128 (PublisherIdentifierISO options);
           spacePadded 128 (DataPreparerIdentifierISO options);
           spacePadded 128 (ApplicationIdentifierISO options);
           spacePadded 37 []; spacePadded 37 []; spacePadded 37 [];
           formatTimestamp (mkUtcTime nowUTC nowNanosecond);
           formatTimestamp (mkUtcTime nowUTC nowNanosecond);
           formatTimestamp zeroTime;
           formatTimestamp (mkUtcTime nowUTC nowNanosecond);
           [1]; repeat 0 1166]).
Proof.
  intros Hroot Hnum Hname.
  unfold createPrimaryVolumeDescriptor. cbv zeta.
  rewrite !padString_some by lia. cbn [bind].
  unfold index. rewrite Hroot. cbn [bind]. rewrite Hname.
  set (dr := createDirectoryRecordBytes _ _ [] root false).
  assert (Hdr : length dr = 34%nat)
    by (apply createDirectoryRecordBytes_root_len; [exact Hnum | reflexivity]).
  replace (len dr =? 34) with true by (unfold len; rewrite Hdr; reflexivity).
  cbn [negb].
  change (Z.to_nat 32) with 32%nat. change (Z.to_nat 128) with 128%nat.
  change (Z.to_nat 37) with 37%nat.
  rewrite !copyIntoArray_exact
    by (unfold len, byte; rewrite ?length_spacePadded, ?length_formatTimestamp;
        try (unfold byte in Hdr; rewrite Hdr); reflexivity).
  rewrite marshalBinary_CD001.
  match goal with
  | |- context [copyAt 7 ?fb _] => remember fb as fieldBuf eqn:Efb
  end.
  assert (Hf : length fieldBuf = 875%nat).
  { rewrite Efb. unfold makeBytes. change (Z.to_nat 8) with 8%nat.
    change (Z.to_nat 32) with 32%nat. chunk_length. }
  replace (len fieldBuf + 7 >? len (copyAt 0 [vdTypePrimary; 67; 68; 48; 48; 49; 1]
                                     (makeBytes SectorSize))) with false
    by (rewrite len_copyAt; unfold len; rewrite Hf; reflexivity).
  f_equal.
  unfold makeBytes at 1. change (Z.to_nat SectorSize) with (7 + 2041)%nat.
  rewrite repeat_app.
  change (copyAt 0 [vdTypePrimary; 67; 68; 48; 48; 49; 1] (repeat 0 7 ++ repeat 0 2041))
    with ([vdTypePrimary; 67; 68; 48; 48; 49; 1] ++ repeat 0 2041).
  assert (Hfit : (length fieldBuf <= length (repeat 0 2041))%nat)
    by (rewrite repeat_length, Hf; apply Nat.leb_le; reflexivity).
  rewrite (copyAt_at 7 [vdTypePrimary; 67; 68; 48; 48; 49; 1] fieldBuf (repeat 0 2041)
             eq_refl Hfit).
  rewrite skipn_repeat.
  match goal with
  | |- context [repeat 0 (2041 - ?n)] => replace n with 875%nat by (symmetry; exact Hf)
  end.
  change (2041 - 875)%nat with 1166%nat.
  rewrite Efb. unfold makeBytes. change (Z.to_nat 8) with 8%nat.
  change (Z.to_nat 32) with 32%nat.
  cbn [concat]. rewrite <- !app_assoc. rewrite app_nil_r. reflexivity.
Qed.

Ltac field_at chunks i :=
  apply (slice_concat chunks i); [reflexivity | unfold chunks; chunk_length ..].

Ltac decode_at chunks i c :=
  match goal with
  | |- _ (slice ?o ?n (concat chunks)) = _ =>
      replace (slice o n (concat chunks)) with c by (symmetry; field_at chunks i)
  end.

(** X10: for a builder whose table starts with the root (numbered 1, with the
    empty primary name, as the planner leaves it),
    [createPrimaryVolumeDescriptor] returns one sector of 2048 bytes laid out
    as ECMA-119 8.4 asks: type 1, [CD001], version 1; the system and volume
    identifiers padded with spaces (bytes 8-71); the volume space size in
    both byte orders (80-87); set size and sequence number 1 and block size
    2048 in both byte orders (120-131); the path-table size in both byte
    orders (132-139), the addresses of the L-type tables little-endian
    (140-147) and of the M-type tables big-endian (148-155); the root
    directory record (156-189); the publisher, preparer and application
    identifiers padded with spaces; the four timestamps, of which the
    expiration is the zero time; the file-structure version 1 (881); zeros
    from byte 882 on. *)
Theorem createPrimaryVolumeDescriptor_layout (nowNanosecond : Z) (b : ISOBuilder)
    (options : Options) (root : fileEntry) :
  nth_error (fileEntries b) 0 = Some root ->
  pathTableDirNum root = 1 ->
  iso9660Name root = [] ->
  exists sector,
    createPrimaryVolumeDescriptor nowNanosecond b options = Ok sector
    /\ len sector = 2048
    /\ slice 0 7 sector = [1; 67; 68; 48; 48; 49; 1]
    /\ slice 7 1 sector = [0]
    /\ slice 8 32 sector = spacePadded 32 (SystemIdentifier options)
    /\ slice 40 32 sector = spacePadded 32 (VolumeIdentifierISO options)
    /\ slice 72 8 sector = repeat 0 8
    /\ leUint (slice 80 4 sector) = wrap32 (totalSectors b)
    /\ beUint (slice 84 4 sector) = wrap32 (totalSectors b)
    /\ slice 88 32 sector = repeat 0 32
    /\ leUint (slice 120 2 sector) = 1 /\ beUint (slice 122 2 sector) = 1
    /\ leUint (slice 124 2 sector) = 1 /\ beUint (slice 126 2 sector) = 1
    /\ leUint (slice 128 2 sector) = 2048 /\ beUint (slice 130 2 sector) = 2048
    /\ leUint (slice 132 4 sector) = wrap32 (len (pvdPathTableLData (ptData b)))
    /\ beUint (slice 136 4 sector) = wrap32 (len (pvdPathTableLData (ptData b)))
    /\ leUint (slice 140 4 sector) = wrap32 (lbaPvdPathTableL (ptLBAs b))
    /\ leUint (slice 144 4 sector) = wrap32 (lbaPvdPathTableL2 (ptLBAs b))
    /\ beUint (slice 148 4 sector) = wrap32 (lbaPvdPathTableM (ptLBAs b))
    /\ beUint (slice 152 4 sector) = wrap32 (lbaPvdPathTableM2 (ptLBAs b))
    /\ slice 156 34 sector
       = createDirectoryRecordBytes (iso9660Sector root) (pvdRootDirExtentSize b) []
           root false
    /\ slice 190 128 sector = repeat 32 128
    /\ slice 318 128 sector = spacePadded 128 (PublisherIdentifierISO options)
    /\ slice 446 128 sector = spacePadded 128 (DataPreparerIdentifierISO options)
    /\ slice 574 128 sector = spacePadded 128 (ApplicationIdentifierISO options)
    /\ slice 702 37 sector = repeat 32 37
    /\ slice 739 37 sector = repeat 32 37
    /\ slice 776 37 sector = repeat 32 37
    /\ slice 813 17 sector = formatTimestamp (mkUtcTime nowUTC nowNanosecond)
    /\ slice 830 17 sector = formatTimestamp (mkUtcTime nowUTC nowNanosecond)
    /\ slice 847 17 sector = repeat 48 16 ++ [0]
    /\ slice 864 17 sector = formatTimestamp (mkUtcTime nowUTC nowNanosecond)
    /\ slice 881 1 sector = [1]
    /\ skipn 882 sector = repeat 0 1166.
Proof.
  intros Hroot Hnum Hname. eexists.
  split; [exact (createPrimaryVolumeDescriptor_fields nowNanosecond b options root
                   Hroot Hnum Hname)|].
  set (dr := createDirectoryRecordBytes _ _ [] root false).
  assert (Hdr : length dr = 34%nat)
    by (apply createDirectoryRecordBytes_root_len; [exact Hnum | reflexivity]).
  clearbody dr.
  match goal with |- context [concat ?c] => set (chunks := c) end.
  split. { unfold len, chunks. cbn [concat]. chunk_length. }
  split. { field_at chunks 0%nat. }
  split. { field_at chunks 1%nat. }
  split. { field_at chunks 2%nat. }
  split. { field_at chunks 3%nat. }
  split. { field_at chunks 4%nat. }
  split. { decode_at chunks 5%nat (putLE32 (totalSectors b)). apply leUint_putLE32. }
  split. { decode_at chunks 6%nat (putBE32 (totalSectors b)). apply beUint_putBE32. }
  split. { field_at chunks 7%nat. }
  split. { decode_at chunks 8%nat (putLE16 1). reflexivity. }
  split. { decode_at chunks 9%nat (putBE16 1). reflexivity. }
  split. { decode_at chunks 10%nat (putLE16 1). reflexivity. }
  split. { decode_at chunks 11%nat (putBE16 1). reflexivity. }
  split. { decode_at chunks 12%nat (putLE16 (wrap16 SectorSize)). reflexivity. }
  split. { decode_at chunks 13%nat (putBE16 (wrap16 SectorSize)). reflexivity. }
  split. { decode_at chunks 14%nat (putLE32 (wrap32 (len (pvdPathTableLData (ptData b))))).
           rewrite leUint_putLE32. unfold wrap32. apply Z.mod_mod. lia. }
  split. { decode_at chunks 15%nat (putBE32 (wrap32 (len (pvdPathTableLData (ptData b))))).
           rewrite beUint_putBE32. unfold wrap32. apply Z.mod_mod. lia. }
  split. { decode_at chunks 16%nat (putLE32 (lbaPvdPathTableL (ptLBAs b))).
           apply leUint_putLE32. }
  split. { decode_at chunks 17%nat (putLE32 (lbaPvdPathTableL2 (ptLBAs b))).
           apply leUint_putLE32. }
  split. { decode_at chunks 18%nat (putBE32 (lbaPvdPathTableM (ptLBAs b))).
           apply beUint_putBE32. }
  split. { decode_at chunks 19%nat (putBE32 (lbaPvdPathTableM2 (ptLBAs b))).
           apply beUint_putBE32. }
  split. { field_at chunks 20%nat. }
  split. { field_at chunks 21%nat. }
  split. { field_at chunks 22%nat. }
  split. { field_at chunks 23%nat. }
  split. { field_at chunks 24%nat. }
  split. { field_at chunks 25%nat. }
  split. { field_at chunks 26%nat. }
  split. { field_at chunks 27%nat. }
  split. { field_at chunks 28%nat. }
  split. { field_at chunks 29%nat. }
  split. { field_at chunks 30%nat. }
  split. { field_at chunks 31%nat. }
  split. { field_at chunks 32%nat. }
  match goal with
  | |- ?lhs = _ =>
      replace lhs with (concat (skipn 33 chunks))
        by (symmetry; apply skipn_concat; unfold chunks; chunk_length)
  end.
  apply app_nil_r.
Qed.

Lemma padUTF16StringBEToFixedBytes_empty :
  padUTF16StringBEToFixedBytes [] 18 37 = Ok (repeat 0 37).
Proof. vm_compute. reflexivity. Qed.

(** The supplementary volume descriptor as the concatenation of its fields. *)
Lemma createJolietVolumeDescriptor_fields (nowNanosecond : Z) (b : ISOBuilder)
    (options : Options) (root : fileEntry) :
  nth_error (fileEntries b) 0 = Some root ->
  pathTableDirNum root = 1 ->
  jolietName root = [0] ->
  createJolietVolumeDescriptor nowNanosecond b options
  = Ok (concat
          [[2; 67; 68; 48; 48; 49; 1]; [0];
           spacePadded 32 (SystemIdentifier options);
           zeroPadded 32 (encodeUTF16BE (VolumeIdentifierJoliet options));
           repeat 0 8;
           putLE32 (totalSectors b); putBE32 (totalSectors b);
           [fst (fst (JolietEscapeSequence options)); snd (fst (JolietEscapeSequence options));
            snd (JolietEscapeSequence options)] ++ repeat 0 29;
           putLE16 1; putBE16 1; putLE16 1; putBE16 1;
           putLE16 (wrap16 SectorSize); putBE16 (wrap16 SectorSize);
           putLE32 (wrap32 (len (svdPathTableLData (ptData b))));
           putBE32 (wrap32 (len (svdPathTableLData (ptData b))));
           putLE32 (lbaSvdPathTableL (ptLBAs b)); putLE32 (lbaSvdPathTableL2 (ptLBAs b));
           putBE32 (lbaSvdPathTableM (ptLBAs b)); putBE32 (lbaSvdPathTableM2 (ptLBAs b));
           createDirectoryRecordBytes (jolietSector root) (svdRootDirExtentSize b) [0]
             root true;
           repeat 0 128;
           zeroPadded 128 (encodeUTF16BE (PublisherIdentifierJoliet options));
           zeroPadded 128 (encodeUTF16BE (DataPreparerIdentifierJoliet options));
           zeroPadded 128 (encodeUTF16BE (ApplicationIdentifierJoliet options));
           repeat 0 37; repeat 0 37; repeat 0 37;
           formatTimestamp (mkUtcTime nowUTC nowNanosecond);
           formatTimestamp (mkUtcTime nowUTC nowNanosecond);
           formatTimestamp zeroTime;
           formatTimestamp (mkUtcTime nowUTC nowNanosecond);
           [1]; repeat 0 1166]).
Proof.
  intros Hroot Hnum Hname.
  unfold createJolietVolumeDescriptor. cbv zeta.
  rewrite !padString_some by lia.
  rewrite !padUTF16StringBE_some by lia.
  rewrite !padUTF16StringBEToFixedBytes_empty.
  unfold index. rewrite Hroot.
  cbn [bind].
  destruct (JolietEscapeSequence options) as [[e0 e1] e2]. cbn [fst snd].
  rewrite Hname.
  set (dr := createDirectoryRecordBytes _ _ [0] root true).
  assert (Hdr : length dr = 34%nat)
    by (apply createDirectoryRecordBytes_root_len; [exact Hnum | reflexivity]).
  replace (len dr =? 34) with true by (unfold len; rewrite Hdr; reflexivity).
  cbn [negb].
  change (Z.to_nat 32) with 32%nat. change (2 * Z.to_nat 16)%nat with 32%nat.
  change (2 * Z.to_nat 64)%nat with 128%nat.
  change (zeroPadded 128 (encodeUTF16BE [])) with (repeat 0 128).
  rewrite !copyIntoArray_exact
    by (unfold len, byte; rewrite ?length_spacePadded, ?length_zeroPadded,
          ?length_formatTimestamp, ?repeat_length;
        try (unfold byte in Hdr; rewrite Hdr); reflexivity).
  rewrite marshalBinary_CD001.
  change (copyAt 3 (repeat 0 29) (copyAt 0 [e0; e1; e2] (makeBytes 32)))
    with ([e0; e1; e2] ++ repeat 0 29).
  match goal with
  | |- context [copyAt 7 ?fb _] => remember fb as fieldBuf eqn:Efb
  end.
  assert (Hf : length fieldBuf = 875%nat).
  { rewrite Efb. unfold makeBytes. change (Z.to_nat 8) with 8%nat. chunk_length. }
  f_equal.
  unfold makeBytes at 1. change (Z.to_nat SectorSize) with (7 + 2041)%nat.
  rewrite repeat_app.
  change (copyAt 0 [vdTypeSupplementary; 67; 68; 48; 48; 49; 1]
            (repeat 0 7 ++ repeat 0 2041))
    with ([vdTypeSupplementary; 67; 68; 48; 48; 49; 1] ++ repeat 0 2041).
  assert (Hfit : (length fieldBuf <= length (repeat 0 2041))%nat)
    by (rewrite repeat_length, Hf; apply Nat.leb_le; reflexivity).
  rewrite (copyAt_at 7 [vdTypeSupplementary; 67; 68; 48; 48; 49; 1] fieldBuf
             (repeat 0 2041) eq_refl Hfit).
  rewrite skipn_repeat.
  match goal with
  | |- context [repeat 0 (2041 - ?n)] => replace n with 875%nat by (symmetry; exact Hf)
  end.
  change (2041 - 875)%nat with 1166%nat.
  rewrite Efb. unfold makeBytes. change (Z.to_nat 8) with 8%nat.
  cbn [concat]. rewrite <- !app_assoc. rewrite app_nil_r. reflexivity.
Qed.

(** X11: under the same condition on the root, whose Joliet name is the
    byte 0, [createJolietVolumeDescriptor] returns one sector of 2048 bytes:
    type 2, [CD001], version 1; the system identifier padded with spaces and
    the Joliet volume identifier in UCS-2BE, cut to 16 code units and padded
    with zero bytes (bytes 8-71); the volume space size in both byte orders
    (80-87); the three bytes of the escape sequence followed by zeros
    (88-119); the size and the addresses of the Joliet path tables
    (132-155); the Joliet root directory record (156-189); the publisher,
    preparer and application identifiers in UCS-2BE, cut to 64 code units
    and padded with zero bytes; the four timestamps; the file-structure
    version 1 (881); zeros everywhere else. *)
Theorem createJolietVolumeDescriptor_layout (nowNanosecond : Z) (b : ISOBuilder)
    (options : Options) (root : fileEntry) :
  nth_error (fileEntries b) 0 = Some root ->
  pathTableDirNum root = 1 ->
  jolietName root = [0] ->
  exists sector,
    createJolietVolumeDescriptor nowNanosecond b options = Ok sector
    /\ len sector = 2048
    /\ slice 0 7 sector = [2; 67; 68; 48; 48; 49; 1]
    /\ slice 7 1 sector = [0]
    /\ slice 8 32 sector = spacePadded 32 (SystemIdentifier options)
    /\ slice 40 32 sector = zeroPadded 32 (encodeUTF16BE (VolumeIdentifierJoliet options))
    /\ slice 72 8 sector = repeat 0 8
    /\ leUint (slice 80 4 sector) = wrap32 (totalSectors b)
    /\ beUint (slice 84 4 sector) = wrap32 (totalSectors b)
    /\ slice 88 32 sector
       = [fst (fst (JolietEscapeSequence options)); snd (fst (JolietEscapeSequence options));
          snd (JolietEscapeSequence options)] ++ repeat 0 29
    /\ leUint (slice 120 2 sector) = 1 /\ beUint (slice 122 2 sector) = 1
    /\ leUint (slice 124 2 sector) = 1 /\ beUint (slice 126 2 sector) = 1
    /\ leUint (slice 128 2 sector) = 2048 /\ beUint (slice 130 2 sector) = 2048
    /\ leUint (slice 132 4 sector) = wrap32 (len (svdPathTableLData (ptData b)))
    /\ beUint (slice 136 4 sector) = wrap32 (len (svdPathTableLData (ptData b)))
    /\ leUint (slice 140 4 sector) = wrap32 (lbaSvdPathTableL (ptLBAs b))
    /\ leUint (slice 144 4 sector) = wrap32 (lbaSvdPathTableL2 (ptLBAs b))
    /\ beUint (slice 148 4 sector) = wrap32 (lbaSvdPathTableM (ptLBAs b))
    /\ beUint (slice 152 4 sector) = wrap32 (lbaSvdPathTableM2 (ptLBAs b))
    /\ slice 156 34 sector
       = createDirectoryRecordBytes (jolietSector root) (svdRootDirExtentSize b) [0]
           root true
    /\ slice 190 128 sector = repeat 0 128
    /\ slice 318 128 sector
       = zeroPadded 128 (encodeUTF16BE (PublisherIdentifierJoliet options))
    /\ slice 446 128 sector
       = zeroPadded 128 (encodeUTF16BE (DataPreparerIdentifierJoliet options))
    /\ slice 574 128 sector
       = zeroPadded 128 (encodeUTF16BE (ApplicationIdentifierJoliet options))
    /\ slice 702 37 sector = repeat 0 37
    /\ slice 739 37 sector = repeat 0 37
    /\ slice 776 37 sector = repeat 0 37
    /\ slice 813 17 sector = formatTimestamp (mkUtcTime nowUTC nowNanosecond)
    /\ slice 830 17 sector = formatTimestamp (mkUtcTime nowUTC nowNanosecond)
    /\ slice 847 17 sector = repeat 48 16 ++ [0]
    /\ slice 864 17 sector = formatTimestamp (mkUtcTime nowUTC nowNanosecond)
    /\ slice 881 1 sector = [1]
    /\ skipn 882 sector = repeat 0 1166.
Proof.
  intros Hroot Hnum Hname. eexists.
  split; [exact (createJolietVolumeDescriptor_fields nowNanosecond b options root
                   Hroot Hnum Hname)|].
  set (dr := createDirectoryRecordBytes _ _ [0] root true).
  assert (Hdr : length dr = 34%nat)
    by (apply createDirectoryRecordBytes_root_len; [exact Hnum | reflexivity]).
  clearbody dr.
  match goal with |- context [concat ?c] => set (chunks := c) end.
  split. { unfold len, chunks. cbn [concat]. chunk_length. }
  split. { field_at chunks 0%nat. }
  split. { field_at chunks 1%nat. }
  split. { field_at chunks 2%nat. }
  split. { field_at chunks 3%nat. }
  split. { field_at chunks 4%nat. }
  split. { decode_at chunks 5%nat (putLE32 (totalSectors b)). apply leUint_putLE32. }
  split. { decode_at chunks 6%nat (putBE32 (totalSectors b)). apply beUint_putBE32. }
  split. { field_at chunks 7%nat. }
  split. { decode_at chunks 8%nat (putLE16 1). reflexivity. }
  split. { decode_at chunks 9%nat (putBE16 1). reflexivity. }
  split. { decode_at chunks 10%nat (putLE16 1). reflexivity. }
  split. { decode_at chunks 11%nat (putBE16 1). reflexivity. }
  split. { decode_at chunks 12%nat (putLE16 (wrap16 SectorSize)). reflexivity. }
  split. { decode_at chunks 13%nat (putBE16 (wrap16 SectorSize)). reflexivity. }
  split. { decode_at chunks 14%nat (putLE32 (wrap32 (len (svdPathTableLData (ptData b))))).
           rewrite leUint_putLE32. unfold wrap32. apply Z.mod_mod. lia. }
  split. { decode_at chunks 15%nat (putBE32 (wrap32 (len (svdPathTableLData (ptData b))))).
           rewrite beUint_putBE32. unfold wrap32. apply Z.mod_mod. lia. }
  split. { decode_at chunks 16%nat (putLE32 (lbaSvdPathTableL (ptLBAs b))).
           apply leUint_putLE32. }
  split. { decode_at chunks 17%nat (putLE32 (lbaSvdPathTableL2 (ptLBAs b))).
           apply leUint_putLE32. }
  split. { decode_at chunks 18%nat (putBE32 (lbaSvdPathTableM (ptLBAs b))).
           apply beUint_putBE32. }
  split. { decode_at chunks 19%nat (putBE32 (lbaSvdPathTableM2 (ptLBAs b))).
           apply beUint_putBE32. }
  split. { field_at chunks 20%nat. }
  split. { field_at chunks 21%nat. }
  split. { field_at chunks 22%nat. }
  split. { field_at chunks 23%nat. }
  split. { field_at chunks 24%nat. }
  split. { field_at chunks 25%nat. }
  split. { field_at chunks 26%nat. }
  split. { field_at chunks 27%nat. }
  split. { field_at chunks 28%nat. }
  split. { field_at chunks 29%nat. }
  split. { field_at chunks 30%nat. }
  split. { field_at chunks 31%nat. }
  split. { field_at chunks 32%nat. }
  match goal with
  | |- ?lhs = _ =>
      replace lhs with (concat (skipn 33 chunks))
        by (symmetry; apply skipn_concat; unfold chunks; chunk_length)
  end.
  apply app_nil_r.
Qed.

(** ** The writer on a file held in memory *)

Lemma length_writeAtOffset (off : nat) (p c : list Z) :
  length (writeAtOffset off p c) = Nat.max (length c) (off + length p).
Proof.
  unfold writeAtOffset, byte.
  rewrite !length_app, length_firstn, length_app, repeat_length, length_skipn. lia.
Qed.

Lemma firstn_writeAtOffset (off : nat) (p c : list Z) :
  firstn off (writeAtOffset off p c) = firstn off (c ++ repeat 0 (off - length c)).
Proof.
  unfold writeAtOffset, byte.
  rewrite firstn_app, length_firstn, length_app, repeat_length.
  replace (off - Nat.min off (length c + (off - length c)))%nat with 0%nat by lia.
  rewrite firstn_O, app_nil_r, firstn_firstn. f_equal. lia.
Qed.

Lemma skipn_writeAtOffset (off : nat) (p c : list Z) :
  skipn off (writeAtOffset off p c) = p ++ skipn (off + length p) c.
Proof.
  unfold writeAtOffset, byte.
  rewrite skipn_app, length_firstn, length_app, repeat_length.
  replace (off - Nat.min off (length c + (off - length c)))%nat with 0%nat by lia.
  rewrite skipn_all2 by (rewrite length_firstn, length_app, repeat_length; lia).
  reflexivity.
Qed.

(** Two writes in a row are one write of the concatenation. *)
Lemma writeAtOffset_app (off : nat) (a b c : list Z) :
  writeAtOffset (off + length a) b (writeAtOffset off a c) = writeAtOffset off (a ++ b) c.
Proof.
  rewrite <- (firstn_skipn off (writeAtOffset off a c)) at 1.
  rewrite firstn_writeAtOffset, skipn_writeAtOffset.
  set (pre := firstn off (c ++ repeat 0 (off - length c))).
  assert (Hpre : length pre = off).
  { unfold pre. rewrite length_firstn, length_app, repeat_length. lia. }
  unfold writeAtOffset at 1. unfold byte. fold pre.
  rewrite !length_app, length_skipn, Hpre.
  replace (off + length a - (off + (length a + (length c - (off + length a)))))%nat
    with 0%nat by lia.
  cbn [repeat]. rewrite app_nil_r.
  rewrite (app_assoc pre a), firstn_app, length_app, Hpre.
  replace (off + length a - (off + length a))%nat with 0%nat by lia.
  rewrite firstn_O, app_nil_r.
  rewrite firstn_all2 by (rewrite length_app; lia).
  rewrite skipn_app, length_app, Hpre.
  rewrite (skipn_all2 (pre ++ a)) by (rewrite length_app; lia).
  cbn [app].
  replace (off + length a + length b - (off + length a))%nat with (length b) by lia.
  rewrite skipn_skipn.
  unfold writeAtOffset, byte. fold pre. rewrite <- !app_assoc, length_app.
  do 4 f_equal. lia.
Qed.

Lemma writeAtOffset_nil (off : nat) (c : list Z) :
  (off <= length c)%nat -> writeAtOffset off [] c = c.
Proof.
  intros H. unfold writeAtOffset, byte.
  replace (off - length c)%nat with 0%nat by lia.
  cbn [repeat length app]. rewrite app_nil_r, Nat.add_0_r. apply firstn_skipn.
Qed.

Lemma writeAtOffset_end (p c : list Z) : writeAtOffset (length c) p c = c ++ p.
Proof.
  unfold writeAtOffset, byte. rewrite Nat.sub_diag. cbn [repeat]. rewrite app_nil_r.
  rewrite firstn_all, skipn_all2 by lia. now rewrite app_nil_r.
Qed.

Lemma memWrite_nonempty (f : memFile) (p : list Z) :
  p <> [] ->
  memWrite f p
  = (len p, false,
     mkMemFile (writeAtOffset (Z.to_nat (position f)) p (content f)) (position f + len p)).
Proof. intros H. unfold memWrite. destruct p; [contradiction | reflexivity]. Qed.

(** The padding loop on the file: [paddingNeeded] zero bytes from the
    current offset on. *)
Lemma padWithZeros_memFile (rounds : nat) (paddingNeeded : Z) (f : memFile) :
  0 <= position f -> 0 < paddingNeeded ->
  (Z.to_nat paddingNeeded <= rounds)%nat ->
  padWithZeros rounds (makeBytes SectorSize) paddingNeeded f
  = Ok (mkMemFile
          (writeAtOffset (Z.to_nat (position f)) (repeat 0 (Z.to_nat paddingNeeded))
             (content f))
          (position f + paddingNeeded)).
Proof.
  revert paddingNeeded f.
  induction rounds as [|rounds IH]; intros p f Hpos Hp Hr; [lia|].
  cbn [padWithZeros].
  replace (p >? 0) with true by (symmetry; apply Z.gtb_lt; lia).
  rewrite (len_makeBytes SectorSize) by (unfold SectorSize; lia).
  set (chunk := if p <? SectorSize then p else SectorSize).
  assert (Hchunk : 0 < chunk <= p /\ chunk <= SectorSize).
  { unfold chunk, SectorSize. destruct (p <? 2048) eqn:E;
      [apply Z.ltb_lt in E | apply Z.ltb_ge in E]; lia. }
  assert (Hzeros : firstn (Z.to_nat chunk) (makeBytes SectorSize)
                   = repeat 0 (Z.to_nat chunk)).
  { unfold makeBytes. rewrite firstn_repeat. f_equal. lia. }
  rewrite Hzeros.
  change (wsWrite f (repeat 0 (Z.to_nat chunk)))
    with (memWrite f (repeat 0 (Z.to_nat chunk))).
  rewrite memWrite_nonempty
    by (destruct (Z.to_nat chunk) eqn:E; [lia | discriminate]).
  match goal with
  | |- context [negb (?l =? chunk)] =>
      replace l with chunk by (unfold len; rewrite repeat_length; lia)
  end.
  rewrite Z.eqb_refl. cbn [negb].
  destruct (Z.eq_dec chunk p) as [E | E].
  - rewrite E, Z.sub_diag.
    destruct rounds; cbn [padWithZeros]; reflexivity.
  - rewrite IH; cbn [position content]; try lia.
    f_equal. f_equal; [|lia].
    unfold byte.
    replace (Z.to_nat (position f + chunk))
      with (Z.to_nat (position f) + length (repeat 0%Z (Z.to_nat chunk)))%nat
      by (rewrite repeat_length; lia).
    rewrite writeAtOffset_app, <- repeat_app. do 2 f_equal. lia.
Qed.

(** The content that [writeAtSectorAndPad] leaves in the file. *)
Lemma writeAtSectorAndPad_memFile (f : memFile) (data : list Z) (sectorNum total : Z) :
  0 <= sectorNum -> 0 < total -> total mod SectorSize = 0 -> len data <= total ->
  writeAtSectorAndPad f data sectorNum total
  = Ok (mkMemFile
          (writeAtOffset (Z.to_nat (sectorNum * SectorSize))
             (data ++ repeat 0 (Z.to_nat total - length data)) (content f))
          (sectorNum * SectorSize + total)).
Proof.
  intros Hs Ht Hm Hd. unfold writeAtSectorAndPad. unfold byte.
  rewrite Z.rem_mod_nonneg by (unfold SectorSize; lia). rewrite Hm.
  cbn [Z.eqb negb]. rewrite andb_false_r.
  rewrite (gtb_false (len data) total) by lia.
  rewrite (ltb_false total 0) by lia.
  cbv zeta.
  change (wsSeek f (sectorNum * SectorSize) SeekStart)
    with (memSeek f (sectorNum * SectorSize) SeekStart).
  unfold memSeek. cbn [Z.add].
  rewrite (ltb_false (sectorNum * SectorSize) 0) by (unfold SectorSize; lia).
  set (off := sectorNum * SectorSize). assert (Hoff : 0 <= off) by (unfold off, SectorSize; lia).
  pose proof (len_nonneg data) as Hn.
  destruct data as [|x data].
  - change (len [] >? 0) with false. cbn [bind].
    change (len (@nil Z)) with 0. rewrite Z.sub_0_r.
    rewrite (ltb_false total 0), (gtb_true total 0) by lia.
    rewrite padWithZeros_memFile; cbn [position content]; try lia.
    cbn [app length]. now rewrite Nat.sub_0_r.
  - set (d := x :: data) in *.
    rewrite (gtb_true (len d) 0) by (unfold d, len; cbn [length]; lia).
    change (wsWrite (mkMemFile (content f) off) d)
      with (memWrite (mkMemFile (content f) off) d).
    rewrite memWrite_nonempty by discriminate.
    cbn [position content]. rewrite Z.eqb_refl. cbn [negb bind].
    rewrite (ltb_false (total - len d) 0) by lia.
    destruct (total - len d >? 0) eqn:E.
    + apply Z.gtb_lt in E.
      rewrite padWithZeros_memFile; cbn [position content]; try lia.
      f_equal. f_equal; [|lia].
      replace (Z.to_nat (off + len d)) with (Z.to_nat off + length d)%nat
        by (unfold len; lia).
      rewrite writeAtOffset_app. do 3 f_equal. unfold len. lia.
    + rewrite Z.gtb_ltb in E. apply Z.ltb_ge in E.
      replace (Z.to_nat total - length d)%nat with 0%nat by (unfold len in *; lia).
      cbn [repeat]. rewrite app_nil_r. f_equal. f_equal. lia.
Qed.

(** X12: on a file held in memory, [writeAtSectorAndPad] with a positive
    allocation that is a multiple of the sector size and holds the data
    succeeds; afterwards the region of [totalAllocatedBytesOnDisk] bytes that
    starts at the sector holds the data followed by zeros, everything before
    it is what the file held (zeros where the file was shorter), everything
    behind it is unchanged, and the offset of the file is the end of the
    region. *)
Theorem writeAtSectorAndPad_region (f : memFile) (data : list byte)
    (sectorNum totalAllocatedBytesOnDisk : Z) :
  0 <= sectorNum ->
  0 < totalAllocatedBytesOnDisk ->
  totalAllocatedBytesOnDisk mod SectorSize = 0 ->
  len data <= totalAllocatedBytesOnDisk ->
  let off := Z.to_nat (sectorNum * SectorSize) in
  let n := Z.to_nat totalAllocatedBytesOnDisk in
  exists f',
    writeAtSectorAndPad f data sectorNum totalAllocatedBytesOnDisk = Ok f'
    /\ position f' = sectorNum * SectorSize + totalAllocatedBytesOnDisk
    /\ slice off n (content f') = data ++ repeat 0 (n - length data)
    /\ firstn off (content f')
       = firstn off (content f ++ repeat 0 (off - length (content f)))
    /\ skipn (off + n) (content f') = skipn (off + n) (content f).
Proof.
  intros Hs Ht Hm Hd. cbv zeta. eexists.
  split; [apply writeAtSectorAndPad_memFile; assumption|].
  cbn [position content]. unfold byte in data, Hd |- *.
  set (off := Z.to_nat (sectorNum * SectorSize)).
  set (n := Z.to_nat totalAllocatedBytesOnDisk).
  set (p := data ++ repeat 0 (n - length data)).
  assert (Hp : length p = n).
  { unfold p. rewrite length_app, repeat_length. unfold len in Hd. lia. }
  split; [reflexivity|].
  split.
  { unfold slice. rewrite skipn_writeAtOffset.
    rewrite firstn_app, Hp, Nat.sub_diag, firstn_O, app_nil_r.
    apply firstn_all2. lia. }
  split; [apply firstn_writeAtOffset|].
  rewrite (Nat.add_comm off n), <- skipn_skipn, skipn_writeAtOffset.
  rewrite skipn_app, Hp, Nat.sub_diag. cbn [skipn].
  rewrite skipn_all2 by lia. cbn [app]. f_equal. lia.
Qed.

(** The padding loop never runs out of rounds. *)
Lemma padWithZeros_no_panic {W : Type} `{WriteSeeker W} (rounds : nat)
    (padBuf : list byte) (paddingNeeded : Z) (w : W) :
  0 < len padBuf ->
  (Z.to_nat paddingNeeded <= rounds)%nat ->
  padWithZeros rounds padBuf paddingNeeded w <> Panic.
Proof.
  intros Hb. revert paddingNeeded w.
  induction rounds as [|rounds IH]; intros p w Hr; cbn [padWithZeros].
  - destruct (p >? 0) eqn:E; [apply Z.gtb_lt in E; lia | discriminate].
  - destruct (p >? 0) eqn:E; [apply Z.gtb_lt in E | discriminate].
    set (chunk := if p <? len padBuf then p else len padBuf).
    assert (Hc : 0 < chunk) by (unfold chunk; destruct (p <? len padBuf); lia).
    destruct (wsWrite w (firstn (Z.to_nat chunk) padBuf)) as [[n err] w'].
    destruct err; [discriminate|].
    destruct (n =? chunk) eqn:En; cbn [negb]; [|discriminate].
    apply Z.eqb_eq in En. apply IH. lia.
Qed.

(** X13: whatever the writer, [writeAtSectorAndPad] panics exactly when the
    allocation is positive and not a multiple of the sector size, before
    anything is written; and when the allocation is acceptable but smaller
    than the data (or negative), it returns an error. *)
Theorem writeAtSectorAndPad_rejects {W : Type} `{WriteSeeker W} (w : W)
    (data : list byte) (sectorNum totalAllocatedBytesOnDisk : Z) :
  (writeAtSectorAndPad w data sectorNum totalAllocatedBytesOnDisk = Panic
   <-> 0 < totalAllocatedBytesOnDisk
       /\ Z.rem totalAllocatedBytesOnDisk SectorSize <> 0)
  /\ (totalAllocatedBytesOnDisk <= 0
      \/ Z.rem totalAllocatedBytesOnDisk SectorSize = 0 ->
      totalAllocatedBytesOnDisk < len data ->
      writeAtSectorAndPad w data sectorNum totalAllocatedBytesOnDisk = Err).
Proof.
  unfold writeAtSectorAndPad.
  destruct ((totalAllocatedBytesOnDisk >? 0)
            && negb (Z.rem totalAllocatedBytesOnDisk SectorSize =? 0)) eqn:E.
  - apply andb_true_iff in E. destruct E as [E1 E2].
    apply Z.gtb_lt in E1. apply negb_true_iff, Z.eqb_neq in E2.
    split; [split; auto|]. intros [Hc | Hc]; lia.
  - assert (Hno : ~ (0 < totalAllocatedBytesOnDisk
                     /\ Z.rem totalAllocatedBytesOnDisk SectorSize <> 0)).
    { intros [H1 H2]. apply andb_false_iff in E. destruct E as [E | E].
      - rewrite Z.gtb_ltb in E. apply Z.ltb_ge in E. lia.
      - apply negb_false_iff, Z.eqb_eq in E. contradiction. }
    split.
    + split; [|intros Hc; contradiction].
      destruct (len data >? totalAllocatedBytesOnDisk); [discriminate|].
      destruct (totalAllocatedBytesOnDisk <? 0); [discriminate|].
      cbv zeta.
      destruct (wsSeek w (sectorNum * SectorSize) SeekStart) as [[o w1]|]; [|discriminate].
      destruct (len data >? 0).
      * destruct (wsWrite w1 data) as [[n err] w2].
        destruct err; cbn [bind]; [discriminate|].
        destruct (n =? len data); cbn [negb bind]; [|discriminate].
        destruct (totalAllocatedBytesOnDisk - n <? 0); [discriminate|].
        destruct (totalAllocatedBytesOnDisk - n >? 0); [|discriminate].
        intros Hp. exfalso. revert Hp. apply padWithZeros_no_panic; [|lia].
        rewrite len_makeBytes; unfold SectorSize; lia.
      * cbn [bind].
        destruct (totalAllocatedBytesOnDisk - 0 <? 0); [discriminate|].
        destruct (totalAllocatedBytesOnDisk - 0 >? 0); [|discriminate].
        intros Hp. exfalso. revert Hp. apply padWithZeros_no_panic; [|lia].
        rewrite len_makeBytes; unfold SectorSize; lia.
    + intros _ Hlt.
      rewrite (gtb_true (len data) totalAllocatedBytesOnDisk) by lia.
      reflexivity.
Qed.

(** Writing a full region at the end of the file appends it. *)
Lemma writeAtSectorAndPad_append (f : memFile) (data : list Z)
    (sectorNum total : Z) :
  0 <= sectorNum ->
  len (content f) = sectorNum * SectorSize ->
  len data = total ->
  0 < total -> total mod SectorSize = 0 ->
  writeAtSectorAndPad f data sectorNum total
  = Ok (mkMemFile (content f ++ data) (len (content f) + total)).
Proof.
  intros Hs Hc Hl Hd Hm.
  rewrite writeAtSectorAndPad_memFile by (assumption || lia).
  rewrite <- Hc. f_equal. f_equal.
  unfold len at 1. rewrite Nat2Z.id.
  replace (Z.to_nat total - length data)%nat with 0%nat by (unfold len in Hl; lia).
  cbn [repeat]. rewrite app_nil_r. apply writeAtOffset_end.
Qed.

Lemma createVolumeDescriptorTerminator_bytes :
  createVolumeDescriptorTerminator = [255; 67; 68; 48; 48; 49; 1] ++ repeat 0 2041.
Proof. vm_compute. reflexivity. Qed.

Lemma writeSystemArea_empty :
  writeSystemArea (mkMemFile [] 0) = Ok (mkMemFile (repeat 0 (Z.to_nat 32768)) 32768).
Proof.
  unfold writeSystemArea.
  rewrite writeAtSectorAndPad_memFile
    by (unfold SystemAreaNumSectors, SectorSize, len; cbn [length]; lia || reflexivity).
  reflexivity.
Qed.

Lemma createPrimaryVolumeDescriptor_sector (nowNanosecond : Z) (b : ISOBuilder)
    (options : Options) (root : fileEntry) :
  nth_error (fileEntries b) 0 = Some root ->
  pathTableDirNum root = 1 ->
  iso9660Name root = [] ->
  exists sector,
    createPrimaryVolumeDescriptor nowNanosecond b options = Ok sector
    /\ len sector = 2048.
Proof.
  intros Hroot Hnum Hname. eexists.
  split; [exact (createPrimaryVolumeDescriptor_fields nowNanosecond b options root
                   Hroot Hnum Hname)|].
  set (dr := createDirectoryRecordBytes _ _ [] root false).
  assert (Hdr : length dr = 34%nat)
    by (apply createDirectoryRecordBytes_root_len; [exact Hnum | reflexivity]).
  clearbody dr.
  unfold len. cbn [concat]. chunk_length.
Qed.

Lemma createJolietVolumeDescriptor_sector (nowNanosecond : Z) (b : ISOBuilder)
    (options : Options) (root : fileEntry) :
  nth_error (fileEntries b) 0 = Some root ->
  pathTableDirNum root = 1 ->
  jolietName root = [0] ->
  exists sector,
    createJolietVolumeDescriptor nowNanosecond b options = Ok sector
    /\ len sector = 2048.
Proof.
  intros Hroot Hnum Hname. eexists.
  split; [exact (createJolietVolumeDescriptor_fields nowNanosecond b options root
                   Hroot Hnum Hname)|].
  set (dr := createDirectoryRecordBytes _ _ [0] root true).
  assert (Hdr : length dr = 34%nat)
    by (apply createDirectoryRecordBytes_root_len; [exact Hnum | reflexivity]).
  clearbody dr.
  unfold len. cbn [concat]. chunk_length.
Qed.

(** The first 19 sectors, given the two descriptors. *)
Lemma writeVolumeDescriptors_memFile (nowNanosecond : Z) (b : ISOBuilder)
    (options : Options) (pvd svd : list byte) :
  createPrimaryVolumeDescriptor nowNanosecond b options = Ok pvd ->
  createJolietVolumeDescriptor nowNanosecond b options = Ok svd ->
  len pvd = 2048 -> len svd = 2048 ->
  (f <- writeSystemArea (mkMemFile [] 0) ;;
   writeVolumeDescriptors nowNanosecond b options f)
  = Ok (mkMemFile
          (repeat 0 (Z.to_nat 32768) ++ pvd ++ svd
           ++ [255; 67; 68; 48; 48; 49; 1] ++ repeat 0 2041)
          38912).
Proof.
  intros Hpvd Hsvd Hlp Hls.
  rewrite writeSystemArea_empty. cbn [bind].
  unfold writeVolumeDescriptors. cbv zeta. rewrite Hpvd. cbn [bind].
  change (wrap32 SystemAreaNumSectors) with 16.
  change (wrap32 (16 + 1)) with 17. change (wrap32 (17 + 1)) with 18.
  assert (Hmod : SectorSize mod SectorSize = 0) by reflexivity.
  assert (Hpos : 0 < SectorSize) by reflexivity.
  rewrite (fun f Hc => writeAtSectorAndPad_append f pvd 16 SectorSize
                         ltac:(lia) Hc Hlp Hpos Hmod)
    by (cbn [content]; unfold len; rewrite repeat_length; unfold SectorSize; lia).
  cbn [bind content]. rewrite Hsvd. cbn [bind].
  rewrite (fun f Hc => writeAtSectorAndPad_append f svd 17 SectorSize
                         ltac:(lia) Hc Hls Hpos Hmod)
    by (cbn [content]; unfold len, byte in *;
        rewrite length_app, repeat_length; unfold SectorSize in *; lia).
  cbn [bind content].
  rewrite createVolumeDescriptorTerminator_bytes.
  set (term := [255; 67; 68; 48; 48; 49; 1] ++ repeat 0 2041).
  assert (Hlt : len term = SectorSize) by reflexivity.
  rewrite (fun f Hc => writeAtSectorAndPad_append f term 18 SectorSize
                         ltac:(lia) Hc Hlt Hpos Hmod)
    by (cbn [content]; unfold len, byte in *;
        rewrite !length_app, repeat_length; unfold SectorSize in *; lia).
  cbn [content]. rewrite <- !app_assoc. f_equal. f_equal.
  unfold len, byte in *. rewrite !length_app, repeat_length.
  unfold SectorSize in *. lia.
Qed.

(** X14: on an empty file, [writeSystemArea] followed by
    [writeVolumeDescriptors] writes the first 19 sectors of the image: 16
    sectors of zeros, the primary volume descriptor (sector 16), the
    supplementary one (sector 17) and the terminator (sector 18), which is
    the type 255, [CD001], the version 1 and zeros. *)
Theorem writeVolumeDescriptors_image_prefix (nowNanosecond : Z) (b : ISOBuilder)
    (options : Options) (root : fileEntry) :
  nth_error (fileEntries b) 0 = Some root ->
  pathTableDirNum root = 1 ->
  iso9660Name root = [] ->
  jolietName root = [0] ->
  exists pvd svd,
    createPrimaryVolumeDescriptor nowNanosecond b options = Ok pvd
    /\ createJolietVolumeDescriptor nowNanosecond b options = Ok svd
    /\ (f <- writeSystemArea (mkMemFile [] 0) ;;
        writeVolumeDescriptors nowNanosecond b options f)
       = Ok (mkMemFile
               (repeat 0 (Z.to_nat 32768) ++ pvd ++ svd
                ++ [255; 67; 68; 48; 48; 49; 1] ++ repeat 0 2041)
               38912).
Proof.
  intros Hroot Hnum Hiso Hjol.
  destruct (createPrimaryVolumeDescriptor_sector nowNanosecond b options root
              Hroot Hnum Hiso) as (pvd & Hpvd & Hlp).
  destruct (createJolietVolumeDescriptor_sector nowNanosecond b options root
              Hroot Hnum Hjol) as (svd & Hsvd & Hls).
  exists pvd, svd. split; [exact Hpvd|]. split; [exact Hsvd|].
  exact (writeVolumeDescriptors_memFile nowNanosecond b options pvd svd Hpvd Hsvd Hlp Hls).
Qed.

(** [padImage] appends the missing zeros at the end of a memory file. *)
Lemma padImage_memFile (chunkSize : Z) (rounds : nat) (paddingNeeded : Z) (f : memFile) :
  0 < chunkSize ->
  position f = len (content f) ->
  0 < paddingNeeded ->
  (Z.to_nat paddingNeeded <= rounds)%nat ->
  padImage rounds (makeBytes chunkSize) chunkSize paddingNeeded f
  = Ok (mkMemFile (content f ++ repeat 0 (Z.to_nat paddingNeeded))
          (position f + paddingNeeded)).
Proof.
  intros Hc. revert paddingNeeded f.
  induction rounds as [|rounds IH]; intros p f Hpos Hp Hr; [lia|].
  cbn [padImage].
  replace (p >? 0) with true by (symmetry; apply Z.gtb_lt; lia).
  set (chunk := if p <? chunkSize then p else chunkSize).
  assert (Hchunk : 0 < chunk <= p /\ chunk <= chunkSize).
  { unfold chunk. destruct (p <? chunkSize) eqn:E;
      [apply Z.ltb_lt in E | apply Z.ltb_ge in E]; lia. }
  assert (Hzeros : firstn (Z.to_nat chunk) (makeBytes chunkSize)
                   = repeat 0 (Z.to_nat chunk)).
  { unfold makeBytes. rewrite firstn_repeat. f_equal. lia. }
  rewrite Hzeros.
  change (wsWrite f (repeat 0 (Z.to_nat chunk)))
    with (memWrite f (repeat 0 (Z.to_nat chunk))).
  rewrite memWrite_nonempty
    by (destruct (Z.to_nat chunk) eqn:E; [lia | discriminate]).
  assert (Hl : len (repeat 0 (Z.to_nat chunk)) = chunk)
    by (unfold len; rewrite repeat_length; lia).
  unfold byte in *. rewrite Hl, Hpos.
  unfold len at 1. rewrite Nat2Z.id, writeAtOffset_end.
  destruct (Z.eq_dec chunk p) as [E | E].
  - rewrite E, Z.sub_diag.
    destruct rounds; cbn [padImage]; reflexivity.
  - rewrite IH; cbn [position content]; try lia.
    + f_equal. f_equal; [|lia].
      rewrite <- app_assoc, <- repeat_app. do 2 f_equal. lia.
    + rewrite len_app. unfold byte. rewrite Hl. reflexivity.
Qed.

(** The image that [finalizeImageSize] leaves in a memory file. *)
Lemma finalizeImageSize_memFile (b : ISOBuilder) (f : memFile) :
  0 <= totalSectors b ->
  exists f',
    finalizeImageSize b f = Ok f'
    /\ content f'
       = firstn (Z.to_nat (totalSectors b * SectorSize)) (content f)
         ++ repeat 0 (Z.to_nat (totalSectors b * SectorSize) - length (content f)).
Proof.
  intros Ht. unfold finalizeImageSize. cbv zeta.
  change (wsSeek f 0 SeekEnd) with (memSeek f 0 SeekEnd).
  unfold memSeek. cbv zeta. rewrite Z.add_0_r.
  replace (len (content f) <? 0) with false
    by (symmetry; apply Z.ltb_ge; unfold len; lia).
  set (E := totalSectors b * SectorSize).
  set (g := mkMemFile (content f) (len (content f))).
  destruct (len (content f) <? E) eqn:Elt.
  - apply Z.ltb_lt in Elt.
    replace (E - len (content f) >? 0) with true
      by (symmetry; apply Z.gtb_lt; lia).
    set (p := E - len (content f)).
    set (c := if SectorSize * 128 >? p then p else SectorSize * 128).
    assert (Hc : 0 < c).
    { unfold c, SectorSize. destruct (2048 * 128 >? p); lia. }
    rewrite (padImage_memFile c) by (cbn [position content]; (reflexivity || lia)).
    eexists. split; [reflexivity|]. cbn [content].
    rewrite firstn_all2 by (unfold len, byte in *; lia).
    do 2 f_equal. unfold p, len, byte in *. lia.
  - apply Z.ltb_ge in Elt.
    destruct (len (content f) >? E) eqn:Egt.
    + change (fileTruncate g E) with (memTruncate g E).
      unfold memTruncate.
      replace (E <? 0) with false
        by (symmetry; apply Z.ltb_ge; unfold E, SectorSize; lia).
      eexists. split; [reflexivity|]. reflexivity.
    + rewrite Z.gtb_ltb in Egt. apply Z.ltb_ge in Egt.
      eexists. split; [reflexivity|]. subst g. cbn [content].
      rewrite firstn_all2 by (unfold len, byte in *; lia).
      replace (Z.to_nat E - length (content f))%nat with 0%nat
        by (unfold len, byte in *; lia).
      cbn [repeat]. symmetry. apply app_nil_r.
Qed.

Lemma len_finalized (E : Z) (c : list Z) :
  0 <= E -> len (firstn (Z.to_nat E) c ++ repeat 0 (Z.to_nat E - length c)) = E.
Proof.
  intros HE. unfold len. rewrite length_app, length_firstn, repeat_length. lia.
Qed.

(** X15: on a file in memory [finalizeImageSize] never fails and leaves an
    image of exactly [totalSectors] sectors: a shorter file is extended with
    zeros, a longer one is cut, and the bytes kept are unchanged. *)
Theorem finalizeImageSize_exact (b : ISOBuilder) (f : memFile) :
  0 <= totalSectors b ->
  exists f',
    finalizeImageSize b f = Ok f'
    /\ len (content f') = totalSectors b * SectorSize
    /\ content f'
       = firstn (Z.to_nat (totalSectors b * SectorSize)) (content f)
         ++ repeat 0 (Z.to_nat (totalSectors b * SectorSize) - length (content f)).
Proof.
  intros Ht. destruct (finalizeImageSize_memFile b f Ht) as (f' & Hf & Hc).
  exists f'. split; [exact Hf|]. split; [|exact Hc].
  rewrite Hc. apply len_finalized. unfold SectorSize. lia.
Qed.

Lemma bind_Ok {A B} (m : result A) (k : A -> result B) (r : B) :
  bind m k = Ok r -> exists x, m = Ok x /\ k x = Ok r.
Proof. destruct m as [x| |]; cbn [bind]; intros E; [eauto | discriminate..]. Qed.

(** [Build] on a file in memory: the file is created empty and closing it
    succeeds. *)
Lemma Build_memFile (nowNanosecond : Z)
    (osReadFile : gostring -> option (list byte)) (b : ISOBuilder)
    (options : Options) (abs : option gostring) (listing : option (list osNode)) :
  Build nowNanosecond osReadFile b options abs listing
  = (b <- (if holdsScan b then Ok b else ScanSourceDirectory b abs listing) ;;
     b <- calculateLayout b ;;
     isoFile <-
       (isoFile <- writeSystemArea (mkMemFile [] 0) ;;
        isoFile <- writeVolumeDescriptors nowNanosecond b options isoFile ;;
        isoFile <- writeAllPathTables b isoFile ;;
        isoFile <- writeAllDirectoryContents b isoFile ;;
        isoFile <- writeAllFileData osReadFile b isoFile ;;
        finalizeImageSize b isoFile) ;;
     Ok (b, isoFile)).
Proof.
  unfold Build, holdsScan. destruct (fileEntries b) as [|first rest]; [reflexivity|].
  destruct (eqbBytes (isoPath first) (str "/")); reflexivity.
Qed.

(** X16: when [Build] succeeds on a file in memory, the builder it returns
    is the plan that [calculateLayout] computes: from the table it was
    given, without a scan, when that table is not empty and starts with an
    entry whose path in the image is [/]; from the table of a fresh scan
    otherwise.  The image has exactly [totalSectors] sectors of 2048 bytes,
    the volume space size that the volume descriptors record. *)
Theorem Build_image_size (nowNanosecond : Z)
    (osReadFile : gostring -> option (list byte)) (b : ISOBuilder)
    (options : Options) (abs : option gostring) (listing : option (list osNode))
    (b' : ISOBuilder) (image : memFile) :
  Build nowNanosecond osReadFile b options abs listing = Ok (b', image) ->
  (if holdsScan b then calculateLayout b = Ok b'
   else exists scanned,
          ScanSourceDirectory b abs listing = Ok scanned
          /\ calculateLayout scanned = Ok b')
  /\ len (content image) = totalSectors b' * SectorSize.
Proof.
  rewrite Build_memFile. intros HB.
  apply bind_Ok in HB. destruct HB as (scanned & Hscan & HB).
  apply bind_Ok in HB. destruct HB as (planned & Hplan & HB).
  apply bind_Ok in HB. destruct HB as (f6 & HW & HB).
  apply Ok_inj in HB.
  injection HB as <- <-.
  apply bind_Ok in HW. destruct HW as (f1 & _ & HW).
  apply bind_Ok in HW. destruct HW as (f2 & _ & HW).
  apply bind_Ok in HW. destruct HW as (f3 & _ & HW).
  apply bind_Ok in HW. destruct HW as (f4 & _ & HW).
  apply bind_Ok in HW. destruct HW as (f5 & _ & HW).
  assert (Ht : 0 <= totalSectors planned).
  { destruct (calculateLayout_stages _ _ Hplan)
      as (? & ? & ? & ? & ? & st5 & _ & _ & _ & _ & _ & _ & Ht).
    rewrite Ht. unfold wrap32. apply Z.mod_pos_bound. lia. }
  destruct (finalizeImageSize_memFile planned f5 Ht) as (f6' & Hf & Hc).
  rewrite Hf in HW. apply Ok_inj in HW. subst f6'.
  split.
  - destruct (holdsScan b).
    + apply Ok_inj in Hscan. now subst scanned.
    + exists scanned. split; assumption.
  - rewrite Hc. apply len_finalized. unfold SectorSize. lia.
Qed.

(* ------------------------------------------------------------------ *)
(** ** The hidden-marking helper *)

Lemma markMatching_map (name : gostring) (es : list fileEntry) (i : nat) (found : bool) :
  (i = 0%nat -> forall e t, es = e :: t -> named name e = false) ->
  markMatching name i es found
  = (map (fun e => if named name e then setIsHidden true e else e) es,
     found || existsb (named name) es).
Proof.
  revert i found. induction es as [|e t IH]; intros i found Hroot; cbn [markMatching map existsb].
  - now rewrite orb_false_r.
  - destruct (Nat.eqb i 0 && eqbBytes (originalName e) [0]) eqn:Eskip.
    + apply andb_true_iff in Eskip. destruct Eskip as [Ei _].
      apply Nat.eqb_eq in Ei. rewrite (Hroot Ei e t eq_refl).
      rewrite IH by discriminate. reflexivity.
    + unfold named at 1 3. destruct (eqbBytes (originalName e) name) eqn:En.
      * rewrite IH by discriminate. cbn [orb]. now rewrite orb_true_r.
      * rewrite IH by discriminate. reflexivity.
Qed.

Lemma setFileEntries_same (b : ISOBuilder) : setFileEntries (fileEntries b) b = b.
Proof. now destruct b. Qed.

Lemma hiddenBy_nil (rootName : gostring) (e : fileEntry) : hiddenBy rootName [] e = e.
Proof. reflexivity. Qed.

Lemma hiddenBy_cons (rootName name : gostring) (names : list gostring) (e : fileEntry) :
  hiddenBy rootName names (hiddenBy rootName [name] e) = hiddenBy rootName (name :: names) e.
Proof.
  unfold hiddenBy. cbn [existsb]. rewrite orb_false_r.
  destruct (hideable rootName name && named name e).
  - cbn [orb]. change (fun n => hideable rootName n && named n (setIsHidden true e))
      with (fun n => hideable rootName n && named n e).
    destruct (existsb _ names); reflexivity.
  - reflexivity.
Qed.

Lemma hiddenBy_originalName (rootName : gostring) (names : list gostring) (e : fileEntry) :
  originalName (hiddenBy rootName names e) = originalName e.
Proof. unfold hiddenBy. destruct (existsb _ names); reflexivity. Qed.

Lemma existsb_named_hiddenBy (rootName name : gostring) (names : list gostring)
    (es : list fileEntry) :
  existsb (named name) (map (hiddenBy rootName names) es) = existsb (named name) es.
Proof.
  induction es as [|e t IH]; [reflexivity|]. cbn [map existsb].
  unfold named at 1 3. now rewrite hiddenBy_originalName, IH.
Qed.

Lemma complaint_hiddenBy (rootName name : gostring) (names : list gostring)
    (es : list fileEntry) (r : gostring) :
  complaint (map (hiddenBy rootName names) es) r name = complaint es r name.
Proof. unfold complaint. now rewrite existsb_named_hiddenBy. Qed.

Lemma markFileName_result (name : gostring) (b : ISOBuilder) (errors : list gostring)
    (root : fileEntry) :
  nth_error (fileEntries b) 0 = Some root ->
  markFileName name (b, errors)
  = Ok (setFileEntries (map (hiddenBy (originalName root) [name]) (fileEntries b)) b,
        errors ++ complaint (fileEntries b) (originalName root) name).
Proof.
  intros Hroot. unfold markFileName, complaint, hiddenBy, hideable. cbn [existsb].
  assert (Hid : setFileEntries (map (fun e => e) (fileEntries b)) b = b)
    by (rewrite map_id; apply setFileEntries_same).
  destruct (eqbBytes name []); [cbn [negb andb orb]; now rewrite Hid|].
  destruct (eqbBytes name (str ".") || eqbBytes name (str ".."));
    [cbn [negb andb orb]; now rewrite Hid|].
  unfold index. rewrite Hroot. cbn [bind].
  destruct (eqbBytes (originalName root) name) eqn:Er;
    [cbn [negb andb orb]; now rewrite Hid|].
  cbn [negb andb].
  rewrite markMatching_map.
  2:{ intros _ e t He. rewrite He in Hroot. injection Hroot as ->. exact Er. }
  cbn [orb].
  replace (map (fun e => if named name e || false then setIsHidden true e else e)
             (fileEntries b))
    with (map (fun e => if named name e then setIsHidden true e else e) (fileEntries b))
    by (apply map_ext; intros e; now rewrite orb_false_r).
  destruct (existsb (named name) (fileEntries b)); cbn [negb];
    [now rewrite app_nil_r | reflexivity].
Qed.

Lemma markFileNames_result (names : list gostring) :
  forall (b : ISOBuilder) (errors : list gostring) (root : fileEntry),
    nth_error (fileEntries b) 0 = Some root ->
    markFileNames names (b, errors)
    = Ok (setFileEntries (map (hiddenBy (originalName root) names) (fileEntries b)) b,
          errors ++ flat_map (complaint (fileEntries b) (originalName root)) names).
Proof.
  induction names as [|name rest IH]; intros b errors root Hroot; cbn [markFileNames flat_map].
  - rewrite app_nil_r.
    replace (map (hiddenBy (originalName root) []) (fileEntries b)) with (fileEntries b)
      by (symmetry; apply map_id).
    now rewrite setFileEntries_same.
  - rewrite (markFileName_result name b errors root Hroot). cbn [bind].
    rewrite (IH _ _ (hiddenBy (originalName root) [name] root));
      cbn [fileEntries setFileEntries].
    + rewrite hiddenBy_originalName, map_map.
      rewrite (map_ext _ _ (hiddenBy_cons (originalName root) name rest)).
      f_equal. f_equal.
      rewrite <- app_assoc. f_equal. f_equal.
      apply flat_map_ext. intros n. apply complaint_hiddenBy.
    + destruct (fileEntries b) as [|e t]; [discriminate|].
      cbn in Hroot |- *. now injection Hroot as ->.
Qed.

Lemma hiddenBy_root (root : fileEntry) (names : list gostring) :
  hiddenBy (originalName root) names root = root.
Proof.
  unfold hiddenBy.
  replace (existsb _ names) with false; [reflexivity|].
  symmetry. induction names as [|n t IH]; [reflexivity|]. cbn [existsb].
  rewrite IH, orb_false_r. unfold hideable, named.
  destruct (eqbBytes (originalName root) n); [|apply andb_false_r].
  cbn [negb]. now rewrite andb_false_r.
Qed.

(** X17: on a scanned table [MarkFileNamesAsHidden] never fails; it sets
    the hidden flag of exactly the entries whose original name is one of the
    names given, except the empty name, [.], [..] and the original name of
    the root, and changes nothing else; the root is never hidden; the
    summary of warnings holds, in the order of the names, one item for each
    name that is empty, navigational, the root's, or carried by no entry. *)
Theorem MarkFileNamesAsHidden_result (b : ISOBuilder) (names : list gostring)
    (root : fileEntry) :
  nth_error (fileEntries b) 0 = Some root ->
  MarkFileNamesAsHidden b names
  = Ok (setFileEntries (map (hiddenBy (originalName root) names) (fileEntries b)) b,
        flat_map (complaint (fileEntries b) (originalName root)) names)
  /\ hiddenBy (originalName root) names root = root.
Proof.
  intros Hroot. split; [|apply hiddenBy_root].
  unfold MarkFileNamesAsHidden.
  destruct names as [|n t].
  - cbn [len length Z.of_nat Z.eqb flat_map].
    replace (map (hiddenBy (originalName root) []) (fileEntries b)) with (fileEntries b)
      by (symmetry; apply map_id).
    now rewrite setFileEntries_same.
  - replace (len (n :: t) =? 0) with false
      by (symmetry; apply Z.eqb_neq; unfold len; cbn [length]; lia).
    apply (markFileNames_result (n :: t) b [] root Hroot).
Qed.

Lemma markFileNames_unscanned (names : list gostring) (b : ISOBuilder)
    (errors : list gostring) :
  fileEntries b = [] ->
  markFileNames names (b, errors)
  = if existsb (fun n => negb (eqbBytes n [])
                         && negb (eqbBytes n (str ".") || eqbBytes n (str ".."))) names
    then Panic
    else Ok (b, errors ++ flat_map (complaint [] []) names).
Proof.
  intros Hb. revert errors.
  induction names as [|n t IH]; intros errors; cbn [markFileNames existsb flat_map].
  - now rewrite app_nil_r.
  - unfold markFileName, complaint.
    destruct (eqbBytes n []); cbn [negb andb orb bind].
    { rewrite IH, <- app_assoc. reflexivity. }
    destruct (eqbBytes n (str ".") || eqbBytes n (str "..")); cbn [negb andb orb bind].
    { rewrite IH, <- app_assoc. reflexivity. }
    unfold index. rewrite Hb. reflexivity.
Qed.

(** X18: on a builder that has not been scanned (an empty table)
    [MarkFileNamesAsHidden] panics as soon as one of the names is not empty
    and not navigational, by reading [fileEntries[0]]; otherwise it leaves
    the builder as it is. *)
Theorem MarkFileNamesAsHidden_unscanned (b : ISOBuilder) (names : list gostring) :
  fileEntries b = [] ->
  (MarkFileNamesAsHidden b names = Panic
   <-> exists n, In n names /\ n <> [] /\ n <> str "." /\ n <> str "..")
  /\ (MarkFileNamesAsHidden b names <> Panic ->
      exists errors, MarkFileNamesAsHidden b names = Ok (b, errors)).
Proof.
  intros Hb.
  assert (Hex : existsb (fun n => negb (eqbBytes n [])
                                  && negb (eqbBytes n (str ".") || eqbBytes n (str "..")))
                  names = true
                <-> exists n, In n names /\ n <> [] /\ n <> str "." /\ n <> str "..").
  { rewrite existsb_exists. split; intros (n & Hin & H); exists n; (split; [exact Hin|]).
    - apply andb_true_iff in H. destruct H as [H1 H2].
      apply negb_true_iff in H1, H2. apply orb_false_iff in H2. destruct H2 as [H2 H3].
      repeat split; intros E; apply eqbBytes_eq in E; congruence.
    - destruct H as (H1 & H2 & H3).
      apply andb_true_iff. split; apply negb_true_iff.
      + destruct (eqbBytes n []) eqn:E; [apply eqbBytes_eq in E; contradiction | reflexivity].
      + apply orb_false_iff.
        split; [destruct (eqbBytes n (str ".")) eqn:E | destruct (eqbBytes n (str "..")) eqn:E];
          try reflexivity; apply eqbBytes_eq in E; contradiction. }
  unfold MarkFileNamesAsHidden.
  destruct names as [|n t].
  - cbn [len length Z.of_nat Z.eqb]. split.
    + split; [discriminate | intros (n & [] & _)].
    + intros _. eexists. reflexivity.
  - replace (len (n :: t) =? 0) with false
      by (symmetry; apply Z.eqb_neq; unfold len; cbn [length]; lia).
    rewrite (markFileNames_unscanned (n :: t) b [] Hb).
    destruct (existsb _ (n :: t)).
    + split; [split; [intros _; now apply Hex | reflexivity] | intros H; now elim H].
    + split; [split; [discriminate | intros H; apply Hex in H; discriminate]|].
      intros _. eexists. reflexivity.
Qed.

(* ------------------------------------------------------------------ *)
(** ** The scanner *)

Lemma map_update_same {A B} (h : A -> B) (g : A -> A) (i : nat) (l : list A) :
  (forall a, h (g a) = h a) -> map h (update i g l) = map h l.
Proof.
  intros Hg. revert i. induction l as [|a t IH]; intros [|i]; cbn [update map];
    rewrite ?Hg, ?IH; reflexivity.
Qed.

Lemma filter_update_same (q : fileEntry -> bool) (h : fileEntry -> Z)
    (g : fileEntry -> fileEntry) (i : nat) (l : list fileEntry) :
  (forall a, q (g a) = q a) -> (forall a, h (g a) = h a) ->
  map h (filter q (update i g l)) = map h (filter q l).
Proof.
  intros Hq Hh. revert i. induction l as [|a t IH]; intros [|i]; cbn [update filter];
    try reflexivity.
  - rewrite Hq. destruct (q a); cbn [map]; rewrite ?Hh; reflexivity.
  - destruct (q a); cbn [map]; rewrite IH; reflexivity.
Qed.

Lemma appendEntry_summary (fe : fileEntry) (parent : nat) (b : ISOBuilder) :
  map summary (fileEntries (appendEntry fe parent b))
  = map summary (fileEntries b) ++ [summary fe].
Proof.
  rewrite appendEntry_entries, map_update_same by reflexivity.
  now rewrite map_app.
Qed.

Lemma appendEntry_length (fe : fileEntry) (parent : nat) (b : ISOBuilder) :
  length (fileEntries (appendEntry fe parent b)) = S (length (fileEntries b)).
Proof.
  rewrite appendEntry_entries, length_update, length_app. cbn [length]. lia.
Qed.

Lemma scanLoop_outcome (l : list osNode) :
  Forall (fun e => forall cur parent base b next,
            (parent < length (fileEntries b))%nat ->
            scanOutcome b (readable e) (scanned e) (scanEntry cur parent base e (b, next))) l ->
  forall cur parent base b next,
    (parent < length (fileEntries b))%nat ->
    scanOutcome b (forallb readable l) (flat_map scanned l)
      (scanLoop (scanEntry cur parent base) l (b, next)).
Proof.
  induction 1 as [|e t He Ht IH]; intros cur parent base b next Hp;
    cbn [scanLoop forallb flat_map].
  - cbn. rewrite app_nil_r. auto.
  - specialize (He cur parent base b next Hp).
    destruct (scanEntry cur parent base e (b, next)) as [[b1 n1]| |]; cbn [bind scanOutcome] in *.
    + destruct He as (Hr & Hs & Hw).
      assert (Hp1 : (parent < length (fileEntries b1))%nat).
      { apply (f_equal (@length _)) in Hs. rewrite length_app, !length_map in Hs. lia. }
      specialize (IH cur parent base b1 n1 Hp1).
      destruct (scanLoop _ t (b1, n1)) as [[b2 n2]| |]; cbn [scanOutcome] in *.
      * destruct IH as (Hr2 & Hs2 & Hw2). rewrite Hr, Hr2, Hs2, Hs, <- app_assoc.
        repeat split; congruence.
      * now rewrite Hr, IH.
      * exact IH.
    + now rewrite He.
    + exact He.
Qed.

Lemma scanEntry_outcome (e : osNode) :
  forall cur parent base b next,
    (parent < length (fileEntries b))%nat ->
    scanOutcome b (readable e) (scanned e) (scanEntry cur parent base e (b, next)).
Proof.
  induction e using osNode_nested_ind; intros cur parent base b next Hp;
    cbn [scanEntry]; unfold index;
    (destruct (nth_error (fileEntries b) parent) as [p|] eqn:Ep;
     [|apply nth_error_None in Ep; lia]); cbn [bind].
  - cbn [scanOutcome readable scanned]. rewrite appendEntry_summary. auto.
  - cbn [scanOutcome readable scanned]. rewrite app_nil_r. auto.
  - cbn [scanOutcome readable scanned]. reflexivity.
  - cbn [readable scanned].
    match goal with
    | |- context [scanLoop ?f osEntries (?b1, ?n1)] =>
        pose proof (scanLoop_outcome osEntries H (filepathJoin cur name)
                      (length (fileEntries b)) base b1 n1) as Hl
    end.
    rewrite appendEntry_length in Hl. specialize (Hl ltac:(lia)).
    destruct (scanLoop _ osEntries _) as [[b2 n2]| |]; cbn [scanOutcome] in *.
    + destruct Hl as (Hr & Hs & Hw). rewrite appendEntry_summary in Hs.
      rewrite Hs, <- app_assoc. auto.
    + exact Hl.
    + exact Hl.
  - cbn [scanOutcome readable]. reflexivity.
Qed.

Lemma ScanSourceDirectory_outcome (b : ISOBuilder) (absPath : gostring) (l : list osNode) :
  match ScanSourceDirectory b (Some absPath) (Some l) with
  | Ok b' =>
      forallb readable l = true
      /\ map summary (fileEntries b') = ([0], true, 0) :: flat_map scanned l
      /\ withoutEntries b' = withoutEntries b
  | Err => forallb readable l = false
  | Panic => False
  end.
Proof.
  unfold ScanSourceDirectory, scanDirectoryRecursive. cbv zeta.
  match goal with
  | |- context [scanLoop (scanEntry ?c ?p ?s) l (?b1, ?n1)] =>
      pose proof (scanLoop_outcome l
                    ltac:(apply Forall_forall; intros e _; apply scanEntry_outcome)
                    c p s b1 n1) as Hl
  end.
  specialize (Hl ltac:(cbn; lia)).
  destruct (scanLoop _ l _) as [[b2 n2]| |]; cbn [bind scanOutcome fst] in *.
  - destruct Hl as (Hr & Hs & Hw). auto.
  - exact Hl.
  - exact Hl.
Qed.

(** X19: when [filepath.Abs] has returned the path of the source directory,
    every directory of the source tree can be read and every entry gives its
    [Info()], [ScanSourceDirectory] succeeds, whatever the table held before
    ([filepath.Rel] has no error on the absolute, cleaned paths of a scan);
    the table then lists the root, under the name of one zero byte, followed
    by the entities of the tree in depth-first order, a directory before
    what it holds, with their names, their kinds and their sizes modulo
    2^32, leaving out what is neither a regular file nor a directory; the
    other fields of the builder are unchanged. *)
Theorem ScanSourceDirectory_preorder (b : ISOBuilder) (absPath : gostring)
    (l : list osNode) :
  forallb readable l = true ->
  exists b',
    ScanSourceDirectory b (Some absPath) (Some l) = Ok b'
    /\ map summary (fileEntries b') = ([0], true, 0) :: flat_map scanned l
    /\ withoutEntries b' = withoutEntries b.
Proof.
  intros Hr. pose proof (ScanSourceDirectory_outcome b absPath l) as H.
  destruct (ScanSourceDirectory b (Some absPath) (Some l)) as [b'| |].
  - exists b'. split; [reflexivity|]. now destruct H as (_ & H1 & H2).
  - congruence.
  - contradiction.
Qed.

(** X20: [ScanSourceDirectory] never panics.  It returns an error when
    [filepath.Abs] fails, when the source directory or a directory below it
    cannot be read, and when an entry gives no [Info()], and in no other
    case ([filepath.Rel] has no error on the absolute, cleaned paths of a
    scan). *)
Theorem ScanSourceDirectory_errors (b : ISOBuilder) (absPath : gostring) :
  (forall listing, ScanSourceDirectory b None listing = Err)
  /\ ScanSourceDirectory b (Some absPath) None = Err
  /\ (forall l, ScanSourceDirectory b (Some absPath) (Some l) = Err
                <-> forallb readable l = false)
  /\ (forall abs listing, ScanSourceDirectory b abs listing <> Panic).
Proof.
  split; [reflexivity|]. split; [reflexivity|]. split.
  - intros l. pose proof (ScanSourceDirectory_outcome b absPath l) as H.
    destruct (ScanSourceDirectory b (Some absPath) (Some l)) as [b'| |].
    + destruct H as (H & _). split; [discriminate | congruence].
    + split; auto.
    + contradiction.
  - intros [abs|] [l|]; try discriminate.
    pose proof (ScanSourceDirectory_outcome b abs l) as H.
    destruct (ScanSourceDirectory b (Some abs) (Some l)); [discriminate.. | contradiction].
Qed.

Lemma appendEntry_dirNumbers (fe : fileEntry) (parent : nat) (b : ISOBuilder) :
  dirNumbers (fileEntries (appendEntry fe parent b))
  = dirNumbers (fileEntries b) ++ (if isDir fe then [pathTableDirNum fe] else []).
Proof.
  unfold dirNumbers. rewrite appendEntry_entries.
  rewrite filter_update_same by reflexivity.
  rewrite filter_app, map_app. cbn [filter]. now destruct (isDir fe).
Qed.

Lemma appendEntry_fileNumbers (fe : fileEntry) (parent : nat) (b : ISOBuilder) :
  fileNumbers (fileEntries (appendEntry fe parent b))
  = fileNumbers (fileEntries b) ++ (if isDir fe then [] else [pathTableDirNum fe]).
Proof.
  unfold fileNumbers. rewrite appendEntry_entries.
  rewrite filter_update_same by reflexivity.
  rewrite filter_app, map_app. cbn [filter]. now destruct (isDir fe).
Qed.

Lemma scanEntry_numbered (e : osNode) :
  forall cur parent base st st',
    scanEntry cur parent base e st = Ok st' -> numberedState st -> numberedState st'.
Proof.
  induction e using osNode_nested_ind; intros cur parent base [b next] st' Hscan Hn;
    cbn [scanEntry] in Hscan;
    destruct (index (fileEntries b) parent) as [p| |]; cbn [bind] in Hscan;
    try discriminate.
  - apply Ok_inj in Hscan. subst st'.
    destruct Hn as (H1 & H2 & H3). unfold numberedState in *. cbn [fst snd] in *.
    rewrite appendEntry_dirNumbers, appendEntry_fileNumbers.
    cbn [isDir newFileEntry pathTableDirNum]. rewrite app_nil_r.
    split; [exact H1|]. split; [exact H2|].
    apply Forall_app. split; [exact H3 | now constructor].
  - apply Ok_inj in Hscan. now subst st'.
  - eapply (scanLoop_preserves numberedState); [|exact Hscan|].
    + eapply Forall_impl; [|exact H]. intros e He st0 st1 H1 H2. eapply He; eauto.
    + destruct Hn as (H1 & H2 & H3). unfold numberedState in *. cbn [fst snd] in *.
      rewrite appendEntry_dirNumbers, appendEntry_fileNumbers.
      cbn [isDir newFileEntry pathTableDirNum]. rewrite app_nil_r.
      set (ds := dirNumbers (fileEntries b)) in *.
      assert (Hnext : next = wrap16 (Z.of_nat (length ds) + 1)) by exact H2.
      split; [|split; [|exact H3]].
      * rewrite length_app. cbn [length]. rewrite Nat.add_1_r.
        unfold numbersFromOne in *. rewrite seq_S, map_app. cbn [map Nat.add].
        now rewrite <- H1, <- Hnext.
      * rewrite Hnext. unfold len. rewrite length_app. cbn [length].
        unfold wrap16. rewrite Zplus_mod_idemp_l. f_equal. lia.
Qed.

(** X21: in the table that [ScanSourceDirectory] returns, the directories
    carry, in the order of the table and starting with the root, the
    path-table numbers 1, 2, 3, ... reduced modulo 2^16 (the counter is a
    [uint16]), and every other entry has the number 0. *)
Theorem ScanSourceDirectory_numbers (b b' : ISOBuilder) (absPath : gostring)
    (listing : option (list osNode)) :
  ScanSourceDirectory b (Some absPath) listing = Ok b' ->
  dirNumbers (fileEntries b') = numbersFromOne (length (dirNumbers (fileEntries b')))
  /\ Forall (fun n => n = 0) (fileNumbers (fileEntries b')).
Proof.
  unfold ScanSourceDirectory, scanDirectoryRecursive. cbv zeta.
  destruct listing as [l|]; cbn [bind]; [|discriminate].
  intros H. apply bind_Ok in H. destruct H as (st & Hscan & H).
  apply Ok_inj in H. subst b'.
  assert (Hn : numberedState st).
  { eapply (scanLoop_preserves numberedState); [|exact Hscan|].
    - apply Forall_forall. intros e _ st0 st1. apply scanEntry_numbered.
    - unfold numberedState. cbn. repeat split. constructor. }
  destruct Hn as (H1 & _ & H3). auto.
Qed.

Lemma StronglySorted_snoc (l : list nat) (n : nat) :
  StronglySorted lt l -> Forall (fun c => (c < n)%nat) l -> StronglySorted lt (l ++ [n]).
Proof.
  induction 1 as [|a t Ht IH Ha]; intros Hn; cbn [app].
  - repeat constructor.
  - inversion Hn as [|? ? Han Htn]; subst.
    constructor; [now apply IH|].
    apply Forall_app. split; [exact Ha | now constructor].
Qed.

Lemma extends_refl (es : list fileEntry) : extends es es.
Proof. intros i g H. exists g. repeat split; [exact H | apply incl_refl]. Qed.

Lemma extends_trans (es1 es2 es3 : list fileEntry) :
  extends es1 es2 -> extends es2 es3 -> extends es1 es3.
Proof.
  intros H12 H23 i g H. destruct (H12 i g H) as (g2 & H2 & E2 & I2).
  destruct (H23 i g2 H2) as (g3 & H3 & E3 & I3).
  exists g3. split; [exact H3|]. split; [congruence | eapply incl_tran; eauto].
Qed.

Lemma directoryAt_extends (es es' : list fileEntry) (i : nat) (path : gostring) :
  extends es es' -> directoryAt es i path -> directoryAt es' i path.
Proof.
  intros He (p & Hp & Hd & Hpath). destruct (He i p Hp) as (p' & Hp' & E & _).
  exists p'. split; [exact Hp'|]. unfold fixedPart in E. injection E as _ E1 _ E2 _ _.
  split; congruence.
Qed.

Lemma skipn_app_length {A} (l1 l2 : list A) : skipn (length l1) (l1 ++ l2) = l2.
Proof. induction l1 as [|a t IH]; [reflexivity | exact IH]. Qed.

(** A path that ends with a path element does not end with a separator. *)
Lemma endsWithSeparator_element (dir name : gostring) :
  pathElement name = true -> endsWithSeparator (dir ++ name) = false.
Proof.
  unfold pathElement. rewrite !andb_true_iff. intros [[[Hne Hall] _] _].
  destruct (exists_last (l := name)) as (l' & a & ->).
  { now destruct name. }
  rewrite forallb_app in Hall. apply andb_true_iff in Hall. destruct Hall as [_ Ha].
  cbn [forallb] in Ha. rewrite andb_true_r in Ha.
  unfold endsWithSeparator. rewrite app_assoc, last_last.
  now apply negb_true_iff in Ha.
Qed.

Lemma withSeparator_open (dir : gostring) :
  endsWithSeparator dir = false -> withSeparator dir = dir ++ str "/".
Proof. unfold withSeparator. now intros ->. Qed.

Section AppendStep.
Variables (absPath : gostring) (es : list fileEntry) (parent : nat) (p fe : fileEntry).
Hypothesis Htree : sourceTree absPath es.
Hypothesis Hp : nth_error es parent = Some p.
Hypothesis Hdir : isDir p = true.
Hypothesis Hfe_children : children fe = [].
Hypothesis Hfe_parent : parentIndex fe = parent.
Hypothesis Hfe_level : level fe = level p + 1.
Hypothesis Hfe_name : pathElement (originalName fe) = true.
Hypothesis Hfe_disk : diskPath fe = filepathJoin (diskPath p) (originalName fe).
Hypothesis Hfe_iso : isoPath fe = str "/" ++ filepathRel absPath (diskPath fe).

Lemma appended_old (i : nat) (g : fileEntry) :
  nth_error es i = Some g ->
  nth_error (update parent (appendChild (length es)) (es ++ [fe])) i
  = Some (if Nat.eqb i parent then appendChild (length es) g else g).
Proof.
  intros Hg.
  assert (Hi : (i < length es)%nat) by (apply nth_error_Some; congruence).
  destruct (Nat.eqb_spec i parent) as [->|Hne].
  - now rewrite nth_error_update_same, nth_error_app1, Hg.
  - rewrite nth_error_update_other by congruence. now rewrite nth_error_app1.
Qed.

Lemma appended_new :
  nth_error (update parent (appendChild (length es)) (es ++ [fe])) (length es) = Some fe.
Proof.
  assert (Hi : (parent < length es)%nat) by (apply nth_error_Some; congruence).
  rewrite nth_error_update_other by lia.
  now rewrite nth_error_app2, Nat.sub_diag by lia.
Qed.

Lemma appended_inv (i : nat) (f : fileEntry) :
  nth_error (update parent (appendChild (length es)) (es ++ [fe])) i = Some f ->
  (i = length es /\ f = fe)
  \/ (exists g, nth_error es i = Some g
                /\ f = if Nat.eqb i parent then appendChild (length es) g else g).
Proof.
  intros Hf.
  assert (Hi : (i < S (length es))%nat).
  { assert (H : (i < length (update parent (appendChild (length es)) (es ++ [fe])))%nat)
      by (apply nth_error_Some; congruence).
    rewrite length_update, length_app in H. cbn [length] in H. lia. }
  destruct (Nat.eq_dec i (length es)) as [->|Hne].
  - left. rewrite appended_new in Hf. split; congruence.
  - right. destruct (nth_error es i) as [g|] eqn:Hg.
    + exists g. split; [reflexivity|]. rewrite (appended_old i g Hg) in Hf. congruence.
    + apply nth_error_None in Hg. lia.
Qed.

Lemma appended_extends :
  extends es (update parent (appendChild (length es)) (es ++ [fe])).
Proof.
  intros i g Hg. eexists. split; [apply (appended_old i g Hg)|].
  destruct (Nat.eqb i parent); split; try reflexivity.
  - cbn [children appendChild]. apply incl_appl, incl_refl.
  - apply incl_refl.
Qed.

Lemma appended_isoPath :
  diskPath fe = withSeparator absPath ++ skipn 1 (isoPath fe)
  /\ endsWithSeparator (diskPath fe) = false
  /\ isoPath fe
     = (if Nat.eqb parent 0 then [] else isoPath p) ++ str "/" ++ originalName fe.
Proof.
  destruct Htree as [(root & Hroot & _ & Hrd & _) Hall].
  assert (Hend : endsWithSeparator (diskPath fe) = false).
  { rewrite Hfe_disk. unfold filepathJoin. now apply endsWithSeparator_element. }
  split; [|split; [exact Hend|]]; rewrite Hfe_iso, Hfe_disk; unfold filepathRel, filepathJoin;
    (destruct (Nat.eqb_spec parent 0) as [E|E];
     [ assert (p = root) by congruence; subst p; rewrite Hrd, skipn_app_length; reflexivity
     | destruct (Hall parent p Hp) as (_ & (r & Hr) & Hc);
       destruct (Hc ltac:(lia)) as (_ & Hd & Hs & _);
       rewrite (withSeparator_open _ Hs), Hd, Hr; cbn [skipn];
       rewrite <- !app_assoc, skipn_app_length; reflexivity ]).
Qed.

Lemma appended_sourceTree :
  sourceTree absPath (update parent (appendChild (length es)) (es ++ [fe])).
Proof.
  set (es' := update parent (appendChild (length es)) (es ++ [fe])).
  pose proof appended_extends as Hext. fold es' in Hext.
  assert (Hparent : (parent < length es)%nat) by (apply nth_error_Some; congruence).
  destruct Htree as [(root & Hroot & Hr1 & Hr2 & Hr3 & Hr4 & Hr5 & Hr6) Hall].
  split.
  - destruct (Hext 0%nat root Hroot) as (root' & Hroot' & E & _).
    exists root'. split; [exact Hroot'|].
    unfold fixedPart in E. injection E as E1 E2 E3 E4 E5 E6.
    repeat split; congruence.
  - intros i f Hf. destruct (appended_inv i f Hf) as [[-> ->] | (g & Hg & ->)].
    + (* the new entry *)
      split; [|split].
      * unfold listsChildren. rewrite Hfe_children.
        split; [constructor|]. split; [reflexivity | constructor].
      * rewrite Hfe_iso. now eexists.
      * intros _. destruct appended_isoPath as (Hd & Hs & Hi).
        split; [lia|]. split; [exact Hd|]. split; [exact Hs|].
        exists (appendChild (length es) p). rewrite Hfe_parent.
        split; [unfold es'; rewrite (appended_old parent p Hp), Nat.eqb_refl; reflexivity|].
        cbn [isDir level diskPath isoPath children appendChild].
        repeat split; try assumption.
        apply in_or_app. right. now left.
    + (* an entry that was there *)
      assert (Hi : (i < length es)%nat) by (apply nth_error_Some; congruence).
      destruct (Hall i g Hg) as ((Hs & Hfile & Hch) & Hslash & Hchild).
      assert (Hch' : Forall (fun c => (i < c)%nat
                               /\ exists g', nth_error es' c = Some g' /\ parentIndex g' = i)
                       (children g)).
      { eapply Forall_impl; [|exact Hch]. intros c (Hic & g2 & Hg2 & Hpar).
        split; [exact Hic|]. destruct (Hext c g2 Hg2) as (g2' & Hg2' & E & _).
        exists g2'. split; [exact Hg2'|].
        unfold fixedPart in E. injection E as _ _ _ _ _ E. congruence. }
      assert (Hlt : Forall (fun c => (c < length es)%nat) (children g)).
      { eapply Forall_impl; [|exact Hch]. intros c (_ & g2 & Hg2 & _).
        apply nth_error_Some. congruence. }
      split; [|split].
      * destruct (Nat.eqb_spec i parent) as [->|Hne].
        -- cbn [listsChildren children isDir appendChild]. unfold listsChildren.
           cbn [children isDir appendChild].
           split; [now apply StronglySorted_snoc|].
           split; [assert (g = p) by congruence; subst g; congruence|].
           apply Forall_app. split; [exact Hch'|].
           constructor; [|constructor]. split; [exact Hparent|].
           exists fe. split; [apply appended_new | exact Hfe_parent].
        -- unfold listsChildren. auto.
      * destruct (Nat.eqb i parent); exact Hslash.
      * intros Hpos.
        destruct (Hchild Hpos) as (H1 & H2 & H2' & pg & Hpg & H3 & H4 & H5 & H6 & H7).
        destruct (Hext _ pg Hpg) as (pg' & Hpg' & E & Hincl).
        unfold fixedPart in E. injection E as E1 E2 E3 E4 E5 E6.
        assert (Hgoal : childOf absPath es' i g).
        { split; [exact H1|]. split; [exact H2|]. split; [exact H2'|].
          exists pg'. split; [exact Hpg'|].
          rewrite E2, E3, E4, E5. repeat split; try assumption. now apply Hincl. }
        destruct (Nat.eqb i parent); exact Hgoal.
Qed.

End AppendStep.

Lemma scanLoop_tree (absPath : gostring) (l : list osNode) :
  Forall (scanKeepsTree absPath) l ->
  forall cur parent st st',
    forallb plainNode l = true ->
    scanLoop (scanEntry cur parent absPath) l st = Ok st' ->
    sourceTree absPath (fileEntries (fst st)) ->
    directoryAt (fileEntries (fst st)) parent cur ->
    sourceTree absPath (fileEntries (fst st'))
    /\ extends (fileEntries (fst st)) (fileEntries (fst st')).
Proof.
  induction 1 as [|e t He Ht IH]; intros cur parent st st' Hplain Hscan Htree Hdir;
    cbn [scanLoop] in Hscan.
  - apply Ok_inj in Hscan. subst st'. split; [exact Htree | apply extends_refl].
  - cbn [forallb] in Hplain. apply andb_true_iff in Hplain. destruct Hplain as [Hpe Hpt].
    apply bind_Ok in Hscan. destruct Hscan as (st1 & H1 & Hscan).
    destruct (He cur parent st st1 Hpe H1 Htree Hdir) as (Htree1 & Hext1).
    destruct (IH cur parent st1 st' Hpt Hscan Htree1
                (directoryAt_extends _ _ _ _ Hext1 Hdir)) as (Htree2 & Hext2).
    split; [exact Htree2 | eapply extends_trans; eauto].
Qed.

Lemma scanEntry_tree (absPath : gostring) (e : osNode) : scanKeepsTree absPath e.
Proof.
  induction e using osNode_nested_ind; unfold scanKeepsTree;
    intros cur parent [b next] st' Hplain Hscan Htree (p & Hp & Hdir & Hcur);
    cbn [fst] in *; cbn [scanEntry] in Hscan; unfold index in Hscan;
    rewrite ?Hp in Hscan; cbn [bind osName] in Hscan;
    cbn [plainNode osName] in Hplain; apply andb_true_iff in Hplain;
    destruct Hplain as [Hname Hbelow].
  - apply Ok_inj in Hscan. subst st'. cbn [fst].
    rewrite appendEntry_entries.
    split.
    + apply (appended_sourceTree absPath (fileEntries b) parent p); auto.
      cbn [diskPath originalName newFileEntry]. now rewrite Hcur.
    + eapply appended_extends; eauto.
  - apply Ok_inj in Hscan. subst st'. split; [exact Htree | apply extends_refl].
  - discriminate.
  - set (fe := newFileEntry name (filepathJoin cur name) _ true _ parent 0 next) in Hscan.
    assert (Htree1 : sourceTree absPath (fileEntries (appendEntry fe parent b))).
    { rewrite appendEntry_entries.
      apply (appended_sourceTree absPath (fileEntries b) parent p); auto.
      cbn [diskPath originalName newFileEntry fe]. now rewrite Hcur. }
    assert (Hext1 : extends (fileEntries b) (fileEntries (appendEntry fe parent b))).
    { rewrite appendEntry_entries. eapply appended_extends; eauto. }
    assert (Hdir1 : directoryAt (fileEntries (appendEntry fe parent b))
                      (length (fileEntries b)) (filepathJoin cur name)).
    { exists fe. rewrite appendEntry_entries.
      split; [eapply appended_new; eauto | split; reflexivity]. }
    destruct (scanLoop_tree absPath osEntries H _ _ _ _ Hbelow Hscan Htree1 Hdir1)
      as (Htree2 & Hext2).
    split; [exact Htree2 | eapply extends_trans; eauto].
  - discriminate.
Qed.

(** The table with which a scan starts is a tree. *)
Lemma rootTable_sourceTree (absPath : gostring) :
  sourceTree absPath
    [mkFileEntry [0] absPath (str "/") true 0 0 [] [] [] 0 0 0 0 0 0 1 false].
Proof.
  split.
  - eexists. split; [reflexivity|]. cbn. repeat split.
  - intros [|[|i]] f Hf; cbn in Hf; try discriminate.
    injection Hf as <-.
    split; [|split].
    + unfold listsChildren. cbn [children isDir].
      split; [constructor|]. split; [reflexivity | constructor].
    + now eexists.
    + intros Hi. lia.
Qed.

Lemma ScanSourceDirectory_sourceTree (b b' : ISOBuilder) (absPath : gostring)
    (l : list osNode) :
  forallb plainNode l = true ->
  ScanSourceDirectory b (Some absPath) (Some l) = Ok b' ->
  sourceTree absPath (fileEntries b').
Proof.
  intros Hplain. unfold ScanSourceDirectory, scanDirectoryRecursive. cbv zeta.
  intros H. apply bind_Ok in H. destruct H as (st & Hscan & H).
  apply Ok_inj in H. subst b'.
  refine (proj1 (scanLoop_tree absPath l _ _ _ _ _ Hplain Hscan _ _)).
  - apply Forall_forall. intros e _. apply scanEntry_tree.
  - apply rootTable_sourceTree.
  - cbn [fst fileEntries setFileEntries app]. eexists.
    split; [reflexivity|]. split; reflexivity.
Qed.

(** X22: for a source directory given by an absolute, cleaned path, as
    [filepath.Abs] returns it, and entries named by single path elements, as
    [os.ReadDir] names them, the table that [ScanSourceDirectory] returns is
    the source tree: the root comes first, named by one zero byte, with the
    source directory as its disk path and [/] as its path in the image;
    every other entry has a directory before it in the table as its parent,
    lies one level below it, has the path of the parent joined with its own
    name as its disk path, the path of the parent (empty for the root)
    followed by [/] and its own name as its path in the image, and is listed
    among the children of that parent; its disk path is the source
    directory, a separator, and its path in the image without the leading
    [/]; the children of an entry are listed in increasing order, come after
    it and name it as their parent; a file has no children. *)
Theorem ScanSourceDirectory_tree (b b' : ISOBuilder) (absPath : gostring)
    (l : list osNode) :
  cleanedAbsolute absPath = true ->
  forallb plainNode l = true ->
  ScanSourceDirectory b (Some absPath) (Some l) = Ok b' ->
  sourceTree absPath (fileEntries b').
Proof. intros _. apply ScanSourceDirectory_sourceTree. Qed.

(* ------------------------------------------------------------------ *)
(** ** The planner *)

Section PlaceEntries.
Variables (sel : fileEntry -> bool) (size : fileEntry -> Z) (set : Z -> fileEntry -> fileEntry).

Lemma placeEntries_length (es : list fileEntry) (lba : Z) :
  length (fst (placeEntries sel size set es lba)) = length es.
Proof.
  revert lba. induction es as [|f t IH]; intros lba; cbn [placeEntries]; [reflexivity|].
  destruct (sel f).
  - specialize (IH (wrap32 (lba + size f))). destruct (placeEntries _ _ _ t _).
    cbn [fst length] in *. now rewrite IH.
  - specialize (IH lba). destruct (placeEntries _ _ _ t _).
    cbn [fst length] in *. now rewrite IH.
Qed.

(** What the pass leaves alone. *)
Lemma placeEntries_frame {B} (h : fileEntry -> B) (q : fileEntry -> bool)
    (es : list fileEntry) (lba : Z) :
  (forall v f, q (set v f) = q f) ->
  (forall v f, sel f = true -> q f = true -> h (set v f) = h f) ->
  map h (filter q (fst (placeEntries sel size set es lba))) = map h (filter q es).
Proof.
  intros Hq Hh. revert lba.
  induction es as [|f t IH]; intros lba; cbn [placeEntries]; [reflexivity|].
  destruct (sel f) eqn:Es.
  - specialize (IH (wrap32 (lba + size f))). destruct (placeEntries _ _ _ t _).
    cbn [fst filter] in *. rewrite Hq.
    destruct (q f) eqn:Eq; cbn [map]; [rewrite Hh by assumption|]; now rewrite IH.
  - specialize (IH lba). destruct (placeEntries _ _ _ t _).
    cbn [fst filter] in *. destruct (q f); cbn [map]; now rewrite IH.
Qed.

(** The addresses that the pass gives. *)
Lemma placeEntries_placed (sector : fileEntry -> Z) (es : list fileEntry) (lba : Z) :
  (forall v f, sel (set v f) = sel f) ->
  (forall v f, sector (set v f) = v) ->
  map sector (filter sel (fst (placeEntries sel size set es lba)))
  = placed lba (map size (filter sel es))
  /\ snd (placeEntries sel size set es lba) = placedEnd lba (map size (filter sel es)).
Proof.
  intros Hsel Hsec. revert lba.
  induction es as [|f t IH]; intros lba; cbn [placeEntries]; [split; reflexivity|].
  destruct (sel f) eqn:Es.
  - specialize (IH (wrap32 (lba + size f))). destruct (placeEntries _ _ _ t _).
    cbn [fst snd filter] in *. rewrite Hsel, Es. cbn [map placed]. rewrite Hsec.
    destruct IH as [IH1 IH2]. rewrite IH1. split; [reflexivity | exact IH2].
  - specialize (IH lba). destruct (placeEntries _ _ _ t _).
    cbn [fst snd filter] in *. rewrite Es. exact IH.
Qed.

(** A loop over the table whose rounds do what a step of the pass does. *)
Lemma forRangeFrom_placeEntries (body : nat -> ISOBuilder * Z -> result (ISOBuilder * Z))
    (post : list fileEntry) :
  (forall i b lba st',
      body i (b, lba) = Ok st' ->
      exists f, nth_error (fileEntries b) i = Some f
                /\ fileEntries (fst st')
                   = update i (fun _ => if sel f then set lba f else f) (fileEntries b)
                /\ snd st' = (if sel f then wrap32 (lba + size f) else lba)
                /\ withoutEntries (fst st') = withoutEntries b) ->
  forall (pre : list fileEntry) (b : ISOBuilder) (lba : Z) (st' : ISOBuilder * Z),
    fileEntries b = pre ++ post ->
    forRangeFrom body (length pre) (length post) (b, lba) = Ok st' ->
    fileEntries (fst st') = pre ++ fst (placeEntries sel size set post lba)
    /\ snd st' = snd (placeEntries sel size set post lba)
    /\ withoutEntries (fst st') = withoutEntries b.
Proof.
  intros Hbody. induction post as [|f t IH]; intros pre b lba st' Hb Hrun;
    cbn [forRangeFrom length] in Hrun.
  - apply Ok_inj in Hrun. subst st'. cbn [fst snd placeEntries]. auto.
  - apply bind_Ok in Hrun. destruct Hrun as ([b1 lba1] & H1 & Hrun).
    destruct (Hbody _ _ _ _ H1) as (f0 & Hf0 & He & Hl & Hw). cbn [fst snd] in *.
    assert (f0 = f).
    { rewrite Hb, nth_error_app2, Nat.sub_diag in Hf0 by lia. now injection Hf0. }
    subst f0.
    rewrite Hb, update_app_length in He.
    specialize (IH (pre ++ [if sel f then set lba f else f]) b1 lba1 st').
    rewrite length_app, Nat.add_1_r in IH.
    destruct (IH ltac:(now rewrite He, <- app_assoc) Hrun) as (IH1 & IH2 & IH3).
    rewrite <- app_assoc in IH1. cbn [app] in IH1. cbn [placeEntries].
    destruct (sel f); subst lba1; destruct (placeEntries sel size set t _);
      cbn [fst snd] in *; (split; [exact IH1 | split; [exact IH2 | congruence]]).
Qed.

End PlaceEntries.

Lemma update_const {A} (i : nat) (g : A -> A) (l : list A) (a : A) :
  nth_error l i = Some a -> update i g l = update i (fun _ => g a) l.
Proof.
  revert i. induction l as [|x t IH]; intros [|i] H; cbn [update] in *;
    try discriminate.
  - now injection H as ->.
  - now rewrite (IH i H).
Qed.

Lemma update_id {A} (i : nat) (l : list A) (a : A) :
  nth_error l i = Some a -> l = update i (fun _ => a) l.
Proof.
  revert i. induction l as [|x t IH]; intros [|i] H; cbn [update] in *;
    try discriminate.
  - now injection H as ->.
  - now rewrite <- (IH i H).
Qed.

Lemma assignIso9660DirLBA_step (i : nat) (b : ISOBuilder) (lba : Z) (st' : ISOBuilder * Z) :
  assignIso9660DirLBA i (b, lba) = Ok st' ->
  exists f, nth_error (fileEntries b) i = Some f
            /\ fileEntries (fst st')
               = update i (fun _ => if isDir f then setIso9660Sector lba f else f)
                   (fileEntries b)
            /\ snd st' = (if isDir f then wrap32 (lba + iso9660Size f / SectorSize) else lba)
            /\ withoutEntries (fst st') = withoutEntries b.
Proof.
  unfold assignIso9660DirLBA, index.
  destruct (nth_error (fileEntries b) i) as [f|] eqn:Ef; cbn [bind]; [|discriminate].
  intros H. exists f. split; [reflexivity|].
  destruct (isDir f).
  - destruct (iso9660Size f =? 0); [discriminate|].
    destruct (negb _); [discriminate|].
    apply Ok_inj in H. subst st'. cbn [fst snd].
    repeat split. unfold updateEntry. cbn [fileEntries setFileEntries].
    now apply update_const.
  - apply Ok_inj in H. subst st'. cbn [fst snd].
    repeat split. now apply update_id.
Qed.

Lemma assignFileLBA_step (i : nat) (b : ISOBuilder) (lba : Z) (st' : ISOBuilder * Z) :
  assignFileLBA i (b, lba) = Ok st' ->
  exists f, nth_error (fileEntries b) i = Some f
            /\ fileEntries (fst st')
               = update i (fun _ => if isFile f
                                    then setJolietSector lba (setIso9660Sector lba f)
                                    else f)
                   (fileEntries b)
            /\ snd st'
               = (if isFile f then wrap32 (lba + sectorsToContainFileBytes (iso9660Size f))
                  else lba)
            /\ withoutEntries (fst st') = withoutEntries b.
Proof.
  unfold assignFileLBA, index, isFile.
  destruct (nth_error (fileEntries b) i) as [f|] eqn:Ef; cbn [bind]; [|discriminate].
  intros H. exists f. split; [reflexivity|].
  destruct (isDir f); cbn [negb] in *.
  - apply Ok_inj in H. subst st'. cbn [fst snd].
    repeat split. now apply update_id.
  - apply Ok_inj in H. subst st'. cbn [fst snd].
    repeat split. unfold updateEntry. cbn [fileEntries setFileEntries].
    rewrite update_update.
    now apply (update_const i (fun a => setJolietSector lba (setIso9660Sector lba a))).
Qed.

Lemma assignJolietDirLBA_step (i : nat) (b : ISOBuilder) (lba : Z) (st' : ISOBuilder * Z) :
  assignJolietDirLBA i (b, lba) = Ok st' ->
  exists f, nth_error (fileEntries b) i = Some f
            /\ fileEntries (fst st')
               = update i (fun _ => if isDir f then setJolietSector lba f else f)
                   (fileEntries b)
            /\ snd st' = (if isDir f then wrap32 (lba + jolietSize f / SectorSize) else lba)
            /\ withoutEntries (fst st') = withoutEntries b.
Proof.
  unfold assignJolietDirLBA, index.
  destruct (nth_error (fileEntries b) i) as [f|] eqn:Ef; cbn [bind]; [|discriminate].
  intros H. exists f. split; [reflexivity|].
  destruct (isDir f).
  - destruct (jolietSize f =? 0); [discriminate|].
    destruct (negb _); [discriminate|].
    apply Ok_inj in H. subst st'. cbn [fst snd].
    repeat split. unfold updateEntry. cbn [fileEntries setFileEntries].
    now apply update_const.
  - apply Ok_inj in H. subst st'. cbn [fst snd].
    repeat split. now apply update_id.
Qed.

(** [assignContentLBAs] as three passes over the table. *)
Lemma assignContentLBAs_passes (b : ISOBuilder) (startLBA : Z) (st : ISOBuilder * Z) :
  assignContentLBAs b startLBA = Ok st ->
  let pass1 := placeEntries isDir (fun f => iso9660Size f / SectorSize) setIso9660Sector
                 (fileEntries b) startLBA in
  let pass2 := placeEntries isFile (fun f => sectorsToContainFileBytes (iso9660Size f))
                 (fun v f => setJolietSector v (setIso9660Sector v f))
                 (fst pass1) (snd pass1) in
  let pass3 := placeEntries isDir (fun f => jolietSize f / SectorSize) setJolietSector
                 (fst pass2) (snd pass2) in
  fileEntries (fst st) = fst pass3
  /\ snd st = snd pass3
  /\ withoutEntries (fst st) = withoutEntries b.
Proof.
  unfold assignContentLBAs, forRange. cbv zeta. intros H.
  apply bind_Ok in H. destruct H as ([b1 l1] & H1 & H).
  apply bind_Ok in H. destruct H as ([b2 l2] & H2 & H3).
  destruct (forRangeFrom_placeEntries isDir _ setIso9660Sector assignIso9660DirLBA
              (fileEntries b) assignIso9660DirLBA_step [] b startLBA _ eq_refl H1)
    as (E1 & L1 & W1).
  cbn [fst snd app] in E1, L1, W1.
  assert (Hn1 : length (fileEntries b) = length (fileEntries b1))
    by (rewrite E1; symmetry; apply placeEntries_length).
  rewrite Hn1 in H2.
  destruct (forRangeFrom_placeEntries isFile _
              (fun v f => setJolietSector v (setIso9660Sector v f)) assignFileLBA
              (fileEntries b1) assignFileLBA_step [] b1 l1 _ eq_refl H2)
    as (E2 & L2 & W2).
  cbn [fst snd app] in E2, L2, W2.
  assert (Hn2 : length (fileEntries b1) = length (fileEntries b2))
    by (rewrite E2; symmetry; apply placeEntries_length).
  rewrite Hn1, Hn2 in H3.
  destruct st as [b3 l3].
  destruct (forRangeFrom_placeEntries isDir _ setJolietSector assignJolietDirLBA
              (fileEntries b2) assignJolietDirLBA_step [] b2 l2 _ eq_refl H3)
    as (E3 & L3 & W3).
  cbn [fst snd app] in E3, L3, W3 |- *.
  rewrite E3, L3, E2, L2, E1, L1. repeat split. congruence.
Qed.

(** The parts of [calculateLayout]. *)
Lemma calculateLayout_parts (b r : ISOBuilder) :
  calculateLayout b = Ok r ->
  exists b2 st,
    calculateAllDirectoryExtentSizes
      (setFileEntries (map assignSanitizedNameAndDrSize (fileEntries b)) b) = Ok b2
    /\ assignContentLBAs (fst (determinePathTableLBAs b2 19))
         (snd (determinePathTableLBAs b2 19)) = Ok st
    /\ pregeneratePathTables (setTotalSectors (wrap32 (snd st + 1)) (fst st)) = Ok r.
Proof.
  unfold calculateLayout. rewrite assignSanitizedNamesAndDrSizes_map. cbn [bind].
  intros H. apply bind_Ok in H. destruct H as (b2 & H2 & H).
  exists b2. cbv zeta in H.
  change (wrap32 (SystemAreaNumSectors + 3)) with 19 in H.
  destruct (determinePathTableLBAs b2 19) as [b3 lba3].
  apply bind_Ok in H. destruct H as ([b4 lba4] & H4 & H).
  exists (b4, lba4). split; [exact H2|]. split; [exact H4|]. exact H.
Qed.

Lemma placeEntries_map {B} (sel : fileEntry -> bool) (size : fileEntry -> Z)
    (set : Z -> fileEntry -> fileEntry) (h : fileEntry -> B) (es : list fileEntry) (lba : Z) :
  (forall v f, h (set v f) = h f) ->
  map h (fst (placeEntries sel size set es lba)) = map h es.
Proof.
  intros Hh. revert lba.
  induction es as [|f t IH]; intros lba; cbn [placeEntries]; [reflexivity|].
  destruct (sel f).
  - specialize (IH (wrap32 (lba + size f))). destruct (placeEntries _ _ _ t _).
    cbn [fst map] in *. now rewrite Hh, IH.
  - specialize (IH lba). destruct (placeEntries _ _ _ t _).
    cbn [fst map] in *. now rewrite IH.
Qed.

(** The fields of an entry that the sizes of the path tables depend on. *)
Lemma calculatePathTableTotalBytes_ext (b b' : ISOBuilder) (isJoliet : bool) :
  map (fun f => (isDir f, pathTableDirNum f, iso9660Name f, jolietName f)) (fileEntries b')
  = map (fun f => (isDir f, pathTableDirNum f, iso9660Name f, jolietName f)) (fileEntries b) ->
  calculatePathTableTotalBytes b' isJoliet = calculatePathTableTotalBytes b isJoliet.
Proof.
  unfold calculatePathTableTotalBytes.
  match goal with |- _ -> fold_left ?F _ ?a = _ => set (step := F); generalize a end.
  generalize (fileEntries b). generalize (fileEntries b').
  induction l as [|f' t' IH]; intros [|f t] acc H; cbn [map] in H; try discriminate.
  - reflexivity.
  - injection H as E1 E2 E3 E4 Ht. cbn [fold_left].
    replace (step acc f') with (step acc f); [now apply IH|].
    unfold step, pathTableIdentifier. now rewrite E1, E2, E3, E4.
Qed.

Lemma pregeneratePathTables_checked (b r : ISOBuilder) :
  pregeneratePathTables b = Ok r ->
  fileEntries r = fileEntries b /\ totalSectors r = totalSectors b /\ ptLBAs r = ptLBAs b
  /\ pvdRootDirExtentSize r = pvdRootDirExtentSize b
  /\ svdRootDirExtentSize r = svdRootDirExtentSize b
  /\ len (pvdPathTableLData (ptData r)) = calculatePathTableTotalBytes b false
  /\ len (svdPathTableLData (ptData r)) = calculatePathTableTotalBytes b true
  /\ len (pvdPathTableMData (ptData r)) = calculatePathTableTotalBytes b false
  /\ len (svdPathTableMData (ptData r)) = calculatePathTableTotalBytes b true.
Proof.
  unfold pregeneratePathTables. intros H.
  apply bind_Ok in H. destruct H as (pvdL & _ & H).
  apply bind_Ok in H. destruct H as (pvdM & _ & H).
  apply bind_Ok in H. destruct H as (svdL & _ & H).
  apply bind_Ok in H. destruct H as (svdM & _ & H).
  cbv zeta in H.
  set (b1 := setPtData (mkPathTableData pvdL pvdM svdL svdM) b) in H.
  assert (Hc : forall isJoliet, calculatePathTableTotalBytes b1 isJoliet
                                = calculatePathTableTotalBytes b isJoliet)
    by reflexivity.
  rewrite !Hc in H.
  destruct (len (pvdPathTableLData (ptData b1)) =? calculatePathTableTotalBytes b false) eqn:E1;
    cbn [negb] in H; [|discriminate].
  destruct (len (svdPathTableLData (ptData b1)) =? calculatePathTableTotalBytes b true) eqn:E2;
    cbn [negb] in H; [|discriminate].
  destruct (len (pvdPathTableMData (ptData b1)) =? calculatePathTableTotalBytes b false) eqn:E3;
    cbn [negb] in H; [|discriminate].
  destruct (len (svdPathTableMData (ptData b1)) =? calculatePathTableTotalBytes b true) eqn:E4;
    cbn [negb] in H; [|discriminate].
  apply Ok_inj in H. subst r.
  apply Z.eqb_eq in E1, E2, E3, E4. repeat split; assumption.
Qed.

(** What [calculateLayout] returns, in terms of the passes. *)
Lemma calculateLayout_passes (b r : ISOBuilder) :
  calculateLayout b = Ok r ->
  exists b2,
    calculateAllDirectoryExtentSizes
      (setFileEntries (map assignSanitizedNameAndDrSize (fileEntries b)) b) = Ok b2
    /\ let start := placedEnd 19 (pathTableSectors r) in
       let pass1 := placeEntries isDir (fun f => iso9660Size f / SectorSize) setIso9660Sector
                      (fileEntries b2) start in
       let pass2 := placeEntries isFile (fun f => sectorsToContainFileBytes (iso9660Size f))
                      (fun v f => setJolietSector v (setIso9660Sector v f))
                      (fst pass1) (snd pass1) in
       let pass3 := placeEntries isDir (fun f => jolietSize f / SectorSize) setJolietSector
                      (fst pass2) (snd pass2) in
       fileEntries r = fst pass3
       /\ totalSectors r = wrap32 (snd pass3 + 1)
       /\ [lbaPvdPathTableL (ptLBAs r); lbaPvdPathTableM (ptLBAs r);
           lbaSvdPathTableL (ptLBAs r); lbaSvdPathTableM (ptLBAs r);
           lbaPvdPathTableL2 (ptLBAs r); lbaPvdPathTableM2 (ptLBAs r);
           lbaSvdPathTableL2 (ptLBAs r); lbaSvdPathTableM2 (ptLBAs r)]
          = placed 19 (pathTableSectors r)
       /\ len (pvdPathTableMData (ptData r)) = len (pvdPathTableLData (ptData r))
       /\ len (svdPathTableMData (ptData r)) = len (svdPathTableLData (ptData r))
       /\ pvdRootDirExtentSize r = pvdRootDirExtentSize b2
       /\ svdRootDirExtentSize r = svdRootDirExtentSize b2.
Proof.
  intros H. destruct (calculateLayout_parts b r H) as (b2 & [b4 lba4] & H2 & H4 & H5).
  exists b2. split; [exact H2|].
  apply pregeneratePathTables_checked in H5.
  destruct H5 as (He & Ht & Hl & Hp & Hs & C1 & C2 & C3 & C4).
  cbn [fst snd fileEntries totalSectors ptLBAs setTotalSectors pvdRootDirExtentSize
       svdRootDirExtentSize] in He, Ht, Hl, Hp, Hs.
  pose proof (assignContentLBAs_passes _ _ _ H4) as Hpass. cbv zeta in Hpass.
  destruct Hpass as (E & L & W). cbn [fst snd] in E, L, W.
  change (fileEntries (fst (determinePathTableLBAs b2 19))) with (fileEntries b2) in E, L.
  assert (Hkey : forall isJoliet,
             calculatePathTableTotalBytes
               (setTotalSectors (wrap32 (lba4 + 1)) b4) isJoliet
             = calculatePathTableTotalBytes b2 isJoliet).
  { intros isJoliet. apply calculatePathTableTotalBytes_ext.
    cbn [fileEntries setTotalSectors]. rewrite E.
    rewrite !placeEntries_map by reflexivity. reflexivity. }
  rewrite Hkey in C1, C2, C3, C4.
  assert (Hstart : snd (determinePathTableLBAs b2 19) = placedEnd 19 (pathTableSectors r)).
  { unfold pathTableSectors. rewrite C1, C2. reflexivity. }
  assert (Hlbas : ptLBAs r = ptLBAs (fst (determinePathTableLBAs b2 19))).
  { rewrite Hl. change (ptLBAs b4) with (ptLBAs (withoutEntries b4)). now rewrite W. }
  cbv zeta. rewrite <- Hstart.
  split; [congruence|]. split; [congruence|].
  split.
  { rewrite Hlbas. unfold pathTableSectors. rewrite C1, C2. reflexivity. }
  split; [congruence|]. split; [congruence|].
  split.
  - rewrite Hp. change (pvdRootDirExtentSize b4) with (pvdRootDirExtentSize (withoutEntries b4)).
    now rewrite W.
  - rewrite Hs. change (svdRootDirExtentSize b4) with (svdRootDirExtentSize (withoutEntries b4)).
    now rewrite W.
Qed.

Ltac frame_side :=
  intros; try reflexivity; unfold isFile in *;
  match goal with
  | H : negb (isDir ?f) = true, H' : isDir ?f = true |- _ => rewrite H' in H; discriminate
  | H : isDir ?f = true, H' : negb (isDir ?f) = true |- _ => rewrite H in H'; discriminate
  end.

(** X23: in a plan that [calculateLayout] returns, the eight path tables
    lie one after the other from sector 19, in the order primary L, primary
    M, Joliet L, Joliet M and then the second copies in the same order; each
    takes the sectors that hold its bytes, and the M table of a namespace is
    as long as its L table. *)
Theorem calculateLayout_path_tables (b r : ISOBuilder) :
  calculateLayout b = Ok r ->
  [lbaPvdPathTableL (ptLBAs r); lbaPvdPathTableM (ptLBAs r);
   lbaSvdPathTableL (ptLBAs r); lbaSvdPathTableM (ptLBAs r);
   lbaPvdPathTableL2 (ptLBAs r); lbaPvdPathTableM2 (ptLBAs r);
   lbaSvdPathTableL2 (ptLBAs r); lbaSvdPathTableM2 (ptLBAs r)]
  = placed 19 (pathTableSectors r)
  /\ len (pvdPathTableMData (ptData r)) = len (pvdPathTableLData (ptData r))
  /\ len (svdPathTableMData (ptData r)) = len (svdPathTableLData (ptData r)).
Proof.
  intros H. destruct (calculateLayout_passes b r H) as (b2 & _ & Hp).
  cbv zeta in Hp. destruct Hp as (_ & _ & H1 & H2 & H3 & _). auto.
Qed.

(** X24: in a plan that [calculateLayout] returns, the extents follow the
    path tables without a gap, each starting where the one before ends (the
    additions are those of [uint32]): first the primary extents of the
    directories in the order of the table, then the extents of the files in
    the order of the table, which both namespaces share and which take the
    sectors that [sectorsToContainFileBytes] gives for the size of the file,
    then the Joliet extents of the directories; a directory extent takes its
    size divided by 2048; [totalSectors] is the address after the last
    extent plus one. *)
Theorem calculateLayout_extents (b r : ISOBuilder) :
  calculateLayout b = Ok r ->
  let es := fileEntries r in
  let s0 := placedEnd 19 (pathTableSectors r) in
  let s1 := placedEnd s0 (isoDirSectors es) in
  let s2 := placedEnd s1 (fileSectors es) in
  map iso9660Sector (filter isDir es) = placed s0 (isoDirSectors es)
  /\ map iso9660Sector (filter isFile es) = placed s1 (fileSectors es)
  /\ map jolietSector (filter isFile es) = placed s1 (fileSectors es)
  /\ map jolietSector (filter isDir es) = placed s2 (jolietDirSectors es)
  /\ totalSectors r = wrap32 (placedEnd s2 (jolietDirSectors es) + 1).
Proof.
  intros H. destruct (calculateLayout_passes b r H) as (b2 & _ & Hp).
  cbv zeta in Hp. destruct Hp as (He & Ht & _).
  cbv zeta. rewrite Ht, He. clear He Ht H.
  set (s0 := placedEnd 19 (pathTableSectors r)).
  set (isoSz := fun f => iso9660Size f / SectorSize).
  set (fileSz := fun f => sectorsToContainFileBytes (iso9660Size f)).
  set (jolSz := fun f => jolietSize f / SectorSize).
  set (setFile := fun v f => setJolietSector v (setIso9660Sector v f)).
  set (es2 := fileEntries b2).
  set (pass1 := placeEntries isDir isoSz setIso9660Sector es2 s0).
  set (pass2 := placeEntries isFile fileSz setFile (fst pass1) (snd pass1)).
  set (pass3 := placeEntries isDir jolSz setJolietSector (fst pass2) (snd pass2)).
  assert (Hiso : isoDirSectors (fst pass3) = map isoSz (filter isDir es2)).
  { unfold isoDirSectors, pass3, pass2, pass1. fold isoSz.
    rewrite !placeEntries_frame by frame_side. reflexivity. }
  assert (Hfile : fileSectors (fst pass3) = map fileSz (filter isFile (fst pass1))).
  { unfold fileSectors, pass3, pass2. fold fileSz.
    rewrite placeEntries_frame by frame_side.
    rewrite placeEntries_frame by frame_side. reflexivity. }
  assert (Hjol : jolietDirSectors (fst pass3) = map jolSz (filter isDir (fst pass2))).
  { unfold jolietDirSectors, pass3. fold jolSz.
    rewrite placeEntries_frame by frame_side. reflexivity. }
  destruct (placeEntries_placed isDir isoSz setIso9660Sector iso9660Sector es2 s0
              ltac:(frame_side) ltac:(frame_side)) as [P1 E1].
  destruct (placeEntries_placed isFile fileSz setFile iso9660Sector (fst pass1) (snd pass1)
              ltac:(frame_side) ltac:(frame_side)) as [P2 E2].
  destruct (placeEntries_placed isFile fileSz setFile jolietSector (fst pass1) (snd pass1)
              ltac:(frame_side) ltac:(frame_side)) as [P2' _].
  destruct (placeEntries_placed isDir jolSz setJolietSector jolietSector (fst pass2) (snd pass2)
              ltac:(frame_side) ltac:(frame_side)) as [P3 E3].
  fold pass1 in P1, E1. fold pass2 in P2, P2', E2. fold pass3 in P3, E3.
  rewrite Hiso, Hfile, Hjol, <- E1, <- E2, <- E3.
  split.
  { unfold pass3, pass2. rewrite !placeEntries_frame by frame_side. exact P1. }
  split.
  { unfold pass3. rewrite placeEntries_frame by frame_side. exact P2. }
  split.
  { unfold pass3. rewrite placeEntries_frame by frame_side. exact P2'. }
  split; [exact P3 | reflexivity].
Qed.

(** *** The extent of a directory and its listing *)

Lemma nth_error_key {B} (h : fileEntry -> B) (es es' : list fileEntry) (i : nat) :
  map h es' = map h es ->
  match nth_error es i, nth_error es' i with
  | Some f, Some f' => h f' = h f
  | None, None => True
  | _, _ => False
  end.
Proof.
  intros H. pose proof (f_equal (fun l => nth_error l i) H) as E. cbv beta in E.
  rewrite !nth_error_map in E.
  destruct (nth_error es i), (nth_error es' i); cbn in E; try discriminate; auto.
  now injection E.
Qed.

Lemma sumChildDrSizes_ext (es es' : list fileEntry) (isJoliet : bool) (idxs : list nat)
    (acc : Z) :
  map listingKey es' = map listingKey es ->
  sumChildDrSizes es' isJoliet idxs acc = sumChildDrSizes es isJoliet idxs acc.
Proof.
  intros H. revert acc. induction idxs as [|c t IH]; intros acc; cbn [sumChildDrSizes];
    [reflexivity|].
  unfold index. pose proof (nth_error_key listingKey es es' c H) as E.
  destruct (nth_error es c) as [f|], (nth_error es' c) as [f'|]; try contradiction;
    cbn [bind]; [|reflexivity].
  unfold listingKey in E. injection E as _ _ _ E1 E2. rewrite E1, E2. apply IH.
Qed.

Lemma calculateSingleDirectoryExtentSizeBytes_ext (b b' : ISOBuilder) (i : nat)
    (isJoliet : bool) :
  map listingKey (fileEntries b') = map listingKey (fileEntries b) ->
  calculateSingleDirectoryExtentSizeBytes b' i isJoliet
  = calculateSingleDirectoryExtentSizeBytes b i isJoliet.
Proof.
  intros H. unfold calculateSingleDirectoryExtentSizeBytes, index.
  pose proof (nth_error_key listingKey _ _ i H) as E.
  destruct (nth_error (fileEntries b) i) as [f|], (nth_error (fileEntries b') i) as [f'|];
    try contradiction; cbn [bind]; [|reflexivity].
  unfold listingKey in E. injection E as _ E1 E2 _ _. rewrite E1, E2.
  now rewrite (sumChildDrSizes_ext _ _ isJoliet (children f) _ H).
Qed.

(** After [calculateAllDirectoryExtentSizes] every directory has the extent
    sizes of its listings. *)
Lemma calculateAllDirectoryExtentSizes_sizes (b b2 : ISOBuilder) :
  calculateAllDirectoryExtentSizes b = Ok b2 ->
  map listingKey (fileEntries b2) = map listingKey (fileEntries b)
  /\ (forall i d isJoliet, nth_error (fileEntries b2) i = Some d -> isDir d = true ->
        calculateSingleDirectoryExtentSizeBytes b i isJoliet = Ok (extentSize isJoliet d))
  /\ exists root, nth_error (fileEntries b2) 0 = Some root
                  /\ pvdRootDirExtentSize b2 = iso9660Size root
                  /\ svdRootDirExtentSize b2 = jolietSize root.
Proof.
  unfold calculateAllDirectoryExtentSizes. intros H.
  apply bind_Ok in H. destruct H as (b1 & Hloop & H).
  apply bind_Ok in H. destruct H as (root & Hroot & H).
  apply Ok_inj in H. subst b2. cbn [fileEntries setRootDirExtentSizes
    pvdRootDirExtentSize svdRootDirExtentSize].
  assert (Hinv : map listingKey (fileEntries b1) = map listingKey (fileEntries b)
                 /\ forall i d isJoliet, (i < length (fileEntries b))%nat ->
                      nth_error (fileEntries b1) i = Some d -> isDir d = true ->
                      calculateSingleDirectoryExtentSizeBytes b i isJoliet
                      = Ok (extentSize isJoliet d)).
  { apply (forRange_invariant
             (fun k t => map listingKey (fileEntries t) = map listingKey (fileEntries b)
                         /\ forall i d isJoliet, (i < k)%nat ->
                              nth_error (fileEntries t) i = Some d -> isDir d = true ->
                              calculateSingleDirectoryExtentSizeBytes b i isJoliet
                              = Ok (extentSize isJoliet d))
             assignDirectoryExtentSizes (length (fileEntries b)) b b1);
      [split; [reflexivity | intros; lia] | | exact Hloop].
    intros k t t' Hk [Hkey Hdone] Hbody.
    unfold assignDirectoryExtentSizes, index in Hbody.
    destruct (nth_error (fileEntries t) k) as [f|] eqn:Ef; cbn [bind] in Hbody;
      [|discriminate].
    destruct (isDir f) eqn:Ed.
    - apply bind_Ok in Hbody. destruct Hbody as (s1 & Hs1 & Hbody).
      apply bind_Ok in Hbody. destruct Hbody as (s2 & Hs2 & Hbody).
      apply Ok_inj in Hbody. subst t'.
      rewrite (calculateSingleDirectoryExtentSizeBytes_ext b) in Hs1 by exact Hkey.
      rewrite (calculateSingleDirectoryExtentSizeBytes_ext b) in Hs2
        by (unfold updateEntry; cbn [fileEntries setFileEntries];
            rewrite map_update_same by reflexivity; exact Hkey).
      unfold updateEntry. cbn [fileEntries setFileEntries]. rewrite update_update.
      split; [rewrite map_update_same by reflexivity; exact Hkey|].
      intros i d isJoliet Hi Hd Hdir.
      destruct (Nat.eq_dec i k) as [->|Hne].
      + rewrite nth_error_update_same, Ef in Hd. cbn [option_map] in Hd.
        injection Hd as <-. destruct isJoliet; assumption.
      + rewrite nth_error_update_other in Hd by congruence.
        apply Hdone; [lia | assumption | assumption].
    - apply Ok_inj in Hbody. subst t'. split; [exact Hkey|].
      intros i d isJoliet Hi Hd Hdir.
      destruct (Nat.eq_dec i k) as [->|Hne]; [congruence|].
      apply Hdone; [lia | assumption | assumption]. }
  destruct Hinv as [Hkey Hall]. split; [exact Hkey|]. split.
  - intros i d isJoliet Hd Hdir. apply Hall; try assumption.
    assert (Hlen : length (fileEntries b1) = length (fileEntries b))
      by (apply (f_equal (@length _)) in Hkey; now rewrite !length_map in Hkey).
    rewrite <- Hlen. apply nth_error_Some. congruence.
  - unfold index in Hroot. destruct (nth_error (fileEntries b1) 0) as [root'|] eqn:E;
      [|discriminate].
    apply Ok_inj in Hroot. subst root'. exists root. auto.
Qed.

Lemma calculateLayout_directory_sizes (b r : ISOBuilder) :
  calculateLayout b = Ok r ->
  (forall i d isJoliet, nth_error (fileEntries r) i = Some d -> isDir d = true ->
     calculateSingleDirectoryExtentSizeBytes r i isJoliet = Ok (extentSize isJoliet d))
  /\ exists root, nth_error (fileEntries r) 0 = Some root
                  /\ pvdRootDirExtentSize r = iso9660Size root
                  /\ svdRootDirExtentSize r = jolietSize root.
Proof.
  intros H. destruct (calculateLayout_passes b r H) as (b2 & H2 & Hp).
  cbv zeta in Hp. destruct Hp as (He & _ & _ & _ & _ & Hpr & Hsr).
  destruct (calculateAllDirectoryExtentSizes_sizes _ _ H2) as (Hkey & Hall & root & Hroot & R1 & R2).
  set (key := fun f => (listingKey f, iso9660Size f, jolietSize f)).
  assert (Hk : map key (fileEntries r) = map key (fileEntries b2)).
  { rewrite He. rewrite !placeEntries_map by reflexivity. reflexivity. }
  assert (Hk1 : map listingKey (fileEntries r) = map listingKey (fileEntries b2)).
  { apply (f_equal (map fst)) in Hk. apply (f_equal (map fst)) in Hk.
    rewrite !map_map in Hk. exact Hk. }
  split.
  - intros i d isJoliet Hd Hdir.
    pose proof (nth_error_key key _ _ i Hk) as E. rewrite Hd in E.
    destruct (nth_error (fileEntries b2) i) as [d2|] eqn:Hd2; [|contradiction].
    unfold key, listingKey in E. injection E as E1 _ _ _ _ E2 E3.
    rewrite (calculateSingleDirectoryExtentSizeBytes_ext
               (setFileEntries (map assignSanitizedNameAndDrSize (fileEntries b)) b))
      by (rewrite Hk1; exact Hkey).
    rewrite (Hall i d2 isJoliet Hd2 ltac:(congruence)).
    unfold extentSize. destruct isJoliet; congruence.
  - pose proof (nth_error_key key _ _ 0%nat Hk) as E. rewrite Hroot in E.
    destruct (nth_error (fileEntries r) 0) as [root'|]; [|contradiction].
    unfold key in E. injection E as _ E2 E3.
    exists root'. split; [reflexivity|]. split; congruence.
Qed.

Lemma childRecord_len (isJoliet : bool) (c : fileEntry) (bytes : list byte) :
  childRecord isJoliet c = Ok bytes -> len bytes = drSize isJoliet c.
Proof.
  unfold childRecord, childRecordArgs, drSize.
  destruct (isDir c), isJoliet; cbv iota beta;
    match goal with |- context [negb (?x =? ?y)] => destruct (Z.eqb_spec x y) end;
    cbn [negb]; intros E; try discriminate; apply Ok_inj in E; now subst bytes.
Qed.

Lemma writeAll_childRecord_len (isJoliet : bool) (cs : list fileEntry) (bytes : list byte) :
  writeAll (childRecord isJoliet) cs = Ok bytes ->
  len bytes = fold_right (fun c acc => drSize isJoliet c + acc) 0 cs.
Proof.
  revert bytes. induction cs as [|c t IH]; intros bytes H; cbn [writeAll fold_right] in *.
  - apply Ok_inj in H. now subst bytes.
  - apply bind_Ok in H. destruct H as (y & Hy & H).
    apply bind_Ok in H. destruct H as (rest & Hrest & H).
    apply Ok_inj in H. subst bytes.
    rewrite len_app, (childRecord_len _ _ _ Hy), (IH _ Hrest). reflexivity.
Qed.

Lemma drSize_sum_perm (isJoliet : bool) (l l' : list fileEntry) :
  Permutation l l' ->
  fold_right (fun c acc => drSize isJoliet c + acc) 0 l
  = fold_right (fun c acc => drSize isJoliet c + acc) 0 l'.
Proof. induction 1; cbn [fold_right]; lia. Qed.

Lemma sumChildDrSizes_lookupAll (es : list fileEntry) (isJoliet : bool) (idxs : list nat)
    (cs : list fileEntry) (acc : Z) :
  lookupAll es idxs = Ok cs ->
  sumChildDrSizes es isJoliet idxs acc
  = Ok (acc + fold_right (fun c acc => drSize isJoliet c + acc) 0 cs).
Proof.
  revert cs acc. induction idxs as [|i t IH]; intros cs acc H;
    cbn [lookupAll sumChildDrSizes] in *.
  - apply Ok_inj in H. subst cs. cbn [fold_right]. now rewrite Z.add_0_r.
  - apply bind_Ok in H. destruct H as (e & He & H).
    apply bind_Ok in H. destruct H as (rest & Hrest & H).
    apply Ok_inj in H. subst cs. rewrite He. cbn [bind fold_right].
    rewrite (IH _ _ Hrest). unfold drSize. f_equal. lia.
Qed.

(** The length of a listing is the sum that the planner computes. *)
Lemma createDirectoryListing_len (b : ISOBuilder) (i : nat) (isJoliet : bool)
    (d : fileEntry) (bytes : list byte) :
  nth_error (fileEntries b) i = Some d ->
  createDirectoryListing b i isJoliet = Ok bytes ->
  sumChildDrSizes (fileEntries b) isJoliet (children d)
    (calculateDirectoryRecordSize
       (getDRIdentifierBytes (str ".") isJoliet (pathTableDirNum d =? 1))
     + calculateDirectoryRecordSize (getDRIdentifierBytes (str "..") isJoliet false))
  = Ok (len bytes).
Proof.
  intros Hd. unfold createDirectoryListing, index. rewrite Hd. cbn [bind].
  destruct (if isJoliet then _ else _) as [selfLBA selfSize].
  match goal with |- context [negb (?x =? ?y)] => destruct (Z.eqb_spec x y) as [Edot|] end;
    cbn [negb]; [|discriminate].
  destruct (nth_error (fileEntries b) (parentIndex d)) as [parentDir|]; cbn [bind];
    [|discriminate].
  destruct (if isJoliet then _ else _) as [parentLBA parentSize].
  match goal with |- context [negb (?x =? ?y)] => destruct (Z.eqb_spec x y) as [Edd|] end;
    cbn [negb]; [|discriminate].
  intros H. apply bind_Ok in H. destruct H as (sorted & Hsorted & H).
  apply bind_Ok in H. destruct H as (childBytes & Hchild & H).
  apply Ok_inj in H. subst bytes.
  unfold sortedChildren in Hsorted.
  apply bind_Ok in Hsorted. destruct Hsorted as (cs & Hcs & Hsorted).
  apply Ok_inj in Hsorted. subst sorted.
  rewrite (sumChildDrSizes_lookupAll _ _ _ _ _ Hcs).
  rewrite !len_app, Edot, Edd, (writeAll_childRecord_len _ _ _ Hchild).
  rewrite <- (drSize_sum_perm isJoliet _ _ (sortSlice_perm (listingLess isJoliet) cs)).
  f_equal. lia.
Qed.

Lemma sector_cover (x : Z) :
  0 < x <= 4294965248 ->
  let n := wrap32 (wrap32 x + SectorSize - 1) / SectorSize in
  x <= n * SectorSize < x + SectorSize
  /\ wrap32 (n * SectorSize) = n * SectorSize
  /\ (n * SectorSize) mod SectorSize = 0.
Proof.
  intros H. unfold wrap32, SectorSize. cbv zeta.
  rewrite (Z.mod_small x) by lia.
  rewrite (Z.mod_small (x + 2048 - 1)) by lia.
  pose proof (Z.div_mod (x + 2048 - 1) 2048 ltac:(lia)) as Hd.
  pose proof (Z.mod_pos_bound (x + 2048 - 1) 2048 ltac:(lia)) as Hm.
  remember ((x + 2048 - 1) / 2048) as q.
  split; [lia|]. split; [apply Z.mod_small; lia | apply Z_mod_mult].
Qed.

(** X25: in a plan that [calculateLayout] returns, the extent reserved for
    a directory in a namespace is the length of the listing that
    [createDirectoryListing] emits for it, rounded up to whole sectors (for
    a listing of at most 4294965248 bytes, so that the 32-bit sum does not
    wrap): the listing fits its extent and less than one sector is left. *)
Theorem directory_extent_holds_listing (b r : ISOBuilder) (i : nat) (d : fileEntry)
    (isJoliet : bool) (bytes : list byte) :
  calculateLayout b = Ok r ->
  nth_error (fileEntries r) i = Some d ->
  isDir d = true ->
  createDirectoryListing r i isJoliet = Ok bytes ->
  len bytes <= 4294965248 ->
  len bytes <= extentSize isJoliet d < len bytes + SectorSize
  /\ extentSize isJoliet d mod SectorSize = 0.
Proof.
  intros Hplan Hd Hdir Hlist Hfit.
  destruct (calculateLayout_directory_sizes b r Hplan) as [Hsize _].
  specialize (Hsize i d isJoliet Hd Hdir).
  pose proof (createDirectoryListing_len r i isJoliet d bytes Hd Hlist) as Hsum.
  unfold calculateSingleDirectoryExtentSizeBytes, index in Hsize.
  rewrite Hd in Hsize. cbn [bind] in Hsize. cbv zeta in Hsize.
  rewrite Hsum in Hsize. cbn [bind] in Hsize.
  destruct (Z.eqb_spec (len bytes) 0) as [|Hne]; [discriminate|].
  assert (Hpos : 0 < len bytes <= 4294965248) by (unfold len in *; lia).
  destruct (sector_cover (len bytes) Hpos) as (Hc & Hw & Hm).
  cbv zeta in Hc, Hw, Hm. rewrite Hw in Hsize.
  destruct (_ =? 0) in Hsize; [discriminate|].
  apply Ok_inj in Hsize. rewrite <- Hsize. split; [exact Hc | exact Hm].
Qed.

(** X26: in a plan that [calculateLayout] returns, the extent sizes of the
    root directory that the volume descriptors record are those of the root
    entry of the table, and every directory has, in both namespaces, the
    extent size that [calculateSingleDirectoryExtentSizeBytes] gives on the
    finished plan. *)
Theorem calculateLayout_root_extent (b r : ISOBuilder) :
  calculateLayout b = Ok r ->
  (exists root, nth_error (fileEntries r) 0 = Some root
                /\ pvdRootDirExtentSize r = iso9660Size root
                /\ svdRootDirExtentSize r = jolietSize root)
  /\ forall i d isJoliet, nth_error (fileEntries r) i = Some d -> isDir d = true ->
       calculateSingleDirectoryExtentSizeBytes r i isJoliet = Ok (extentSize isJoliet d).
Proof.
  intros H. destruct (calculateLayout_directory_sizes b r H) as [H1 H2].
  split; assumption.
Qed.

(** *** The length of a path table *)

Lemma pathTableRecord_len (b : ISOBuilder) (isJoliet useBigEndian : bool) (dir : fileEntry)
    (rec : list byte) :
  len (pathTableIdentifier isJoliet dir) <= 255 ->
  pathTableRecord b isJoliet useBigEndian dir = Ok rec ->
  len rec = pathTableRecordLen isJoliet dir.
Proof.
  intros Hid H. unfold pathTableRecord in H.
  apply bind_Ok in H. destruct H as ([identifierBytes parentNumber] & Hi & H).
  apply Ok_inj in H. subst rec.
  assert (Hident : identifierBytes = pathTableIdentifier isJoliet dir).
  { unfold pathTableIdentifier. destruct (pathTableDirNum dir =? 1).
    - apply Ok_inj in Hi. now injection Hi as <- _.
    - apply bind_Ok in Hi. destruct Hi as (p & _ & Hi). apply Ok_inj in Hi.
      now injection Hi as <- _. }
  subst identifierBytes.
  rewrite marshalPathTableRecord_shape by exact Hid.
  unfold pathTableRecordLen, ptRecFixedPartSize. cbv zeta.
  unfold len, byte. rewrite !length_app.
  destruct useBigEndian, (Z.even _);
    rewrite ?length_putLE32, ?length_putBE32, ?length_putLE16, ?length_putBE16;
    cbn [length]; lia.
Qed.

Lemma writeAll_pathTableRecord_len (b : ISOBuilder) (isJoliet useBigEndian : bool)
    (dirs : list fileEntry) (bytes : list byte) :
  Forall (fun dir => len (pathTableIdentifier isJoliet dir) <= 255) dirs ->
  writeAll (pathTableRecord b isJoliet useBigEndian) dirs = Ok bytes ->
  len bytes = fold_right (fun dir acc => pathTableRecordLen isJoliet dir + acc) 0 dirs.
Proof.
  intros Hall. revert bytes.
  induction Hall as [|dir t Hd Ht IH]; intros bytes H; cbn [writeAll fold_right] in *.
  - apply Ok_inj in H. now subst bytes.
  - apply bind_Ok in H. destruct H as (y & Hy & H).
    apply bind_Ok in H. destruct H as (rest & Hrest & H).
    apply Ok_inj in H. subst bytes.
    rewrite len_app, (pathTableRecord_len _ _ _ _ _ Hd Hy), (IH _ Hrest). reflexivity.
Qed.

Lemma pathTableRecordLen_sum_perm (isJoliet : bool) (l l' : list fileEntry) :
  Permutation l l' ->
  fold_right (fun dir acc => pathTableRecordLen isJoliet dir + acc) 0 l
  = fold_right (fun dir acc => pathTableRecordLen isJoliet dir + acc) 0 l'.
Proof. induction 1; cbn [fold_right]; lia. Qed.

Lemma calculatePathTableTotalBytes_sum (b : ISOBuilder) (isJoliet : bool) :
  calculatePathTableTotalBytes b isJoliet
  = fold_right (fun dir acc => pathTableRecordLen isJoliet dir + acc) 0
      (filter (fun fe => isDir fe && (pathTableDirNum fe >? 0)) (fileEntries b)).
Proof.
  unfold calculatePathTableTotalBytes.
  assert (Hgen : forall es acc,
             fold_left
               (fun totalBytes fe =>
                  if isDir fe && (pathTableDirNum fe >? 0) then
                    let identifierBytes := pathTableIdentifier isJoliet fe in
                    let recordFinalLen := ptRecFixedPartSize + len identifierBytes in
                    let recordFinalLen :=
                      if negb (len identifierBytes mod 2 =? 0) then recordFinalLen + 1
                      else recordFinalLen in
                    totalBytes + recordFinalLen
                  else totalBytes) es acc
             = acc + fold_right (fun dir a => pathTableRecordLen isJoliet dir + a) 0
                       (filter (fun fe => isDir fe && (pathTableDirNum fe >? 0)) es)).
  { induction es as [|f t IH]; intros acc; cbn [fold_left filter fold_right]; [lia|].
    rewrite IH. destruct (isDir f && (pathTableDirNum f >? 0)); cbn [fold_right]; [|lia].
    unfold pathTableRecordLen. cbv zeta.
    rewrite Zeven_mod.
    destruct (len (pathTableIdentifier isJoliet f) mod 2 =? 0); cbn [negb]; lia. }
  rewrite Hgen. lia.
Qed.

(** X27: when no identifier is longer than 255 bytes (its length is stored
    in one byte), a path table that [createPathTable] returns has the
    length that [calculatePathTableTotalBytes] computes, for either byte
    order: the size check of [pregeneratePathTables] passes. *)
Theorem createPathTable_length (b : ISOBuilder) (isJoliet useBigEndian : bool)
    (bytes : list byte) :
  Forall (fun f => isDir f = true -> len (pathTableIdentifier isJoliet f) <= 255)
    (fileEntries b) ->
  createPathTable b isJoliet useBigEndian = Ok bytes ->
  len bytes = calculatePathTableTotalBytes b isJoliet.
Proof.
  intros Hall H. unfold createPathTable in H.
  rewrite calculatePathTableTotalBytes_sum.
  unfold pathTableDirs in H.
  set (dirs := filter (fun fe => isDir fe && (pathTableDirNum fe >? 0)) (fileEntries b)) in *.
  pose proof (sortSlice_perm (pathTableLess b isJoliet useBigEndian) dirs) as Hperm.
  rewrite (pathTableRecordLen_sum_perm isJoliet _ _ Hperm).
  apply (writeAll_pathTableRecord_len b isJoliet useBigEndian); [|exact H].
  apply Forall_forall. intros dir Hin.
  apply (Permutation_in _ (Permutation_sym Hperm)) in Hin.
  unfold dirs in Hin. apply filter_In in Hin. destruct Hin as [Hin Hsel].
  apply andb_true_iff in Hsel. destruct Hsel as [Hdir _].
  rewrite Forall_forall in Hall. now apply Hall.
Qed.

(** X28: a directory identifier that [sanitizeISO9660Name] returns has 1
    to 8 characters, each of them an upper-case letter, a digit or an
    underscore, whatever the name on disk. *)
Theorem sanitizeISO9660Name_directory_alphabet (name : gostring) :
  Forall (fun c => isIsoChar c = true) (sanitizeISO9660Name name true)
  /\ 1 <= len (sanitizeISO9660Name name true) <= 8.
Proof. exact (sanitizeISO9660Name_directory name). Qed.


(* ------------------------------------------------------------------ *)
(** ** The head of the image *)

Lemma createPrimaryVolumeDescriptor_len (nowNanosecond : Z) (b : ISOBuilder)
    (options : Options) (pvd : list byte) :
  createPrimaryVolumeDescriptor nowNanosecond b options = Ok pvd -> len pvd = 2048.
Proof.
  unfold createPrimaryVolumeDescriptor. cbv zeta. intros H.
  apply bind_Ok in H. destruct H as (p1 & _ & H).
  apply bind_Ok in H. destruct H as (p2 & _ & H).
  apply bind_Ok in H. destruct H as (root & _ & H).
  match type of H with (if ?c then _ else _) = _ => destruct c; [discriminate|] end.
  do 7 (apply bind_Ok in H; destruct H as (? & _ & H)).
  match type of H with (if ?c then _ else _) = _ => destruct c; [discriminate|] end.
  apply Ok_inj in H. subst pvd. now rewrite !len_copyAt.
Qed.

Lemma createJolietVolumeDescriptor_len (nowNanosecond : Z) (b : ISOBuilder)
    (options : Options) (svd : list byte) :
  createJolietVolumeDescriptor nowNanosecond b options = Ok svd -> len svd = 2048.
Proof.
  unfold createJolietVolumeDescriptor. cbv zeta. intros H.
  apply bind_Ok in H. destruct H as (p1 & _ & H).
  apply bind_Ok in H. destruct H as (p2 & _ & H).
  destruct (JolietEscapeSequence options) as [[e0 e1] e2].
  apply bind_Ok in H. destruct H as (root & _ & H).
  match type of H with (if ?c then _ else _) = _ => destruct c; [discriminate|] end.
  do 7 (apply bind_Ok in H; destruct H as (? & _ & H)).
  apply Ok_inj in H. subst svd. now rewrite !len_copyAt.
Qed.

Lemma firstn_writeAtOffset_before (k off : nat) (p c : list Z) :
  (k <= off)%nat -> (k <= length c)%nat ->
  firstn k (writeAtOffset off p c) = firstn k c.
Proof.
  intros Hk Hc. unfold writeAtOffset, byte.
  rewrite firstn_app, firstn_firstn, Nat.min_l by lia.
  rewrite length_firstn, length_app, repeat_length.
  replace (k - Nat.min off (length c + (off - length c)))%nat with 0%nat by lia.
  rewrite firstn_O, app_nil_r, firstn_app.
  replace (k - length c)%nat with 0%nat by lia.
  rewrite firstn_O. apply app_nil_r.
Qed.

(** A write that succeeds leaves what lies before its sector. *)
Lemma writeAtSectorAndPad_frame (f f' : memFile) (data : list Z) (sectorNum total : Z)
    (k : nat) :
  writeAtSectorAndPad f data sectorNum total = Ok f' ->
  Z.of_nat k <= sectorNum * SectorSize ->
  (k <= length (content f))%nat ->
  firstn k (content f') = firstn k (content f) /\ (k <= length (content f'))%nat.
Proof.
  intros H Hk Hlen.
  assert (Hs : 0 <= sectorNum) by (unfold SectorSize in Hk; lia).
  pose proof H as H0. unfold writeAtSectorAndPad in H.
  unfold byte in *.
  match type of H with (if ?c then _ else _) = _ => destruct c eqn:E1; [discriminate|] end.
  match type of H with (if ?c then _ else _) = _ => destruct c eqn:E2; [discriminate|] end.
  match type of H with (if ?c then _ else _) = _ => destruct c eqn:E3; [discriminate|] end.
  rewrite Z.gtb_ltb in E2. apply Z.ltb_ge in E2. apply Z.ltb_ge in E3.
  destruct (Z.eq_dec total 0) as [->|Hne].
  - assert (data = []) by (destruct data; [reflexivity | unfold len in E2; cbn in E2; lia]).
    subst data. cbv zeta in H.
    change (wsSeek f (sectorNum * SectorSize) SeekStart)
      with (memSeek f (sectorNum * SectorSize) SeekStart) in H.
    unfold memSeek in H. cbv zeta in H.
    rewrite (ltb_false (0 + sectorNum * SectorSize) 0) in H by (unfold SectorSize; lia).
    cbn in H. apply Ok_inj in H. subst f'. cbn [content]. auto.
  - assert (Hrem : total mod SectorSize = 0).
    { apply andb_false_iff in E1. destruct E1 as [E1 | E1].
      - rewrite Z.gtb_ltb in E1. apply Z.ltb_ge in E1. lia.
      - apply negb_false_iff, Z.eqb_eq in E1.
        rewrite Z.rem_mod_nonneg in E1 by (unfold SectorSize; lia). exact E1. }
    rewrite writeAtSectorAndPad_memFile in H0 by (assumption || lia).
    apply Ok_inj in H0. subst f'. cbn [content].
    set (off := Z.to_nat (sectorNum * SectorSize)).
    assert (Hoff : (k <= off)%nat) by (unfold off; lia).
    unfold byte in *.
    split; [apply firstn_writeAtOffset_before; assumption|].
    rewrite length_writeAtOffset. lia.
Qed.

Lemma sectorsToContainBytes_range (x : Z) : 0 <= sectorsToContainBytes x <= 2097151.
Proof.
  unfold sectorsToContainBytes. destruct (x =? 0); [lia|].
  set (y := wrap32 x + SectorSize - 1).
  assert (Hm : 0 <= wrap32 y < 4294967296) by (apply Z.mod_pos_bound; lia).
  unfold SectorSize.
  assert (Hlt : wrap32 y / 2048 < 2097152) by (apply Z.div_lt_upper_bound; lia).
  split; [apply Z.div_pos; lia | lia].
Qed.

(** In a plan the path tables lie from sector 19 on. *)
Lemma calculateLayout_path_tables_from_19 (b r : ISOBuilder) :
  calculateLayout b = Ok r ->
  Forall (fun lba => 19 <= lba)
    [lbaPvdPathTableL (ptLBAs r); lbaPvdPathTableM (ptLBAs r);
     lbaSvdPathTableL (ptLBAs r); lbaSvdPathTableM (ptLBAs r);
     lbaPvdPathTableL2 (ptLBAs r); lbaPvdPathTableM2 (ptLBAs r);
     lbaSvdPathTableL2 (ptLBAs r); lbaSvdPathTableM2 (ptLBAs r)].
Proof.
  intros H. destruct (calculateLayout_passes b r H) as (b2 & _ & Hp).
  cbv zeta in Hp. destruct Hp as (_ & _ & Hl & _). rewrite Hl.
  unfold pathTableSectors. cbv zeta.
  pose proof (sectorsToContainBytes_range (len (pvdPathTableLData (ptData r)))) as Hp.
  pose proof (sectorsToContainBytes_range (len (svdPathTableLData (ptData r)))) as Hs.
  set (p := sectorsToContainBytes (len (pvdPathTableLData (ptData r)))) in *.
  set (s := sectorsToContainBytes (len (svdPathTableLData (ptData r)))) in *.
  cbn [placed]. unfold wrap32.
  repeat (rewrite (Z.mod_small (_ + _) 4294967296) by lia).
  repeat constructor; lia.
Qed.

Lemma writeAtSectorAndPad_keeps (f f' : memFile) (data : list Z) (sectorNum total : Z)
    (k : nat) (head : list Z) :
  Z.of_nat k <= 19 * SectorSize ->
  19 <= sectorNum ->
  writeAtSectorAndPad f data sectorNum total = Ok f' ->
  headKept k head f -> headKept k head f'.
Proof.
  intros Hk Hs H [Hlen Hhead].
  destruct (writeAtSectorAndPad_frame f f' data sectorNum total k H
              ltac:(unfold SectorSize in *; lia) Hlen) as [E L].
  split; [exact L | congruence].
Qed.

Lemma writeAllPathTables_keeps (b : ISOBuilder) (f f' : memFile) (k : nat) (head : list Z) :
  Z.of_nat k <= 19 * SectorSize ->
  Forall (fun lba => 19 <= lba)
    [lbaPvdPathTableL (ptLBAs b); lbaPvdPathTableM (ptLBAs b);
     lbaSvdPathTableL (ptLBAs b); lbaSvdPathTableM (ptLBAs b);
     lbaPvdPathTableL2 (ptLBAs b); lbaPvdPathTableM2 (ptLBAs b);
     lbaSvdPathTableL2 (ptLBAs b); lbaSvdPathTableM2 (ptLBAs b)] ->
  writeAllPathTables b f = Ok f' ->
  headKept k head f -> headKept k head f'.
Proof.
  intros Hk Hl H Hf.
  repeat match goal with
         | Hx : Forall _ (_ :: _) |- _ => inversion Hx; subst; clear Hx
         end.
  unfold writeAllPathTables in H. cbv zeta in H.
  do 7 (let w := fresh "w" in
        let Hw := fresh "Hw" in
        let Hn := fresh "Hn" in
        apply bind_Ok in H; destruct H as (w & Hw & H);
        assert (Hn : headKept k head w)
          by (refine (writeAtSectorAndPad_keeps _ _ _ _ _ k head Hk _ Hw Hf); assumption);
        clear Hf; rename Hn into Hf).
  refine (writeAtSectorAndPad_keeps _ _ _ _ _ k head Hk _ H Hf). assumption.
Qed.

Lemma writeAllDirectoryContents_keeps (b : ISOBuilder) (f f' : memFile) (k : nat)
    (head : list Z) :
  Z.of_nat k <= 19 * SectorSize ->
  Forall (fun e => 19 <= iso9660Sector e /\ 19 <= jolietSector e) (fileEntries b) ->
  writeAllDirectoryContents b f = Ok f' ->
  headKept k head f -> headKept k head f'.
Proof.
  intros Hk Hall H Hf. unfold writeAllDirectoryContents in H.
  apply (forRange_invariant (fun _ t => headKept k head t) (writeDirectoryContents b)
           (length (fileEntries b)) f f'); [exact Hf | | exact H].
  intros i t t' _ Ht Hbody. unfold writeDirectoryContents, index in Hbody.
  destruct (nth_error (fileEntries b) i) as [e|] eqn:Ee; cbn [bind] in Hbody;
    [|discriminate].
  rewrite Forall_forall in Hall.
  destruct (Hall e (nth_error_In _ _ Ee)) as [H1 H2].
  destruct (isDir e); [|apply Ok_inj in Hbody; now subst t'].
  apply bind_Ok in Hbody. destruct Hbody as (isoListing & _ & Hbody).
  match type of Hbody with (if ?c then _ else _) = _ => destruct c; [discriminate|] end.
  apply bind_Ok in Hbody. destruct Hbody as (w & Hw & Hbody).
  apply (writeAtSectorAndPad_keeps _ _ _ _ _ k head Hk H1 Hw) in Ht.
  apply bind_Ok in Hbody. destruct Hbody as (jolietListing & _ & Hbody).
  match type of Hbody with (if ?c then _ else _) = _ => destruct c; [discriminate|] end.
  exact (writeAtSectorAndPad_keeps _ _ _ _ _ k head Hk H2 Hbody Ht).
Qed.

Lemma writeAllFileData_keeps (osReadFile : gostring -> option (list byte)) (b : ISOBuilder)
    (f f' : memFile) (k : nat) (head : list Z) :
  Z.of_nat k <= 19 * SectorSize ->
  Forall (fun e => 19 <= iso9660Sector e /\ 19 <= jolietSector e) (fileEntries b) ->
  writeAllFileData osReadFile b f = Ok f' ->
  headKept k head f -> headKept k head f'.
Proof.
  intros Hk Hall H Hf. unfold writeAllFileData in H.
  apply (forRange_invariant (fun _ t => headKept k head t) (writeFileData osReadFile b)
           (length (fileEntries b)) f f'); [exact Hf | | exact H].
  intros i t t' _ Ht Hbody. unfold writeFileData, index in Hbody.
  destruct (nth_error (fileEntries b) i) as [e|] eqn:Ee; cbn [bind] in Hbody;
    [|discriminate].
  rewrite Forall_forall in Hall.
  destruct (Hall e (nth_error_In _ _ Ee)) as [H1 _].
  destruct (negb (isDir e)); [|apply Ok_inj in Hbody; now subst t'].
  destruct (osReadFile (diskPath e)) as [fileDataBytes|]; [|discriminate].
  match type of Hbody with (if ?c then _ else _) = _ => destruct c; [discriminate|] end.
  exact (writeAtSectorAndPad_keeps _ _ _ _ _ k head Hk H1 Hbody Ht).
Qed.

(** X30: when [Build] succeeds on a file in memory with a plan whose
    extents lie from sector 19 on (as they do unless the 32-bit sector
    addresses wrap), the image starts with the system area and the volume
    descriptors of that plan: 16 sectors of zeros, the sector of the
    primary volume descriptor, the sector of the supplementary one and the
    terminator; nothing that is written later touches them. *)
Theorem Build_image_head (nowNanosecond : Z)
    (osReadFile : gostring -> option (list byte)) (b : ISOBuilder)
    (options : Options) (abs : option gostring) (listing : option (list osNode))
    (b' : ISOBuilder) (image : memFile) :
  Build nowNanosecond osReadFile b options abs listing = Ok (b', image) ->
  Forall (fun e => 19 <= iso9660Sector e /\ 19 <= jolietSector e) (fileEntries b') ->
  19 <= totalSectors b' ->
  exists pvd svd,
    createPrimaryVolumeDescriptor nowNanosecond b' options = Ok pvd
    /\ createJolietVolumeDescriptor nowNanosecond b' options = Ok svd
    /\ len pvd = 2048 /\ len svd = 2048
    /\ firstn (Z.to_nat 38912) (content image)
       = repeat 0 (Z.to_nat 32768) ++ pvd ++ svd
         ++ [255; 67; 68; 48; 48; 49; 1] ++ repeat 0 2041.
Proof.
  rewrite Build_memFile. intros HB Hall Htotal.
  apply bind_Ok in HB. destruct HB as (scanned & _ & HB).
  apply bind_Ok in HB. destruct HB as (planned & Hplan & HB).
  apply bind_Ok in HB. destruct HB as (f6 & HW & HB).
  apply Ok_inj in HB. injection HB as <- <-.
  apply bind_Ok in HW. destruct HW as (f1 & H1 & HW).
  apply bind_Ok in HW. destruct HW as (f2 & H2 & HW).
  apply bind_Ok in HW. destruct HW as (f3 & H3 & HW).
  apply bind_Ok in HW. destruct HW as (f4 & H4 & HW).
  apply bind_Ok in HW. destruct HW as (f5 & H5 & HW).
  assert (Hcomb : (f <- writeSystemArea (mkMemFile [] 0) ;;
                   writeVolumeDescriptors nowNanosecond planned options f) = Ok f2)
    by (rewrite H1; exact H2).
  unfold writeVolumeDescriptors in H2. cbv zeta in H2.
  apply bind_Ok in H2. destruct H2 as (pvd & Hpvd & H2).
  apply bind_Ok in H2. destruct H2 as (w1 & _ & H2).
  apply bind_Ok in H2. destruct H2 as (svd & Hsvd & _).
  pose proof (createPrimaryVolumeDescriptor_len _ _ _ _ Hpvd) as Hlp.
  pose proof (createJolietVolumeDescriptor_len _ _ _ _ Hsvd) as Hls.
  rewrite (writeVolumeDescriptors_memFile nowNanosecond planned options pvd svd
             Hpvd Hsvd Hlp Hls) in Hcomb.
  apply Ok_inj in Hcomb.
  exists pvd, svd. split; [exact Hpvd|]. split; [exact Hsvd|].
  split; [exact Hlp|]. split; [exact Hls|].
  set (head := repeat 0 (Z.to_nat 32768) ++ pvd ++ svd
               ++ [255; 67; 68; 48; 48; 49; 1] ++ repeat 0 2041) in *.
  set (k := Z.to_nat 38912).
  assert (Hk : Z.of_nat k <= 19 * SectorSize) by (unfold k, SectorSize; lia).
  assert (Hhead : length head = k).
  { unfold head, k, len, byte in *. rewrite !length_app, !repeat_length.
    cbn [length]. lia. }
  assert (K2 : headKept k head f2).
  { subst f2. unfold headKept. cbn [content]. unfold byte in *.
    split; [lia | apply firstn_all2; lia]. }
  assert (K3 : headKept k head f3).
  { apply (writeAllPathTables_keeps planned f2 f3 k head Hk); try assumption.
    now apply (calculateLayout_path_tables_from_19 scanned). }
  assert (K4 : headKept k head f4)
    by (apply (writeAllDirectoryContents_keeps planned f3 f4 k head Hk); assumption).
  assert (K5 : headKept k head f5)
    by (apply (writeAllFileData_keeps osReadFile planned f4 f5 k head Hk); assumption).
  destruct (finalizeImageSize_memFile planned f5 ltac:(lia)) as (f6' & Hf & Hc).
  rewrite Hf in HW. apply Ok_inj in HW. subst f6'.
  destruct K5 as [L5 E5]. rewrite Hc.
  set (E := Z.to_nat (totalSectors planned * SectorSize)).
  assert (HE : (k <= E)%nat) by (unfold k, E, SectorSize; lia).
  unfold byte in *.
  rewrite firstn_app, firstn_firstn, Nat.min_l by exact HE.
  rewrite length_firstn.
  match goal with
  | |- context [firstn ?n (repeat _ _)] => replace n with 0%nat by lia
  end.
  rewrite firstn_O, app_nil_r. exact E5.
Qed.

(* ------------------------------------------------------------------ *)
(** ** When the planner succeeds *)

(** A loop whose rounds all succeed, under an invariant. *)
Lemma forRangeFrom_succeeds {St} (Inv : nat -> St -> Prop)
    (body : nat -> St -> result St) (n : nat) :
  forall i s,
    Inv i s ->
    (forall j t, (i <= j < i + n)%nat -> Inv j t ->
                 exists t', body j t = Ok t' /\ Inv (S j) t') ->
    exists s', forRangeFrom body i n s = Ok s' /\ Inv (i + n)%nat s'.
Proof.
  induction n as [|n IH]; intros i s H0 Hstep; cbn [forRangeFrom].
  - exists s. rewrite Nat.add_0_r. auto.
  - destruct (Hstep i s ltac:(lia) H0) as (t & Ht & Hinv). rewrite Ht. cbn [bind].
    destruct (IH (S i) t Hinv) as (s' & Hs' & Hinv').
    + intros j u Hj. apply Hstep. lia.
    + exists s'. split; [exact Hs'|]. now rewrite <- Nat.add_succ_comm.
Qed.

(** What two tables that differ in extents only have in common. *)
Lemma erased_Forall (P : fileEntry -> Prop) (es es' : list fileEntry) :
  (forall f f', eraseExtents f' = eraseExtents f -> P f -> P f') ->
  map eraseExtents es' = map eraseExtents es -> Forall P es -> Forall P es'.
Proof.
  intros HP E H. apply Forall_forall. intros f' Hin.
  apply In_nth_error in Hin. destruct Hin as [i Hi].
  pose proof (nth_error_key eraseExtents es es' i E) as K. rewrite Hi in K.
  destruct (nth_error es i) as [f|] eqn:Hf; [|contradiction].
  apply (HP f f' K). rewrite Forall_forall in H. apply H. eapply nth_error_In; eauto.
Qed.

Lemma erased_length (es es' : list fileEntry) :
  map eraseExtents es' = map eraseExtents es -> length es' = length es.
Proof. intros E. apply (f_equal (@length _)) in E. now rewrite !length_map in E. Qed.

(** The records of [.] and [..] take 68 to 74 bytes together. *)
Lemma dotRecordSizes (isJoliet isRoot : bool) :
  68 <= calculateDirectoryRecordSize (getDRIdentifierBytes (str ".") isJoliet isRoot)
        + calculateDirectoryRecordSize (getDRIdentifierBytes (str "..") isJoliet false)
     <= 74.
Proof. destruct isJoliet, isRoot; vm_compute; split; discriminate. Qed.

Lemma sumChildDrSizes_succeeds (es : list fileEntry) (isJoliet : bool) (idxs : list nat) :
  Forall (fun c => (c < length es)%nat) idxs ->
  Forall (fun f => 34 <= drSize isJoliet f <= 290) es ->
  forall acc, exists total,
    sumChildDrSizes es isJoliet idxs acc = Ok total
    /\ acc <= total <= acc + 290 * len idxs.
Proof.
  intros Hidx Hsz. rewrite Forall_forall in Hsz.
  induction Hidx as [|c t Hc Ht IH]; intros acc; cbn [sumChildDrSizes].
  - exists acc. split; [reflexivity|]. unfold len. cbn [length]. lia.
  - unfold index. destruct (nth_error es c) as [child|] eqn:Ec;
      [|apply nth_error_None in Ec; lia].
    cbn [bind].
    pose proof (Hsz child (nth_error_In _ _ Ec)) as Hb. unfold drSize in Hb.
    destruct (IH (acc + (if isJoliet then actualJolietDrSize child
                         else actualISO9660DrSize child)))
      as (total & Ht' & Hb').
    exists total. split; [exact Ht'|]. unfold len in *. cbn [length].
    destruct isJoliet; lia.
Qed.

(** The extent of a directory with at most a million children, all of them
    entries of the table with records of at most 290 bytes, can be sized. *)
Lemma calculateSingleDirectoryExtentSizeBytes_succeeds (b : ISOBuilder) (i : nat)
    (isJoliet : bool) (d : fileEntry) :
  nth_error (fileEntries b) i = Some d ->
  Forall (fun c => (c < length (fileEntries b))%nat) (children d) ->
  len (children d) <= 1000000 ->
  Forall (fun f => 34 <= drSize isJoliet f <= 290) (fileEntries b) ->
  exists sz, calculateSingleDirectoryExtentSizeBytes b i isJoliet = Ok sz.
Proof.
  intros Hd Hc Hn Hsz. unfold calculateSingleDirectoryExtentSizeBytes, index.
  rewrite Hd. cbn [bind].
  pose proof (dotRecordSizes isJoliet (pathTableDirNum d =? 1)) as Hdot.
  destruct (sumChildDrSizes_succeeds _ isJoliet _ Hc Hsz
              (calculateDirectoryRecordSize
                 (getDRIdentifierBytes (str ".") isJoliet (pathTableDirNum d =? 1))
               + calculateDirectoryRecordSize
                   (getDRIdentifierBytes (str "..") isJoliet false)))
    as (total & Ht & Hb).
  cbv zeta. rewrite Ht. cbn [bind].
  destruct (total =? 0) eqn:E0; [apply Z.eqb_eq in E0; lia|].
  assert (Hw : wrap32 (wrap32 total + SectorSize - 1) = total + 2047).
  { unfold wrap32, SectorSize. rewrite (Z.mod_small total) by lia.
    rewrite Z.mod_small by lia. lia. }
  rewrite Hw. unfold SectorSize.
  assert (Hq : 1 <= (total + 2047) / 2048 <= 2097151).
  { split; [apply Z.div_le_lower_bound; lia | apply Z.lt_succ_r, Z.div_lt_upper_bound; lia]. }
  assert (Hf : wrap32 ((total + 2047) / 2048 * 2048) = (total + 2047) / 2048 * 2048).
  { unfold wrap32. apply Z.mod_small. lia. }
  rewrite Hf.
  destruct ((total + 2047) / 2048 * 2048 =? 0) eqn:E1; [apply Z.eqb_eq in E1; lia|].
  eexists. reflexivity.
Qed.

(** An extent size that [calculateSingleDirectoryExtentSizeBytes] returns is
    not zero and a whole number of sectors. *)
Lemma calculateSingleDirectoryExtentSizeBytes_sized (b : ISOBuilder) (i : nat)
    (isJoliet : bool) (sz : Z) :
  calculateSingleDirectoryExtentSizeBytes b i isJoliet = Ok sz ->
  sz <> 0 /\ sz mod SectorSize = 0.
Proof.
  unfold calculateSingleDirectoryExtentSizeBytes. intros H.
  apply bind_Ok in H. destruct H as (d & _ & H). cbv zeta in H.
  apply bind_Ok in H. destruct H as (total & _ & H).
  destruct (total =? 0); [discriminate|].
  match type of H with (if ?c then _ else _) = _ => destruct c eqn:E; [discriminate|] end.
  apply Ok_inj in H. subst sz. apply Z.eqb_neq in E. split; [exact E|].
  unfold wrap32, SectorSize.
  rewrite Z.mod_mod_divide by (exists 2097152; reflexivity).
  apply Z.mod_mul. lia.
Qed.

Lemma calculateAllDirectoryExtentSizes_succeeds (b : ISOBuilder) :
  fileEntries b <> [] ->
  Forall (fun f => Forall (fun c => (c < length (fileEntries b))%nat) (children f)
                   /\ len (children f) <= 1000000) (fileEntries b) ->
  (forall isJoliet, Forall (fun f => 34 <= drSize isJoliet f <= 290) (fileEntries b)) ->
  exists b2, calculateAllDirectoryExtentSizes b = Ok b2
             /\ map eraseExtents (fileEntries b2) = map eraseExtents (fileEntries b)
             /\ Forall sizedDirectory (fileEntries b2).
Proof.
  intros Hne Hch Hsz.
  set (n := length (fileEntries b)).
  assert (Hany : forall t isJoliet j f,
             map eraseExtents (fileEntries t) = map eraseExtents (fileEntries b) ->
             nth_error (fileEntries t) j = Some f ->
             exists sz, calculateSingleDirectoryExtentSizeBytes t j isJoliet = Ok sz).
  { intros t isJoliet j f Ht Hf.
    pose proof (erased_length _ _ Ht) as Hlen.
    assert (Hch' : Forall (fun f => Forall (fun c => (c < n)%nat) (children f)
                                    /\ len (children f) <= 1000000) (fileEntries t)).
    { apply (erased_Forall _ (fileEntries b)); [|exact Ht|exact Hch].
      intros g g' E. now rewrite (f_equal children E : children g' = children g). }
    assert (Hsz' : Forall (fun f => 34 <= drSize isJoliet f <= 290) (fileEntries t)).
    { apply (erased_Forall _ (fileEntries b)); [|exact Ht|apply Hsz].
      intros g g' E. unfold drSize.
      rewrite (f_equal actualJolietDrSize E : actualJolietDrSize g' = actualJolietDrSize g).
      now rewrite (f_equal actualISO9660DrSize E
                   : actualISO9660DrSize g' = actualISO9660DrSize g). }
    rewrite Forall_forall in Hch'.
    destruct (Hch' f (nth_error_In _ _ Hf)) as [H1 H2].
    apply (calculateSingleDirectoryExtentSizeBytes_succeeds t j isJoliet f Hf);
      [now rewrite Hlen | exact H2 | exact Hsz']. }
  assert (Hrun : exists b1,
             forRange n assignDirectoryExtentSizes b = Ok b1
             /\ map eraseExtents (fileEntries b1) = map eraseExtents (fileEntries b)).
  { apply (forRangeFrom_succeeds
             (fun _ t => map eraseExtents (fileEntries t) = map eraseExtents (fileEntries b))
             assignDirectoryExtentSizes n 0 b eq_refl).
    intros j t Hj Ht. unfold assignDirectoryExtentSizes, index.
    pose proof (erased_length _ _ Ht) as Hlen.
    destruct (nth_error (fileEntries t) j) as [f|] eqn:Ef;
      [|apply nth_error_None in Ef; unfold n in Hj; lia].
    cbn [bind]. destruct (isDir f); [|exists t; auto].
    destruct (Hany t false j f Ht Ef) as (sz1 & H1). rewrite H1. cbn [bind].
    set (t1 := updateEntry j (setIso9660Size sz1) t).
    assert (Ht1 : map eraseExtents (fileEntries t1) = map eraseExtents (fileEntries b)).
    { unfold t1, updateEntry. cbn [fileEntries setFileEntries].
      rewrite map_update_same by reflexivity. exact Ht. }
    assert (Ef1 : nth_error (fileEntries t1) j = Some (setIso9660Size sz1 f)).
    { unfold t1, updateEntry. cbn [fileEntries setFileEntries].
      now rewrite nth_error_update_same, Ef. }
    destruct (Hany t1 true j _ Ht1 Ef1) as (sz2 & H2). rewrite H2. cbn [bind].
    eexists. split; [reflexivity|].
    unfold updateEntry. cbn [fileEntries setFileEntries].
    rewrite map_update_same by reflexivity. exact Ht1. }
  destruct Hrun as (b1 & Hloop & Hb1).
  assert (Hok : exists b2, calculateAllDirectoryExtentSizes b = Ok b2
                           /\ fileEntries b2 = fileEntries b1).
  { unfold calculateAllDirectoryExtentSizes. fold n. rewrite Hloop. cbn [bind].
    unfold index. destruct (nth_error (fileEntries b1) 0) as [root|] eqn:Er.
    - cbn [bind]. eexists. split; reflexivity.
    - apply nth_error_None in Er. rewrite (erased_length _ _ Hb1) in Er.
      destruct (fileEntries b); [contradiction | cbn [length] in Er; lia]. }
  destruct Hok as (b2 & Hb2 & Heq). exists b2. split; [exact Hb2|].
  split; [now rewrite Heq|].
  destruct (calculateAllDirectoryExtentSizes_sizes b b2 Hb2) as (_ & Hsizes & _).
  apply Forall_forall. intros d Hin. apply In_nth_error in Hin. destruct Hin as [i Hi].
  intros Hdir.
  destruct (calculateSingleDirectoryExtentSizeBytes_sized _ _ _ _ (Hsizes i d false Hi Hdir))
    as [H1 H2].
  destruct (calculateSingleDirectoryExtentSizeBytes_sized _ _ _ _ (Hsizes i d true Hi Hdir))
    as [H3 H4].
  cbn [extentSize] in *. auto.
Qed.

(** The rounds of the three loops of [assignContentLBAs] on sized
    directories. *)
Lemma sizedDirectory_tests (f : fileEntry) :
  sizedDirectory f -> isDir f = true ->
  (iso9660Size f =? 0) = false /\ negb (iso9660Size f mod SectorSize =? 0) = false
  /\ (jolietSize f =? 0) = false /\ negb (jolietSize f mod SectorSize =? 0) = false.
Proof.
  intros Hs Hd. destruct (Hs Hd) as (H1 & H2 & H3 & H4).
  rewrite H2, H4. cbn. split; [now apply Z.eqb_neq|]. split; [reflexivity|].
  split; [now apply Z.eqb_neq | reflexivity].
Qed.

Lemma placeable_update (b t : ISOBuilder) (lba : Z) (i : nat)
    (g : fileEntry -> fileEntry) :
  (forall f, eraseExtents (g f) = eraseExtents f) ->
  (forall f, sizedDirectory f -> sizedDirectory (g f)) ->
  placeable b (t, lba) -> forall lba', placeable b (updateEntry i g t, lba').
Proof.
  intros Hg Hs [H1 H2] lba'. unfold placeable, updateEntry in *.
  cbn [fst fileEntries setFileEntries] in *. split.
  - rewrite map_update_same by exact Hg. exact H1.
  - apply Forall_update; [exact H2|]. intros a _. apply Hs.
Qed.

Section PlacingRounds.
Variable b : ISOBuilder.

Lemma placing_entry (st : ISOBuilder * Z) (j : nat) :
  (j < length (fileEntries b))%nat -> placeable b st ->
  exists f, nth_error (fileEntries (fst st)) j = Some f /\ sizedDirectory f.
Proof.
  intros Hj [H1 H2]. pose proof (erased_length _ _ H1) as Hlen.
  destruct (nth_error (fileEntries (fst st)) j) as [f|] eqn:Ef;
    [|apply nth_error_None in Ef; lia].
  exists f. split; [reflexivity|]. rewrite Forall_forall in H2.
  apply H2. eapply nth_error_In; eauto.
Qed.

Lemma assignIso9660DirLBA_succeeds (j : nat) (st : ISOBuilder * Z) :
  (j < length (fileEntries b))%nat -> placeable b st ->
  exists st', assignIso9660DirLBA j st = Ok st' /\ placeable b st'.
Proof.
  intros Hj Hp. destruct (placing_entry st j Hj Hp) as (f & Hf & Hs).
  destruct st as [t lba]. cbn [fst] in Hf. unfold assignIso9660DirLBA, index.
  rewrite Hf. cbn [bind]. destruct (isDir f) eqn:Ed; [|exists (t, lba); auto].
  destruct (sizedDirectory_tests f Hs Ed) as (-> & -> & _).
  eexists. split; [reflexivity|].
  apply (placeable_update b t lba); auto.
Qed.

Lemma assignFileLBA_succeeds (j : nat) (st : ISOBuilder * Z) :
  (j < length (fileEntries b))%nat -> placeable b st ->
  exists st', assignFileLBA j st = Ok st' /\ placeable b st'.
Proof.
  intros Hj Hp. destruct (placing_entry st j Hj Hp) as (f & Hf & Hs).
  destruct st as [t lba]. cbn [fst] in Hf. unfold assignFileLBA, index.
  rewrite Hf. cbn [bind]. destruct (negb (isDir f)); [|exists (t, lba); auto].
  eexists. split; [reflexivity|].
  apply (placeable_update b _ lba); auto.
  apply (placeable_update b t lba); auto.
Qed.

Lemma assignJolietDirLBA_succeeds (j : nat) (st : ISOBuilder * Z) :
  (j < length (fileEntries b))%nat -> placeable b st ->
  exists st', assignJolietDirLBA j st = Ok st' /\ placeable b st'.
Proof.
  intros Hj Hp. destruct (placing_entry st j Hj Hp) as (f & Hf & Hs).
  destruct st as [t lba]. cbn [fst] in Hf. unfold assignJolietDirLBA, index.
  rewrite Hf. cbn [bind]. destruct (isDir f) eqn:Ed; [|exists (t, lba); auto].
  destruct (sizedDirectory_tests f Hs Ed) as (_ & _ & -> & ->).
  eexists. split; [reflexivity|].
  apply (placeable_update b t lba); auto.
Qed.

Lemma placing_loop (body : nat -> ISOBuilder * Z -> result (ISOBuilder * Z))
    (st : ISOBuilder * Z) :
  (forall j t, (j < length (fileEntries b))%nat -> placeable b t ->
               exists t', body j t = Ok t' /\ placeable b t') ->
  placeable b st ->
  exists st', forRange (length (fileEntries b)) body st = Ok st' /\ placeable b st'.
Proof.
  intros Hbody Hst.
  apply (forRangeFrom_succeeds (fun _ t => placeable b t) body
           (length (fileEntries b)) 0 st Hst).
  intros j t Hj. apply Hbody. lia.
Qed.

End PlacingRounds.

Lemma assignContentLBAs_succeeds (b : ISOBuilder) (startLBA : Z) :
  Forall sizedDirectory (fileEntries b) ->
  exists st, assignContentLBAs b startLBA = Ok st
             /\ map eraseExtents (fileEntries (fst st)) = map eraseExtents (fileEntries b).
Proof.
  intros Hs. unfold assignContentLBAs. cbv zeta.
  destruct (placing_loop b assignIso9660DirLBA (b, startLBA)
              (assignIso9660DirLBA_succeeds b)) as (st1 & H1 & P1).
  { split; [reflexivity | exact Hs]. }
  rewrite H1. cbn [bind].
  destruct (placing_loop b assignFileLBA st1 (assignFileLBA_succeeds b) P1)
    as (st2 & H2 & P2).
  rewrite H2. cbn [bind].
  destruct (placing_loop b assignJolietDirLBA st2 (assignJolietDirLBA_succeeds b) P2)
    as (st3 & H3 & P3).
  exists st3. split; [exact H3 | exact (proj1 P3)].
Qed.

Lemma writeAll_succeeds {A} (f : A -> result (list byte)) (xs : list A) :
  Forall (fun x => exists y, f x = Ok y) xs -> exists r, writeAll f xs = Ok r.
Proof.
  induction 1 as [|x t (y & Hy) Ht (r & Hr)]; cbn [writeAll].
  - eexists. reflexivity.
  - rewrite Hy, Hr. cbn [bind]. eexists. reflexivity.
Qed.

(** A path table whose directories have their parent in the table and an
    identifier that fits the one-byte length field is written, with the
    length that [calculatePathTableTotalBytes] computes. *)
Lemma createPathTable_succeeds (b : ISOBuilder) (isJoliet useBigEndian : bool) :
  Forall (fun f => (parentIndex f < length (fileEntries b))%nat
                   /\ len (pathTableIdentifier isJoliet f) <= 255) (fileEntries b) ->
  exists bytes, createPathTable b isJoliet useBigEndian = Ok bytes
                /\ len bytes = calculatePathTableTotalBytes b isJoliet.
Proof.
  intros Hall. rewrite Forall_forall in Hall.
  set (dirs := filter (fun fe => isDir fe && (pathTableDirNum fe >? 0)) (fileEntries b)).
  pose proof (sortSlice_perm (pathTableLess b isJoliet useBigEndian) dirs) as Hperm.
  assert (Hin : forall dir, In dir (pathTableDirs b isJoliet useBigEndian) ->
                            In dir (fileEntries b)).
  { intros dir H. apply (Permutation_in _ (Permutation_sym Hperm)) in H.
    unfold dirs in H. apply filter_In in H. tauto. }
  destruct (writeAll_succeeds (pathTableRecord b isJoliet useBigEndian)
              (pathTableDirs b isJoliet useBigEndian)) as (bytes & Hbytes).
  { apply Forall_forall. intros dir Hd. destruct (Hall dir (Hin dir Hd)) as [Hp _].
    unfold pathTableRecord. destruct (pathTableDirNum dir =? 1); cbn [bind].
    - eexists. reflexivity.
    - unfold index. destruct (nth_error (fileEntries b) (parentIndex dir)) eqn:Ep;
        [|apply nth_error_None in Ep; lia].
      cbn [bind]. eexists. reflexivity. }
  exists bytes. split; [exact Hbytes|].
  rewrite calculatePathTableTotalBytes_sum. fold dirs.
  rewrite (pathTableRecordLen_sum_perm isJoliet _ _ Hperm).
  apply (writeAll_pathTableRecord_len b isJoliet useBigEndian); [|exact Hbytes].
  apply Forall_forall. intros dir Hd. now destruct (Hall dir (Hin dir Hd)).
Qed.

Lemma pregeneratePathTables_succeeds (b : ISOBuilder) :
  (forall isJoliet,
      Forall (fun f => (parentIndex f < length (fileEntries b))%nat
                       /\ len (pathTableIdentifier isJoliet f) <= 255) (fileEntries b)) ->
  exists r, pregeneratePathTables b = Ok r.
Proof.
  intros Hall. unfold pregeneratePathTables.
  destruct (createPathTable_succeeds b false false (Hall false)) as (pvdL & -> & L1).
  destruct (createPathTable_succeeds b false true (Hall false)) as (pvdM & -> & L2).
  destruct (createPathTable_succeeds b true false (Hall true)) as (svdL & -> & L3).
  destruct (createPathTable_succeeds b true true (Hall true)) as (svdM & -> & L4).
  cbn [bind]. cbv zeta.
  set (b1 := setPtData (mkPathTableData pvdL pvdM svdL svdM) b).
  assert (Hc : forall isJoliet, calculatePathTableTotalBytes b1 isJoliet
                                = calculatePathTableTotalBytes b isJoliet)
    by reflexivity.
  rewrite !Hc. cbn [ptData b1 setPtData pvdPathTableLData pvdPathTableMData
    svdPathTableLData svdPathTableMData].
  rewrite L1, L2, L3, L4, !Z.eqb_refl. cbn [negb]. eexists. reflexivity.
Qed.

(** The record sizes that the first stage computes. *)
Lemma assign_drSize_bounds (f : fileEntry) (isJoliet : bool) :
  len (encodeUTF16BE (jolietName (assignSanitizedNameAndDrSize f))) <= 255 ->
  34 <= drSize isJoliet (assignSanitizedNameAndDrSize f) <= 290.
Proof.
  intros Hj. pose proof (assign_drSizes f) as [H1 H2].
  assert (Hsize : forall identifier : list byte,
             len identifier <= 255 ->
             34 <= calculateDirectoryRecordSize identifier <= 290).
  { intros identifier Hid.
    pose proof (calculateDirectoryRecordSize_bounds identifier) as [Hb Hm].
    pose proof (len_nonneg identifier).
    pose proof (Z.mod_pos_bound (calculateDirectoryRecordSize identifier) 2 ltac:(lia)).
    pose proof (Z.div_mod (calculateDirectoryRecordSize identifier) 2 ltac:(lia)).
    lia. }
  unfold drSize. destruct isJoliet.
  - rewrite H2. apply Hsize.
    pose proof (getDRIdentifierBytes_joliet_len
                  (jolietName (assignSanitizedNameAndDrSize f)) (pathTableDirNum f =? 1)).
    lia.
  - rewrite H1. apply Hsize.
    pose proof (getDRIdentifierBytes_primary_len
                  (iso9660Name (assignSanitizedNameAndDrSize f)) (pathTableDirNum f =? 1)).
    pose proof (assign_iso9660Name_len f).
    lia.
Qed.

Lemma assign_pathTableIdentifier_len (f : fileEntry) (isJoliet : bool) :
  len (encodeUTF16BE (jolietName (assignSanitizedNameAndDrSize f))) <= 255 ->
  len (pathTableIdentifier isJoliet (assignSanitizedNameAndDrSize f)) <= 255.
Proof.
  intros Hj. unfold pathTableIdentifier.
  destruct (pathTableDirNum (assignSanitizedNameAndDrSize f) =? 1);
    [vm_compute; discriminate|].
  destruct isJoliet; [exact Hj|].
  pose proof (assign_iso9660Name_len f). lia.
Qed.

(** The planner succeeds on every table that is [plannable]. *)
Lemma calculateLayout_succeeds (b : ISOBuilder) :
  plannable (fileEntries b) -> exists r, calculateLayout b = Ok r.
Proof.
  intros [Hne Hall]. unfold calculateLayout.
  rewrite assignSanitizedNamesAndDrSizes_map. cbn [bind].
  set (es := fileEntries b) in *.
  set (bA := setFileEntries (map assignSanitizedNameAndDrSize es) b).
  assert (HA : fileEntries bA = map assignSanitizedNameAndDrSize es) by reflexivity.
  rewrite Forall_forall in Hall.
  destruct (calculateAllDirectoryExtentSizes_succeeds bA) as (b2 & -> & E2 & S2).
  { rewrite HA. destruct es; [contradiction | discriminate]. }
  { rewrite HA, length_map. apply Forall_forall. intros g Hg.
    apply in_map_iff in Hg. destruct Hg as (f & <- & Hf).
    pose proof (assign_keeps f) as (_ & _ & _ & _ & _ & -> & _).
    destruct (Hall f Hf) as (H1 & H2 & _). auto. }
  { intros isJoliet. rewrite HA. apply Forall_forall. intros g Hg.
    apply in_map_iff in Hg. destruct Hg as (f & <- & Hf).
    apply assign_drSize_bounds. now destruct (Hall f Hf) as (_ & _ & _ & H). }
  cbn [bind].
  destruct (determinePathTableLBAs b2 (wrap32 (SystemAreaNumSectors + 3)))
    as [b3 lba3] eqn:E3.
  assert (Hb3 : fileEntries b3 = fileEntries b2).
  { change b3 with (fst (b3, lba3)). rewrite <- E3. reflexivity. }
  destruct (assignContentLBAs_succeeds b3 lba3) as ([b4 lba4] & -> & E4).
  { now rewrite Hb3. }
  cbn [bind fst] in *.
  apply pregeneratePathTables_succeeds. intros isJoliet.
  cbn [fileEntries setTotalSectors].
  assert (E : map eraseExtents (fileEntries b4) = map eraseExtents (fileEntries bA))
    by (now rewrite E4, Hb3).
  rewrite (erased_length _ _ E), HA, length_map.
  apply (erased_Forall _ (fileEntries bA)); [|exact E|].
  - intros g g' Eg [H1 H2].
    rewrite (f_equal parentIndex Eg : parentIndex g' = parentIndex g).
    split; [exact H1|]. unfold pathTableIdentifier in *.
    rewrite (f_equal pathTableDirNum Eg : pathTableDirNum g' = pathTableDirNum g).
    rewrite (f_equal jolietName Eg : jolietName g' = jolietName g).
    now rewrite (f_equal iso9660Name Eg : iso9660Name g' = iso9660Name g).
  - rewrite HA. apply Forall_forall. intros g Hg.
    apply in_map_iff in Hg. destruct Hg as (f & <- & Hf).
    destruct (Hall f Hf) as (_ & _ & H3 & H4).
    pose proof (assign_keeps f) as (_ & _ & _ & _ & -> & _).
    split; [exact H3 | now apply assign_pathTableIdentifier_len].
Qed.

(* ------------------------------------------------------------------ *)
(** ** A tree with more directories than the 16-bit numbers tell apart *)

Lemma scanLoop_app (scanOne : osNode -> ISOBuilder * Z -> result (ISOBuilder * Z))
    (l1 l2 : list osNode) (st : ISOBuilder * Z) :
  scanLoop scanOne (l1 ++ l2) st
  = (st1 <- scanLoop scanOne l1 st ;; scanLoop scanOne l2 st1).
Proof.
  revert st. induction l1 as [|e t IH]; intros st; cbn [app scanLoop bind]; [reflexivity|].
  destruct (scanOne e st) as [st1| |]; cbn [bind]; [apply IH | reflexivity..].
Qed.

Lemma filter_all {A} (q : A -> bool) (l : list A) :
  Forall (fun a => q a = true) l -> filter q l = l.
Proof.
  induction 1 as [|a t Ha Ht IH]; cbn [filter]; [reflexivity|]. now rewrite Ha, IH.
Qed.

(** A strictly increasing list of numbers between [lo] and [n] has at most
    [n - lo] elements. *)
Lemma increasing_length (n : nat) (l : list nat) :
  StronglySorted lt l ->
  forall lo, Forall (fun c => (lo <= c < n)%nat) l -> (length l <= n - lo)%nat.
Proof.
  induction 1 as [|a t Ht IH Ha]; intros lo Hall; cbn [length]; [lia|].
  inversion Hall as [|? ? Hlo Hrest]; subst.
  assert (Hnext : Forall (fun c => (S a <= c < n)%nat) t).
  { rewrite Forall_forall in *. intros c Hc.
    specialize (Ha c Hc). specialize (Hrest c Hc). lia. }
  specialize (IH (S a) Hnext). lia.
Qed.

(** A short name of ASCII bytes gives a Joliet identifier that fits the
    one-byte length field. *)
Lemma assign_joliet_ascii (f : fileEntry) :
  Forall (fun c => 0 <= c < 128) (originalName f) ->
  len (originalName f) <= 64 ->
  len (encodeUTF16BE (jolietName (assignSanitizedNameAndDrSize f))) <= 255.
Proof.
  intros Hascii Hlen. rewrite (proj2 (assign_names f)).
  destruct (isDir f && (pathTableDirNum f =? 1)); [vm_compute; discriminate|].
  rewrite truncateJolietName_short
    by (rewrite (runes_ascii _ Hascii); unfold JolietMaxFilenameChars; exact Hlen).
  rewrite (encodeUTF16BE_ascii _ Hascii).
  assert (H : forall s : list Z, len (flat_map (fun c => [0; c]) s) = 2 * len s).
  { induction s as [|c t IH]; [reflexivity|].
    cbn [flat_map app]. unfold len in *. cbn [length]. lia. }
  unfold byte in *. rewrite H. lia.
Qed.

(** The names of the large tree. *)
Lemma wrapDirName_bytes (k : Z) : Forall (fun c => 97 <= c <= 112) (wrapDirName k).
Proof.
  unfold wrapDirName.
  pose proof (Z.mod_pos_bound (k / 4096) 16 ltac:(lia)).
  pose proof (Z.mod_pos_bound (k / 256) 16 ltac:(lia)).
  pose proof (Z.mod_pos_bound (k / 16) 16 ltac:(lia)).
  pose proof (Z.mod_pos_bound k 16 ltac:(lia)).
  repeat constructor; lia.
Qed.

Lemma wrapDirName_element (k : Z) : pathElement (wrapDirName k) = true.
Proof.
  unfold pathElement. rewrite !andb_true_iff. repeat split; try reflexivity.
  apply forallb_forall. intros c Hc.
  pose proof (wrapDirName_bytes k) as H. rewrite Forall_forall in H.
  specialize (H c Hc). apply negb_true_iff, Z.eqb_neq. lia.
Qed.

Lemma wrapDirName_wrapName (k : Z) : wrapName (wrapDirName k).
Proof.
  split; [|vm_compute; discriminate].
  eapply Forall_impl; [|apply wrapDirName_bytes]. cbv beta. intros c Hc. lia.
Qed.

Lemma emptyDirs_length (n : nat) (k : Z) : length (emptyDirs n k) = n.
Proof. revert k. induction n as [|n IH]; intros k; cbn [emptyDirs length]; auto. Qed.

Lemma emptyDirs_readable (n : nat) (k : Z) : forallb readable (emptyDirs n k) = true.
Proof.
  revert k. induction n as [|n IH]; intros k; cbn [emptyDirs forallb readable andb]; auto.
Qed.

Lemma emptyDirs_named (n : nat) (k : Z) : forallb namedNode (emptyDirs n k) = true.
Proof.
  revert k. induction n as [|n IH]; intros k; cbn [emptyDirs forallb]; [reflexivity|].
  now rewrite IH.
Qed.

Lemma emptyDirs_plain (n : nat) (k : Z) : forallb plainNode (emptyDirs n k) = true.
Proof.
  revert k. induction n as [|n IH]; intros k; cbn [emptyDirs forallb plainNode osName];
    [reflexivity|].
  now rewrite wrapDirName_element, IH.
Qed.

Lemma emptyDirs_countDirs (n : nat) (k : Z) : countDirsIn (emptyDirs n k) = Z.of_nat n.
Proof.
  unfold countDirsIn. revert k.
  induction n as [|n IH]; intros k; cbn [emptyDirs fold_right countDirs]; [reflexivity|].
  rewrite IH. lia.
Qed.

Lemma emptyDirs_scanned (n : nat) (k : Z) :
  Forall (fun s => wrapName (fst (fst s)) /\ snd (fst s) = true)
    (flat_map scanned (emptyDirs n k))
  /\ length (flat_map scanned (emptyDirs n k)) = n.
Proof.
  revert k. induction n as [|n IH]; intros k; cbn [emptyDirs flat_map scanned app length].
  - split; [constructor | reflexivity].
  - destruct (IH (k + 1)) as [H1 H2]. split; [|now rewrite H2].
    constructor; [|exact H1]. split; [apply wrapDirName_wrapName | reflexivity].
Qed.

(** The large tree is readable, named by path elements, and has 65536
    directories. *)
Lemma wrapTree_readable : forallb readable wrapTree = true.
Proof. unfold wrapTree. rewrite forallb_app, emptyDirs_readable. reflexivity. Qed.

Lemma wrapTree_named : forallb namedNode wrapTree = true.
Proof. unfold wrapTree. rewrite forallb_app, emptyDirs_named. reflexivity. Qed.

Lemma wrapTree_plain : forallb plainNode wrapTree = true.
Proof. unfold wrapTree. rewrite forallb_app, emptyDirs_plain. reflexivity. Qed.

Lemma wrapTree_countDirs : countDirsIn wrapTree = 65536.
Proof.
  unfold wrapTree, countDirsIn. rewrite fold_right_app.
  change (fold_right (fun x acc => countDirs x + acc) 0 [wrapLast]) with 2.
  assert (H : forall l a, fold_right (fun x acc => countDirs x + acc) a l
                          = countDirsIn l + a).
  { unfold countDirsIn. induction l as [|x t IH]; intros a; cbn [fold_right]; [lia|].
    rewrite IH. lia. }
  rewrite H, emptyDirs_countDirs. lia.
Qed.

Lemma wrapTree_scanned :
  Forall (fun s => wrapName (fst (fst s)) /\ snd (fst s) = true) (flat_map scanned wrapTree)
  /\ length (flat_map scanned wrapTree) = Z.to_nat 65536.
Proof.
  unfold wrapTree. rewrite flat_map_app.
  destruct (emptyDirs_scanned (Z.to_nat 65534) 0) as [H1 H2]. split.
  - apply Forall_app. split; [exact H1|].
    cbn [flat_map scanned wrapLast app].
    repeat constructor; cbn [fst snd]; try (vm_compute; discriminate);
      repeat constructor; lia.
  - rewrite length_app, H2. cbn [flat_map scanned wrapLast app length]. lia.
Qed.

(** The scan of [n] empty directories followed by [wrapLast], when the
    counter has wrapped around to 0 after them: the root keeps the number 1,
    the directory [last] receives the number 0, and the directory [inner]
    in it the number 1. *)
Lemma scan_wrapLast (b0 : ISOBuilder) (absPath : gostring) (n : nat) (b1 : ISOBuilder) :
  wrap16 (Z.of_nat n + 2) = 0 ->
  ScanSourceDirectory b0 (Some absPath) (Some (emptyDirs n 0 ++ [wrapLast])) = Ok b1 ->
  exists root last inner,
    nth_error (fileEntries b1) 0 = Some root
    /\ isDir root = true /\ pathTableDirNum root = 1 /\ parentIndex root = 0%nat
    /\ nth_error (fileEntries b1) (S n) = Some last
    /\ pathTableDirNum last = 0
    /\ nth_error (fileEntries b1) (S (S n)) = Some inner
    /\ isDir inner = true /\ pathTableDirNum inner = 1 /\ parentIndex inner = S n.
Proof.
  intros Hwrap. unfold ScanSourceDirectory, scanDirectoryRecursive. cbv zeta.
  cbn [fileEntries setFileEntries app].
  set (rootEntry := mkFileEntry [0] absPath (str "/") true 0 0 [] [] [] 0 0 0 0 0 0 1 false).
  set (bR := setFileEntries [rootEntry] (setFileEntries [] b0)).
  rewrite scanLoop_app. intros H.
  apply bind_Ok in H. destruct H as (st & H & Hst). apply Ok_inj in Hst. subst b1.
  apply bind_Ok in H. destruct H as ([bp np] & Hpre & Hlast).
  (* the state after the empty directories *)
  pose proof (scanLoop_outcome (emptyDirs n 0)
                ltac:(apply Forall_forall; intros e _; apply scanEntry_outcome)
                absPath 0%nat absPath bR 2 ltac:(cbn; lia)) as Hout.
  rewrite Hpre in Hout. cbn [scanOutcome] in Hout. destruct Hout as (_ & Hsum & _).
  assert (Hnum : numberedState (bp, np)).
  { eapply (scanLoop_preserves numberedState); [|exact Hpre|].
    - apply Forall_forall. intros e _ st0 st1. apply scanEntry_numbered.
    - unfold numberedState. cbn. repeat split. constructor. }
  assert (Htree : sourceTree absPath (fileEntries bp)).
  { refine (proj1 (scanLoop_tree absPath (emptyDirs n 0) _ _ _ _ _
                     (emptyDirs_plain n 0) Hpre _ _)).
    - apply Forall_forall. intros e _. apply scanEntry_tree.
    - apply rootTable_sourceTree.
    - eexists. split; [reflexivity|]. split; reflexivity. }
  destruct (emptyDirs_scanned n 0) as [Hall Hlen].
  cbn [fst fileEntries bR setFileEntries map app] in Hsum.
  assert (Hlength : length (fileEntries bp) = S n).
  { apply (f_equal (@length _)) in Hsum. rewrite length_map in Hsum.
    cbn [length] in Hsum. lia. }
  assert (Hdirs : Forall (fun f => isDir f = true) (fileEntries bp)).
  { apply (Forall_map summary (fun s => snd (fst s) = true)). rewrite Hsum.
    constructor; [reflexivity|]. eapply Forall_impl; [|exact Hall]. cbv beta. tauto. }
  destruct Hnum as (Hnumbers & Hnext & _). cbn [fst snd] in Hnumbers, Hnext.
  unfold dirNumbers in Hnumbers, Hnext. rewrite (filter_all _ _ Hdirs) in Hnumbers, Hnext.
  unfold len in Hnext. rewrite length_map, Hlength in Hnumbers, Hnext.
  replace (Z.of_nat (S n) + 1) with (Z.of_nat n + 2) in Hnext by lia.
  rewrite Hwrap in Hnext. subst np.
  destruct Htree as [(rootp & Hroot & _ & _ & _ & Hrd & _ & Hrp) _].
  assert (Hrn : pathTableDirNum rootp = 1).
  { destruct (fileEntries bp) as [|r rest]; [discriminate|].
    cbn [nth_error] in Hroot. injection Hroot as ->.
    cbn [map] in Hnumbers. unfold numbersFromOne in Hnumbers.
    cbn [seq map] in Hnumbers. now injection Hnumbers as -> _. }
  (* the directory [last] and the directory in it *)
  cbn [scanLoop] in Hlast. apply bind_Ok in Hlast. destruct Hlast as (st1 & Hlast & Hst).
  apply Ok_inj in Hst. subst st1.
  unfold wrapLast in Hlast. cbn [scanEntry osName] in Hlast.
  unfold index in Hlast at 1. rewrite Hroot in Hlast. cbn [bind] in Hlast.
  match type of Hlast with
  | context [appendEntry ?fe 0 bp] => set (feLast := fe) in Hlast
  end.
  set (bL := appendEntry feLast 0 bp) in Hlast.
  assert (HbL : fileEntries bL
                = update 0 (appendChild (length (fileEntries bp)))
                    (fileEntries bp ++ [feLast])) by apply appendEntry_entries.
  assert (HL : nth_error (fileEntries bL) (length (fileEntries bp)) = Some feLast).
  { rewrite HbL. eapply appended_new; eauto. }
  cbn [scanLoop scanEntry osName] in Hlast.
  unfold index in Hlast. rewrite HL in Hlast. cbn [bind] in Hlast.
  match type of Hlast with
  | context [appendEntry ?fe (length (fileEntries bp)) bL] => set (feInner := fe) in Hlast
  end.
  apply Ok_inj in Hlast. subst st. cbn [fst].
  rewrite appendEntry_entries, <- Hlength.
  assert (HlenL : S (length (fileEntries bp)) = length (fileEntries bL)).
  { rewrite HbL, length_update, length_app. cbn [length]. lia. }
  rewrite HlenL.
  assert (H0 : nth_error (fileEntries bL) 0
               = Some (appendChild (length (fileEntries bp)) rootp)).
  { rewrite HbL. now rewrite (appended_old _ 0 feLast 0 rootp Hroot). }
  assert (Hne : Nat.eqb 0 (length (fileEntries bp)) = false)
    by (apply Nat.eqb_neq; lia).
  exists (appendChild (length (fileEntries bp)) rootp),
    (appendChild (length (fileEntries bL)) feLast), feInner.
  split.
  { rewrite (appended_old _ (length (fileEntries bp)) feInner 0 _ H0), Hne. reflexivity. }
  split; [exact Hrd|]. split; [exact Hrn|]. split; [exact Hrp|].
  split.
  { rewrite (appended_old _ (length (fileEntries bp)) feInner _ _ HL), Nat.eqb_refl.
    reflexivity. }
  split; [reflexivity|].
  split; [eapply appended_new; solve [exact HL | reflexivity]|].
  repeat split.
Qed.

(** The table of the large tree can be planned. *)
Lemma scanned_plannable (b0 b1 : ISOBuilder) (absPath : gostring) (l : list osNode) :
  forallb plainNode l = true ->
  Forall (fun s => wrapName (fst (fst s))) (flat_map scanned l) ->
  Z.of_nat (length (flat_map scanned l)) < 1000000 ->
  ScanSourceDirectory b0 (Some absPath) (Some l) = Ok b1 ->
  plannable (fileEntries b1).
Proof.
  intros Hplain Hnames Hcount Hscan.
  pose proof (ScanSourceDirectory_sourceTree b0 b1 absPath l Hplain Hscan) as Htree.
  pose proof (ScanSourceDirectory_outcome b0 absPath l) as Hout.
  rewrite Hscan in Hout. destruct Hout as (_ & Hsum & _).
  assert (Hlen : length (fileEntries b1) = S (length (flat_map scanned l))).
  { apply (f_equal (@length _)) in Hsum. rewrite length_map in Hsum. exact Hsum. }
  assert (Hnm : Forall (fun f => wrapName (originalName f)) (fileEntries b1)).
  { apply (Forall_map summary (fun s => wrapName (fst (fst s)))). rewrite Hsum.
    constructor; [|exact Hnames].
    split; [repeat constructor; lia | vm_compute; discriminate]. }
  destruct Htree as [(root & Hroot & _ & _ & _ & _ & _ & Hrp) Hall].
  split; [destruct (fileEntries b1); discriminate|].
  apply Forall_forall. intros f Hin.
  rewrite Forall_forall in Hnm. destruct (Hnm f Hin) as [Hascii Hshort].
  apply In_nth_error in Hin. destruct Hin as [i Hi].
  destruct (Hall i f Hi) as ((Hsorted & _ & Hch) & _ & Hchild).
  assert (Hrange : Forall (fun c => (c < length (fileEntries b1))%nat) (children f)).
  { eapply Forall_impl; [|exact Hch]. cbv beta. intros c (_ & g & Hg & _).
    apply nth_error_Some. congruence. }
  split; [exact Hrange|]. split; [|split].
  - pose proof (increasing_length (length (fileEntries b1)) (children f) Hsorted 0%nat) as Hl.
    assert (Forall (fun c => (0 <= c < length (fileEntries b1))%nat) (children f))
      by (eapply Forall_impl; [|exact Hrange]; cbv beta; lia).
    specialize (Hl H). unfold len. lia.
  - destruct i as [|i].
    + assert (f = root) by congruence. subst f. rewrite Hrp, Hlen. lia.
    + destruct (Hchild ltac:(lia)) as (Hp & _).
      assert (S i < length (fileEntries b1))%nat by (apply nth_error_Some; congruence).
      lia.
  - now apply assign_joliet_ascii.
Qed.

(** In the M-type table of the large tree the record of the root is not the
    first: the directory [inner], whose parent has the number 0, comes
    before it. *)
Lemma wrapTree_root_not_first (b0 : ISOBuilder) (absPath : gostring) :
  exists b1 b2,
    ScanSourceDirectory b0 (Some absPath) (Some wrapTree) = Ok b1
    /\ calculateLayout b1 = Ok b2
    /\ forall isJoliet root rest,
         nth_error (fileEntries b2) 0 = Some root ->
         pathTableDirs b2 isJoliet true <> root :: rest.
Proof.
  pose proof (ScanSourceDirectory_outcome b0 absPath wrapTree) as Hout.
  destruct (ScanSourceDirectory b0 (Some absPath) (Some wrapTree)) as [b1| |] eqn:Hscan;
    [clear Hout | rewrite wrapTree_readable in Hout; discriminate | contradiction].
  destruct wrapTree_scanned as [Hnames Hcount].
  destruct (calculateLayout_succeeds b1) as (b2 & Hplan).
  { apply (scanned_plannable b0 b1 absPath wrapTree wrapTree_plain); [| |exact Hscan].
    - eapply Forall_impl; [|exact Hnames]. cbv beta. tauto.
    - rewrite Hcount. lia. }
  exists b1, b2. split; [reflexivity|]. split; [exact Hplan|].
  destruct (scan_wrapLast b0 absPath (Z.to_nat 65534) b1) as
    (root1 & last1 & inner1 & Hr & Hrd & Hrn & Hrp & Hl & Hln & Hi & Hid & Hin & Hip).
  { rewrite Z2Nat.id by lia. reflexivity. }
  { exact Hscan. }
  destruct (calculateLayout_nth_forward b1 b2 _ _ Hplan Hr) as (root2 & Hr2 & Cr).
  destruct (calculateLayout_nth_forward b1 b2 _ _ Hplan Hl) as (last2 & Hl2 & Cl).
  destruct (calculateLayout_nth_forward b1 b2 _ _ Hplan Hi) as (inner2 & Hi2 & Ci).
  unfold core in Cr, Cl, Ci.
  injection Cr as Crd Crn Crp _. injection Cl as _ Cln _ _. injection Ci as Cid Cin Cip _.
  intros isJoliet root rest Hroot Htable.
  assert (root = root2) by congruence. subst root.
  assert (Hpr : parentDirNum b2 root2 = 1).
  { unfold parentDirNum. rewrite Crp, Hrp, Hr2. congruence. }
  assert (Hpi : parentDirNum b2 inner2 = 0).
  { unfold parentDirNum. rewrite Cip, Hip, Hl2. congruence. }
  assert (Hmember : In inner2 (pathTableDirs b2 isJoliet true)).
  { unfold pathTableDirs.
    eapply Permutation_in; [apply sortSlice_perm|].
    apply filter_In. split; [eapply nth_error_In; eauto|].
    rewrite Cid, Hid, Cin, Hin. reflexivity. }
  destruct (pathTableDirs_ordered b2 isJoliet) as [_ Hsorted].
  rewrite Htable in Hsorted, Hmember.
  inversion Hsorted as [|? ? _ Hfirst]; subst.
  destruct Hmember as [Heq | Hrest].
  - subst inner2. rewrite Hpr in Hpi. discriminate.
  - rewrite Forall_forall in Hfirst. specialize (Hfirst inner2 Hrest).
    unfold mTypeOrdered in Hfirst. rewrite Hpr, Hpi in Hfirst. lia.
Qed.
End Planner.

(* ================================================================== *)
(** * Evaluations on concrete inputs *)

(** A host for the concrete inputs: [os.Stat] fails, so that every record
    takes the current time, which is fixed. *)
Definition exampleStat (path : gostring) : option goTime := None.
Definition exampleNow : goTime := mkGoTime 2025 1 2 3 4 5.

(** The value of a successful run. *)
Definition okOr {A} (d : A) (r : result A) : A :=
  match r with
  | Ok a => a
  | _ => d
  end.

Definition exampleBuilder : ISOBuilder := NewBuilder (str "src") (str "out.iso").

(** A source directory with a file, two directories, one of them nested and
    holding a file named like one of the root, and something that is neither
    a file nor a directory. *)
Definition exampleTree : list osNode :=
  [OsRegular (str "hello.txt") 5;
   OsDirectory (str "sub")
     (Some [OsRegular (str "secret.bin") 0; OsDirectory (str "deep") (Some [])]);
   OsOther (str "link");
   OsDirectory (str "alpha") (Some []);
   OsRegular (str "secret.bin") 2049].

Definition exampleScanned : ISOBuilder :=
  Eval vm_compute in
    okOr exampleBuilder (ScanSourceDirectory exampleBuilder (Some (str "/src")) (Some exampleTree)).

Definition examplePlanned : ISOBuilder :=
  Eval vm_compute in okOr exampleBuilder (calculateLayout asciiToUpper exampleScanned).

Definition exampleMarked : ISOBuilder * list gostring :=
  Eval vm_compute in
    okOr (exampleBuilder, [])
         (MarkFileNamesAsHidden exampleScanned [str "secret.bin"; str "nope"]).

Definition exampleFile : fileEntry :=
  Eval vm_compute in nth 1 (fileEntries examplePlanned) (newFileEntry [] [] [] false 0 0 0 0).

Definition exampleFields : directoryRecordFields :=
  mkDirectoryRecordFields 0 29 5 [125; 1; 2; 3; 4; 5; 0] 0 0 0 1.

(** The Joliet listing of the root of a source tree, as
    [createDirectoryListing] builds it after the scan and the planner. *)
Definition jolietRootListing (listing : option (list osNode)) : result (list byte) :=
  b <- ScanSourceDirectory exampleBuilder (Some (str "/src")) listing ;;
  b <- calculateLayout asciiToUpper b ;;
  createDirectoryListing exampleStat exampleNow b 0 true.

(** C5 (evaluation at the failing input): [createDirectoryListing] sorts the
    children by their Joliet names as Go strings, that is by their UTF-8
    bytes, while [createPathTable] compares the encoded identifiers.  For
    two files named U+1F600 and U+FF21 the Joliet listing of the root emits
    the identifier FF 21 (record at offset 72, identifier at offset 105)
    before D8 3D DE 00 (record at offset 108, identifier at offset 141),
    which is smaller byte-wise. *)
Theorem jolietListing_sorted_by_utf8_not_ucs2 :
  jolietListingIdentifiers asciiToUpper astralSiblingsTree
  = Ok [[255; 33]; [216; 61; 222; 0]]
  /\ liftResult (fun l => (firstn 2 (skipn 105 l), firstn 4 (skipn 141 l)))
                (jolietRootListing astralSiblingsTree)
     = Ok ([255; 33], [216; 61; 222; 0])
  /\ bytesLess [216; 61; 222; 0] [255; 33] = true.
Proof.
  repeat (split; [vm_compute; reflexivity|]). vm_compute. reflexivity.
Qed.

(** The defect of C2 reaches the writer: for an entry named by 64 scalar
    values outside the Basic Multilingual Plane the planner computes a Joliet
    record of 290 bytes, the marshalled record has 34, and the listing
    panics. *)
Lemma astral_name_record_length_mismatch :
  let f := assignSanitizedNameAndDrSize asciiToUpper
             (newFileEntry astralName (str "/src/x") (str "/x") false 1 0 1 0) in
  actualJolietDrSize f = 290
  /\ len (createDirectoryRecordBytes exampleStat exampleNow 0 1 (jolietName f) f true) = 34
  /\ childRecord exampleStat exampleNow true f = Panic.
Proof.
  cbv zeta. repeat (split; [vm_compute; reflexivity|]). vm_compute. reflexivity.
Qed.

(** C4 (counterexample): for an identifier of 256 bytes the length byte wraps
    around to 0 and the marshalled record has 34 bytes, not 290. *)
Lemma marshalDirectoryRecord_long_identifier :
  len (marshalDirectoryRecord exampleFields (repeat 65 256%nat))
  <> roundUpEven (33 + len (repeat 65 256%nat)).
Proof.
  vm_compute. discriminate.
Qed.

(** C4 (witness): the records of [hello.txt]. *)
Lemma directoryRecord_length_witness :
  len (str "HELLO.TXT;1") <= 221
  /\ len (encodeUTF16BE (jolietName (assignSanitizedNameAndDrSize asciiToUpper exampleFile)))
     <= 255
  /\ len (marshalDirectoryRecord exampleFields (str "HELLO.TXT;1")) = 44
  /\ (exists r, childRecord exampleStat exampleNow false
                  (assignSanitizedNameAndDrSize asciiToUpper exampleFile) = Ok r
                /\ len r = 44)
  /\ (exists r, childRecord exampleStat exampleNow true
                  (assignSanitizedNameAndDrSize asciiToUpper exampleFile) = Ok r
                /\ len r = 52).
Proof.
  assert (H1 : len (str "HELLO.TXT;1") <= 221) by (vm_compute; discriminate).
  assert (H2 : len (encodeUTF16BE
                      (jolietName (assignSanitizedNameAndDrSize asciiToUpper exampleFile)))
               <= 255) by (vm_compute; discriminate).
  destruct (directoryRecord_length_matches_dr_size asciiToUpper exampleStat exampleNow
              exampleFields (str "HELLO.TXT;1") exampleFile) as (Hrec & Hprimary & Hjoliet).
  split; [exact H1|]. split; [exact H2|].
  split; [exact (proj1 (Hrec H1))|].
  split; [exact Hprimary | exact (Hjoliet H2)].
Defined.

(** C3 (witness): the file [hello.txt] of the example tree. *)
Lemma file_extent_shared_witness :
  ScanSourceDirectory exampleBuilder (Some (str "/src")) (Some exampleTree) = Ok exampleScanned
  /\ calculateLayout asciiToUpper exampleScanned = Ok examplePlanned
  /\ In exampleFile (fileEntries examplePlanned)
  /\ isDir exampleFile = false
  /\ iso9660Sector exampleFile = jolietSector exampleFile
  /\ iso9660Size exampleFile = jolietSize exampleFile.
Proof.
  assert (H1 : ScanSourceDirectory exampleBuilder (Some (str "/src")) (Some exampleTree)
               = Ok exampleScanned) by (vm_compute; reflexivity).
  assert (H2 : calculateLayout asciiToUpper exampleScanned = Ok examplePlanned)
    by (vm_compute; reflexivity).
  assert (H3 : In exampleFile (fileEntries examplePlanned))
    by (right; left; reflexivity).
  assert (H4 : isDir exampleFile = false) by reflexivity.
  pose proof (file_extent_shared_by_both_namespaces asciiToUpper exampleStat exampleNow
                exampleBuilder exampleScanned examplePlanned (str "/src") (Some exampleTree)
                exampleFile H1 H2 H3 H4) as (Hs & Hz & _).
  repeat split; assumption.
Defined.

(** C7 (witness): the path tables of the example tree. *)
Lemma pathTable_record_order_witness :
  forallb namedNode exampleTree = true
  /\ countDirsIn exampleTree <= 65534
  /\ ScanSourceDirectory exampleBuilder (Some (str "/src")) (Some exampleTree) = Ok exampleScanned
  /\ calculateLayout asciiToUpper exampleScanned = Ok examplePlanned
  /\ StronglySorted (mTypeOrdered examplePlanned true) (pathTableDirs examplePlanned true true)
  /\ (exists root restM restL,
        nth_error (fileEntries examplePlanned) 0 = Some root
        /\ pathTableDirNum root = 1
        /\ pathTableDirs examplePlanned true true = root :: restM
        /\ pathTableDirs examplePlanned true false = root :: restL)
  /\ map pathTableDirNum (pathTableDirs examplePlanned true true) = [1; 4; 2; 3]
  /\ map pathTableDirNum (pathTableDirs examplePlanned true false) = [1; 2; 3; 4].
Proof.
  assert (H1 : forallb namedNode exampleTree = true) by reflexivity.
  assert (H2 : countDirsIn exampleTree <= 65534) by (vm_compute; discriminate).
  assert (H3 : ScanSourceDirectory exampleBuilder (Some (str "/src")) (Some exampleTree)
               = Ok exampleScanned) by (vm_compute; reflexivity).
  assert (H4 : calculateLayout asciiToUpper exampleScanned = Ok examplePlanned)
    by (vm_compute; reflexivity).
  pose proof (pathTable_record_order asciiToUpper examplePlanned true) as (_ & HM & _ & Hroot).
  specialize (Hroot exampleBuilder exampleScanned (str "/src") exampleTree H1 H2 H3 H4).
  repeat (split; [assumption|]).
  split; vm_compute; reflexivity.
Defined.

(** C7 (counterexample): a source directory with 65536 directories below it,
    65534 empty ones followed by [last], which holds [inner].  The 16-bit
    counter gives [last] the number 0 and [inner] the number 1, the number of
    the root; the scan and the planner succeed, and in neither M-type table
    is the record of the root the first one, as the parent of [inner] has a
    smaller number than the parent of the root. *)
Lemma pathTable_root_not_first_after_wrap :
  forallb namedNode wrapTree = true
  /\ countDirsIn wrapTree = 65536
  /\ exists b1 b2,
       ScanSourceDirectory exampleBuilder (Some (str "/src")) (Some wrapTree) = Ok b1
       /\ calculateLayout asciiToUpper b1 = Ok b2
       /\ forall isJoliet root rest,
            nth_error (fileEntries b2) 0 = Some root ->
            pathTableDirs b2 isJoliet true <> root :: rest.
Proof.
  split; [exact wrapTree_named|]. split; [exact wrapTree_countDirs|].
  exact (wrapTree_root_not_first asciiToUpper exampleStat exampleBuilder (str "/src")).
Qed.

(** C9 (witness): hiding [secret.bin], present at two depths, and a name
    that matches nothing. *)
Lemma hidden_marking_witness :
  MarkFileNamesAsHidden exampleScanned [str "secret.bin"; str "nope"]
  = Ok (fst exampleMarked, snd exampleMarked)
  /\ map isHidden (fileEntries (fst exampleMarked))
     = [false; false; false; true; false; false; true]
  /\ liftResult forgetB (calculateLayout asciiToUpper (fst exampleMarked))
     = liftResult forgetB (calculateLayout asciiToUpper exampleScanned).
Proof.
  assert (H1 : MarkFileNamesAsHidden exampleScanned [str "secret.bin"; str "nope"]
               = Ok (fst exampleMarked, snd exampleMarked)) by (vm_compute; reflexivity).
  pose proof (hidden_marking_leaves_layout_unchanged asciiToUpper exampleScanned
                (fst exampleMarked) [str "secret.bin"; str "nope"] (snd exampleMarked) H1)
    as (_ & _ & Hl & _).
  split; [exact H1|]. split; [vm_compute; reflexivity | exact Hl].
Defined.

(* ================================================================== *)
(** * The encoders, the writer, the scanner and the planner on concrete inputs *)

#[local] Existing Instance memFileWriteSeeker.
#[local] Existing Instance memFileOsFile.

(** X29: a file identifier that [sanitizeISO9660Name] returns, before the
    version suffix, has 1 to 12 bytes, each of them an upper-case letter, a
    digit, an underscore or a dot, whatever the name on disk. *)
Theorem sanitizeISO9660Name_file_alphabet (unicodeToUpper : rune -> rune) (name : gostring) :
  Forall isoNameChar (sanitizeISO9660Name unicodeToUpper name false)
  /\ 1 <= len (sanitizeISO9660Name unicodeToUpper name false) <= 12.
Proof. exact (sanitizeISO9660Name_file unicodeToUpper exampleStat name). Qed.

(** The files of the example tree as [os.ReadFile] returns them. *)
Definition exampleDisk (path : gostring) : option (list byte) :=
  if eqbBytes path (str "/src/hello.txt") then Some [104; 101; 108; 108; 111]
  else if eqbBytes path (str "/src/sub/secret.bin") then Some []
  else if eqbBytes path (str "/src/secret.bin") then Some (repeat 7 2049)
  else None.

Definition exampleRoot : fileEntry :=
  Eval vm_compute in nth 0 (fileEntries examplePlanned) (newFileEntry [] [] [] false 0 0 0 0).

Definition exampleScannedRoot : fileEntry :=
  Eval vm_compute in nth 0 (fileEntries exampleScanned) (newFileEntry [] [] [] false 0 0 0 0).

Definition exampleScannedAtRoot : ISOBuilder :=
  Eval vm_compute in
    okOr exampleBuilder (ScanSourceDirectory exampleBuilder (Some (str "/")) (Some exampleTree)).

Definition exampleListing : list byte :=
  Eval vm_compute in
    okOr [] (createDirectoryListing exampleStat exampleNow examplePlanned 0 false).

Definition examplePathTable : list byte :=
  Eval vm_compute in okOr [] (createPathTable examplePlanned false false).

(** The image of the example tree; its bytes are left unevaluated. *)
Definition exampleBuilt : ISOBuilder * memFile :=
  okOr (exampleBuilder, mkMemFile [] 0)
    (Build asciiToUpper exampleStat exampleNow 0 exampleDisk exampleBuilder DefaultOptions
       (Some (str "/src")) (Some exampleTree)).

Definition isOk {A} (r : result A) : bool :=
  match r with
  | Ok _ => true
  | _ => false
  end.

Lemma isOk_okOr {A} (d : A) (r : result A) : isOk r = true -> r = Ok (okOr d r).
Proof. destruct r; cbn; intros H; [reflexivity | discriminate..]. Qed.

(** X1 (witness): a path table of 5000 bytes. *)
Lemma sectorsToContainBytes_least_cover_witness :
  0 <= 5000 <= 4294965248
  /\ 5000 <= sectorsToContainBytes 5000 * SectorSize < 5000 + SectorSize.
Proof.
  assert (H : 0 <= 5000 <= 4294965248) by lia.
  split; [exact H|]. exact (proj1 (sectorsToContainBytes_least_cover 5000 H)).
Defined.

(** X2 (witness): a file of 5000 bytes. *)
Lemma sectorsToContainFileBytes_least_cover_witness :
  0 <= 5000 <= 4294965248
  /\ sectorsToContainFileBytes 5000 = sectorsForFileSpec 5000.
Proof.
  assert (H : 0 <= 5000 <= 4294965248) by lia.
  split; [exact H|]. exact (proj1 (sectorsToContainFileBytes_least_cover 5000 H)).
Defined.

(** X7 (witness): the time of the example host. *)
Lemma formatTimestamp_digits_witness :
  isZeroTime (mkUtcTime exampleNow 0) = false
  /\ decimalValue (slice 0 4 (formatTimestamp (mkUtcTime exampleNow 0))) = 2025
  /\ decimalValue (slice 4 2 (formatTimestamp (mkUtcTime exampleNow 0))) = 1.
Proof.
  assert (H0 : isZeroTime (mkUtcTime exampleNow 0) = false) by reflexivity.
  split; [exact H0|].
  pose proof (formatTimestamp_digits (mkUtcTime exampleNow 0) H0
                ltac:(simpl; lia) ltac:(simpl; lia) ltac:(simpl; lia)
                ltac:(simpl; lia) ltac:(simpl; lia) ltac:(simpl; lia))
    as (_ & Hy & Hm & _).
  split; [exact Hy | exact Hm].
Defined.

(** X8 (witness): the record of [HELLO.TXT;1]. *)
Lemma marshalDirectoryRecord_decodes_witness :
  len (str "HELLO.TXT;1") <= 221
  /\ length (RecordingTime exampleFields) = 7%nat
  /\ leUint (slice 2 4 (marshalDirectoryRecord exampleFields (str "HELLO.TXT;1")))
     = wrap32 (LocationExtent exampleFields)
  /\ slice 33 11 (marshalDirectoryRecord exampleFields (str "HELLO.TXT;1"))
     = str "HELLO.TXT;1".
Proof.
  assert (H1 : len (str "HELLO.TXT;1") <= 221) by (vm_compute; discriminate).
  assert (H2 : length (RecordingTime exampleFields) = 7%nat) by reflexivity.
  split; [exact H1|]. split; [exact H2|].
  pose proof (marshalDirectoryRecord_decodes exampleFields (str "HELLO.TXT;1") H1 H2)
    as (_ & _ & Hle & _ & _ & _ & _ & _ & _ & _ & _ & Hid & _).
  split; [exact Hle | exact Hid].
Defined.

(** X9 (witness): the record of a directory [SUB] in an L-type table. *)
Lemma marshalPathTableRecord_decodes_witness :
  len (str "SUB") <= 255
  /\ len (marshalPathTableRecord (mkPathTableRecordFields 0 28 1) (str "SUB") false) = 12
  /\ leUint (slice 2 4 (marshalPathTableRecord (mkPathTableRecordFields 0 28 1)
                          (str "SUB") false)) = 28.
Proof.
  assert (H1 : len (str "SUB") <= 255) by (vm_compute; discriminate).
  split; [exact H1|].
  pose proof (marshalPathTableRecord_decodes (mkPathTableRecordFields 0 28 1) (str "SUB")
                false H1) as (Hl & _ & _ & Hd & _).
  split; [exact Hl | exact Hd].
Defined.

(** X10 (witness): the primary volume descriptor of the example plan. *)
Lemma createPrimaryVolumeDescriptor_layout_witness :
  nth_error (fileEntries examplePlanned) 0 = Some exampleRoot
  /\ pathTableDirNum exampleRoot = 1
  /\ iso9660Name exampleRoot = []
  /\ exists sector,
       createPrimaryVolumeDescriptor exampleStat exampleNow 0 examplePlanned DefaultOptions
       = Ok sector
       /\ len sector = 2048
       /\ leUint (slice 80 4 sector) = wrap32 (totalSectors examplePlanned).
Proof.
  assert (H1 : nth_error (fileEntries examplePlanned) 0 = Some exampleRoot) by reflexivity.
  assert (H2 : pathTableDirNum exampleRoot = 1) by reflexivity.
  assert (H3 : iso9660Name exampleRoot = []) by reflexivity.
  split; [exact H1|]. split; [exact H2|]. split; [exact H3|].
  destruct (createPrimaryVolumeDescriptor_layout exampleStat exampleNow 0 examplePlanned
              DefaultOptions exampleRoot H1 H2 H3)
    as (sector & Hs & Hl & _ & _ & _ & _ & _ & Hv & _).
  exists sector. split; [exact Hs|]. split; [exact Hl | exact Hv].
Defined.

(** X11 (witness): the supplementary volume descriptor of the example
    plan. *)
Lemma createJolietVolumeDescriptor_layout_witness :
  nth_error (fileEntries examplePlanned) 0 = Some exampleRoot
  /\ pathTableDirNum exampleRoot = 1
  /\ jolietName exampleRoot = [0]
  /\ exists sector,
       createJolietVolumeDescriptor exampleStat exampleNow 0 examplePlanned DefaultOptions
       = Ok sector
       /\ len sector = 2048.
Proof.
  assert (H1 : nth_error (fileEntries examplePlanned) 0 = Some exampleRoot) by reflexivity.
  assert (H2 : pathTableDirNum exampleRoot = 1) by reflexivity.
  assert (H3 : jolietName exampleRoot = [0]) by reflexivity.
  split; [exact H1|]. split; [exact H2|]. split; [exact H3|].
  destruct (createJolietVolumeDescriptor_layout exampleStat exampleNow 0 examplePlanned
              DefaultOptions exampleRoot H1 H2 H3) as (sector & Hs & Hl & _).
  exists sector. split; [exact Hs | exact Hl].
Defined.

(** X12 (witness): three bytes written to sector 1 of an empty file. *)
Lemma writeAtSectorAndPad_region_witness :
  0 <= 1 /\ 0 < 2048 /\ 2048 mod SectorSize = 0 /\ len [1; 2; 3] <= 2048
  /\ exists f',
       writeAtSectorAndPad (mkMemFile [] 0) [1; 2; 3] 1 2048 = Ok f'
       /\ position f' = 1 * SectorSize + 2048.
Proof.
  assert (H1 : 0 <= 1) by lia.
  assert (H2 : 0 < 2048) by lia.
  assert (H3 : 2048 mod SectorSize = 0) by reflexivity.
  assert (H4 : len [1; 2; 3] <= 2048) by (vm_compute; discriminate).
  split; [exact H1|]. split; [exact H2|]. split; [exact H3|]. split; [exact H4|].
  destruct (writeAtSectorAndPad_region (mkMemFile [] 0) [1; 2; 3] 1 2048 H1 H2 H3 H4)
    as (f' & Hw & Hp & _).
  exists f'. split; [exact Hw | exact Hp].
Defined.

(** X14 (witness): the first 19 sectors of the image of the example plan. *)
Lemma writeVolumeDescriptors_image_prefix_witness :
  nth_error (fileEntries examplePlanned) 0 = Some exampleRoot
  /\ pathTableDirNum exampleRoot = 1
  /\ iso9660Name exampleRoot = []
  /\ jolietName exampleRoot = [0]
  /\ exists pvd svd,
       (f <- writeSystemArea (mkMemFile [] 0) ;;
        writeVolumeDescriptors exampleStat exampleNow 0 examplePlanned DefaultOptions f)
       = Ok (mkMemFile
               (repeat 0 (Z.to_nat 32768) ++ pvd ++ svd
                ++ [255; 67; 68; 48; 48; 49; 1] ++ repeat 0 2041)
               38912).
Proof.
  assert (H1 : nth_error (fileEntries examplePlanned) 0 = Some exampleRoot) by reflexivity.
  assert (H2 : pathTableDirNum exampleRoot = 1) by reflexivity.
  assert (H3 : iso9660Name exampleRoot = []) by reflexivity.
  assert (H4 : jolietName exampleRoot = [0]) by reflexivity.
  split; [exact H1|]. split; [exact H2|]. split; [exact H3|]. split; [exact H4|].
  destruct (writeVolumeDescriptors_image_prefix exampleStat exampleNow 0 examplePlanned
              DefaultOptions exampleRoot H1 H2 H3 H4) as (pvd & svd & _ & _ & Hw).
  exists pvd, svd. exact Hw.
Defined.

(** X15 (witness): the example plan and an empty file. *)
Lemma finalizeImageSize_exact_witness :
  0 <= totalSectors examplePlanned
  /\ exists f',
       finalizeImageSize examplePlanned (mkMemFile [] 0) = Ok f'
       /\ len (content f') = totalSectors examplePlanned * SectorSize.
Proof.
  assert (H : 0 <= totalSectors examplePlanned) by (vm_compute; discriminate).
  split; [exact H|].
  destruct (finalizeImageSize_exact examplePlanned (mkMemFile [] 0) H) as (f' & Hf & Hl & _).
  exists f'. split; [exact Hf | exact Hl].
Defined.

(** X16 (witness): the image of the example tree, built from a fresh
    builder, hence after a scan. *)
Lemma Build_image_size_witness :
  Build asciiToUpper exampleStat exampleNow 0 exampleDisk exampleBuilder DefaultOptions
    (Some (str "/src")) (Some exampleTree) = Ok (fst exampleBuilt, snd exampleBuilt)
  /\ (exists scanned,
        ScanSourceDirectory exampleBuilder (Some (str "/src")) (Some exampleTree) = Ok scanned
        /\ calculateLayout asciiToUpper scanned = Ok (fst exampleBuilt))
  /\ len (content (snd exampleBuilt)) = totalSectors (fst exampleBuilt) * SectorSize.
Proof.
  assert (H : Build asciiToUpper exampleStat exampleNow 0 exampleDisk exampleBuilder
                DefaultOptions (Some (str "/src")) (Some exampleTree)
              = Ok (fst exampleBuilt, snd exampleBuilt)).
  { rewrite <- surjective_pairing. apply isOk_okOr. vm_compute. reflexivity. }
  split; [exact H|].
  exact (Build_image_size asciiToUpper exampleStat exampleNow 0 exampleDisk
           exampleBuilder DefaultOptions (Some (str "/src")) (Some exampleTree)
           (fst exampleBuilt) (snd exampleBuilt) H).
Defined.

(** X17 (witness): hiding [secret.bin], the root placeholder and a name that
    matches nothing in the scanned example. *)
Lemma MarkFileNamesAsHidden_result_witness :
  nth_error (fileEntries exampleScanned) 0 = Some exampleScannedRoot
  /\ MarkFileNamesAsHidden exampleScanned [str "secret.bin"; [0]; str "nope"]
     = Ok (setFileEntries
             (map (hiddenBy (originalName exampleScannedRoot)
                     [str "secret.bin"; [0]; str "nope"])
                (fileEntries exampleScanned)) exampleScanned,
           flat_map (complaint (fileEntries exampleScanned) (originalName exampleScannedRoot))
             [str "secret.bin"; [0]; str "nope"]).
Proof.
  assert (H : nth_error (fileEntries exampleScanned) 0 = Some exampleScannedRoot)
    by reflexivity.
  split; [exact H|].
  exact (proj1 (MarkFileNamesAsHidden_result exampleScanned
                  [str "secret.bin"; [0]; str "nope"] exampleScannedRoot H)).
Defined.

(** X18 (witness): a fresh builder and an ordinary name. *)
Lemma MarkFileNamesAsHidden_unscanned_witness :
  fileEntries exampleBuilder = []
  /\ MarkFileNamesAsHidden exampleBuilder [str ".."; str "a"] = Panic.
Proof.
  assert (H : fileEntries exampleBuilder = []) by reflexivity.
  split; [exact H|].
  apply (proj1 (MarkFileNamesAsHidden_unscanned exampleBuilder [str ".."; str "a"] H)).
  exists (str "a"). split; [right; left; reflexivity|].
  repeat split; discriminate.
Defined.

(** X19 (witness): the example tree. *)
Lemma ScanSourceDirectory_preorder_witness :
  forallb readable exampleTree = true
  /\ exists b',
       ScanSourceDirectory exampleBuilder (Some (str "/src")) (Some exampleTree) = Ok b'
       /\ map summary (fileEntries b') = ([0], true, 0) :: flat_map scanned exampleTree
       /\ withoutEntries b' = withoutEntries exampleBuilder.
Proof.
  assert (H : forallb readable exampleTree = true) by reflexivity.
  split; [exact H|].
  exact (ScanSourceDirectory_preorder exampleBuilder (str "/src") exampleTree H).
Defined.

(** X21 (witness): the numbers of the directories of the example tree. *)
Lemma ScanSourceDirectory_numbers_witness :
  ScanSourceDirectory exampleBuilder (Some (str "/src")) (Some exampleTree) = Ok exampleScanned
  /\ dirNumbers (fileEntries exampleScanned)
     = numbersFromOne (length (dirNumbers (fileEntries exampleScanned)))
  /\ Forall (fun n => n = 0) (fileNumbers (fileEntries exampleScanned)).
Proof.
  assert (H : ScanSourceDirectory exampleBuilder (Some (str "/src")) (Some exampleTree)
              = Ok exampleScanned) by (vm_compute; reflexivity).
  split; [exact H|].
  exact (ScanSourceDirectory_numbers exampleBuilder exampleScanned (str "/src")
           (Some exampleTree) H).
Defined.

(** X22 (witness): the example tree taken as the content of the root of the
    file system, where a joined path gets no second separator. *)
Lemma ScanSourceDirectory_tree_witness :
  cleanedAbsolute (str "/") = true
  /\ forallb plainNode exampleTree = true
  /\ ScanSourceDirectory exampleBuilder (Some (str "/")) (Some exampleTree)
     = Ok exampleScannedAtRoot
  /\ map diskPath (fileEntries exampleScannedAtRoot)
     = [str "/"; str "/hello.txt"; str "/sub"; str "/sub/secret.bin"; str "/sub/deep";
        str "/alpha"; str "/secret.bin"]
  /\ sourceTree (str "/") (fileEntries exampleScannedAtRoot).
Proof.
  assert (H1 : cleanedAbsolute (str "/") = true) by reflexivity.
  assert (H2 : forallb plainNode exampleTree = true) by reflexivity.
  assert (H3 : ScanSourceDirectory exampleBuilder (Some (str "/")) (Some exampleTree)
               = Ok exampleScannedAtRoot) by (vm_compute; reflexivity).
  split; [exact H1|]. split; [exact H2|]. split; [exact H3|].
  split; [vm_compute; reflexivity|].
  exact (ScanSourceDirectory_tree exampleBuilder exampleScannedAtRoot (str "/")
           exampleTree H1 H2 H3).
Defined.

(** X23 (witness): the path tables of the example plan. *)
Lemma calculateLayout_path_tables_witness :
  calculateLayout asciiToUpper exampleScanned = Ok examplePlanned
  /\ [lbaPvdPathTableL (ptLBAs examplePlanned); lbaPvdPathTableM (ptLBAs examplePlanned);
      lbaSvdPathTableL (ptLBAs examplePlanned); lbaSvdPathTableM (ptLBAs examplePlanned);
      lbaPvdPathTableL2 (ptLBAs examplePlanned); lbaPvdPathTableM2 (ptLBAs examplePlanned);
      lbaSvdPathTableL2 (ptLBAs examplePlanned); lbaSvdPathTableM2 (ptLBAs examplePlanned)]
     = placed 19 (pathTableSectors examplePlanned).
Proof.
  assert (H : calculateLayout asciiToUpper exampleScanned = Ok examplePlanned)
    by (vm_compute; reflexivity).
  split; [exact H|].
  exact (proj1 (calculateLayout_path_tables asciiToUpper exampleScanned examplePlanned H)).
Defined.

(** X24 (witness): the extents of the example plan. *)
Lemma calculateLayout_extents_witness :
  calculateLayout asciiToUpper exampleScanned = Ok examplePlanned
  /\ map iso9660Sector (filter isDir (fileEntries examplePlanned))
     = placed (placedEnd 19 (pathTableSectors examplePlanned))
         (isoDirSectors (fileEntries examplePlanned)).
Proof.
  assert (H : calculateLayout asciiToUpper exampleScanned = Ok examplePlanned)
    by (vm_compute; reflexivity).
  split; [exact H|].
  exact (proj1 (calculateLayout_extents asciiToUpper exampleScanned examplePlanned H)).
Defined.

(** X25 (witness): the primary listing of the root of the example plan. *)
Lemma directory_extent_holds_listing_witness :
  calculateLayout asciiToUpper exampleScanned = Ok examplePlanned
  /\ nth_error (fileEntries examplePlanned) 0 = Some exampleRoot
  /\ isDir exampleRoot = true
  /\ createDirectoryListing exampleStat exampleNow examplePlanned 0 false = Ok exampleListing
  /\ len exampleListing <= 4294965248
  /\ len exampleListing <= extentSize false exampleRoot < len exampleListing + SectorSize.
Proof.
  assert (H1 : calculateLayout asciiToUpper exampleScanned = Ok examplePlanned)
    by (vm_compute; reflexivity).
  assert (H2 : nth_error (fileEntries examplePlanned) 0 = Some exampleRoot) by reflexivity.
  assert (H3 : isDir exampleRoot = true) by reflexivity.
  assert (H4 : createDirectoryListing exampleStat exampleNow examplePlanned 0 false
               = Ok exampleListing) by (vm_compute; reflexivity).
  assert (H5 : len exampleListing <= 4294965248) by (vm_compute; discriminate).
  do 5 (split; [assumption|]).
  exact (proj1 (directory_extent_holds_listing asciiToUpper exampleStat exampleNow
                  exampleScanned examplePlanned 0 exampleRoot false exampleListing
                  H1 H2 H3 H4 H5)).
Defined.

(** X26 (witness): the root extent of the example plan. *)
Lemma calculateLayout_root_extent_witness :
  calculateLayout asciiToUpper exampleScanned = Ok examplePlanned
  /\ exists root, nth_error (fileEntries examplePlanned) 0 = Some root
                  /\ pvdRootDirExtentSize examplePlanned = iso9660Size root
                  /\ svdRootDirExtentSize examplePlanned = jolietSize root.
Proof.
  assert (H : calculateLayout asciiToUpper exampleScanned = Ok examplePlanned)
    by (vm_compute; reflexivity).
  split; [exact H|].
  exact (proj1 (calculateLayout_root_extent asciiToUpper exampleScanned examplePlanned H)).
Defined.

(** X27 (witness): the primary L-type table of the example plan. *)
Lemma createPathTable_length_witness :
  Forall (fun f => isDir f = true -> len (pathTableIdentifier false f) <= 255)
    (fileEntries examplePlanned)
  /\ createPathTable examplePlanned false false = Ok examplePathTable
  /\ len examplePathTable = calculatePathTableTotalBytes examplePlanned false.
Proof.
  assert (H1 : Forall (fun f => isDir f = true -> len (pathTableIdentifier false f) <= 255)
                 (fileEntries examplePlanned))
    by (repeat constructor; intros _; vm_compute; discriminate).
  assert (H2 : createPathTable examplePlanned false false = Ok examplePathTable)
    by (vm_compute; reflexivity).
  split; [exact H1|]. split; [exact H2|].
  exact (createPathTable_length examplePlanned false false examplePathTable H1 H2).
Defined.

(** X30 (witness): the head of the image of the example tree. *)
Lemma Build_image_head_witness :
  Build asciiToUpper exampleStat exampleNow 0 exampleDisk exampleBuilder DefaultOptions
    (Some (str "/src")) (Some exampleTree) = Ok (fst exampleBuilt, snd exampleBuilt)
  /\ Forall (fun e => 19 <= iso9660Sector e /\ 19 <= jolietSector e)
       (fileEntries (fst exampleBuilt))
  /\ 19 <= totalSectors (fst exampleBuilt)
  /\ exists pvd svd,
       createPrimaryVolumeDescriptor exampleStat exampleNow 0 (fst exampleBuilt)
         DefaultOptions = Ok pvd
       /\ createJolietVolumeDescriptor exampleStat exampleNow 0 (fst exampleBuilt)
            DefaultOptions = Ok svd
       /\ firstn (Z.to_nat 38912) (content (snd exampleBuilt))
          = repeat 0 (Z.to_nat 32768) ++ pvd ++ svd
            ++ [255; 67; 68; 48; 48; 49; 1] ++ repeat 0 2041.
Proof.
  assert (Hb : fst exampleBuilt = examplePlanned) by (vm_compute; reflexivity).
  assert (H1 : Build asciiToUpper exampleStat exampleNow 0 exampleDisk exampleBuilder
                 DefaultOptions (Some (str "/src")) (Some exampleTree)
               = Ok (fst exampleBuilt, snd exampleBuilt)).
  { rewrite <- surjective_pairing. apply isOk_okOr. vm_compute. reflexivity. }
  assert (H2 : Forall (fun e => 19 <= iso9660Sector e /\ 19 <= jolietSector e)
                 (fileEntries (fst exampleBuilt)))
    by (rewrite Hb; repeat constructor; vm_compute; discriminate).
  assert (H3 : 19 <= totalSectors (fst exampleBuilt))
    by (rewrite Hb; vm_compute; discriminate).
  split; [exact H1|]. split; [exact H2|]. split; [exact H3|].
  destruct (Build_image_head asciiToUpper exampleStat exampleNow 0 exampleDisk
              exampleBuilder DefaultOptions (Some (str "/src")) (Some exampleTree)
              (fst exampleBuilt) (snd exampleBuilt) H1 H2 H3)
    as (pvd & svd & Hp & Hs & _ & _ & Hh).
  exists pvd, svd. split; [exact Hp|]. split; [exact Hs | exact Hh].
Defined.
